(** * The UE4 property codec and the mount editor

    A shallow embedding of [ue4_properties.py] (the binary reader and
    writer, the property record [FPropertyTag], [PropertySerializer],
    the path lookup [find_property], [set_property_value] and
    [clone_properties]), of [mount_types.py] (the table [MOUNT_TYPES],
    [get_mount_type] and [get_transform_value]) and of the part of
    [mount_editor.py] that works on mounts in memory (the experience
    curve, [MountData] and the methods of [MountEditor] that read and
    change a mount), followed by the properties proved about them.
    Reading and writing the save file, printing and the command line
    are not part of the embedding.

    Conventions of the embedding.
    - A Python [bytes] object is a [list byte]; a Python [str] is the list
      of its code points ([pystr]).
    - A Python exception is the outcome [Raise e]; the exception classes
      that the codec can raise are the constructors of [PyExc].
    - A call that the model gives no answer for is the outcome [Stuck]:
      the decoder's loops are run with fuel (the source can loop forever
      on a byte array with a negative count, which moves the cursor
      backwards), and the rounding that [struct.pack] applies to a float
      that is not representable in the target width is not modelled.
      A theorem that says what a call returns or raises concludes with
      [Ok] or [Raise]; [Stuck] is a conclusion only where the source
      does not return, for every amount of fuel, or where a statement
      lists every outcome of a call it is compared with.
    - Objects that the source mutates in place (the reader, the writer,
      the property under construction) are passed and returned. *)

From Stdlib Require Import ZArith List Lia Bool.
From Stdlib.Strings Require Import String Ascii Byte.
From Stdlib Require Floats.PrimFloat Floats.FloatOps Floats.SpecFloat.
From Stdlib Require Numbers.Cyclic.Int63.Uint63.
Import ListNotations.
Open Scope Z_scope.


(** ** Outcomes and the state-and-exception monad *)

Inductive PyExc : Type :=
| EOFError
| IndexError
| StructError
| UnicodeDecodeError
| UnicodeEncodeError
| TypeError
| ValueError
| AttributeError.

Inductive Result (A : Type) : Type :=
| Ok (a : A)
| Raise (e : PyExc)
| Stuck.

Arguments Ok {A} a.
Arguments Raise {A} e.
Arguments Stuck {A}.

Definition M (S A : Type) : Type := S -> Result (A * S).

Definition ret {S A} (a : A) : M S A := fun s => Ok (a, s).

Definition bind {S A B} (c : M S A) (k : A -> M S B) : M S B :=
  fun s =>
    match c s with
    | Ok (a, s') => k a s'
    | Raise e => Raise e
    | Stuck => Stuck
    end.

Definition raise {S A} (e : PyExc) : M S A := fun _ => Raise e.

Definition lift {S A} (x : Result A) : M S A :=
  fun s =>
    match x with
    | Ok a => Ok (a, s)
    | Raise e => Raise e
    | Stuck => Stuck
    end.

Declare Scope monad_scope.
Delimit Scope monad_scope with monad.
Notation "x <- c ;; k" := (bind c (fun x => k))
  (at level 100, c at next level, right associativity) : monad_scope.
Notation "c ;; k" := (bind c (fun _ => k))
  (at level 100, right associativity) : monad_scope.
Open Scope monad_scope.

(** [for _ in range(n): xs.append(c())] *)
Fixpoint repeatM {S A} (n : nat) (c : M S A) : M S (list A) :=
  match n with
  | O => ret []
  | Datatypes.S n' => x <- c ;; xs <- repeatM n' c ;; ret (x :: xs)
  end.

(** [for x in xs: c(x)], collecting the results *)
Fixpoint forM {S A B} (xs : list A) (c : A -> M S B) : M S (list B) :=
  match xs with
  | [] => ret []
  | x :: xs' => y <- c x ;; ys <- forM xs' c ;; ret (y :: ys)
  end.

Definition len {A} (l : list A) : Z := Z.of_nat (List.length l).

(** ** Bytes, [struct.pack] and [struct.unpack] *)

Definition Z_of_byte (b : byte) : Z := Z.of_N (Byte.to_N b).

Definition byte_of_Z (z : Z) : byte :=
  match Byte.of_N (Z.to_N (z mod 256)) with
  | Some b => b
  | None => x00
  end.

(** Little-endian digits in base 256; on a negative [z] the floor
    division yields the two's complement digits. *)
Fixpoint le_bytes (n : nat) (z : Z) : list byte :=
  match n with
  | O => []
  | Datatypes.S n' => byte_of_Z z :: le_bytes n' (z / 256)
  end.

Fixpoint le_value (bs : list byte) : Z :=
  match bs with
  | [] => 0
  | b :: bs' => Z_of_byte b + 256 * le_value bs'
  end.

Definition in_range (lo hi z : Z) : bool := (lo <=? z) && (z <? hi).

(** [struct.pack('<i', z)] *)
Definition pack_i32 (z : Z) : Result (list byte) :=
  if in_range (- 2 ^ 31) (2 ^ 31) z then Ok (le_bytes 4 z) else Raise StructError.

(** [struct.pack('<I', z)] *)
Definition pack_u32 (z : Z) : Result (list byte) :=
  if in_range 0 (2 ^ 32) z then Ok (le_bytes 4 z) else Raise StructError.

(** [struct.pack('<q', z)] *)
Definition pack_i64 (z : Z) : Result (list byte) :=
  if in_range (- 2 ^ 63) (2 ^ 63) z then Ok (le_bytes 8 z) else Raise StructError.

Definition signed (bits : Z) (u : Z) : Z :=
  if u <? 2 ^ (bits - 1) then u else u - 2 ^ bits.

(** [struct.unpack('<i', bs)[0]] *)
Definition unpack_i32 (bs : list byte) : Result Z :=
  if len bs =? 4 then Ok (signed 32 (le_value bs)) else Raise StructError.

(** [struct.unpack('<I', bs)[0]] *)
Definition unpack_u32 (bs : list byte) : Result Z :=
  if len bs =? 4 then Ok (le_value bs) else Raise StructError.

(** [struct.unpack('<q', bs)[0]] *)
Definition unpack_i64 (bs : list byte) : Result Z :=
  if len bs =? 8 then Ok (signed 64 (le_value bs)) else Raise StructError.

(** A Python float is identified by an IEEE-754 bit pattern: [Single b]
    is the number whose binary32 pattern is [b] (every result of
    [read_float], and any float that binary32 represents exactly),
    [Double b] the number whose binary64 pattern is [b]. *)
Inductive PyFloat : Type :=
| Single (bits : Z)
| Double (bits : Z).

(** A binary32 pattern is a signalling NaN when its exponent is all
    ones, its fraction is not zero and the first bit of the fraction is
    zero. Widening a binary32 number to a Python float, and narrowing
    it again, sets that bit: no Python float is a signalling binary32
    number. *)
Definition is_signalling32 (b : Z) : bool :=
  ((b / 2 ^ 23) mod 256 =? 255) && negb (b mod 2 ^ 23 =? 0)
  && ((b / 2 ^ 22) mod 2 =? 0).

Definition quiet32 (b : Z) : Z :=
  if is_signalling32 b then b + 2 ^ 22 else b.

(** [struct.pack('<f', x)]; rounding a [Double] is not modelled, and
    [Single b] with a signalling [b] is no Python float. *)
Definition pack_f (x : PyFloat) : Result (list byte) :=
  match x with
  | Single b =>
      if in_range 0 (2 ^ 32) b && negb (is_signalling32 b) then Ok (le_bytes 4 b)
      else Stuck
  | Double _ => Stuck
  end.

(** [struct.pack('<d', x)]; widening a [Single] is not modelled. *)
Definition pack_d (x : PyFloat) : Result (list byte) :=
  match x with
  | Double b => if in_range 0 (2 ^ 64) b then Ok (le_bytes 8 b) else Stuck
  | Single _ => Stuck
  end.

(** [struct.unpack('<f', bs)[0]]: the binary32 number is widened to a
    Python float, which makes a signalling NaN quiet. *)
Definition unpack_f (bs : list byte) : Result PyFloat :=
  if len bs =? 4 then Ok (Single (quiet32 (le_value bs))) else Raise StructError.

Definition unpack_d (bs : list byte) : Result PyFloat :=
  if len bs =? 8 then Ok (Double (le_value bs)) else Raise StructError.

(** ** Python slices and strings *)

Definition py_clamp (n i : Z) : Z :=
  if i <? 0 then Z.max 0 (i + n) else Z.min i n.

(** [l[a:b]] *)
Definition py_slice {A} (l : list A) (a b : Z) : list A :=
  let a' := py_clamp (len l) a in
  let b' := py_clamp (len l) b in
  firstn (Z.to_nat (b' - a')) (skipn (Z.to_nat a') l).

(** A [str] as the list of its code points. *)
Definition pystr : Type := list Z.

Definition lit (s : string) : pystr :=
  List.map (fun a => Z.of_N (N_of_ascii a)) (list_ascii_of_string s).

Fixpoint str_eqb (a b : pystr) : bool :=
  match a, b with
  | [], [] => true
  | x :: a', y :: b' => (x =? y) && str_eqb a' b'
  | _, _ => false
  end.

(** [o == s] for an [Optional[str]] and a [str] *)
Definition is_str (o : option pystr) (s : pystr) : bool :=
  match o with
  | Some x => str_eqb x s
  | None => false
  end.

(** [s.encode('ascii')] *)
Definition encode_ascii (s : pystr) : Result (list byte) :=
  if forallb (in_range 0 128) s then Ok (List.map byte_of_Z s)
  else Raise UnicodeEncodeError.

(** [bs.decode('ascii')] *)
Definition decode_ascii (bs : list byte) : Result pystr :=
  if forallb (fun b => Z_of_byte b <? 128) bs then Ok (List.map Z_of_byte bs)
  else Raise UnicodeDecodeError.

Definition is_surrogate (c : Z) : bool := in_range 55296 57344 c.

Definition utf16_unit (u : Z) : list byte := [byte_of_Z u; byte_of_Z (u / 256)].

(** [s.encode('utf-16-le')]: a lone surrogate is refused, a code point
    above the basic plane becomes a surrogate pair. *)
Fixpoint encode_utf16le (s : pystr) : Result (list byte) :=
  match s with
  | [] => Ok []
  | c :: s' =>
      if is_surrogate c then Raise UnicodeEncodeError
      else if in_range 0 65536 c then
        match encode_utf16le s' with
        | Ok bs => Ok (utf16_unit c ++ bs)
        | other => other
        end
      else if in_range 65536 1114112 c then
        match encode_utf16le s' with
        | Ok bs =>
            Ok (utf16_unit (55296 + (c - 65536) / 1024)
                  ++ utf16_unit (56320 + (c - 65536) mod 1024) ++ bs)
        | other => other
        end
      else Stuck
  end.

(** [bs.decode('utf-16-le')] with the default strict error handling *)
Fixpoint decode_utf16le (bs : list byte) : Result pystr :=
  match bs with
  | [] => Ok []
  | [_] => Raise UnicodeDecodeError
  | lo :: hi :: rest =>
      let u := Z_of_byte lo + 256 * Z_of_byte hi in
      if in_range 55296 56320 u then
        match rest with
        | lo2 :: hi2 :: rest' =>
            let v := Z_of_byte lo2 + 256 * Z_of_byte hi2 in
            if in_range 56320 57344 v then
              match decode_utf16le rest' with
              | Ok s => Ok (65536 + (u - 55296) * 1024 + (v - 56320) :: s)
              | other => other
              end
            else Raise UnicodeDecodeError
        | _ => Raise UnicodeDecodeError
        end
      else if in_range 56320 57344 u then Raise UnicodeDecodeError
      else
        match decode_utf16le rest with
        | Ok s => Ok (u :: s)
        | other => other
        end
  end.

(** ** BinaryReader *)

Record BinaryReader : Type := mkReader { data : list byte; offset : Z }.

Definition Reader (A : Type) : Type := M BinaryReader A.

Definition remaining (r : BinaryReader) : Z := len (data r) - offset r.

Definition position (r : BinaryReader) : Z := offset r.

Definition read_bytes (n : Z) : Reader (list byte) :=
  fun r =>
    if offset r + n >? len (data r) then Raise EOFError
    else Ok (py_slice (data r) (offset r) (offset r + n),
             mkReader (data r) (offset r + n)).

Definition read_byte : Reader Z :=
  bs <- read_bytes 1 ;;
  match bs with
  | b :: _ => ret (Z_of_byte b)
  | [] => raise IndexError
  end.

Definition read_int32 : Reader Z := bs <- read_bytes 4 ;; lift (unpack_i32 bs).

Definition read_uint32 : Reader Z := bs <- read_bytes 4 ;; lift (unpack_u32 bs).

Definition read_int64 : Reader Z := bs <- read_bytes 8 ;; lift (unpack_i64 bs).

Definition read_float : Reader PyFloat := bs <- read_bytes 4 ;; lift (unpack_f bs).

Definition read_double : Reader PyFloat := bs <- read_bytes 8 ;; lift (unpack_d bs).

Definition read_fstring : Reader (option pystr) :=
  length <- read_int32 ;;
  if length =? 0 then ret None
  else if length =? 1 then (read_byte ;; ret (Some []))
  else if length <? 0 then
    let byte_count := - length * 2 in
    d <- read_bytes byte_count ;;
    s <- lift (decode_utf16le (py_slice d 0 (-2))) ;;
    ret (Some s)
  else
    d <- read_bytes length ;;
    s <- lift (decode_ascii (py_slice d 0 (-1))) ;;
    ret (Some s).

(** ** BinaryWriter over a [BytesIO] stream *)

Record BinaryWriter : Type := mkWriter { stream : list byte; wpos : Z }.

Definition Writer (A : Type) : Type := M BinaryWriter A.

Definition new_writer : BinaryWriter := mkWriter [] 0.

(** [BytesIO.write]: overwrite from the position on, extending the
    buffer when the data passes its end. *)
Definition stream_write (d : list byte) (w : BinaryWriter) : BinaryWriter :=
  match d with
  | [] => w
  | _ =>
      let p := Z.to_nat (wpos w) in
      mkWriter (firstn p (stream w) ++ repeat x00 (p - List.length (stream w))
                  ++ d ++ skipn (p + List.length d) (stream w))
               (wpos w + len d)
  end.

Definition wposition : Writer Z := fun w => Ok (wpos w, w).

Definition get_bytes (w : BinaryWriter) : list byte := stream w.

Definition write_bytes (d : list byte) : Writer Z :=
  fun w => Ok (len d, stream_write d w).

(** [writer.stream.seek(p)] *)
Definition seek (p : Z) : Writer unit :=
  fun w => if p <? 0 then Raise ValueError else Ok (tt, mkWriter (stream w) p).

Definition write_byte (v : Z) : Writer Z :=
  if in_range 0 256 v then write_bytes [byte_of_Z v] else raise ValueError.

Definition write_int32 (v : Z) : Writer Z := bs <- lift (pack_i32 v) ;; write_bytes bs.

Definition write_uint32 (v : Z) : Writer Z := bs <- lift (pack_u32 v) ;; write_bytes bs.

Definition write_int64 (v : Z) : Writer Z := bs <- lift (pack_i64 v) ;; write_bytes bs.

Definition write_float (v : PyFloat) : Writer Z := bs <- lift (pack_f v) ;; write_bytes bs.

Definition write_double (v : PyFloat) : Writer Z := bs <- lift (pack_d v) ;; write_bytes bs.

Definition write_fstring (value : option pystr) : Writer Z :=
  match value with
  | None => write_int32 0 ;; ret 4
  | Some v =>
      match encode_ascii v with
      | Ok e =>
          let encoded := e ++ [x00] in
          write_int32 (len encoded) ;;
          write_bytes encoded ;;
          ret (4 + len encoded)
      | Raise UnicodeEncodeError =>
          e <- lift (encode_utf16le v) ;;
          let encoded := e ++ [x00; x00] in
          let char_count := len v + 1 in
          write_int32 (- char_count) ;;
          write_bytes encoded ;;
          ret (4 + len encoded)
      | Raise e => raise e
      | Stuck => fun _ => Stuck
      end
  end.

(** ** Python values and the property record *)

(** The values that a property's [value] attribute (typed [Any]) holds
    in this program. A [dict] is an association list in insertion order. *)
Unset Elimination Schemes.
Inductive PyValue : Type :=
| VNone
| VBool (b : bool)
| VInt (z : Z)
| VFloat (x : PyFloat)
| VStr (s : pystr)
| VBytes (bs : list byte)
| VList (l : list PyValue)
| VDict (d : list (pystr * PyValue)).

(** Truth value of an object, as [x or y] and [if x] test it. *)
Definition truthy (v : PyValue) : bool :=
  match v with
  | VNone => false
  | VBool b => b
  | VInt z => negb (z =? 0)
  | VFloat (Single b) => negb ((b =? 0) || (b =? 2 ^ 31))
  | VFloat (Double b) => negb ((b =? 0) || (b =? 2 ^ 63))
  | VStr s => negb (len s =? 0)
  | VBytes bs => negb (len bs =? 0)
  | VList l => negb (len l =? 0)
  | VDict d => negb (len d =? 0)
  end.

Inductive FPropertyTag : Type := mkTag {
  name : pystr;
  type_name : option pystr;
  value : PyValue;
  inner_type : option pystr;
  struct_type : option pystr;
  enum_type : option pystr;
  elem_name : option pystr;
  nested : list FPropertyTag
}.
Set Elimination Schemes.

(** [FPropertyTag(name=n, type_name=t)] *)
Definition new_tag (n : pystr) (t : option pystr) : FPropertyTag :=
  mkTag n t VNone None None None None [].

Definition set_value (v : PyValue) (p : FPropertyTag) : FPropertyTag :=
  mkTag (name p) (type_name p) v (inner_type p) (struct_type p) (enum_type p)
        (elem_name p) (nested p).

Definition set_inner_type (t : option pystr) (p : FPropertyTag) : FPropertyTag :=
  mkTag (name p) (type_name p) (value p) t (struct_type p) (enum_type p)
        (elem_name p) (nested p).

Definition set_struct_type (t : option pystr) (p : FPropertyTag) : FPropertyTag :=
  mkTag (name p) (type_name p) (value p) (inner_type p) t (enum_type p)
        (elem_name p) (nested p).

Definition set_enum_type (t : option pystr) (p : FPropertyTag) : FPropertyTag :=
  mkTag (name p) (type_name p) (value p) (inner_type p) (struct_type p) t
        (elem_name p) (nested p).

Definition set_elem_name (t : option pystr) (p : FPropertyTag) : FPropertyTag :=
  mkTag (name p) (type_name p) (value p) (inner_type p) (struct_type p)
        (enum_type p) t (nested p).

Definition set_nested (l : list FPropertyTag) (p : FPropertyTag) : FPropertyTag :=
  mkTag (name p) (type_name p) (value p) (inner_type p) (struct_type p)
        (enum_type p) (elem_name p) l.

(** [CORE_STRUCT_TYPES]: struct tag to fixed size, [None] for [Transform] *)
Definition CORE_STRUCT_TYPES : list (pystr * option Z) :=
  [ (lit "Vector", Some 12); (lit "Vector2D", Some 8); (lit "Rotator", Some 12);
    (lit "Quat", Some 16); (lit "Transform", None); (lit "LinearColor", Some 16);
    (lit "Color", Some 4); (lit "Guid", Some 16); (lit "DateTime", Some 8);
    (lit "Timespan", Some 8) ].

Fixpoint assoc {V} (k : pystr) (d : list (pystr * V)) : option V :=
  match d with
  | [] => None
  | (k', v) :: d' => if str_eqb k' k then Some v else assoc k d'
  end.

(** [t in CORE_STRUCT_TYPES and CORE_STRUCT_TYPES[t] is not None] *)
Definition is_core_struct (t : option pystr) : bool :=
  match t with
  | Some s =>
      match assoc s CORE_STRUCT_TYPES with
      | Some (Some _) => true
      | _ => false
      end
  | None => false
  end.

(** [bs.hex()] *)
Definition hex_digit (n : Z) : Z := if n <? 10 then 48 + n else 87 + n.

Definition hex_of_bytes (bs : list byte) : pystr :=
  flat_map (fun b => [hex_digit (Z_of_byte b / 16); hex_digit (Z_of_byte b mod 16)]) bs.

Definition hex_val (c : Z) : option Z :=
  if in_range 48 58 c then Some (c - 48)
  else if in_range 97 103 c then Some (c - 87)
  else if in_range 65 71 c then Some (c - 55)
  else None.

Definition is_space (c : Z) : bool := in_range 9 14 c || (c =? 32).

Fixpoint fromhex_pairs (s : pystr) : Result (list byte) :=
  match s with
  | [] => Ok []
  | [_] => Raise ValueError
  | c1 :: c2 :: s' =>
      match hex_val c1, hex_val c2 with
      | Some h, Some l =>
          match fromhex_pairs s' with
          | Ok bs => Ok (byte_of_Z (16 * h + l) :: bs)
          | other => other
          end
      | _, _ => Raise ValueError
      end
  end.

(** [bytes.fromhex(s)]; the white space that Python skips between the
    pairs is not modelled. *)
Definition fromhex (s : pystr) : Result (list byte) :=
  if existsb is_space s then Stuck else fromhex_pairs s.

(** ** PropertySerializer: deserialization *)

Definition gets {S A} (f : S -> A) : M S A := fun s => Ok (f s, s).

Definition stuck {S A} : M S A := fun _ => Stuck.

Definition float_triple (a b c : string) : Reader PyValue :=
  x <- read_float ;; y <- read_float ;; z <- read_float ;;
  ret (VDict [(lit a, VFloat x); (lit b, VFloat y); (lit c, VFloat z)]).

Definition float_quad (a b c d : string) : Reader PyValue :=
  x <- read_float ;; y <- read_float ;; z <- read_float ;; w <- read_float ;;
  ret (VDict [(lit a, VFloat x); (lit b, VFloat y); (lit c, VFloat z);
              (lit d, VFloat w)]).

Definition _read_core_struct (prop : FPropertyTag) (st : option pystr)
  : Reader FPropertyTag :=
  if is_str st (lit "Vector") then
    v <- float_triple "x" "y" "z" ;; ret (set_value v prop)
  else if is_str st (lit "Vector2D") then
    x <- read_float ;; y <- read_float ;;
    ret (set_value (VDict [(lit "x", VFloat x); (lit "y", VFloat y)]) prop)
  else if is_str st (lit "Rotator") then
    v <- float_triple "pitch" "yaw" "roll" ;; ret (set_value v prop)
  else if is_str st (lit "Quat") then
    v <- float_quad "x" "y" "z" "w" ;; ret (set_value v prop)
  else if is_str st (lit "LinearColor") then
    v <- float_quad "r" "g" "b" "a" ;; ret (set_value v prop)
  else if is_str st (lit "Color") then
    bs <- read_bytes 4 ;;
    match bs with
    | [b; g; r; a] =>
        ret (set_value (VDict [(lit "r", VInt (Z_of_byte r)); (lit "g", VInt (Z_of_byte g));
                               (lit "b", VInt (Z_of_byte b)); (lit "a", VInt (Z_of_byte a))])
                       prop)
    | _ => raise ValueError
    end
  else if is_str st (lit "Guid") then
    bs <- read_bytes 16 ;; ret (set_value (VStr (hex_of_bytes bs)) prop)
  else if is_str st (lit "DateTime") || is_str st (lit "Timespan") then
    v <- read_int64 ;; ret (set_value (VInt v) prop)
  else ret prop.

Definition _read_simple_value (prop : FPropertyTag) (ty : option pystr) (size : Z)
  : Reader FPropertyTag :=
  if is_str ty (lit "IntProperty") then
    v <- read_int32 ;; ret (set_value (VInt v) prop)
  else if is_str ty (lit "UInt32Property") then
    v <- read_uint32 ;; ret (set_value (VInt v) prop)
  else if is_str ty (lit "Int64Property") then
    v <- read_int64 ;; ret (set_value (VInt v) prop)
  else if is_str ty (lit "FloatProperty") then
    v <- read_float ;; ret (set_value (VFloat v) prop)
  else if is_str ty (lit "DoubleProperty") then
    v <- read_double ;; ret (set_value (VFloat v) prop)
  else if is_str ty (lit "StrProperty") || is_str ty (lit "NameProperty") then
    v <- read_fstring ;;
    ret (set_value (match v with Some s => VStr s | None => VNone end) prop)
  else if size >? 0 then
    bs <- read_bytes size ;; ret (set_value (VBytes bs) prop)
  else ret prop.

(** [len(s)] of an [Optional[str]]: a [TypeError] on [None] *)
Definition len_opt (s : option pystr) : Result Z :=
  match s with
  | Some x => Ok (len x)
  | None => Raise TypeError
  end.

Definition _read_map_property (prop : FPropertyTag) (size : Z) : Reader FPropertyTag :=
  key_type <- read_fstring ;;
  value_type <- read_fstring ;;
  read_byte ;;
  lk <- lift (len_opt key_type) ;;
  lv <- lift (len_opt value_type) ;;
  let remaining := size - (lk + 5) - (lv + 5) - 1 in
  if remaining >? 0 then
    bs <- read_bytes remaining ;; ret (set_value (VBytes bs) prop)
  else ret prop.

Definition _read_property_tag : Reader (option FPropertyTag) :=
  rem <- gets remaining ;;
  if rem <? 4 then ret None
  else
    name <- read_fstring ;;
    match name with
    | None => ret None
    | Some name =>
        if str_eqb name (lit "None") then ret None
        else
          type_name <- read_fstring ;;
          size <- read_int32 ;;
          array_index <- read_int32 ;;
          let prop := new_tag name type_name in
          prop <-
            (if is_str type_name (lit "StructProperty") then
               st <- read_fstring ;; read_bytes 16 ;; ret (set_struct_type st prop)
             else if is_str type_name (lit "ArrayProperty") then
               it <- read_fstring ;; ret (set_inner_type it prop)
             else if is_str type_name (lit "EnumProperty") then
               et <- read_fstring ;; ret (set_enum_type et prop)
             else ret prop) ;;
          read_byte ;;
          ret (Some prop)
    end.

Definition value_of_fstring (v : option pystr) : PyValue :=
  match v with
  | Some s => VStr s
  | None => VNone
  end.

(** One element of a scalar array, by inner type. *)
Definition read_array_item (inner : option pystr) (size count : Z) : Reader PyValue :=
  if is_str inner (lit "IntProperty") then v <- read_int32 ;; ret (VInt v)
  else if is_str inner (lit "FloatProperty") then v <- read_float ;; ret (VFloat v)
  else if is_str inner (lit "StrProperty") then
    v <- read_fstring ;; ret (value_of_fstring v)
  else
    let remaining := size - 4 in
    let item_size := if count >? 0 then remaining / count else 0 in
    bs <- read_bytes item_size ;; ret (VBytes bs).

Definition terminator : FPropertyTag :=
  new_tag (lit "None") (Some (lit "terminator")).

(** The decoder proper. [_read_properties] and the loop of
    [_read_struct_value] are [while] loops; each function takes the fuel
    and hands one unit less to the functions it calls. *)
Fixpoint _read_properties (fuel : nat) : Reader (list FPropertyTag) :=
  match fuel with
  | O => stuck
  | Datatypes.S f =>
      rem <- gets remaining ;;
      if rem >=? 4 then
        prop <- _read_property f ;;
        match prop with
        | None => ret []
        | Some p =>
            if str_eqb (name p) (lit "None") then ret []
            else ps <- _read_properties f ;; ret (p :: ps)
        end
      else ret []
  end

with _read_property (fuel : nat) : Reader (option FPropertyTag) :=
  match fuel with
  | O => stuck
  | Datatypes.S f =>
      rem <- gets remaining ;;
      if rem <? 4 then ret None
      else
        name <- read_fstring ;;
        match name with
        | None => ret (Some terminator)
        | Some name =>
            if str_eqb name (lit "None") then ret (Some terminator)
            else
              type_name <- read_fstring ;;
              size <- read_int32 ;;
              array_index <- read_int32 ;;
              let prop := new_tag name type_name in
              prop <-
                (if is_str type_name (lit "ArrayProperty") then
                   it <- read_fstring ;;
                   read_byte ;;
                   _read_array_value f (set_inner_type it prop) size
                 else if is_str type_name (lit "StructProperty") then
                   st <- read_fstring ;;
                   read_bytes 17 ;;
                   _read_struct_value f (set_struct_type st prop) size
                 else if is_str type_name (lit "EnumProperty") then
                   et <- read_fstring ;;
                   read_byte ;;
                   v <- read_fstring ;;
                   ret (set_value (value_of_fstring v) (set_enum_type et prop))
                 else if is_str type_name (lit "MapProperty") then
                   _read_map_property prop size
                 else if is_str type_name (lit "BoolProperty") then
                   bool_byte <- read_byte ;;
                   read_byte ;;
                   ret (set_value (VBool (negb (bool_byte =? 0))) prop)
                 else
                   read_byte ;;
                   _read_simple_value prop type_name size) ;;
              ret (Some prop)
        end
  end

with _read_array_value (fuel : nat) (prop : FPropertyTag) (size : Z)
  : Reader FPropertyTag :=
  match fuel with
  | O => stuck
  | Datatypes.S f =>
      count <- read_int32 ;;
      if is_str (inner_type prop) (lit "StructProperty") then
        prototype <- _read_property_tag ;;
        match prototype with
        | None => ret prop
        | Some prototype =>
            let prop := set_struct_type (struct_type prototype)
                          (set_elem_name (Some (name prototype)) prop) in
            elems <- repeatM (Z.to_nat count)
                       (nested <- _read_properties f ;;
                        ret (mkTag (name prototype) (Some (lit "StructProperty")) VNone
                                   None (struct_type prototype) None None nested)) ;;
            ret (set_nested (nested prop ++ elems) prop)
        end
      else if is_str (inner_type prop) (lit "ByteProperty") then
        bs <- read_bytes count ;;
        ret (set_value (VList (List.map (fun b => VInt (Z_of_byte b)) bs)) prop)
      else
        vs <- repeatM (Z.to_nat count) (read_array_item (inner_type prop) size count) ;;
        ret (set_value (VList vs) prop)
  end

with _read_struct_value (fuel : nat) (prop : FPropertyTag) (size : Z)
  : Reader FPropertyTag :=
  match fuel with
  | O => stuck
  | Datatypes.S f =>
      if is_core_struct (struct_type prop) then
        _read_core_struct prop (struct_type prop)
      else
        start_pos <- gets position ;;
        let end_pos := start_pos + size in
        nested <- _read_struct_loop f end_pos ;;
        let prop := set_nested nested prop in
        pos <- gets position ;;
        let bytes_read := pos - start_pos in
        if bytes_read <? size then
          read_bytes (size - bytes_read) ;; ret prop
        else ret prop
  end

with _read_struct_loop (fuel : nat) (end_pos : Z) : Reader (list FPropertyTag) :=
  match fuel with
  | O => stuck
  | Datatypes.S f =>
      pos <- gets position ;;
      rem <- gets remaining ;;
      if (pos <? end_pos) && (rem >=? 4) then
        nested_prop <- _read_property f ;;
        match nested_prop with
        | None => ret []
        | Some p =>
            if str_eqb (name p) (lit "None") then ret []
            else ps <- _read_struct_loop f end_pos ;; ret (p :: ps)
        end
      else ret []
  end.

(** Fuel that the top-level call starts with: every call of
    [_read_property] that returns a property consumes at least four
    bytes when the cursor only moves forward. *)
Definition fuel_of (d : list byte) : nat := (8 + 2 * List.length d)%nat.

Definition deserialize (d : list byte) : Result (list FPropertyTag) :=
  match _read_properties (fuel_of d) (mkReader d 0) with
  | Ok (ps, _) => Ok ps
  | Raise e => Raise e
  | Stuck => Stuck
  end.

(** ** PropertySerializer: serialization *)

(** [struct.pack('<i', v)] on an arbitrary object: a [bool] is an [int] *)
Definition int_of_value (v : PyValue) : option Z :=
  match v with
  | VInt z => Some z
  | VBool b => Some (if b then 1 else 0)
  | _ => None
  end.

Definition write_int_val (wr : Z -> Writer Z) (v : PyValue) : Writer Z :=
  match int_of_value v with
  | Some z => wr z
  | None => raise StructError
  end.

(** [write_float] and [write_double] on an arbitrary object; the
    conversion of an [int] to a float is not modelled. *)
Definition write_float_val (wr : PyFloat -> Writer Z) (v : PyValue) : Writer Z :=
  match v with
  | VFloat x => wr x
  | VInt _ | VBool _ => stuck
  | _ => raise StructError
  end.

(** [write_fstring] on an arbitrary object: [None], a [str], or an
    object without [encode] *)
Definition write_fstring_val (v : PyValue) : Writer Z :=
  match v with
  | VNone => write_fstring None
  | VStr s => write_fstring (Some s)
  | _ => raise AttributeError
  end.

Definition _write_simple_property_value (prop : FPropertyTag) : Writer unit :=
  let ty := type_name prop in
  if is_str ty (lit "IntProperty") then write_int_val write_int32 (value prop) ;; ret tt
  else if is_str ty (lit "UInt32Property") then write_int_val write_uint32 (value prop) ;; ret tt
  else if is_str ty (lit "Int64Property") then write_int_val write_int64 (value prop) ;; ret tt
  else if is_str ty (lit "FloatProperty") then write_float_val write_float (value prop) ;; ret tt
  else if is_str ty (lit "DoubleProperty") then write_float_val write_double (value prop) ;; ret tt
  else if is_str ty (lit "StrProperty") || is_str ty (lit "NameProperty") then
    write_fstring_val (value prop) ;; ret tt
  else
    match value prop with
    | VBytes bs => write_bytes bs ;; ret tt
    | _ => ret tt
    end.

(** [v.get(key, default)] *)
Definition dict_get (v : PyValue) (key : string) (default : PyValue) : Result PyValue :=
  match v with
  | VDict d =>
      match assoc (lit key) d with
      | Some x => Ok x
      | None => Ok default
      end
  | _ => Raise AttributeError
  end.

Definition write_float_fields (v : PyValue) (keys : list string) : Writer unit :=
  forM keys (fun k =>
    x <- lift (dict_get v k (VFloat (Single 0))) ;;
    write_float_val write_float x) ;;
  ret tt.

(** [bytes([a, b, c, d])] *)
Fixpoint bytes_of_values (vs : list PyValue) : Result (list byte) :=
  match vs with
  | [] => Ok []
  | v :: vs' =>
      match int_of_value v with
      | Some z =>
          if in_range 0 256 z then
            match bytes_of_values vs' with
            | Ok bs => Ok (byte_of_Z z :: bs)
            | other => other
            end
          else Raise ValueError
      | None => Raise TypeError
      end
  end.

Definition _write_core_struct (prop : FPropertyTag) (st : option pystr) : Writer unit :=
  let v := if truthy (value prop) then value prop else VDict [] in
  if is_str st (lit "Vector") then write_float_fields v ["x"; "y"; "z"]%string
  else if is_str st (lit "Vector2D") then write_float_fields v ["x"; "y"]%string
  else if is_str st (lit "Rotator") then write_float_fields v ["pitch"; "yaw"; "roll"]%string
  else if is_str st (lit "Quat") then write_float_fields v ["x"; "y"; "z"; "w"]%string
  else if is_str st (lit "LinearColor") then write_float_fields v ["r"; "g"; "b"; "a"]%string
  else if is_str st (lit "Color") then
    b <- lift (dict_get v "b" (VInt 0)) ;;
    g <- lift (dict_get v "g" (VInt 0)) ;;
    r <- lift (dict_get v "r" (VInt 0)) ;;
    a <- lift (dict_get v "a" (VInt 0)) ;;
    bs <- lift (bytes_of_values [b; g; r; a]) ;;
    write_bytes bs ;; ret tt
  else if is_str st (lit "Guid") then
    match v with
    | VStr s => bs <- lift (fromhex s) ;; write_bytes bs ;; ret tt
    | _ => write_bytes (repeat x00 16) ;; ret tt
    end
  else if is_str st (lit "DateTime") || is_str st (lit "Timespan") then
    write_int64 (match int_of_value v with Some z => z | None => 0 end) ;; ret tt
  else ret tt.

Definition _write_prototype_tag (prop : FPropertyTag) (elem_size : Z) : Writer unit :=
  write_fstring (Some (name prop)) ;;
  write_fstring (type_name prop) ;;
  write_int32 elem_size ;;
  write_int32 0 ;;
  write_fstring (struct_type prop) ;;
  write_bytes (repeat x00 16) ;;
  write_byte 0 ;;
  ret tt.

(** [a or b] on optional strings: [None] and the empty string are false *)
Definition or_str (a b : option pystr) : option pystr :=
  match a with
  | Some (_ :: _) => a
  | _ => b
  end.

(** [bytes(data)] of a [bytes] or a list of integers *)
Definition bytes_of_value (v : PyValue) : Result (list byte) :=
  match v with
  | VBytes bs => Ok bs
  | VList l => bytes_of_values l
  | _ => Ok []
  end.

Definition write_array_item (inner : option pystr) (v : PyValue) : Writer unit :=
  if is_str inner (lit "IntProperty") then write_int_val write_int32 v ;; ret tt
  else if is_str inner (lit "FloatProperty") then write_float_val write_float v ;; ret tt
  else if is_str inner (lit "StrProperty") then write_fstring_val v ;; ret tt
  else ret tt.

(** The element count that [_write_array_value] writes. *)
Definition array_count (prop : FPropertyTag) : Z :=
  if is_str (inner_type prop) (lit "StructProperty") then len (nested prop)
  else match value prop with
       | VList l => len l
       | VBytes bs => len bs
       | _ => 0
       end.

(** The prototype record that [_write_array_value] builds. *)
Definition array_prototype (prop : FPropertyTag) : FPropertyTag :=
  let '(en, st) :=
    match nested prop with
    | first :: _ =>
        (or_str (elem_name prop) (Some (name first)),
         or_str (struct_type prop) (struct_type first))
    | [] => (elem_name prop, struct_type prop)
    end in
  mkTag (match or_str en (Some (name prop)) with
         | Some n => n
         | None => name prop
         end)
        (Some (lit "StructProperty")) VNone None
        (or_str st (Some [])) None None [].

Section Writing.

(** The recursive call of [_write_property] on a child record. *)
Variable write_child : FPropertyTag -> Writer Z.

Definition write_all : list FPropertyTag -> Z -> Writer Z :=
  fix go (props : list FPropertyTag) (total : Z) : Writer Z :=
    match props with
    | [] => ret total
    | prop :: props' => n <- write_child prop ;; go props' (total + n)
    end.

Definition write_properties_with (properties : list FPropertyTag) (add_trailing : bool)
  : Writer Z :=
  total <- write_all properties 0 ;;
  n <- write_fstring (Some (lit "None")) ;;
  let total := total + n in
  if add_trailing then
    write_bytes [x00; x00; x00; x00] ;; ret (total + 4)
  else ret total.

Definition write_elements : list FPropertyTag -> Writer unit :=
  fix go (elems : list FPropertyTag) : Writer unit :=
    match elems with
    | [] => ret tt
    | elem :: elems' => write_properties_with (nested elem) false ;; go elems'
    end.

Definition write_array_value_with (prop : FPropertyTag) : Writer unit :=
  let count := array_count prop in
  write_int32 count ;;
  if is_str (inner_type prop) (lit "StructProperty") then
    let prototype := array_prototype prop in
    fun w =>
      match write_elements (nested prop) new_writer with
      | Ok (_, temp) =>
          let elem_data := get_bytes temp in
          (_write_prototype_tag prototype (len elem_data) ;;
           write_bytes elem_data ;; ret tt) w
      | Raise e => Raise e
      | Stuck => Stuck
      end
  else if is_str (inner_type prop) (lit "ByteProperty") then
    bs <- lift (bytes_of_value (value prop)) ;;
    write_bytes bs ;; ret tt
  else
    match value prop with
    | VList values => forM values (write_array_item (inner_type prop)) ;; ret tt
    | _ => ret tt
    end.

Definition write_struct_value_with (prop : FPropertyTag) : Writer unit :=
  if is_core_struct (struct_type prop) then _write_core_struct prop (struct_type prop)
  else write_properties_with (nested prop) false ;; ret tt.

(** The branch of [_write_property] on the type tag: the header
    bytes that stay outside the size, then the value. It returns
    [value_size]. *)
Definition write_body_with (prop : FPropertyTag) : Writer Z :=
  if is_str (type_name prop) (lit "ArrayProperty") then
    write_fstring (inner_type prop) ;;
    write_byte 0 ;;
    value_start <- wposition ;;
    write_array_value_with prop ;;
    pos <- wposition ;;
    ret (pos - value_start)
  else if is_str (type_name prop) (lit "StructProperty") then
    write_fstring (struct_type prop) ;;
    write_bytes (repeat x00 17) ;;
    value_start <- wposition ;;
    write_struct_value_with prop ;;
    pos <- wposition ;;
    ret (pos - value_start)
  else if is_str (type_name prop) (lit "EnumProperty") then
    write_fstring (enum_type prop) ;;
    write_byte 0 ;;
    value_start <- wposition ;;
    write_fstring_val (value prop) ;;
    pos <- wposition ;;
    ret (pos - value_start)
  else if is_str (type_name prop) (lit "BoolProperty") then
    write_byte (if truthy (value prop) then 1 else 0) ;;
    write_byte 0 ;;
    ret 0
  else
    write_byte 0 ;;
    value_start <- wposition ;;
    _write_simple_property_value prop ;;
    pos <- wposition ;;
    ret (pos - value_start).

Definition write_property_with (prop : FPropertyTag) : Writer Z :=
  start_pos <- wposition ;;
  write_fstring (Some (name prop)) ;;
  write_fstring (type_name prop) ;;
  size_pos <- wposition ;;
  write_int32 0 ;;
  write_int32 0 ;;
  value_size <- write_body_with prop ;;
  end_pos <- wposition ;;
  seek size_pos ;;
  write_int32 value_size ;;
  seek end_pos ;;
  pos <- wposition ;;
  ret (pos - start_pos).

End Writing.

Fixpoint _write_property (prop : FPropertyTag) : Writer Z :=
  write_property_with _write_property prop.

Definition _write_properties : list FPropertyTag -> bool -> Writer Z :=
  write_properties_with _write_property.

Definition _write_array_value : FPropertyTag -> Writer unit :=
  write_array_value_with _write_property.

Definition _write_struct_value : FPropertyTag -> Writer unit :=
  write_struct_value_with _write_property.

(** [serialize(properties, add_trailing)] *)
Definition serialize (properties : list FPropertyTag) (add_trailing : bool)
  : Result (list byte) :=
  match _write_properties properties add_trailing new_writer with
  | Ok (_, w) => Ok (get_bytes w)
  | Raise e => Raise e
  | Stuck => Stuck
  end.

(** ** Path lookup *)

(** [s.split(c, 1)]: the text before the first [c], and the text after
    it when there is one *)
Fixpoint split_once (c : Z) (s : pystr) : pystr * option pystr :=
  match s with
  | [] => ([], None)
  | x :: s' =>
      if x =? c then ([], Some s')
      else let '(a, b) := split_once c s' in (x :: a, b)
  end.

(** [s.split(c)] *)
Fixpoint split_all (c : Z) (s : pystr) : list pystr :=
  match s with
  | [] => [[]]
  | x :: s' =>
      if x =? c then [] :: split_all c s'
      else
        match split_all c s' with
        | a :: l => (x :: a) :: l
        | [] => [[x]]
        end
  end.

(** [c in s] *)
Definition contains (c : Z) (s : pystr) : bool := existsb (Z.eqb c) s.

Fixpoint drop_leading (c : Z) (s : pystr) : pystr :=
  match s with
  | x :: s' => if x =? c then drop_leading c s' else s
  | [] => []
  end.

(** [s.rstrip(c)] *)
Definition rstrip (c : Z) (s : pystr) : pystr := rev (drop_leading c (rev s)).

Definition is_digit (c : Z) : bool := in_range 48 58 c.

Definition digits_value (s : pystr) : Z :=
  fold_left (fun acc c => 10 * acc + (c - 48)) s 0.

Definition all_digits (s : pystr) : bool :=
  match s with
  | [] => false
  | _ => forallb is_digit s
  end.

(** The number of digits beyond which [int] refuses a numeral: the
    value of [sys.get_int_max_str_digits()] that CPython starts with. *)
Definition int_max_str_digits : Z := 4300.

(** [int(s)] on a decimal numeral with an optional sign. A numeral of
    more than [int_max_str_digits] digits, the sign not counted and
    leading zeros counted, is refused with [ValueError]. The other
    spellings that Python accepts (surrounding white space, underscores
    between digits, digits outside ASCII) are not modelled. *)
Definition py_int (s : pystr) : Result Z :=
  let unmodelled := existsb (fun c => is_space c || (c =? 95) || (c >=? 128)) s in
  let plain (ds : pystr) (sign : Z) : Result Z :=
    if all_digits ds then
      if len ds >? int_max_str_digits then Raise ValueError
      else Ok (sign * digits_value ds)
    else if unmodelled then Stuck else Raise ValueError in
  match s with
  | 45 :: ds => plain ds (-1)
  | 43 :: ds => plain ds 1
  | _ => plain s 1
  end.

(** [l[i]] *)
Definition py_index {A} (l : list A) (i : Z) : Result A :=
  let j := if i <? 0 then i + len l else i in
  if j <? 0 then Raise IndexError
  else
    match nth_error l (Z.to_nat j) with
    | Some x => Ok x
    | None => Raise IndexError
    end.

(** The head of [find_property]: the name of the first segment, its
    index when it has one, and the rest of the path. *)
Definition parse_segment (path : pystr)
  : Result (pystr * option Z * option pystr) :=
  let '(name0, rest) := split_once 46 path in
  if contains 91 name0 then
    match split_all 91 (rstrip 93 name0) with
    | [nm; idx_str] =>
        match py_int idx_str with
        | Ok i => Ok (nm, Some i, rest)
        | Raise e => Raise e
        | Stuck => Stuck
        end
    | _ => Raise ValueError
    end
  else Ok (name0, None, rest).

(** [find_property]; the recursive call is on the text after the first
    dot, so the length of the path bounds the recursion. *)
Fixpoint find_property_fuel (fuel : nat) (properties : list FPropertyTag) (path : pystr)
  : Result (option FPropertyTag) :=
  match fuel with
  | O => Stuck
  | Datatypes.S f =>
      match parse_segment path with
      | Ok (nm, index, rest) =>
          (fix scan (props : list FPropertyTag) : Result (option FPropertyTag) :=
             match props with
             | [] => Ok None
             | prop :: props' =>
                 if str_eqb (name prop) nm then
                   let found (target : FPropertyTag) :=
                     match rest with
                     | Some rest' =>
                         match nested target with
                         | _ :: _ => find_property_fuel f (nested target) rest'
                         | [] => Ok None
                         end
                     | None => Ok (Some target)
                     end in
                   match index with
                   | Some i =>
                       if is_str (type_name prop) (lit "ArrayProperty")
                          && (i <? len (nested prop))
                       then
                         match py_index (nested prop) i with
                         | Ok target => found target
                         | Raise e => Raise e
                         | Stuck => Stuck
                         end
                       else Ok None
                   | None => found prop
                   end
                 else scan props'
             end) properties
      | Raise e => Raise e
      | Stuck => Stuck
      end
  end.

Definition find_property (properties : list FPropertyTag) (path : pystr)
  : Result (option FPropertyTag) :=
  find_property_fuel (Datatypes.S (List.length path)) properties path.

(** [clone_properties] *)
Definition clone_properties (properties : list FPropertyTag)
  : Result (list FPropertyTag) :=
  match serialize properties true with
  | Ok d => deserialize d
  | Raise e => Raise e
  | Stuck => Stuck
  end.

(** * Specification-level definitions *)

(** ** The encoder as a function to bytes

    The writer patches a reserved size field after the value is written.
    The functions below compute the same bytes without a cursor: each
    value is produced first and its length is put in front of it. They
    raise what the writer raises, in the same order. *)

Definition bindR {A B} (x : Result A) (k : A -> Result B) : Result B :=
  match x with
  | Ok a => k a
  | Raise e => Raise e
  | Stuck => Stuck
  end.

Notation "'let?' x ':=' c 'in' k" := (bindR c (fun x => k))
  (at level 10, x name, c at level 100, k at level 200).

Definition enc_fstring (value : option pystr) : Result (list byte) :=
  match value with
  | None => pack_i32 0
  | Some v =>
      match encode_ascii v with
      | Ok e =>
          let? l := pack_i32 (len (e ++ [x00])) in Ok (l ++ e ++ [x00])
      | Raise UnicodeEncodeError =>
          let? e := encode_utf16le v in
          let? l := pack_i32 (- (len v + 1)) in
          Ok (l ++ e ++ [x00; x00])
      | Raise e => Raise e
      | Stuck => Stuck
      end
  end.

Definition enc_int_val (pack : Z -> Result (list byte)) (v : PyValue) : Result (list byte) :=
  match int_of_value v with
  | Some z => pack z
  | None => Raise StructError
  end.

Definition enc_float_val (pack : PyFloat -> Result (list byte)) (v : PyValue)
  : Result (list byte) :=
  match v with
  | VFloat x => pack x
  | VInt _ | VBool _ => Stuck
  | _ => Raise StructError
  end.

Definition enc_fstring_val (v : PyValue) : Result (list byte) :=
  match v with
  | VNone => enc_fstring None
  | VStr s => enc_fstring (Some s)
  | _ => Raise AttributeError
  end.

Definition enc_simple_value (prop : FPropertyTag) : Result (list byte) :=
  let ty := type_name prop in
  if is_str ty (lit "IntProperty") then enc_int_val pack_i32 (value prop)
  else if is_str ty (lit "UInt32Property") then enc_int_val pack_u32 (value prop)
  else if is_str ty (lit "Int64Property") then enc_int_val pack_i64 (value prop)
  else if is_str ty (lit "FloatProperty") then enc_float_val pack_f (value prop)
  else if is_str ty (lit "DoubleProperty") then enc_float_val pack_d (value prop)
  else if is_str ty (lit "StrProperty") || is_str ty (lit "NameProperty") then
    enc_fstring_val (value prop)
  else
    match value prop with
    | VBytes bs => Ok bs
    | _ => Ok []
    end.

Fixpoint enc_each {A} (f : A -> Result (list byte)) (xs : list A) : Result (list byte) :=
  match xs with
  | [] => Ok []
  | x :: xs' => let? a := f x in let? b := enc_each f xs' in Ok (a ++ b)
  end.

Definition enc_float_fields (v : PyValue) (keys : list string) : Result (list byte) :=
  enc_each (fun k => let? x := dict_get v k (VFloat (Single 0)) in enc_float_val pack_f x)
           keys.

Definition enc_core_struct (prop : FPropertyTag) (st : option pystr) : Result (list byte) :=
  let v := if truthy (value prop) then value prop else VDict [] in
  if is_str st (lit "Vector") then enc_float_fields v ["x"; "y"; "z"]%string
  else if is_str st (lit "Vector2D") then enc_float_fields v ["x"; "y"]%string
  else if is_str st (lit "Rotator") then enc_float_fields v ["pitch"; "yaw"; "roll"]%string
  else if is_str st (lit "Quat") then enc_float_fields v ["x"; "y"; "z"; "w"]%string
  else if is_str st (lit "LinearColor") then enc_float_fields v ["r"; "g"; "b"; "a"]%string
  else if is_str st (lit "Color") then
    let? b := dict_get v "b" (VInt 0) in
    let? g := dict_get v "g" (VInt 0) in
    let? r := dict_get v "r" (VInt 0) in
    let? a := dict_get v "a" (VInt 0) in
    bytes_of_values [b; g; r; a]
  else if is_str st (lit "Guid") then
    match v with
    | VStr s => fromhex s
    | _ => Ok (repeat x00 16)
    end
  else if is_str st (lit "DateTime") || is_str st (lit "Timespan") then
    pack_i64 (match int_of_value v with Some z => z | None => 0 end)
  else Ok [].

Definition enc_prototype_tag (prop : FPropertyTag) (elem_size : Z) : Result (list byte) :=
  let? nm := enc_fstring (Some (name prop)) in
  let? ty := enc_fstring (type_name prop) in
  let? sz := pack_i32 elem_size in
  let? ix := pack_i32 0 in
  let? st := enc_fstring (struct_type prop) in
  Ok (nm ++ ty ++ sz ++ ix ++ st ++ repeat x00 16 ++ [x00]).

Definition enc_array_item (inner : option pystr) (v : PyValue) : Result (list byte) :=
  if is_str inner (lit "IntProperty") then enc_int_val pack_i32 v
  else if is_str inner (lit "FloatProperty") then enc_float_val pack_f v
  else if is_str inner (lit "StrProperty") then enc_fstring_val v
  else Ok [].

Section Encoding.

Variable enc_child : FPropertyTag -> Result (list byte).

Definition enc_properties_with (properties : list FPropertyTag) (add_trailing : bool)
  : Result (list byte) :=
  let? ps := enc_each enc_child properties in
  let? t := enc_fstring (Some (lit "None")) in
  Ok (ps ++ t ++ (if add_trailing then [x00; x00; x00; x00] else [])).

Definition enc_elements (elems : list FPropertyTag) : Result (list byte) :=
  enc_each (fun elem => enc_properties_with (nested elem) false) elems.

Definition enc_array_value_with (prop : FPropertyTag) : Result (list byte) :=
  let? c := pack_i32 (array_count prop) in
  if is_str (inner_type prop) (lit "StructProperty") then
    let? elem_data := enc_elements (nested prop) in
    let? proto := enc_prototype_tag (array_prototype prop) (len elem_data) in
    Ok (c ++ proto ++ elem_data)
  else if is_str (inner_type prop) (lit "ByteProperty") then
    let? bs := bytes_of_value (value prop) in Ok (c ++ bs)
  else
    match value prop with
    | VList values =>
        let? items := enc_each (enc_array_item (inner_type prop)) values in
        Ok (c ++ items)
    | _ => Ok c
    end.

Definition enc_struct_value_with (prop : FPropertyTag) : Result (list byte) :=
  if is_core_struct (struct_type prop) then enc_core_struct prop (struct_type prop)
  else enc_properties_with (nested prop) false.

(** The bytes between the array-index field and the value region, the
    value region, and the number that goes into the size field. *)
Definition enc_body_with (prop : FPropertyTag)
  : Result (list byte * list byte * Z) :=
  if is_str (type_name prop) (lit "ArrayProperty") then
    let? h := enc_fstring (inner_type prop) in
    let? v := enc_array_value_with prop in
    Ok (h ++ [x00], v, len v)
  else if is_str (type_name prop) (lit "StructProperty") then
    let? h := enc_fstring (struct_type prop) in
    let? v := enc_struct_value_with prop in
    Ok (h ++ repeat x00 17, v, len v)
  else if is_str (type_name prop) (lit "EnumProperty") then
    let? h := enc_fstring (enum_type prop) in
    let? v := enc_fstring_val (value prop) in
    Ok (h ++ [x00], v, len v)
  else if is_str (type_name prop) (lit "BoolProperty") then
    Ok ([byte_of_Z (if truthy (value prop) then 1 else 0); x00], [], 0)
  else
    let? v := enc_simple_value prop in
    Ok ([x00], v, len v).

Definition enc_property_with (prop : FPropertyTag) : Result (list byte) :=
  let? nm := enc_fstring (Some (name prop)) in
  let? ty := enc_fstring (type_name prop) in
  let? body := enc_body_with prop in
  let '(header, val, size) := body in
  let? sz := pack_i32 size in
  Ok (nm ++ ty ++ sz ++ le_bytes 4 0 ++ header ++ val).

End Encoding.

Fixpoint enc_property (prop : FPropertyTag) : Result (list byte) :=
  enc_property_with enc_property prop.

Definition enc_properties : list FPropertyTag -> bool -> Result (list byte) :=
  enc_properties_with enc_property.

Definition enc_body : FPropertyTag -> Result (list byte * list byte * Z) :=
  enc_body_with enc_property.

(** ** Cursors in a buffer *)

(** The bytes [bs] stand in [d] from offset [o] on. *)
Definition at_ (d : list byte) (o : Z) (bs : list byte) : Prop :=
  exists pre post, d = pre ++ bs ++ post /\ len pre = o.

(** The reader [c], started on any buffer that holds [bs] at the
    cursor, returns [a] and leaves the cursor behind [bs]. *)
Definition reads {A} (c : Reader A) (bs : list byte) (a : A) : Prop :=
  forall d o, at_ d o bs -> c (mkReader d o) = Ok (a, mkReader d (o + len bs)).

(** The writer's cursor is at the end of its stream, and the stream
    after appending [bs] there. *)
Definition at_end (w : BinaryWriter) : Prop := wpos w = len (stream w).

Definition append (w : BinaryWriter) (bs : list byte) : BinaryWriter :=
  mkWriter (stream w ++ bs) (wpos w + len bs).

(** The writer [c], started at the end of any stream, behaves as the
    byte function result [r]: it appends the bytes and returns [f] of
    them, or raises what [r] raises. *)
Definition emits {A} (c : Writer A) (r : Result (list byte)) (f : list byte -> A) : Prop :=
  forall w, at_end w ->
    c w = match r with
          | Ok bs => Ok (f bs, append w bs)
          | Raise e => Raise e
          | Stuck => Stuck
          end.

(** ** The records that the codec represents *)

Definition char_ok (c : Z) : bool := in_range 0 65536 c && negb (is_surrogate c).

(** A string of the basic plane whose length fits the signed 32-bit
    prefix. *)
Definition str_ok (s : pystr) : bool :=
  forallb char_ok s && (len s + 1 <? 2 ^ 31).

Definition opt_str_ok (o : option pystr) : bool :=
  match o with
  | Some s => str_ok s
  | None => true
  end.

Definition name_ok (n : pystr) : bool := str_ok n && negb (str_eqb n (lit "None")).

Definition is_none {A} (o : option A) : bool :=
  match o with
  | None => true
  | Some _ => false
  end.

Definition is_nil {A} (l : list A) : bool :=
  match l with
  | [] => true
  | _ :: _ => false
  end.

Definition is_vnone (v : PyValue) : bool :=
  match v with
  | VNone => true
  | _ => false
  end.

Definition fstring_value_ok (v : PyValue) : bool :=
  match v with
  | VNone => true
  | VStr s => str_ok s
  | _ => false
  end.

Definition int_ok (lo hi : Z) (v : PyValue) : bool :=
  match v with
  | VInt z => in_range lo hi z
  | _ => false
  end.

Definition single_ok (v : PyValue) : bool :=
  match v with
  | VFloat (Single b) => in_range 0 (2 ^ 32) b
  | _ => false
  end.

Definition double_ok (v : PyValue) : bool :=
  match v with
  | VFloat (Double b) => in_range 0 (2 ^ 64) b
  | _ => false
  end.

(** The value of an array of scalars or bytes: a list whose items the
    inner type can carry. An inner type that the codec has no item
    format for carries no items. *)
Definition array_value_ok (inner : pystr) (v : PyValue) : bool :=
  match v with
  | VList l =>
      if str_eqb inner (lit "ByteProperty") then forallb (int_ok 0 256) l
      else if str_eqb inner (lit "IntProperty") then forallb (int_ok (- 2 ^ 31) (2 ^ 31)) l
      else if str_eqb inner (lit "FloatProperty") then forallb single_ok l
      else if str_eqb inner (lit "StrProperty") then forallb fstring_value_ok l
      else is_nil l
  | _ => false
  end.

(** A dictionary with exactly the given keys, in the order in which
    [_read_core_struct] inserts them. *)
Fixpoint dict_ok (ok : PyValue -> bool) (keys : list string) (d : list (pystr * PyValue))
  : bool :=
  match keys, d with
  | [], [] => true
  | k :: keys', (k', v) :: d' => str_eqb k' (lit k) && ok v && dict_ok ok keys' d'
  | _, _ => false
  end.

Definition value_dict_ok (ok : PyValue -> bool) (keys : list string) (v : PyValue) : bool :=
  match v with
  | VDict d => dict_ok ok keys d
  | _ => false
  end.

(** The value of a fixed-layout struct, as [_read_core_struct] builds it. *)
Definition core_value_ok (st : option pystr) (v : PyValue) : bool :=
  if is_str st (lit "Vector") then value_dict_ok single_ok ["x"; "y"; "z"]%string v
  else if is_str st (lit "Vector2D") then value_dict_ok single_ok ["x"; "y"]%string v
  else if is_str st (lit "Rotator") then
    value_dict_ok single_ok ["pitch"; "yaw"; "roll"]%string v
  else if is_str st (lit "Quat") then value_dict_ok single_ok ["x"; "y"; "z"; "w"]%string v
  else if is_str st (lit "LinearColor") then
    value_dict_ok single_ok ["r"; "g"; "b"; "a"]%string v
  else if is_str st (lit "Color") then
    value_dict_ok (int_ok 0 256) ["r"; "g"; "b"; "a"]%string v
  else if is_str st (lit "Guid") then
    match v with
    | VStr s =>
        match fromhex s with
        | Ok bs => (len bs =? 16) && str_eqb (hex_of_bytes bs) s
        | _ => false
        end
    | _ => false
    end
  else if is_str st (lit "DateTime") || is_str st (lit "Timespan") then
    int_ok (- 2 ^ 63) (2 ^ 63) v
  else false.

(** The value of a property that is neither array, struct, enum, map
    nor bool. A type tag outside the known ones carries raw bytes. *)
Definition simple_value_ok (ty : option pystr) (v : PyValue) : bool :=
  if is_str ty (lit "IntProperty") then int_ok (- 2 ^ 31) (2 ^ 31) v
  else if is_str ty (lit "UInt32Property") then int_ok 0 (2 ^ 32) v
  else if is_str ty (lit "Int64Property") then int_ok (- 2 ^ 63) (2 ^ 63) v
  else if is_str ty (lit "FloatProperty") then single_ok v
  else if is_str ty (lit "DoubleProperty") then double_ok v
  else if is_str ty (lit "StrProperty") || is_str ty (lit "NameProperty") then
    fstring_value_ok v
  else
    match v with
    | VNone => true
    | VBytes bs => negb (is_nil bs)
    | _ => false
    end.

(** An element of a struct array, apart from its children: the record
    that [_read_array_value] builds from the prototype. *)
Definition elem_shape (en : pystr) (st : option pystr) (e : FPropertyTag) : bool :=
  str_eqb (name e) en && is_str (type_name e) (lit "StructProperty")
  && is_vnone (value e) && is_none (inner_type e)
  && match struct_type e, st with
     | Some a, Some b => str_eqb a b
     | _, _ => false
     end
  && is_none (enum_type e) && is_none (elem_name e).

(** The records that the codec represents: every attribute that the
    type tag uses holds a value of the right kind, and every other
    attribute is at its default. Map properties are not among them:
    the encoder has no branch for them. *)
Definition wf_prop_with (wf_child : FPropertyTag -> bool) (p : FPropertyTag) : bool :=
  name_ok (name p) && opt_str_ok (type_name p) &&
  if is_str (type_name p) (lit "ArrayProperty") then
    is_none (enum_type p) &&
    match inner_type p with
    | Some it =>
        str_ok it &&
        if str_eqb it (lit "StructProperty") then
          is_vnone (value p) &&
          match elem_name p, struct_type p with
          | Some en, Some st =>
              name_ok en && negb (is_nil en) && str_ok st &&
              forallb (fun e => elem_shape en (Some st) e && forallb wf_child (nested e))
                      (nested p)
          | _, _ => false
          end
        else
          is_none (struct_type p) && is_none (elem_name p) && is_nil (nested p)
          && array_value_ok it (value p)
    | None => false
    end
  else if is_str (type_name p) (lit "StructProperty") then
    is_none (inner_type p) && is_none (enum_type p) && is_none (elem_name p)
    && opt_str_ok (struct_type p) &&
    if is_core_struct (struct_type p) then
      is_nil (nested p) && core_value_ok (struct_type p) (value p)
    else is_vnone (value p) && forallb wf_child (nested p)
  else
    is_none (inner_type p) && is_none (struct_type p) && is_none (elem_name p)
    && is_nil (nested p) &&
    if is_str (type_name p) (lit "EnumProperty") then
      opt_str_ok (enum_type p) && fstring_value_ok (value p)
    else
      is_none (enum_type p) &&
      if is_str (type_name p) (lit "MapProperty") then false
      else if is_str (type_name p) (lit "BoolProperty") then
        match value p with
        | VBool _ => true
        | _ => false
        end
      else simple_value_ok (type_name p) (value p).

Fixpoint wf_prop (p : FPropertyTag) : bool := wf_prop_with wf_prop p.

Definition wf_props (ps : list FPropertyTag) : bool := forallb wf_prop ps.

(** Height of a record tree. *)
Fixpoint tag_depth (p : FPropertyTag) : nat :=
  Datatypes.S (list_max (List.map tag_depth (nested p))).

(** The induction hypothesis of the round trip, at fuel [g]. *)
Definition reads_back (g : nat) : Prop :=
  forall p bs,
    wf_prop p = true -> enc_property p = Ok bs -> len bs <= Z.of_nat g ->
    reads (_read_property g) bs (Some p).

(** ** Sample records and blobs *)

(** An ASCII [FString] as it stands in a blob. *)
Definition fstr (s : string) : list byte :=
  le_bytes 4 (len (lit s) + 1) ++ List.map byte_of_Z (lit s) ++ [x00].

Definition i32 (z : Z) : list byte := le_bytes 4 z.

Definition simple_tag (n ty : string) (v : PyValue) : FPropertyTag :=
  mkTag (lit n) (Some (lit ty)) v None None None None [].

Definition struct_tag (n st : string) (v : PyValue) (children : list FPropertyTag)
  : FPropertyTag :=
  mkTag (lit n) (Some (lit "StructProperty")) v None (Some (lit st)) None None children.

(** A tree with every kind of record that the codec represents. *)
Definition sample_tree : list FPropertyTag :=
  [ simple_tag "MountName" "StrProperty" (VStr (lit "Shadow"));
    simple_tag "Nick" "StrProperty" (VStr [233; 8364; 65]);
    simple_tag "Experience" "IntProperty" (VInt 1150000);
    simple_tag "Seed" "UInt32Property" (VInt 4000000000);
    simple_tag "Stamp" "Int64Property" (VInt (-5));
    simple_tag "Ratio" "DoubleProperty" (VFloat (Double 4607182418800017408));
    simple_tag "AISetupRowName" "NameProperty" (VStr (lit "Mount_Horse_Standard_A1"));
    simple_tag "Alive" "BoolProperty" (VBool true);
    simple_tag "Opaque" "WeirdProperty" (VBytes [x01; x02; x03]);
    mkTag (lit "Mood") (Some (lit "EnumProperty")) (VStr (lit "EMood::Calm")) None None
          (Some (lit "EMood")) None [];
    struct_tag "CharacterRecord" "CharacterRecord" VNone
      [ simple_tag "CurrentHealth" "FloatProperty" (VFloat (Single 1167867904));
        struct_tag "Location" "Vector"
          (VDict [(lit "x", VFloat (Single 0)); (lit "y", VFloat (Single 1065353216));
                  (lit "z", VFloat (Single 1073741824))]) [];
        struct_tag "Id" "Guid" (VStr (lit "000102030405060708090a0b0c0d0e0f")) [];
        struct_tag "Born" "DateTime" (VInt 637000000000000000) [];
        struct_tag "Tint" "Color"
          (VDict [(lit "r", VInt 255); (lit "g", VInt 128); (lit "b", VInt 0);
                  (lit "a", VInt 255)]) [] ];
    mkTag (lit "Talents") (Some (lit "ArrayProperty")) VNone
          (Some (lit "StructProperty")) (Some (lit "Talent")) None (Some (lit "Talents"))
          [ struct_tag "Talents" "Talent" VNone
              [ simple_tag "Rank" "IntProperty" (VInt 2) ];
            struct_tag "Talents" "Talent" VNone [] ];
    mkTag (lit "Scores") (Some (lit "ArrayProperty")) (VList [VInt 1; VInt (-2); VInt 3])
          (Some (lit "IntProperty")) None None None [];
    mkTag (lit "Raw") (Some (lit "ArrayProperty")) (VList [VInt 0; VInt 255])
          (Some (lit "ByteProperty")) None None None [];
    mkTag (lit "Tags") (Some (lit "ArrayProperty")) (VList [VStr (lit "a"); VNone; VStr []])
          (Some (lit "StrProperty")) None None None [] ].

Definition bytes_or_nil (r : Result (list byte)) : list byte :=
  match r with
  | Ok b => b
  | _ => []
  end.

Definition sample_blob : list byte := bytes_or_nil (serialize sample_tree true).

(** A struct property whose header holds a non-zero GUID byte. *)
Definition guid_blob : list byte :=
  fstr "S" ++ fstr "StructProperty" ++ i32 9 ++ i32 0
    ++ fstr "Foo" ++ (x01 :: repeat x00 15) ++ [x00]
    ++ fstr "None"
    ++ fstr "None" ++ [x00; x00; x00; x00].

Definition guid_tree : list FPropertyTag := [struct_tag "S" "Foo" VNone []].

(** ** The layout of an encoded property, in the words of the format *)

(** The per-type header that stands between the array-index field and
    the value: the inner-type string and a padding byte for an array,
    the struct-tag string, sixteen GUID bytes and a padding byte for a
    struct, the enum-tag string and a padding byte for an enum, a lone
    padding byte for the other types except Bool. *)
Definition type_header (prop : FPropertyTag) : Result (list byte) :=
  if is_str (type_name prop) (lit "ArrayProperty") then
    let? s := enc_fstring (inner_type prop) in Ok (s ++ [x00])
  else if is_str (type_name prop) (lit "StructProperty") then
    let? s := enc_fstring (struct_type prop) in Ok (s ++ repeat x00 16 ++ [x00])
  else if is_str (type_name prop) (lit "EnumProperty") then
    let? s := enc_fstring (enum_type prop) in Ok (s ++ [x00])
  else Ok [x00].

(** The value region: what the size field counts. *)
Definition value_region (prop : FPropertyTag) : Result (list byte) :=
  if is_str (type_name prop) (lit "ArrayProperty") then
    enc_array_value_with enc_property prop
  else if is_str (type_name prop) (lit "StructProperty") then
    enc_struct_value_with enc_property prop
  else if is_str (type_name prop) (lit "EnumProperty") then enc_fstring_val (value prop)
  else enc_simple_value prop.

Definition is_bool_tag (prop : FPropertyTag) : bool :=
  is_str (type_name prop) (lit "BoolProperty").

(** A struct record about to receive its children, the children, and
    their encoding without the sentinel. *)
Definition bare_struct : FPropertyTag :=
  set_struct_type (Some (lit "Foo")) (new_tag (lit "S") (Some (lit "StructProperty"))).

Definition two_children : list FPropertyTag :=
  [ simple_tag "Rank" "IntProperty" (VInt 2);
    simple_tag "Alive" "BoolProperty" (VBool false) ].

Definition two_children_bytes : list byte :=
  bytes_or_nil (enc_each enc_property two_children).

(** The one-character string U+1F600, outside the basic plane. *)
Definition astral_string : pystr := [128512].

(** A map property from Int to Int with an eight-byte body. Its size
    field is 41: the reader of map properties counts the two type
    strings and the padding byte in the size. *)
Definition map_blob : list byte :=
  fstr "M" ++ fstr "MapProperty" ++ i32 41 ++ i32 0
    ++ fstr "IntProperty" ++ fstr "IntProperty" ++ [x00]
    ++ (i32 0 ++ i32 0)
    ++ fstr "None" ++ [x00; x00; x00; x00].

Definition map_tree : list FPropertyTag :=
  [ simple_tag "M" "MapProperty" (VBytes (i32 0 ++ i32 0)) ].

(** What [serialize] makes of [map_tree]: the type strings are gone. *)
Definition map_blob_reencoded : list byte :=
  fstr "M" ++ fstr "MapProperty" ++ i32 8 ++ i32 0 ++ [x00]
    ++ (i32 0 ++ i32 0)
    ++ fstr "None" ++ [x00; x00; x00; x00].

(** The type tags that [_read_property] has a branch for. *)
Definition known_tags : list pystr :=
  [ lit "ArrayProperty"; lit "StructProperty"; lit "EnumProperty"; lit "MapProperty";
    lit "BoolProperty"; lit "IntProperty"; lit "UInt32Property"; lit "Int64Property";
    lit "FloatProperty"; lit "DoubleProperty"; lit "StrProperty"; lit "NameProperty" ].

Definition is_known (ty : option pystr) : bool := existsb (is_str ty) known_tags.

(** A property with a type tag outside the known ones, and an integer
    property that declares the size -1. *)
Definition unknown_tag_blob : list byte :=
  fstr "X" ++ fstr "FooProperty" ++ i32 2 ++ i32 0 ++ [x00] ++ [x01; x02]
    ++ fstr "None" ++ [x00; x00; x00; x00].

Definition negative_size_blob : list byte :=
  fstr "Exp" ++ fstr "IntProperty" ++ i32 (-1) ++ i32 0 ++ [x00] ++ i32 5
    ++ fstr "None" ++ [x00; x00; x00; x00].

(** An integer property whose array-index field holds 7. *)
Definition indexed_blob : list byte :=
  fstr "Exp" ++ fstr "IntProperty" ++ i32 4 ++ i32 7 ++ [x00] ++ i32 1150000
    ++ fstr "None" ++ [x00; x00; x00; x00].

Definition indexed_blob_reencoded : list byte :=
  fstr "Exp" ++ fstr "IntProperty" ++ i32 4 ++ i32 0 ++ [x00] ++ i32 1150000
    ++ fstr "None" ++ [x00; x00; x00; x00].

(** The record [p'] differs from [p] at most in attributes other than
    the type tag, the inner type and the children. *)
Definition keeps (p p' : FPropertyTag) : Prop :=
  type_name p' = type_name p /\ inner_type p' = inner_type p /\ nested p' = nested p.

(** The same, the children left aside. *)
Definition keeps_tags (p p' : FPropertyTag) : Prop :=
  type_name p' = type_name p /\ inner_type p' = inner_type p.

(** An array of two integers, as the decoder returns it. *)
Definition scalar_array_tag : FPropertyTag :=
  mkTag (lit "Vals") (Some (lit "ArrayProperty")) (VList [VInt 10; VInt 20])
        (Some (lit "IntProperty")) None None None [].

Definition scalar_array_blob : list byte :=
  bytes_or_nil (serialize [scalar_array_tag] true).

(** The first record of [ps] called [nm]. *)
Definition first_named (nm : pystr) (ps : list FPropertyTag) : option FPropertyTag :=
  List.find (fun p => str_eqb (name p) nm) ps.

(** A list of two records with the same name, the second an array of
    structs with two elements, and a struct with one child. *)
Definition lookup_tree : list FPropertyTag :=
  [ simple_tag "Exp" "IntProperty" (VInt 7);
    mkTag (lit "Slots") (Some (lit "ArrayProperty")) VNone
          (Some (lit "StructProperty")) None None (Some (lit "Slots"))
          [ struct_tag "Slots" "Slot" VNone [simple_tag "Id" "IntProperty" (VInt 1)];
            struct_tag "Slots" "Slot" VNone [simple_tag "Id" "IntProperty" (VInt 2)] ];
    struct_tag "Rec" "Record" VNone [simple_tag "Hp" "IntProperty" (VInt 90)];
    simple_tag "Exp" "IntProperty" (VInt 8) ].

(** The record that a path segment designates once a record called by
    its name is found: the record itself, or its child at the index. *)
Definition target_of (index : option Z) (prop : FPropertyTag)
  : Result (option FPropertyTag) :=
  match index with
  | Some i =>
      if is_str (type_name prop) (lit "ArrayProperty") && (i <? len (nested prop))
      then
        match py_index (nested prop) i with
        | Ok target => Ok (Some target)
        | Raise e => Raise e
        | Stuck => Stuck
        end
      else Ok None
  | None => Ok (Some prop)
  end.

(** ** [FPropertyTag.find] *)

(** The method [find] of a record looks the path up among the children
    of the record. Unlike [find_property] it recurses into the target
    without looking at whether the target has children. *)
Fixpoint FPropertyTag_find_fuel (fuel : nat) (self : FPropertyTag) (path : pystr)
  : Result (option FPropertyTag) :=
  match fuel with
  | O => Stuck
  | Datatypes.S f =>
      match parse_segment path with
      | Ok (nm, index, rest) =>
          (fix scan (props : list FPropertyTag) : Result (option FPropertyTag) :=
             match props with
             | [] => Ok None
             | prop :: props' =>
                 if str_eqb (name prop) nm then
                   let found (target : FPropertyTag) :=
                     match rest with
                     | Some rest' => FPropertyTag_find_fuel f target rest'
                     | None => Ok (Some target)
                     end in
                   match index with
                   | Some i =>
                       if is_str (type_name prop) (lit "ArrayProperty")
                          && (i <? len (nested prop))
                       then
                         match py_index (nested prop) i with
                         | Ok target => found target
                         | Raise e => Raise e
                         | Stuck => Stuck
                         end
                       else Ok None
                   | None => found prop
                   end
                 else scan props'
             end) (nested self)
      | Raise e => Raise e
      | Stuck => Stuck
      end
  end.

Definition FPropertyTag_find (self : FPropertyTag) (path : pystr)
  : Result (option FPropertyTag) :=
  FPropertyTag_find_fuel (Datatypes.S (List.length path)) self path.

(** ** [set_property_value]

    [find_property] returns a reference to a record of the tree, and
    [set_property_value] assigns to the [value] attribute of that
    record. A tree of the model is a value, so the reference is modelled
    by the place of the record: the index of a record in the list, then
    the index of a child among its children, and so on. The trees of the
    model share no record between two places, as the trees that
    [deserialize] builds. *)

(** The record at a place. *)
Fixpoint record_at (ps : list FPropertyTag) (pl : list nat) : option FPropertyTag :=
  match pl with
  | [] => None
  | k :: pl' =>
      match nth_error ps k with
      | Some p =>
          match pl' with
          | [] => Some p
          | _ :: _ => record_at (nested p) pl'
          end
      | None => None
      end
  end.

Fixpoint list_update {A} (k : nat) (g : A -> A) (l : list A) : list A :=
  match l, k with
  | [], _ => []
  | x :: l', O => g x :: l'
  | x :: l', Datatypes.S k' => x :: list_update k' g l'
  end.

(** The tree after [g] is applied to the record at a place. *)
Fixpoint update_at (g : FPropertyTag -> FPropertyTag) (pl : list nat)
         (ps : list FPropertyTag) : list FPropertyTag :=
  match pl with
  | [] => ps
  | k :: pl' =>
      list_update k
        (fun p =>
           match pl' with
           | [] => g p
           | _ :: _ => set_nested (update_at g pl' (nested p)) p
           end) ps
  end.

(** [find_property], returning the place of the record found. *)
Fixpoint locate_fuel (fuel : nat) (properties : list FPropertyTag) (path : pystr)
  : Result (option (list nat)) :=
  match fuel with
  | O => Stuck
  | Datatypes.S f =>
      match parse_segment path with
      | Ok (nm, index, rest) =>
          (fix scan (k : nat) (props : list FPropertyTag) : Result (option (list nat)) :=
             match props with
             | [] => Ok None
             | prop :: props' =>
                 if str_eqb (name prop) nm then
                   let found (here : list nat) (target : FPropertyTag) :=
                     match rest with
                     | Some rest' =>
                         match nested target with
                         | _ :: _ =>
                             match locate_fuel f (nested target) rest' with
                             | Ok (Some pl) => Ok (Some (here ++ pl))
                             | r => r
                             end
                         | [] => Ok None
                         end
                     | None => Ok (Some here)
                     end in
                   match index with
                   | Some i =>
                       if is_str (type_name prop) (lit "ArrayProperty")
                          && (i <? len (nested prop))
                       then
                         match py_index (nested prop) i with
                         | Ok target =>
                             found [k; Z.to_nat (if i <? 0 then i + len (nested prop) else i)]
                                   target
                         | Raise e => Raise e
                         | Stuck => Stuck
                         end
                       else Ok None
                   | None => found [k] prop
                   end
                 else scan (Datatypes.S k) props'
             end) O properties
      | Raise e => Raise e
      | Stuck => Stuck
      end
  end.

Definition locate (properties : list FPropertyTag) (path : pystr)
  : Result (option (list nat)) :=
  locate_fuel (Datatypes.S (List.length path)) properties path.

(** [set_property_value(properties, path, value)]: the result of the
    call and the tree after it. *)
Definition set_property_value (properties : list FPropertyTag) (path : pystr)
           (v : PyValue) : Result (bool * list FPropertyTag) :=
  match locate properties path with
  | Ok (Some pl) => Ok (true, update_at (set_value v) pl properties)
  | Ok None => Ok (false, properties)
  | Raise e => Raise e
  | Stuck => Stuck
  end.

(** The index of the first record of [ps] called [nm]. *)
Fixpoint first_index (nm : pystr) (ps : list FPropertyTag) : option nat :=
  match ps with
  | [] => None
  | p :: ps' =>
      if str_eqb (name p) nm then Some O else option_map Datatypes.S (first_index nm ps')
  end.

(** The place that a path segment designates, when the record called
    by its name is at index [k]. *)
Definition place_of (index : option Z) (k : nat) (prop : FPropertyTag) : list nat :=
  match index with
  | Some i => [k; Z.to_nat (if i <? 0 then i + len (nested prop) else i)]
  | None => [k]
  end.

(** The update keeps what the lookup reads of a record. *)
Definition keeps_shape (g : FPropertyTag -> FPropertyTag) : Prop :=
  forall p, name (g p) = name p /\ type_name (g p) = type_name p /\ nested (g p) = nested p.

(** Two places are apart when neither is the other or above it. *)
Fixpoint apart (pl pl2 : list nat) : bool :=
  match pl, pl2 with
  | k :: a, k2 :: b => if Nat.eqb k k2 then apart a b else true
  | _, _ => false
  end.

(** The record [q] is the record [p] after an update somewhere among
    its children, or of its value. *)
Definition same_shape (g : FPropertyTag -> FPropertyTag) (p q : FPropertyTag) : Prop :=
  name q = name p /\ type_name q = type_name p
  /\ exists pl, nested q = update_at g pl (nested p).

(** A byte array property whose element count is minus the length of
    the property itself. *)
Definition rewinding_blob : list byte :=
  fstr "A" ++ fstr "ArrayProperty" ++ i32 0 ++ i32 0 ++ fstr "ByteProperty" ++ [x00]
    ++ i32 (-54).

(** * Experience and level, [mount_editor.py]

    A Python [float] is an IEEE 754 binary64 number; the model uses the
    primitive floats of Rocq, whose operations round to nearest, ties to
    even, as Python's do. *)

(** The [float] of an [int] below [2^53] in absolute value, which is
    exact. *)
Definition exact_float (z : Z) : PrimFloat.float :=
  if z <? 0 then PrimFloat.opp (PrimFloat.of_uint63 (Uint63.of_Z (- z)))
  else PrimFloat.of_uint63 (Uint63.of_Z z).

(** [float(z)], as the arithmetic of Python converts an [int] operand.
    An [int] of [2^53] or more in absolute value is rounded; this is
    not modelled. *)
Definition float_of_int (z : Z) : Result PrimFloat.float :=
  if Z.abs z <? 2 ^ 53 then Ok (exact_float z) else Stuck.

(** [a / b] on two [int]: the quotient rounded to the nearest [float].
    Division by zero and operands of [2^53] or more are not modelled. *)
Definition int_truediv (a b : Z) : Result PrimFloat.float :=
  if b =? 0 then Stuck
  else
    match float_of_int a, float_of_int b with
    | Ok x, Ok y => Ok (PrimFloat.div x y)
    | _, _ => Stuck
    end.

(** [int(x)] on a [float]: the integer part, towards zero. Python
    raises on a NaN and on an infinity; this is not modelled. *)
Definition int_of_float (x : PrimFloat.float) : Result Z :=
  match FloatOps.Prim2SF x with
  | SpecFloat.S754_zero _ => Ok 0
  | SpecFloat.S754_finite s m e =>
      let a := match e with
               | Z0 => Zpos m
               | Zpos p => Zpos m * 2 ^ Zpos p
               | Zneg p => Zpos m / 2 ^ Zpos p
               end in
      Ok (if s then - a else a)
  | _ => Stuck
  end.

(** [(level, xp, tangent)] *)
Definition _XP_KEYPOINTS : list (Z * Z * Z) :=
  [(10, 13500, 2250); (30, 140000, 17000); (50, 1150000, 88000)].

Definition _hermite_interpolate (t p0 p1 m0 m1 : PrimFloat.float) : PrimFloat.float :=
  let t2 := PrimFloat.mul t t in
  let t3 := PrimFloat.mul t2 t in
  let h00 := PrimFloat.add
               (PrimFloat.sub (PrimFloat.mul (exact_float 2) t3)
                              (PrimFloat.mul (exact_float 3) t2))
               (exact_float 1) in
  let h10 := PrimFloat.add (PrimFloat.sub t3 (PrimFloat.mul (exact_float 2) t2)) t in
  let h01 := PrimFloat.add (PrimFloat.mul (exact_float (-2)) t3)
                           (PrimFloat.mul (exact_float 3) t2) in
  let h11 := PrimFloat.sub t3 t2 in
  PrimFloat.add
    (PrimFloat.add
       (PrimFloat.add (PrimFloat.mul h00 p0) (PrimFloat.mul h10 m0))
       (PrimFloat.mul h01 p1))
    (PrimFloat.mul h11 m1).

(** The loop of [estimate_xp_for_level] over the pairs of consecutive
    keypoints. *)
Fixpoint xp_segments (kps : list (Z * Z * Z)) (level : Z) : Result Z :=
  match kps with
  | (lvl0, xp0, tan0) :: rest =>
      match rest with
      | (lvl1, xp1, tan1) :: _ =>
          if (lvl0 <=? level) && (level <? lvl1) then
            let? t := int_truediv (level - lvl0) (lvl1 - lvl0) in
            let segment_length := lvl1 - lvl0 in
            let m0 := tan0 * segment_length in
            let m1 := tan1 * segment_length in
            let? p0 := float_of_int xp0 in
            let? p1 := float_of_int xp1 in
            let? fm0 := float_of_int m0 in
            let? fm1 := float_of_int m1 in
            int_of_float (_hermite_interpolate t p0 p1 fm0 fm1)
          else xp_segments rest level
      | [] => Ok 0
      end
  | [] => Ok 0
  end.

Definition estimate_xp_for_level (level : Z) : Result Z :=
  if level <=? 1 then Ok 0
  else
    let '(lvl0, xp0, tan0) := hd (0, 0, 0) _XP_KEYPOINTS in
    if level <? lvl0 then Ok (Z.max 0 (xp0 - tan0 * (lvl0 - level)))
    else
      let '(lvl_last, xp_last, tan_last) := last _XP_KEYPOINTS (0, 0, 0) in
      if level >=? lvl_last then Ok (xp_last + tan_last * (level - lvl_last))
      else xp_segments _XP_KEYPOINTS level.

(** The [while] loop of [estimate_level_from_xp]. *)
Fixpoint level_search (fuel : nat) (low high xp : Z) : Result Z :=
  match fuel with
  | O => Stuck
  | Datatypes.S f =>
      if low <? high then
        let mid := (low + high + 1) / 2 in
        let? e := estimate_xp_for_level mid in
        if e <=? xp then level_search f mid high xp
        else level_search f low (mid - 1) xp
      else Ok low
  end.

Definition estimate_level_from_xp (xp : Z) : Result Z :=
  if xp <=? 0 then Ok 1 else level_search 50 1 50 xp.

(** The levels from [a] to [a + n - 1]. *)
Definition levels_from (a : Z) (n : nat) : list Z :=
  List.map (fun k => a + Z.of_nat k) (seq 0 n).

(** The experience of a level, and [-1] where the model gives none. *)
Definition xp_of (level : Z) : Z :=
  match estimate_xp_for_level level with
  | Ok e => e
  | _ => -1
  end.

(** Checks run on the levels of the table. *)
Definition xp_step_ok (l : Z) : bool :=
  match estimate_xp_for_level l, estimate_xp_for_level (l + 1) with
  | Ok x, Ok y => (0 <=? x) && (x <=? y)
  | _, _ => false
  end.

Definition level_back_ok (l : Z) : bool :=
  match estimate_xp_for_level l with
  | Ok e =>
      match estimate_level_from_xp e with
      | Ok l' => l' =? (if l <? 5 then 1 else l)
      | _ => false
      end
  | _ => false
  end.

(** * Mount types, [mount_types.py] *)

Record MountSkin : Type := mkMountSkin {
  skin_index : Z;
  skin_name : pystr;
  skin_description : pystr
}.

(** The attribute [name] of the source is [mount_name] here, as
    [name] is the attribute of [FPropertyTag]. *)
Record MountType : Type := mkMountType {
  mount_name : pystr;
  ai_setup : pystr;
  blueprint : pystr;
  description : pystr;
  rideable : bool;
  skins : option (list MountSkin)
}.

(** [s.rstrip(chars)]: the characters of [chars] are a set. *)
Definition rstrip_chars (chars s : pystr) : pystr :=
  rev ((fix drop (l : pystr) : pystr :=
          match l with
          | x :: l' => if contains x chars then drop l' else l
          | [] => []
          end) (rev s)).

Definition blueprint_prefix (self : MountType) : pystr :=
  rstrip_chars (lit "_C") (blueprint self).

(** The dictionary, in the order of its items. *)
Definition MOUNT_TYPES : list (pystr * MountType) :=
  [ (lit "Terrenus",
     mkMountType (lit "Terrenus") (lit "Mount_Horse") (lit "BP_Mount_Horse_C")
       (lit "Wild alien creature (boar-horse hybrid). Tamed from the wild on Icarus.")
       true
       (Some [ mkMountSkin 0 (lit "Default") (lit "Orange and white coat");
               mkMountSkin 1 (lit "Brown") (lit "Solid brown coat");
               mkMountSkin 2 (lit "Brown & White")
                           (lit "Brown and white patterned coat") ]));
    (lit "Horse",
     mkMountType (lit "Horse") (lit "Mount_Horse_Standard_A3")
       (lit "BP_Mount_Horse_Standard_C")
       (lit "Actual Earth horse. Unlocked via Workshop (3 color variants: A1/A2/A3).")
       true (Some []));
    (lit "Moa",
     mkMountType (lit "Moa") (lit "Mount_Moa") (lit "BP_Mount_Moa_C")
       (lit "Fastest mount. Small inventory, two slots.") true None);
    (lit "ArcticMoa",
     mkMountType (lit "Arctic Moa") (lit "Mount_Arctic_Moa") (lit "BP_Mount_Arctic_Moa_C")
       (lit "Cold-resistant arctic variant of Moa.") true None);
    (lit "Buffalo",
     mkMountType (lit "Buffalo") (lit "Mount_Buffalo") (lit "BP_Mount_Buffalo_C")
       (lit "Strong, slow mount. Large carrying capacity.") true None);
    (lit "Tusker",
     mkMountType (lit "Tusker") (lit "Mount_Tusker") (lit "BP_Mount_Tusker_C")
       (lit "Slowest but strongest. Found in arctic Styx regions.") true None);
    (lit "Zebra",
     mkMountType (lit "Zebra") (lit "Mount_Zebra") (lit "BP_Mount_Zebra_C")
       (lit "Fast mount similar to Horse.") true None);
    (lit "WoolyZebra",
     mkMountType (lit "Wooly Zebra") (lit "Mount_Zebra_Shaggy")
       (lit "BP_Mount_Wooly_Zebra_C")
       (lit "Cold-resistant woolly variant of Zebra.") true None);
    (lit "SwampBird",
     mkMountType (lit "SwampBird") (lit "Mount_SwampBird") (lit "BP_Mount_SwampBird_C")
       (lit "Swamp-dwelling bird mount.") true None);
    (lit "WoollyMammoth",
     mkMountType (lit "Woolly Mammoth") (lit "Mount_WoollyMammoth")
       (lit "BP_Mount_WoollyMammoth_C")
       (lit "Massive arctic mount with huge carrying capacity.") true None);
    (lit "BluebackDaisy",
     mkMountType (lit "Blueback Daisy") (lit "Mount_Blueback_Daisy")
       (lit "BP_Mount_Blueback_Daisy_C")
       (lit "Companion only. Has skill tree. Summons as follower.") false None);
    (lit "MiniHippo",
     mkMountType (lit "Mini Hippo") (lit "Mount_MiniHippo")
       (lit "BP_Mount_MiniHippo_Quest_C")
       (lit "Companion only. No skill tree. Quest reward creature.") false None) ].

Definition ascii_lower (c : Z) : Z := if in_range 65 91 c then c + 32 else c.

(** [s.lower()] on a string of ASCII. The lower case of other code
    points is not modelled. *)
Definition py_lower (s : pystr) : Result pystr :=
  if forallb (in_range 0 128) s then Ok (List.map ascii_lower s) else Stuck.

Definition get_mount_type (name : pystr) : Result (option MountType) :=
  match assoc name MOUNT_TYPES with
  | Some mount_type => Ok (Some mount_type)
  | None =>
      let? name_lower := py_lower name in
      (fix scan (items : list (pystr * MountType)) : Result (option MountType) :=
         match items with
         | [] => Ok None
         | (key, mount_type) :: items' =>
             let? key_lower := py_lower key in
             if str_eqb key_lower name_lower then Ok (Some mount_type) else scan items'
         end) MOUNT_TYPES
  end.

Definition TRANSFORM_PROPERTIES : list pystr :=
  [lit "AISetupRowName"; lit "ActorClassName"; lit "ObjectFName"; lit "ActorPathName"].

(** [s.rsplit(c, 1)] *)
Definition rsplit_once (c : Z) (s : pystr) : list pystr :=
  match split_once c (rev s) with
  | (a, Some b) => [rev b; rev a]
  | (_, None) => [s]
  end.

(** [s.isdigit()]: false on the empty string and when a character of
    ASCII is no digit. The digits outside ASCII are not modelled. *)
Definition py_isdigit (s : pystr) : Result bool :=
  if existsb (fun c => (c <? 128) && negb (is_digit c)) s then Ok false
  else if existsb (fun c => c >=? 128) s then Stuck
  else Ok (negb (is_nil s)).

Fixpoint starts_with (p s : pystr) : bool :=
  match p, s with
  | [], _ => true
  | x :: p', y :: s' => (x =? y) && starts_with p' s'
  | _ :: _, [] => false
  end.

(** The scan of [s.replace(old, new)] for a non-empty [old]: from the
    left, each occurrence found is replaced and the scan goes on behind
    it; [skip] counts the characters of the occurrence still to pass. *)
Fixpoint replace_scan (old new s : pystr) (skip : nat) : pystr :=
  match s with
  | [] => []
  | c :: s' =>
      match skip with
      | Datatypes.S k => replace_scan old new s' k
      | O =>
          if starts_with old s
          then new ++ replace_scan old new s' (List.length old - 1)
          else c :: replace_scan old new s' O
      end
  end.

(** [s.replace(old, new)] *)
Definition py_replace (old new s : pystr) : pystr :=
  match old with
  | [] => new ++ flat_map (fun c => c :: new) s
  | _ :: _ => replace_scan old new s O
  end.

Definition get_transform_value (prop_name : pystr) (source_type target_type : MountType)
           (current_value : pystr) : Result pystr :=
  if str_eqb prop_name (lit "AISetupRowName") then Ok (ai_setup target_type)
  else if str_eqb prop_name (lit "ActorClassName") then Ok (blueprint target_type)
  else if str_eqb prop_name (lit "ObjectFName") then
    let parts := rsplit_once 95 current_value in
    let replaced :=
      Ok (py_replace (blueprint source_type) (blueprint target_type) current_value) in
    match parts with
    | [_; id] =>
        let? d := py_isdigit id in
        if d then Ok (blueprint target_type ++ lit "_" ++ id) else replaced
    | _ => replaced
    end
  else if str_eqb prop_name (lit "ActorPathName") then
    Ok (py_replace (blueprint source_type) (blueprint target_type) current_value)
  else Ok current_value.

(** The characters of a string, for printing a [pystr] of ASCII. *)
Definition text (s : pystr) : string :=
  string_of_list_ascii (List.map (fun c => ascii_of_N (Z.to_N c)) s).

(** The first item of a dictionary whose key is [name], case ignored. *)
Definition find_ignoring_case (name : pystr) (d : list (pystr * MountType))
  : option MountType :=
  option_map snd
    (List.find (fun kv => str_eqb (List.map ascii_lower (fst kv)) (List.map ascii_lower name))
               d).

(** The keys are strings of ASCII and differ when case is ignored. *)
Fixpoint keys_distinct (d : list (pystr * MountType)) : bool :=
  match d with
  | [] => true
  | (k, _) :: d' =>
      forallb (in_range 0 128) k
      && negb (existsb (fun kv => str_eqb (List.map ascii_lower (fst kv))
                                          (List.map ascii_lower k)) d')
      && keys_distinct d'
  end.

(** * The mount editor, [mount_editor.py]

    [MountData] holds the JSON object of a mount and the property tree
    decoded from its blob; [MountEditor] holds the list of the mounts
    and the flag [_modified]. The attributes [steam_id], [file_path],
    [raw_data] and [serializer] of the editor are used by [load] and
    [save] only and are left out, as are the files and what the methods
    print. A method of the editor is a computation on the state of the
    editor; as in the codec, the state after an exception is not part
    of the outcome. *)

(** The attribute [index] of the source is [mount_index] here. *)
Record MountData : Type := mkMountData {
  mount_index : Z;
  json_data : list (pystr * PyValue);
  properties : list FPropertyTag
}.

(** [d.get(key, default)] on a JSON object *)
Definition json_get (key : pystr) (default : PyValue) (d : list (pystr * PyValue))
  : PyValue :=
  match assoc key d with
  | Some x => x
  | None => default
  end.

(** [d[key] = v]: the value of an existing key is replaced in place, a
    new key is added at the end. *)
Fixpoint dict_set (key : pystr) (v : PyValue) (d : list (pystr * PyValue))
  : list (pystr * PyValue) :=
  match d with
  | [] => [(key, v)]
  | (k, x) :: d' =>
      if str_eqb k key then (k, v) :: d' else (k, x) :: dict_set key v d'
  end.

(** The properties [name], [mount_type] and [level] of [MountData] *)
Definition MountData_name (self : MountData) : PyValue :=
  json_get (lit "MountName") (VStr (lit "Unknown")) (json_data self).

Definition MountData_mount_type (self : MountData) : PyValue :=
  json_get (lit "MountType") (VStr (lit "Unknown")) (json_data self).

Definition MountData_level (self : MountData) : PyValue :=
  json_get (lit "MountLevel") (VInt 0) (json_data self).

Definition MountData_get_property (self : MountData) (path : pystr)
  : Result (option FPropertyTag) :=
  find_property (properties self) path.

(** [prop.value if prop else None]: a record is always true. *)
Definition MountData_get_value (self : MountData) (path : pystr) : Result PyValue :=
  let? prop := MountData_get_property self path in
  Ok match prop with
     | Some p => value p
     | None => VNone
     end.

Definition MountData_set_value (self : MountData) (path : pystr) (v : PyValue)
  : Result (bool * MountData) :=
  let? r := set_property_value (properties self) path v in
  Ok (fst r, mkMountData (mount_index self) (json_data self) (snd r)).

Record MountEditor : Type := mkMountEditor {
  mounts : list MountData;
  _modified : bool
}.

Definition Editor (A : Type) : Type := M MountEditor A.

Definition get_mount (index : Z) : Editor MountData :=
  fun self =>
    if (index <? 0) || (index >=? len (mounts self)) then Raise IndexError
    else
      match py_index (mounts self) index with
      | Ok m => Ok (m, self)
      | Raise e => Raise e
      | Stuck => Stuck
      end.

(** The mount that [get_mount] returned is the element [index] of the
    list; assigning to its attributes changes that element. *)
Definition put_mount (index : Z) (m : MountData) : Editor unit :=
  fun self =>
    Ok (tt, mkMountEditor (list_update (Z.to_nat index) (fun _ => m) (mounts self))
                          (_modified self)).

Definition set_modified (b : bool) : Editor unit :=
  fun self => Ok (tt, mkMountEditor (mounts self) b).

(** [prop = find_property(properties, path); if prop: prop.value = v] *)
Definition assign_if_found (props : list FPropertyTag) (path : pystr) (v : PyValue)
  : Result (list FPropertyTag) :=
  let? place := locate props path in
  Ok match place with
     | Some pl => update_at (set_value v) pl props
     | None => props
     end.

Definition set_mount_property (index : Z) (path : pystr) (v : PyValue) : Editor bool :=
  (mount <- get_mount index ;;
   r <- lift (MountData_set_value mount path v) ;;
   if fst r then
     put_mount index (snd r) ;;
     set_modified true ;;
     ret true
   else ret false)%monad.

Definition get_mount_property (index : Z) (path : pystr) : Editor PyValue :=
  (mount <- get_mount index ;;
   lift (MountData_get_value mount path))%monad.

Definition set_mount_name (index : Z) (new_name : pystr) : Editor unit :=
  (mount <- get_mount index ;;
   props <- lift (assign_if_found (properties mount) (lit "MountName") (VStr new_name)) ;;
   put_mount index
     (mkMountData (mount_index mount)
                  (dict_set (lit "MountName") (VStr new_name) (json_data mount))
                  props) ;;
   set_modified true)%monad.

Definition set_mount_level (index : Z) (level : Z) : Editor unit :=
  (if (level <? 1) || (level >? 50) then raise ValueError
   else
     mount <- get_mount index ;;
     let json := dict_set (lit "MountLevel") (VInt level) (json_data mount) in
     experience <- lift (estimate_xp_for_level level) ;;
     props <- lift (assign_if_found (properties mount) (lit "Experience")
                                    (VInt experience)) ;;
     put_mount index (mkMountData (mount_index mount) json props) ;;
     set_modified true)%monad.

(** [get_mount_type(name)] on a JSON value: a string is looked up; the
    other values have no method [lower], and a list or an object cannot
    be a key. *)
Definition get_mount_type_of (v : PyValue) : Result (option MountType) :=
  match v with
  | VStr s => get_mount_type s
  | VBytes _ => Ok None
  | VList _ | VDict _ => Raise TypeError
  | _ => Raise AttributeError
  end.

(** [get_transform_value] on the value of a property: the methods
    [rsplit] and [replace] are those of a string. *)
Definition get_transform_value_of (prop_name : pystr) (source_type target_type : MountType)
           (current_value : PyValue) : Result PyValue :=
  if str_eqb prop_name (lit "AISetupRowName") then Ok (VStr (ai_setup target_type))
  else if str_eqb prop_name (lit "ActorClassName") then Ok (VStr (blueprint target_type))
  else if str_eqb prop_name (lit "ObjectFName") || str_eqb prop_name (lit "ActorPathName")
  then
    match current_value with
    | VStr s =>
        let? r := get_transform_value prop_name source_type target_type s in Ok (VStr r)
    | VBytes _ => Raise TypeError
    | _ => Raise AttributeError
    end
  else Ok current_value.

(** One turn of the loop of [change_mount_type] over
    [TRANSFORM_PROPERTIES]. *)
Definition transform_property (source_type target_type : MountType)
           (props : list FPropertyTag) (prop_name : pystr)
  : Result (list FPropertyTag) :=
  let? place := locate props prop_name in
  match place with
  | Some pl =>
      match record_at props pl with
      | Some prop =>
          if truthy (value prop) then
            let? new_value :=
              get_transform_value_of prop_name source_type target_type (value prop) in
            Ok (update_at (set_value new_value) pl props)
          else Ok props
      | None => Ok props
      end
  | None => Ok props
  end.

Fixpoint transform_properties (source_type target_type : MountType)
         (names : list pystr) (props : list FPropertyTag) : Result (list FPropertyTag) :=
  match names with
  | [] => Ok props
  | n :: names' =>
      let? props' := transform_property source_type target_type props n in
      transform_properties source_type target_type names' props'
  end.

Definition change_mount_type (index : Z) (target_type_name : pystr)
           (new_name : option pystr) : Editor unit :=
  (mount <- get_mount index ;;
   source_type <- lift (get_mount_type_of (MountData_mount_type mount)) ;;
   target_type <- lift (get_mount_type target_type_name) ;;
   match source_type, target_type with
   | None, _ => raise ValueError
   | Some _, None => raise ValueError
   | Some source_type, Some target_type =>
       if str_eqb (mount_name source_type) (mount_name target_type) then ret tt
       else
         props <- lift (transform_properties source_type target_type
                          TRANSFORM_PROPERTIES (properties mount)) ;;
         put_mount index
           (mkMountData (mount_index mount)
              (dict_set (lit "MountType") (VStr (mount_name target_type))
                        (json_data mount))
              props) ;;
         match new_name with
         | Some n => if negb (len n =? 0) then set_mount_name index n else ret tt
         | None => ret tt
         end ;;
         set_modified true
   end)%monad.

(** [del l[i]] for a valid index *)
Fixpoint list_delete {A} (k : nat) (l : list A) : list A :=
  match l, k with
  | [], _ => []
  | _ :: l', O => l'
  | x :: l', Datatypes.S k' => x :: list_delete k' l'
  end.

(** [for i, m in enumerate(mounts): m.index = i] *)
Fixpoint reindex (i : Z) (l : list MountData) : list MountData :=
  match l with
  | [] => []
  | m :: l' => mkMountData i (json_data m) (properties m) :: reindex (i + 1) l'
  end.

Definition delete_mount (index : Z) : Editor unit :=
  (mount <- get_mount index ;;
   fun self =>
     Ok (tt, mkMountEditor (reindex 0 (list_delete (Z.to_nat index) (mounts self))) true))%monad.

Definition reset_mount_talents (index : Z) : Editor Z :=
  (mount <- get_mount index ;;
   place <- lift (locate (properties mount) (lit "Talents")) ;;
   match place with
   | None => ret 0
   | Some pl =>
       let talent_count :=
         match record_at (properties mount) pl with
         | Some talents_prop =>
             match nested talents_prop with
             | [] => 0
             | _ :: _ => len (nested talents_prop)
             end
         | None => 0
         end in
       if talent_count =? 0 then ret 0
       else
         put_mount index
           (mkMountData (mount_index mount) (json_data mount)
                        (update_at (set_nested []) pl (properties mount))) ;;
         set_modified true ;;
         ret talent_count
   end)%monad.

(** The indexes of the mounts are their positions in the list. *)
Fixpoint well_indexed (i : Z) (l : list MountData) : Prop :=
  match l with
  | [] => True
  | m :: l' => mount_index m = i /\ well_indexed (i + 1) l'
  end.

(** An editor with three mounts; the first holds the properties that a
    change of type rewrites, its experience and three talents. *)
Definition editor_props : list FPropertyTag :=
  [ simple_tag "MountName" "StrProperty" (VStr (lit "Shadow"));
    simple_tag "AISetupRowName" "NameProperty" (VStr (lit "Mount_Horse"));
    simple_tag "ActorClassName" "NameProperty" (VStr (lit "BP_Mount_Horse_C"));
    simple_tag "ObjectFName" "NameProperty" (VStr (lit "BP_Mount_Horse_C_2147441213"));
    simple_tag "Experience" "IntProperty" (VInt 5);
    mkTag (lit "Talents") (Some (lit "ArrayProperty")) VNone
          (Some (lit "StructProperty")) (Some (lit "TalentEntry")) None
          (Some (lit "Talents"))
          [ struct_tag "Talents" "TalentEntry" VNone [];
            struct_tag "Talents" "TalentEntry" VNone [];
            struct_tag "Talents" "TalentEntry" VNone [] ] ].

Definition sample_mount (i : Z) (n ty : string) : MountData :=
  mkMountData i
    [ (lit "MountName", VStr (lit n)); (lit "MountType", VStr (lit ty));
      (lit "MountLevel", VInt 3) ]
    editor_props.

Definition sample_editor : MountEditor :=
  mkMountEditor
    [ sample_mount 0 "Shadow" "Terrenus"; sample_mount 1 "Dusty" "Moa";
      sample_mount 2 "Rex" "Tusker" ]
    false.

(** The state that a method leaves, when it returns. *)
Definition editor_after (c : Editor unit) (e : MountEditor) : MountEditor :=
  match c e with
  | Ok (_, e') => e'
  | _ => e
  end.

(** The sample editor after its first mount was changed to the type
    of key [ArcticMoa]. *)
Definition arctic_editor : MountEditor :=
  editor_after (change_mount_type 0 (lit "arcticmoa") None) sample_editor.

(** The record that the decoder builds for a [BoolProperty] whose value
    byte is [b]. *)
Definition bool_tag (n : pystr) (b : byte) : FPropertyTag :=
  set_value (VBool (negb (Z_of_byte b =? 0))) (new_tag n (Some (lit "BoolProperty"))).

(** * Proofs *)

(** * Bytes and integers *)

Lemma Z_of_byte_range (b : byte) : 0 <= Z_of_byte b < 256.
Proof.
  unfold Z_of_byte. pose proof (Byte.to_N_bounded b). lia.
Qed.

Lemma byte_of_Z_of_byte (b : byte) : byte_of_Z (Z_of_byte b) = b.
Proof.
  unfold byte_of_Z. pose proof (Z_of_byte_range b).
  rewrite Z.mod_small by lia. unfold Z_of_byte.
  rewrite N2Z.id, Byte.of_to_N. reflexivity.
Qed.

Lemma Z_of_byte_of_Z (z : Z) : Z_of_byte (byte_of_Z z) = z mod 256.
Proof.
  unfold byte_of_Z, Z_of_byte.
  pose proof (Z.mod_pos_bound z 256 ltac:(lia)) as Hb.
  destruct (Byte.of_N (Z.to_N (z mod 256))) eqn:E.
  - apply Byte.to_of_N in E. rewrite E. lia.
  - apply Byte.of_N_None_iff in E. lia.
Qed.

Lemma length_le_bytes (n : nat) (z : Z) : List.length (le_bytes n z) = n.
Proof.
  revert z. induction n; intros; simpl; auto.
Qed.

Lemma len_le_bytes (n : nat) (z : Z) : len (le_bytes n z) = Z.of_nat n.
Proof.
  unfold len. now rewrite length_le_bytes.
Qed.

Lemma le_value_le_bytes (n : nat) (z : Z) :
  le_value (le_bytes n z) = z mod 256 ^ Z.of_nat n.
Proof.
  revert z. induction n; intros z.
  - simpl. now rewrite Z.mod_1_r.
  - cbn [le_bytes le_value]. rewrite IHn, Z_of_byte_of_Z.
    rewrite Nat2Z.inj_succ, Z.pow_succ_r by lia.
    rewrite Z.rem_mul_r by lia. reflexivity.
Qed.

Lemma in_range_spec lo hi z : in_range lo hi z = true <-> lo <= z < hi.
Proof.
  unfold in_range. rewrite andb_true_iff, Z.leb_le, Z.ltb_lt. tauto.
Qed.

Lemma Ok_inj {A} (a b : A) : Ok a = Ok b -> a = b.
Proof. congruence. Qed.

Lemma signed_mod (n z : Z) :
  0 < n -> - 2 ^ (n - 1) <= z < 2 ^ (n - 1) -> signed n (z mod 2 ^ n) = z.
Proof.
  intros Hn Hz. unfold signed.
  assert (E : 2 ^ n = 2 * 2 ^ (n - 1)).
  { replace n with (Z.succ (n - 1)) at 1 by lia. apply Z.pow_succ_r. lia. }
  destruct (Z.le_gt_cases 0 z).
  - rewrite Z.mod_small by lia.
    destruct (Z.ltb_spec z (2 ^ (n - 1))); lia.
  - replace (z mod 2 ^ n) with (z + 2 ^ n).
    + destruct (Z.ltb_spec (z + 2 ^ n) (2 ^ (n - 1))); lia.
    + apply Z.mod_unique with (q := -1); lia.
Qed.

Lemma unpack_pack_i32 z bs : pack_i32 z = Ok bs -> unpack_i32 bs = Ok z /\ len bs = 4.
Proof.
  unfold pack_i32, unpack_i32. destruct (in_range _ _ z) eqn:E; [|discriminate].
  intros H. apply Ok_inj in H. subst bs. rewrite len_le_bytes. simpl Z.eqb. cbn iota.
  rewrite le_value_le_bytes. apply in_range_spec in E.
  split; [|reflexivity]. f_equal. apply signed_mod; simpl in *; lia.
Qed.

Lemma unpack_pack_u32 z bs : pack_u32 z = Ok bs -> unpack_u32 bs = Ok z /\ len bs = 4.
Proof.
  unfold pack_u32, unpack_u32. destruct (in_range _ _ z) eqn:E; [|discriminate].
  intros H. apply Ok_inj in H. subst bs. rewrite len_le_bytes. simpl Z.eqb. cbn iota.
  rewrite le_value_le_bytes. apply in_range_spec in E.
  split; [|reflexivity]. f_equal. apply Z.mod_small. simpl in *; lia.
Qed.

Lemma unpack_pack_i64 z bs : pack_i64 z = Ok bs -> unpack_i64 bs = Ok z /\ len bs = 8.
Proof.
  unfold pack_i64, unpack_i64. destruct (in_range _ _ z) eqn:E; [|discriminate].
  intros H. apply Ok_inj in H. subst bs. rewrite len_le_bytes. simpl Z.eqb. cbn iota.
  rewrite le_value_le_bytes. apply in_range_spec in E.
  split; [|reflexivity]. f_equal. apply signed_mod; simpl in *; lia.
Qed.

Lemma unpack_pack_f b bs :
  pack_f (Single b) = Ok bs -> unpack_f bs = Ok (Single b) /\ len bs = 4.
Proof.
  unfold pack_f, unpack_f. destruct (is_signalling32 b) eqn:Q.
  { rewrite andb_false_r. discriminate. }
  destruct (in_range _ _ b) eqn:E; [|discriminate]. cbn [andb negb].
  intros H. apply Ok_inj in H. subst bs. rewrite len_le_bytes. simpl Z.eqb. cbn iota.
  rewrite le_value_le_bytes. apply in_range_spec in E.
  split; [|reflexivity]. do 2 f_equal.
  rewrite Z.mod_small by (simpl in *; lia).
  unfold quiet32. now rewrite Q.
Qed.

Example unpack_f_quiets_signalling_nan :
  unpack_f [x00; x00; xa0; x7f] = Ok (Single 2145386496)
  /\ pack_f (Single 2145386496) = Ok [x00; x00; xe0; x7f].
Proof. split; vm_compute; reflexivity. Qed.

Lemma unpack_pack_d b bs :
  pack_d (Double b) = Ok bs -> unpack_d bs = Ok (Double b) /\ len bs = 8.
Proof.
  unfold pack_d, unpack_d. destruct (in_range _ _ b) eqn:E; [|discriminate].
  intros H. apply Ok_inj in H. subst bs. rewrite len_le_bytes. simpl Z.eqb. cbn iota.
  rewrite le_value_le_bytes. apply in_range_spec in E.
  split; [|reflexivity]. do 2 f_equal. apply Z.mod_small. simpl in *; lia.
Qed.

(** * Cursors and the reader *)

Lemma len_app {A} (a b : list A) : len (a ++ b) = len a + len b.
Proof. unfold len. rewrite length_app. lia. Qed.

Lemma len_nonneg {A} (a : list A) : 0 <= len a.
Proof. unfold len. lia. Qed.

Lemma len_cons {A} (x : A) (a : list A) : len (x :: a) = 1 + len a.
Proof. unfold len. cbn [List.length]. lia. Qed.

Lemma len_nil {A} : len (@nil A) = 0.
Proof. reflexivity. Qed.

Lemma at_app_l {d o a b} : at_ d o (a ++ b) -> at_ d o a.
Proof.
  intros (pre & post & E & L). exists pre, (b ++ post).
  split; [|assumption]. now rewrite E, <- app_assoc.
Qed.

Lemma at_app_r {d o a b} : at_ d o (a ++ b) -> at_ d (o + len a) b.
Proof.
  intros (pre & post & E & L). exists (pre ++ a), post.
  split.
  - now rewrite E, <- !app_assoc.
  - rewrite len_app. lia.
Qed.

Lemma at_bound {d o bs} : at_ d o bs -> 0 <= o /\ o + len bs <= len d.
Proof.
  intros (pre & post & E & L). subst d. rewrite !len_app.
  pose proof (len_nonneg pre). pose proof (len_nonneg post). lia.
Qed.

Lemma at_intro pre bs post : at_ (pre ++ bs ++ post) (len pre) bs.
Proof. exists pre, post. auto. Qed.

Lemma py_slice_at {d o bs} : at_ d o bs -> py_slice d o (o + len bs) = bs.
Proof.
  intros H. pose proof (at_bound H) as [H0 H1].
  destruct H as (pre & post & E & L).
  unfold py_slice, py_clamp.
  destruct (Z.ltb_spec o 0); [lia|].
  destruct (Z.ltb_spec (o + len bs) 0); [pose proof (len_nonneg bs); lia|].
  rewrite !Z.min_l by (pose proof (len_nonneg bs); lia).
  replace (o + len bs - o) with (len bs) by lia.
  subst d o. unfold len. rewrite !Nat2Z.id.
  rewrite skipn_app, Nat.sub_diag, skipn_all. simpl.
  rewrite firstn_app, Nat.sub_diag, firstn_all. simpl. now rewrite app_nil_r.
Qed.

Lemma py_slice_strip {A} (l t : list A) :
  t <> [] -> py_slice (l ++ t) 0 (- len t) = l.
Proof.
  intros Ht. unfold py_slice, py_clamp. rewrite len_app.
  assert (0 < len t) by (destruct t; [congruence | rewrite len_cons; pose proof (len_nonneg t); lia]).
  pose proof (len_nonneg l).
  destruct (Z.ltb_spec 0 0); [lia|].
  destruct (Z.ltb_spec (- len t) 0); [|lia].
  rewrite Z.min_l, Z.max_r by lia.
  replace (- len t + (len l + len t) - 0) with (len l) by lia.
  change (Z.to_nat 0) with O. cbn [skipn].
  unfold len. rewrite Nat2Z.id, firstn_app, Nat.sub_diag, firstn_all.
  cbn [firstn]. now rewrite app_nil_r.
Qed.

Lemma py_slice_but_last {A} (l : list A) (x : A) : py_slice (l ++ [x]) 0 (-1) = l.
Proof. apply (py_slice_strip l [x]). discriminate. Qed.

Lemma py_slice_but_last2 {A} (l : list A) (x y : A) :
  py_slice (l ++ [x; y]) 0 (-2) = l.
Proof. apply (py_slice_strip l [x; y]). discriminate. Qed.

Lemma bind_ok {S A B} {c : M S A} (k : A -> M S B) {s a s'} :
  c s = Ok (a, s') -> bind c k s = k a s'.
Proof. unfold bind. now intros ->. Qed.

Lemma reads_ret {A} (a : A) : reads (ret a) [] a.
Proof.
  intros d o _. unfold ret. now rewrite len_nil, Z.add_0_r.
Qed.

Lemma reads_bind {A B} (c : Reader A) (k : A -> Reader B) bs1 bs2 a b :
  reads c bs1 a -> reads (k a) bs2 b -> reads (bind c k) (bs1 ++ bs2) b.
Proof.
  intros H1 H2 d o H.
  rewrite (bind_ok _ (H1 d o (at_app_l H))).
  rewrite (H2 d _ (at_app_r H)), len_app. now rewrite Z.add_assoc.
Qed.

Lemma reads_map {A B} (c : Reader A) (f : A -> B) bs a :
  reads c bs a -> reads (x <- c ;; ret (f x)) bs (f a).
Proof.
  intros H. rewrite <- (app_nil_r bs). eapply reads_bind; eauto. apply reads_ret.
Qed.

Lemma reads_lift {A B} (x : Result A) (k : A -> Reader B) bs a b :
  x = Ok a -> reads (k a) bs b -> reads (bind (lift x) k) bs b.
Proof.
  intros -> H d o Hat. unfold bind, lift. now apply H.
Qed.

Lemma reads_remaining {B} (k : Z -> Reader B) bs b :
  (forall rem, len bs <= rem -> reads (k rem) bs b) ->
  reads (bind (gets remaining) k) bs b.
Proof.
  intros H d o Hat. unfold bind, gets. apply H; [|assumption].
  unfold remaining. simpl. pose proof (at_bound Hat). lia.
Qed.

Lemma reads_read_bytes {bs n} : n = len bs -> reads (read_bytes n) bs bs.
Proof.
  intros -> d o H. unfold read_bytes. simpl.
  pose proof (at_bound H).
  destruct (Z.gtb_spec (o + len bs) (len d)); [lia|].
  now rewrite (py_slice_at H).
Qed.

Lemma reads_read_byte b : reads read_byte [b] (Z_of_byte b).
Proof.
  intros d o H. unfold read_byte.
  now rewrite (bind_ok _ (reads_read_bytes (bs := [b]) eq_refl _ _ H)).
Qed.

Lemma reads_skip_byte {B} (k : Reader B) b bs x :
  reads k bs x -> reads (read_byte ;; k) (b :: bs) x.
Proof.
  intros H. change (b :: bs) with ([b] ++ bs).
  eapply reads_bind; [apply reads_read_byte | exact H].
Qed.

Lemma reads_read_int32 {z bs} : pack_i32 z = Ok bs -> reads read_int32 bs z.
Proof.
  intros H d o Hat. destruct (unpack_pack_i32 _ _ H) as [U L].
  unfold read_int32.
  rewrite (bind_ok _ (reads_read_bytes (eq_sym L) _ _ Hat)).
  unfold lift. now rewrite U.
Qed.

Lemma reads_read_uint32 {z bs} : pack_u32 z = Ok bs -> reads read_uint32 bs z.
Proof.
  intros H d o Hat. destruct (unpack_pack_u32 _ _ H) as [U L].
  unfold read_uint32.
  rewrite (bind_ok _ (reads_read_bytes (eq_sym L) _ _ Hat)).
  unfold lift. now rewrite U.
Qed.

Lemma reads_read_int64 {z bs} : pack_i64 z = Ok bs -> reads read_int64 bs z.
Proof.
  intros H d o Hat. destruct (unpack_pack_i64 _ _ H) as [U L].
  unfold read_int64.
  rewrite (bind_ok _ (reads_read_bytes (eq_sym L) _ _ Hat)).
  unfold lift. now rewrite U.
Qed.

Lemma reads_read_float {b bs} : pack_f (Single b) = Ok bs -> reads read_float bs (Single b).
Proof.
  intros H d o Hat. destruct (unpack_pack_f _ _ H) as [U L].
  unfold read_float.
  rewrite (bind_ok _ (reads_read_bytes (eq_sym L) _ _ Hat)).
  unfold lift. now rewrite U.
Qed.

Lemma reads_read_double {b bs} : pack_d (Double b) = Ok bs -> reads read_double bs (Double b).
Proof.
  intros H d o Hat. destruct (unpack_pack_d _ _ H) as [U L].
  unfold read_double.
  rewrite (bind_ok _ (reads_read_bytes (eq_sym L) _ _ Hat)).
  unfold lift. now rewrite U.
Qed.

(** * Strings *)

Lemma str_eqb_eq (a b : pystr) : str_eqb a b = true <-> a = b.
Proof.
  revert b. induction a as [|x a IH]; intros [|y b]; simpl; split; try congruence; try discriminate.
  - intros H. apply andb_true_iff in H as [H1 H2].
    apply Z.eqb_eq in H1. apply IH in H2. congruence.
  - intros [= -> ->]. rewrite Z.eqb_refl. simpl. now apply IH.
Qed.

Lemma str_eqb_refl (a : pystr) : str_eqb a a = true.
Proof. now apply str_eqb_eq. Qed.

Lemma decode_encode_ascii (s : pystr) :
  forallb (in_range 0 128) s = true -> decode_ascii (List.map byte_of_Z s) = Ok s.
Proof.
  intros H. unfold decode_ascii.
  assert (E : forallb (fun b => Z_of_byte b <? 128) (List.map byte_of_Z s) = true
              /\ List.map Z_of_byte (List.map byte_of_Z s) = s).
  { induction s as [|c s IH]; [now split|].
    simpl in H. apply andb_true_iff in H as [Hc Hs].
    apply in_range_spec in Hc. destruct (IH Hs) as [E1 E2].
    simpl. rewrite E1, E2, Z_of_byte_of_Z, Z.mod_small by lia.
    split; [|reflexivity]. rewrite andb_true_r. apply Z.ltb_lt. lia. }
  destruct E as [-> ->]. reflexivity.
Qed.

Lemma encode_ascii_inv (s : pystr) :
  (forallb (in_range 0 128) s = true /\ encode_ascii s = Ok (List.map byte_of_Z s))
  \/ (forallb (in_range 0 128) s = false /\ encode_ascii s = Raise UnicodeEncodeError).
Proof.
  unfold encode_ascii. destruct (forallb _ s); auto.
Qed.

Lemma utf16_unit_value (c : Z) :
  0 <= c < 65536 ->
  Z_of_byte (byte_of_Z c) + 256 * Z_of_byte (byte_of_Z (c / 256)) = c.
Proof.
  intros H. rewrite !Z_of_byte_of_Z.
  rewrite (Z.mod_small (c / 256)).
  - pose proof (Z.div_mod c 256). lia.
  - split; [apply Z.div_pos; lia | apply Z.div_lt_upper_bound; lia].
Qed.

Lemma utf16_roundtrip (s : pystr) :
  forallb char_ok s = true ->
  exists e, encode_utf16le s = Ok e /\ decode_utf16le e = Ok s /\ len e = 2 * len s.
Proof.
  induction s as [|c s IH]; intros H.
  - exists []. now repeat split.
  - simpl in H. apply andb_true_iff in H as [Hc Hs].
    destruct (IH Hs) as (e & E1 & E2 & E3).
    unfold char_ok in Hc. apply andb_true_iff in Hc as [Hr Hn].
    apply negb_true_iff in Hn.
    exists (utf16_unit c ++ e). cbn [encode_utf16le]. rewrite Hn, Hr, E1.
    split; [reflexivity|]. apply in_range_spec in Hr.
    split.
    + unfold utf16_unit. cbn [app decode_utf16le].
      rewrite (utf16_unit_value c Hr).
      unfold is_surrogate in Hn.
      assert (in_range 55296 56320 c = false /\ in_range 56320 57344 c = false) as [-> ->].
      { unfold in_range in *. apply andb_false_iff in Hn.
        split; apply andb_false_iff; rewrite ?Z.leb_gt, ?Z.ltb_ge in *; lia. }
      destruct e as [|e0 [|e1 e']].
      * simpl in E2. now injection E2 as <-.
      * simpl in E2. discriminate.
      * rewrite E2. reflexivity.
    + unfold utf16_unit. rewrite len_app, !len_cons, len_nil, E3. lia.
Qed.

Lemma len_map {A B} (f : A -> B) (l : list A) : len (List.map f l) = len l.
Proof. unfold len. now rewrite length_map. Qed.

Lemma str_ok_len (s : pystr) : str_ok s = true -> len s + 1 < 2 ^ 31.
Proof.
  unfold str_ok. intros H. apply andb_true_iff in H as [_ H]. now apply Z.ltb_lt.
Qed.

Lemma reads_read_fstring (s : pystr) (bs : list byte) :
  str_ok s = true -> enc_fstring (Some s) = Ok bs -> reads read_fstring bs (Some s).
Proof.
  intros Hok Henc. pose proof (str_ok_len s Hok) as Hlen.
  pose proof (len_nonneg s) as Hs0.
  unfold enc_fstring in Henc.
  destruct (encode_ascii_inv s) as [[Ha Ea]|[Ha Ea]]; rewrite Ea in Henc.
  - unfold bindR in Henc.
    destruct (pack_i32 (len (List.map byte_of_Z s ++ [x00]))) as [l| |] eqn:El; try discriminate.
    apply Ok_inj in Henc. subst bs.
    rewrite len_app, len_map in El. change (len [x00]) with 1 in El.
    unfold read_fstring. eapply reads_bind; [exact (reads_read_int32 El)|].
    destruct (Z.eqb_spec (len s + 1) 0); [lia|].
    destruct (Z.eqb_spec (len s + 1) 1) as [E1|E1].
    + assert (s = []) as -> by (destruct s; [reflexivity | rewrite len_cons in E1; pose proof (len_nonneg s); lia]).
      simpl. apply reads_skip_byte, reads_ret.
    + destruct (Z.ltb_spec (len s + 1) 0); [lia|].
      rewrite <- (app_nil_r (_ ++ [x00])).
      eapply reads_bind.
      * apply reads_read_bytes. rewrite len_app, len_map. reflexivity.
      * rewrite py_slice_but_last. eapply reads_lift; [now apply decode_encode_ascii|].
        apply reads_ret.
  - unfold str_ok in Hok. apply andb_true_iff in Hok as [Hc _].
    destruct (utf16_roundtrip s Hc) as (e & E1 & E2 & E3).
    rewrite E1 in Henc. unfold bindR in Henc.
    destruct (pack_i32 (- (len s + 1))) as [l| |] eqn:El; try discriminate.
    apply Ok_inj in Henc. subst bs.
    unfold read_fstring. eapply reads_bind; [exact (reads_read_int32 El)|].
    destruct (Z.eqb_spec (- (len s + 1)) 0); [lia|].
    destruct (Z.eqb_spec (- (len s + 1)) 1); [lia|].
    destruct (Z.ltb_spec (- (len s + 1)) 0); [|lia].
    rewrite <- (app_nil_r (_ ++ [x00; x00])).
    eapply reads_bind.
    + apply reads_read_bytes. rewrite len_app, E3. change (len [x00; x00]) with 2. lia.
    + rewrite py_slice_but_last2. eapply reads_lift; [exact E2|]. apply reads_ret.
Qed.

Lemma reads_read_fstring_none (bs : list byte) :
  enc_fstring None = Ok bs -> reads read_fstring bs None.
Proof.
  intros H. unfold read_fstring. rewrite <- (app_nil_r bs).
  eapply reads_bind; [exact (reads_read_int32 H)|]. simpl. apply reads_ret.
Qed.

Lemma reads_read_fstring_opt (o : option pystr) (bs : list byte) :
  opt_str_ok o = true -> enc_fstring o = Ok bs -> reads read_fstring bs o.
Proof.
  destruct o; simpl; intros.
  - now apply reads_read_fstring.
  - now apply reads_read_fstring_none.
Qed.

(** * The writer appends *)

Lemma at_end_append (w : BinaryWriter) (bs : list byte) :
  at_end w -> at_end (append w bs).
Proof.
  unfold at_end, append. simpl. intros ->. now rewrite len_app.
Qed.

Lemma append_nil (w : BinaryWriter) : append w [] = w.
Proof.
  unfold append. destruct w. simpl. now rewrite app_nil_r, Z.add_0_r.
Qed.

Lemma append_app (w : BinaryWriter) (a b : list byte) :
  append (append w a) b = append w (a ++ b).
Proof.
  unfold append. simpl. rewrite len_app, app_assoc. f_equal. lia.
Qed.

Lemma stream_write_at_end (d : list byte) (w : BinaryWriter) :
  at_end w -> stream_write d w = append w d.
Proof.
  unfold at_end, stream_write, append. intros H.
  destruct d as [|b d]; [now rewrite <- (append_nil w) at 1|].
  rewrite H. f_equal. unfold len. rewrite Nat2Z.id.
  rewrite firstn_all, Nat.sub_diag, skipn_all2 by lia.
  simpl. now rewrite app_nil_r.
Qed.

(** Overwriting inside the stream, as the size patch does. *)
Lemma stream_write_patch (a old new b : list byte) (p : Z) :
  p = len a -> List.length old = List.length new -> new <> [] ->
  stream_write new (mkWriter (a ++ old ++ b) p) = mkWriter (a ++ new ++ b) (p + len new).
Proof.
  intros -> Hl Hn. unfold stream_write. cbn [stream wpos].
  destruct new as [|n0 new]; [congruence|].
  f_equal. unfold len. rewrite Nat2Z.id.
  rewrite firstn_app, Nat.sub_diag, firstn_all. cbn [firstn].
  rewrite app_nil_r, length_app.
  replace (List.length a - (List.length a + List.length (old ++ b)))%nat with O by lia.
  cbn [repeat app].
  rewrite skipn_app.
  rewrite skipn_all2 by lia.
  replace (List.length a + List.length (n0 :: new) - List.length a)%nat
    with (List.length old) by lia.
  rewrite skipn_app, Nat.sub_diag, skipn_all. simpl. reflexivity.
Qed.

Lemma emits_ok {A} {c : Writer A} {r f} (bs : list byte) (w : BinaryWriter) :
  emits c r f -> r = Ok bs -> at_end w -> c w = Ok (f bs, append w bs).
Proof. intros H -> Hw. exact (H w Hw). Qed.

Lemma emits_write_bytes (d : list byte) : emits (write_bytes d) (Ok d) len.
Proof.
  intros w Hw. unfold write_bytes. now rewrite stream_write_at_end.
Qed.

Lemma emits_lift_write (r : Result (list byte)) :
  emits (bs <- lift r ;; write_bytes bs) r len.
Proof.
  intros w Hw. unfold bind, lift. destruct r; auto.
  now apply emits_write_bytes.
Qed.

Lemma emits_write_int32 (z : Z) : emits (write_int32 z) (pack_i32 z) len.
Proof. apply emits_lift_write. Qed.

Lemma emits_write_uint32 (z : Z) : emits (write_uint32 z) (pack_u32 z) len.
Proof. apply emits_lift_write. Qed.

Lemma emits_write_int64 (z : Z) : emits (write_int64 z) (pack_i64 z) len.
Proof. apply emits_lift_write. Qed.

Lemma emits_write_float (x : PyFloat) : emits (write_float x) (pack_f x) len.
Proof. apply emits_lift_write. Qed.

Lemma emits_write_double (x : PyFloat) : emits (write_double x) (pack_d x) len.
Proof. apply emits_lift_write. Qed.

Lemma emits_write_byte0 : emits (write_byte 0) (Ok [x00]) len.
Proof. intros w Hw. unfold write_byte. simpl. now apply emits_write_bytes. Qed.

Lemma pack_i32_len (z : Z) (bs : list byte) : pack_i32 z = Ok bs -> len bs = 4.
Proof. intros H. now destruct (unpack_pack_i32 _ _ H). Qed.

(** One step of running a writer: replace the head of a [bind] by the
    bytes it appends, case by case on the byte function's result. *)
Ltac wstep L :=
  match goal with
  | Hw : at_end ?w |- _ =>
      unfold bind at 1; rewrite (L w Hw);
      match type of L with
      | emits _ ?r _ =>
          let E := fresh "E" in
          let Hw' := fresh "Hw" in
          let bs := fresh "bs" in
          destruct r as [bs| |] eqn:E; cbn [bindR];
          [ pose proof (at_end_append w bs Hw) as Hw'; clear Hw
          | reflexivity | reflexivity ]
      end
  end.

Lemma emits_write_fstring (o : option pystr) :
  emits (write_fstring o) (enc_fstring o) len.
Proof.
  intros w Hw. unfold write_fstring, enc_fstring.
  destruct o as [s|].
  - destruct (encode_ascii s) as [e|[]|] eqn:Ea; try reflexivity.
    + unfold bind at 1. rewrite (emits_write_int32 _ w Hw). unfold bindR.
      destruct (pack_i32 (len (e ++ [x00]))) as [l| |] eqn:El; try reflexivity.
      pose proof (at_end_append w l Hw) as Hw1.
      unfold bind. rewrite (emits_write_bytes _ _ Hw1). unfold ret.
      rewrite append_app, (len_app l), (pack_i32_len _ _ El). reflexivity.
    + unfold bind at 1, lift. unfold bindR.
      destruct (encode_utf16le s) as [e| |]; try reflexivity.
      unfold bind at 1. rewrite (emits_write_int32 _ w Hw).
      destruct (pack_i32 (- (len s + 1))) as [l| |] eqn:El; try reflexivity.
      pose proof (at_end_append w l Hw) as Hw1.
      unfold bind. rewrite (emits_write_bytes _ _ Hw1). unfold ret.
      rewrite append_app, (len_app l), (pack_i32_len _ _ El). reflexivity.
  - unfold bind. rewrite (emits_write_int32 _ w Hw).
    destruct (pack_i32 0) as [l| |] eqn:El; try reflexivity.
    unfold ret. now rewrite (pack_i32_len _ _ El).
Qed.

Lemma emits_bind {A B} (c : Writer A) (k : A -> Writer B) r1 f1 r2 f2 :
  emits c r1 f1 ->
  (forall bs, r1 = Ok bs -> emits (k (f1 bs)) (r2 bs) (f2 bs)) ->
  forall w, at_end w ->
    bind c k w = match r1 with
                 | Ok bs1 =>
                     match r2 bs1 with
                     | Ok bs2 => Ok (f2 bs1 bs2, append w (bs1 ++ bs2))
                     | Raise e => Raise e
                     | Stuck => Stuck
                     end
                 | Raise e => Raise e
                 | Stuck => Stuck
                 end.
Proof.
  intros H1 H2 w Hw. unfold bind. rewrite (H1 w Hw).
  destruct r1 as [bs1| |]; try reflexivity.
  rewrite (H2 bs1 eq_refl _ (at_end_append w bs1 Hw)).
  destruct (r2 bs1); try reflexivity. now rewrite append_app.
Qed.

Lemma emits_then_tt {A} (c : Writer A) r f :
  emits c r f -> emits (c ;; ret tt) r (fun _ => tt).
Proof.
  intros H w Hw. unfold bind. rewrite (H w Hw). now destruct r.
Qed.

Lemma emits_ext {A} (c : Writer A) r r' f :
  emits c r f -> r = r' -> emits c r' f.
Proof. now intros H <-. Qed.

Lemma emits_write_int_val wr pack v :
  (forall z, emits (wr z) (pack z) len) ->
  emits (write_int_val wr v) (enc_int_val pack v) len.
Proof.
  intros H. unfold write_int_val, enc_int_val.
  destruct (int_of_value v); [apply H | now intros w Hw].
Qed.

Lemma emits_write_float_val wr pack v :
  (forall x, emits (wr x) (pack x) len) ->
  emits (write_float_val wr v) (enc_float_val pack v) len.
Proof.
  intros H. unfold write_float_val, enc_float_val.
  destruct v; try (now intros w Hw). apply H.
Qed.

Lemma emits_write_fstring_val v :
  emits (write_fstring_val v) (enc_fstring_val v) len.
Proof.
  unfold write_fstring_val, enc_fstring_val.
  destruct v; try (now intros w Hw); apply emits_write_fstring.
Qed.

Lemma emits_write_simple (prop : FPropertyTag) :
  emits (_write_simple_property_value prop) (enc_simple_value prop) (fun _ => tt).
Proof.
  unfold _write_simple_property_value, enc_simple_value.
  repeat match goal with
         | |- context [if ?b then _ else _] => destruct b
         end;
    try (eapply emits_then_tt;
         first [ apply emits_write_int_val; intros;
                 first [apply emits_write_int32 | apply emits_write_uint32
                       | apply emits_write_int64]
               | apply emits_write_float_val; intros;
                 first [apply emits_write_float | apply emits_write_double]
               | apply emits_write_fstring_val ]).
  destruct (value prop); try (intros w Hw; unfold ret; now rewrite append_nil).
  eapply emits_then_tt, emits_write_bytes.
Qed.

Lemma emits_forM {A B} (c : A -> Writer B) (e : A -> Result (list byte)) f (xs : list A) :
  (forall x, In x xs -> emits (c x) (e x) (f x)) ->
  emits (forM xs c ;; ret tt) (enc_each e xs) (fun _ => tt).
Proof.
  induction xs as [|x xs IH]; intros H w Hw.
  - unfold bind. simpl. unfold ret. now rewrite append_nil.
  - cbn [forM enc_each]. unfold bind at 1 2.
    rewrite (H x (or_introl eq_refl) w Hw). unfold bindR.
    destruct (e x) as [a| |]; try reflexivity.
    specialize (IH (fun y Hy => H y (or_intror Hy)) _ (at_end_append w a Hw)).
    unfold bind in IH at 1. unfold bind at 1.
    destruct (forM xs c (append w a)) as [[ys w']| |];
      destruct (enc_each e xs) as [b| |]; try discriminate; try reflexivity;
      try assumption.
    unfold ret in *. injection IH as ->. now rewrite append_app.
Qed.

Lemma emits_float_fields (v : PyValue) (keys : list string) :
  emits (write_float_fields v keys) (enc_float_fields v keys) (fun _ => tt).
Proof.
  unfold write_float_fields, enc_float_fields. apply (emits_forM _ _ (fun _ => len)).
  intros k _ w Hw. unfold bind, lift.
  destruct (dict_get v k (VFloat (Single 0))); try reflexivity.
  cbn [bindR]. apply emits_write_float_val; [apply emits_write_float | assumption].
Qed.

Lemma emits_write_core_struct (prop : FPropertyTag) (st : option pystr) :
  emits (_write_core_struct prop st) (enc_core_struct prop st) (fun _ => tt).
Proof.
  unfold _write_core_struct, enc_core_struct.
  set (v := if truthy (value prop) then value prop else VDict []). clearbody v.
  repeat match goal with
         | |- context [if ?b then _ else _] => destruct b
         end; try apply emits_float_fields.
  - intros w Hw. unfold bind at 1 2 3 4 5, lift.
    destruct (dict_get v "b" (VInt 0)) as [b| |]; try reflexivity.
    destruct (dict_get v "g" (VInt 0)) as [g| |]; try reflexivity.
    destruct (dict_get v "r" (VInt 0)) as [r| |]; try reflexivity.
    destruct (dict_get v "a" (VInt 0)) as [a| |]; try reflexivity.
    cbn [bindR]. destruct (bytes_of_values [b; g; r; a]) as [bs| |]; try reflexivity.
    apply (emits_then_tt _ _ _ (emits_write_bytes bs)). assumption.
  - destruct v; try (eapply emits_then_tt, emits_write_bytes).
    intros w Hw. unfold bind at 1, lift.
    destruct (fromhex s) as [bs| |]; try reflexivity.
    apply (emits_then_tt _ _ _ (emits_write_bytes bs)). assumption.
  - eapply emits_then_tt, emits_write_int64.
  - intros w Hw. unfold ret. now rewrite append_nil.
Qed.

Lemma emits_write_array_item (inner : option pystr) (v : PyValue) :
  emits (write_array_item inner v) (enc_array_item inner v) (fun _ => tt).
Proof.
  unfold write_array_item, enc_array_item.
  repeat match goal with
         | |- context [if ?b then _ else _] => destruct b
         end.
  - eapply emits_then_tt, emits_write_int_val. apply emits_write_int32.
  - eapply emits_then_tt, emits_write_float_val. apply emits_write_float.
  - eapply emits_then_tt, emits_write_fstring_val.
  - intros w Hw. unfold ret. now rewrite append_nil.
Qed.

Lemma emits_write_prototype (prop : FPropertyTag) (n : Z) :
  emits (_write_prototype_tag prop n) (enc_prototype_tag prop n) (fun _ => tt).
Proof.
  intros w Hw. unfold _write_prototype_tag, enc_prototype_tag.
  wstep (emits_write_fstring (Some (name prop))).
  wstep (emits_write_fstring (type_name prop)).
  wstep (emits_write_int32 n).
  wstep (emits_write_int32 0).
  wstep (emits_write_fstring (struct_type prop)).
  match goal with
  | Hw : at_end _ |- _ =>
      unfold bind; rewrite (emits_write_bytes _ _ Hw),
                           (emits_write_byte0 _ (at_end_append _ _ Hw))
  end.
  unfold ret. rewrite !append_app. repeat (f_equal; rewrite <- ?app_assoc).
Qed.

(** * The writer computes the byte function *)

Section WriterRefinement.

Variable write_child : FPropertyTag -> Writer Z.
Variable enc_child : FPropertyTag -> Result (list byte).

Lemma emits_write_all (props : list FPropertyTag) :
  (forall c, In c props -> emits (write_child c) (enc_child c) len) ->
  forall total,
    emits (write_all write_child props total) (enc_each enc_child props)
          (fun bs => total + len bs).
Proof.
  induction props as [|p props IH]; intros H total w Hw.
  - simpl. unfold ret. rewrite append_nil, len_nil. do 2 f_equal; lia.
  - cbn [write_all enc_each]. unfold bind at 1.
    rewrite (H p (or_introl eq_refl) w Hw). unfold bindR.
    destruct (enc_child p) as [a| |]; try reflexivity.
    rewrite (IH (fun c Hc => H c (or_intror Hc)) _ _ (at_end_append w a Hw)).
    destruct (enc_each enc_child props) as [b| |]; try reflexivity.
    rewrite append_app, len_app. do 2 f_equal; lia.
Qed.

Lemma emits_write_properties_with (props : list FPropertyTag) (trailing : bool) :
  (forall c, In c props -> emits (write_child c) (enc_child c) len) ->
  emits (write_properties_with write_child props trailing)
        (enc_properties_with enc_child props trailing) len.
Proof.
  intros H w Hw. unfold write_properties_with, enc_properties_with.
  wstep (emits_write_all props H 0).
  wstep (emits_write_fstring (Some (lit "None"))).
  destruct trailing.
  - match goal with
    | Hw : at_end _ |- _ => unfold bind; rewrite (emits_write_bytes _ _ Hw)
    end.
    unfold ret. rewrite !append_app, !len_app.
    change (len [x00; x00; x00; x00]) with 4. do 2 f_equal; lia.
  - unfold ret. rewrite app_nil_r, !append_app, !len_app. do 2 f_equal; lia.
Qed.

Lemma emits_write_elements (elems : list FPropertyTag) :
  (forall e c, In e elems -> In c (nested e) ->
               emits (write_child c) (enc_child c) len) ->
  emits (write_elements write_child elems) (enc_elements enc_child elems)
        (fun _ => tt).
Proof.
  unfold enc_elements.
  induction elems as [|e elems IH]; intros H w Hw.
  - simpl. unfold ret. now rewrite append_nil.
  - cbn [write_elements enc_each].
    wstep (emits_write_properties_with (nested e) false
             (fun c Hc => H e c (or_introl eq_refl) Hc)).
    match goal with
    | Hw : at_end _ |- _ =>
        rewrite (IH (fun e' c He Hc => H e' c (or_intror He) Hc) _ Hw)
    end.
    destruct (enc_each _ elems); try reflexivity. now rewrite append_app.
Qed.

Lemma at_end_new_writer : at_end new_writer.
Proof. reflexivity. Qed.

Lemma emits_write_array_value_with (prop : FPropertyTag) :
  (forall e c, In e (nested prop) -> In c (nested e) ->
               emits (write_child c) (enc_child c) len) ->
  emits (write_array_value_with write_child prop)
        (enc_array_value_with enc_child prop) (fun _ => tt).
Proof.
  intros H w Hw. unfold write_array_value_with, enc_array_value_with.
  wstep (emits_write_int32 (array_count prop)).
  destruct (is_str (inner_type prop) (lit "StructProperty")).
  - rewrite (emits_write_elements (nested prop) H _ at_end_new_writer).
    destruct (enc_elements enc_child (nested prop)) as [ed| |]; try reflexivity.
    cbn [bindR]. change (get_bytes (append new_writer ed)) with ed.
    wstep (emits_write_prototype (array_prototype prop) (len ed)).
    match goal with
    | Hw : at_end _ |- _ => unfold bind; rewrite (emits_write_bytes _ _ Hw)
    end.
    unfold ret. now rewrite !append_app.
  - destruct (is_str (inner_type prop) (lit "ByteProperty")).
    + unfold bind at 1, lift.
      destruct (bytes_of_value (value prop)) as [vb| |]; try reflexivity.
      cbn [bindR].
      match goal with
      | Hw : at_end _ |- _ => unfold bind; rewrite (emits_write_bytes _ _ Hw)
      end.
      unfold ret. now rewrite !append_app.
    + destruct (value prop); try (unfold ret; reflexivity).
      match goal with
      | Hw : at_end _ |- _ =>
          rewrite (emits_forM _ _ (fun _ _ => tt) l
                     (fun v _ => emits_write_array_item (inner_type prop) v) _ Hw)
      end.
      destruct (enc_each _ l); try reflexivity. now rewrite append_app.
Qed.
End WriterRefinement.

Section PropertyRefinement.

Variable write_child : FPropertyTag -> Writer Z.
Variable enc_child : FPropertyTag -> Result (list byte).
Variable prop : FPropertyTag.

Hypothesis children :
  forall c, In c (nested prop) -> emits (write_child c) (enc_child c) len.
Hypothesis grandchildren :
  forall e c, In e (nested prop) -> In c (nested e) ->
              emits (write_child c) (enc_child c) len.

Lemma emits_write_struct_value_with :
  emits (write_struct_value_with write_child prop)
        (enc_struct_value_with enc_child prop) (fun _ => tt).
Proof.
  unfold write_struct_value_with, enc_struct_value_with.
  destruct (is_core_struct (struct_type prop)).
  - apply emits_write_core_struct.
  - eapply emits_then_tt, emits_write_properties_with, children.
Qed.

Lemma wposition_bind {B} (k : Z -> Writer B) (w : BinaryWriter) :
  bind wposition k w = k (wpos w) w.
Proof. reflexivity. Qed.

(** A value written between two readings of the cursor: the
    difference of the two positions is the length of the value. *)
Lemma emits_measured {A} (c : Writer A) (r : Result (list byte)) f (w : BinaryWriter) :
  emits c r f -> at_end w ->
  (value_start <- wposition ;; c ;; pos <- wposition ;; ret (pos - value_start)) w
  = match r with
    | Ok v => Ok (len v, append w v)
    | Raise e => Raise e
    | Stuck => Stuck
    end.
Proof.
  intros H Hw. rewrite wposition_bind. unfold bind at 1. rewrite (H w Hw).
  destruct r as [v| |]; try reflexivity.
  rewrite wposition_bind. unfold ret, append. cbn [wpos]. do 2 f_equal. lia.
Qed.

Lemma emits_body (w : BinaryWriter) :
  at_end w ->
  write_body_with write_child prop w = match enc_body_with enc_child prop with
                  | Ok (h, v, size) => Ok (size, append w (h ++ v))
                  | Raise e => Raise e
                  | Stuck => Stuck
                  end.
Proof.
  intros Hw. unfold write_body_with, enc_body_with.
  destruct (is_str (type_name prop) (lit "ArrayProperty")).
  { wstep (emits_write_fstring (inner_type prop)).
    unfold bind at 1. rewrite (emits_write_byte0 _ Hw0).
    rewrite (emits_measured _ _ _ _ (emits_write_array_value_with _ _ _ grandchildren)
               (at_end_append _ _ Hw0)).
    destruct (enc_array_value_with enc_child prop); try reflexivity.
    cbn [bindR]. now rewrite !append_app, <- !app_assoc. }
  destruct (is_str (type_name prop) (lit "StructProperty")).
  { wstep (emits_write_fstring (struct_type prop)).
    unfold bind at 1. rewrite (emits_write_bytes _ _ Hw0).
    rewrite (emits_measured _ _ _ _ emits_write_struct_value_with
               (at_end_append _ _ Hw0)).
    destruct (enc_struct_value_with enc_child prop); try reflexivity.
    cbn [bindR]. now rewrite !append_app, <- !app_assoc. }
  destruct (is_str (type_name prop) (lit "EnumProperty")).
  { wstep (emits_write_fstring (enum_type prop)).
    unfold bind at 1. rewrite (emits_write_byte0 _ Hw0).
    rewrite (emits_measured _ _ _ _
               (emits_write_fstring_val (value prop))
               (at_end_append _ _ Hw0)).
    destruct (enc_fstring_val (value prop)); try reflexivity.
    cbn [bindR]. now rewrite !append_app, <- !app_assoc. }
  destruct (is_str (type_name prop) (lit "BoolProperty")).
  { unfold bind, write_byte.
    assert (in_range 0 256 (if truthy (value prop) then 1 else 0) = true) as ->
      by (now destruct (truthy (value prop))).
    rewrite (emits_write_bytes _ _ Hw). cbn [in_range Z.leb Z.ltb Z.compare andb].
    rewrite (emits_write_bytes _ _ (at_end_append _ _ Hw)).
    unfold ret. now rewrite append_app, app_nil_r. }
  unfold bind at 1. rewrite (emits_write_byte0 _ Hw).
  rewrite (emits_measured _ _ _ _ (emits_write_simple prop) (at_end_append _ _ Hw)).
  destruct (enc_simple_value prop); try reflexivity.
  cbn [bindR]. now rewrite !append_app.
Qed.
End PropertyRefinement.

Lemma emits_write_int32_0 : emits (write_int32 0) (Ok (le_bytes 4 0)) len.
Proof. exact (emits_write_int32 0). Qed.

Lemma at_end_nonneg (w : BinaryWriter) : at_end w -> 0 <= wpos w.
Proof. unfold at_end. intros ->. apply len_nonneg. Qed.

Section PropertyPatch.

Variable write_child : FPropertyTag -> Writer Z.
Variable enc_child : FPropertyTag -> Result (list byte).
Variable prop : FPropertyTag.

Hypothesis children :
  forall c, In c (nested prop) -> emits (write_child c) (enc_child c) len.
Hypothesis grandchildren :
  forall e c, In e (nested prop) -> In c (nested e) ->
              emits (write_child c) (enc_child c) len.

(** Seeking back to the reserved size field, writing the size and
    seeking to the end again. *)
Lemma patch_size (w : BinaryWriter) (nm ty rest sz : list byte) (size : Z) :
  at_end w -> pack_i32 size = Ok sz ->
  (end_pos <- wposition ;;
   seek (wpos (append (append w nm) ty)) ;;
   write_int32 size ;;
   seek end_pos ;;
   pos <- wposition ;;
   ret (pos - wpos w))
    (append w (nm ++ ty ++ le_bytes 4 0 ++ rest))
  = Ok (len (nm ++ ty ++ sz ++ rest), append w (nm ++ ty ++ sz ++ rest)).
Proof.
  intros Hw Hsz. pose proof (at_end_nonneg w Hw) as H0.
  pose proof (pack_i32_len _ _ Hsz) as Lsz.
  pose proof (len_nonneg nm). pose proof (len_nonneg ty). pose proof (len_nonneg rest).
  rewrite wposition_bind. unfold append. cbn [wpos stream].
  unfold bind at 1. unfold seek at 1.
  destruct (Z.ltb_spec (wpos w + len nm + len ty) 0); [lia|].
  unfold bind at 1. unfold write_int32, bind at 1, lift. rewrite Hsz.
  unfold write_bytes.
  replace (stream w ++ nm ++ ty ++ le_bytes 4 0 ++ rest)
    with ((stream w ++ nm ++ ty) ++ le_bytes 4 0 ++ rest)
    by (now rewrite <- !app_assoc).
  rewrite (stream_write_patch (stream w ++ nm ++ ty) (le_bytes 4 0) sz rest).
  - unfold bind at 1. unfold seek. cbn [wpos stream].
    rewrite !len_app, len_le_bytes.
    destruct (Z.ltb_spec (wpos w + (len nm + (len ty + (Z.of_nat 4 + len rest)))) 0);
      [lia|].
    rewrite wposition_bind. unfold ret. cbn [wpos stream].
    rewrite <- !app_assoc, Lsz. change (Z.of_nat 4) with 4.
    do 2 f_equal. lia.
  - rewrite !len_app. rewrite <- Hw. lia.
  - rewrite length_le_bytes. unfold len in Lsz. lia.
  - intros ->. discriminate.
Qed.

Lemma emits_write_property_with :
  emits (write_property_with write_child prop) (enc_property_with enc_child prop) len.
Proof.
  intros w Hw. unfold write_property_with, enc_property_with.
  rewrite wposition_bind.
  unfold bind at 1. rewrite (emits_write_fstring (Some (name prop)) w Hw).
  destruct (enc_fstring (Some (name prop))) as [nm| |]; try reflexivity.
  cbn [bindR]. pose proof (at_end_append w nm Hw) as Hw1.
  unfold bind at 1. rewrite (emits_write_fstring (type_name prop) _ Hw1).
  destruct (enc_fstring (type_name prop)) as [ty| |]; try reflexivity.
  cbn [bindR]. pose proof (at_end_append _ ty Hw1) as Hw2.
  rewrite wposition_bind.
  unfold bind at 1. rewrite (emits_write_int32_0 _ Hw2).
  pose proof (at_end_append _ (le_bytes 4 0) Hw2) as Hw3.
  unfold bind at 1. rewrite (emits_write_int32_0 _ Hw3).
  pose proof (at_end_append _ (le_bytes 4 0) Hw3) as Hw4.
  unfold bind at 1.
  rewrite (emits_body write_child enc_child prop children grandchildren _ Hw4).
  destruct (enc_body_with enc_child prop) as [[[h v] size]| |]; try reflexivity.
  cbn [bindR]. destruct (pack_i32 size) as [sz| |] eqn:Esz.
  - cbn [bindR]. rewrite !append_app, <- !app_assoc.
    rewrite <- (append_app w nm ty).
    exact (patch_size w nm ty _ sz size Hw Esz).
  - cbn [bindR]. rewrite wposition_bind. unfold bind at 1, seek.
    pose proof (at_end_nonneg _ Hw2).
    destruct (Z.ltb_spec (wpos (append (append w nm) ty)) 0); [lia|].
    unfold bind at 1, write_int32, bind at 1, lift. now rewrite Esz.
  - cbn [bindR]. rewrite wposition_bind. unfold bind at 1, seek.
    pose proof (at_end_nonneg _ Hw2).
    destruct (Z.ltb_spec (wpos (append (append w nm) ty)) 0); [lia|].
    unfold bind at 1, write_int32, bind at 1, lift. now rewrite Esz.
Qed.
End PropertyPatch.

Lemma tag_depth_child (p c : FPropertyTag) :
  In c (nested p) -> (tag_depth c < tag_depth p)%nat.
Proof.
  intros H. destruct p as [n t v i s e en ns]. cbn [nested] in H. cbn [tag_depth nested].
  assert (Hle : (list_max (List.map tag_depth ns) <= list_max (List.map tag_depth ns))%nat)
    by lia.
  rewrite list_max_le in Hle. rewrite Forall_forall in Hle.
  specialize (Hle (tag_depth c) (in_map tag_depth ns c H)). lia.
Qed.

Lemma write_property_unfold (p : FPropertyTag) :
  _write_property p = write_property_with _write_property p.
Proof. now destruct p. Qed.

Lemma enc_property_unfold (p : FPropertyTag) :
  enc_property p = enc_property_with enc_property p.
Proof. now destruct p. Qed.

(** The writer, with its seek-and-patch of the size field, produces the
    bytes of [enc_property] and returns their number. *)
Lemma emits_write_property (p : FPropertyTag) :
  emits (_write_property p) (enc_property p) len.
Proof.
  remember (tag_depth p) as n eqn:En.
  revert p En. induction n as [n IH] using lt_wf_ind. intros p ->.
  rewrite write_property_unfold, enc_property_unfold.
  apply emits_write_property_with.
  - intros c Hc. apply (IH (tag_depth c)); [now apply tag_depth_child | reflexivity].
  - intros e c He Hc. apply (IH (tag_depth c)); [|reflexivity].
    pose proof (tag_depth_child _ _ He). pose proof (tag_depth_child _ _ Hc). lia.
Qed.

Lemma emits_write_properties (ps : list FPropertyTag) (trailing : bool) :
  emits (_write_properties ps trailing) (enc_properties ps trailing) len.
Proof.
  apply emits_write_properties_with. intros c _. apply emits_write_property.
Qed.

Lemma serialize_enc (ps : list FPropertyTag) (trailing : bool) :
  serialize ps trailing = enc_properties ps trailing.
Proof.
  unfold serialize.
  rewrite (emits_write_properties ps trailing new_writer at_end_new_writer).
  destruct (enc_properties ps trailing); reflexivity.
Qed.

(** * Reading back what the encoder produced *)

Lemma reads_ext {A} (c : Reader A) bs bs' a a' :
  reads c bs a -> bs = bs' -> a = a' -> reads c bs' a'.
Proof. now intros H <- <-. Qed.

Lemma reads_value_of_fstring (v : PyValue) (bs : list byte) :
  fstring_value_ok v = true -> enc_fstring_val v = Ok bs ->
  reads (x <- read_fstring ;; ret (value_of_fstring x)) bs v.
Proof.
  intros Hok Henc. destruct v; try discriminate; simpl in *.
  - apply (reads_map read_fstring value_of_fstring bs None).
    now apply reads_read_fstring_none.
  - apply (reads_map read_fstring value_of_fstring bs (Some s)).
    now apply reads_read_fstring.
Qed.

Lemma int_ok_inv lo hi v : int_ok lo hi v = true -> exists z, v = VInt z /\ lo <= z < hi.
Proof.
  destruct v; try discriminate. simpl. intros H. apply in_range_spec in H. eauto.
Qed.

Lemma single_ok_inv v : single_ok v = true -> exists b, v = VFloat (Single b).
Proof. destruct v as [| | |[]| | | |]; try discriminate. eauto. Qed.

Lemma double_ok_inv v : double_ok v = true -> exists b, v = VFloat (Double b).
Proof. destruct v as [| | |[]| | | |]; try discriminate. eauto. Qed.

Lemma reads_simple_value (n : pystr) (ty : option pystr) (v : PyValue)
      (prop : FPropertyTag) (val : list byte) :
  type_name prop = ty -> value prop = v ->
  simple_value_ok ty v = true -> enc_simple_value prop = Ok val ->
  reads (_read_simple_value (new_tag n ty) ty (len val)) val
        (set_value v (new_tag n ty)).
Proof.
  intros Ht Hv Hok Henc. unfold simple_value_ok in Hok.
  unfold enc_simple_value in Henc. rewrite Ht, Hv in Henc.
  unfold _read_simple_value.
  destruct (is_str ty (lit "IntProperty")).
  { destruct (int_ok_inv _ _ _ Hok) as (z & -> & _).
    apply (reads_map read_int32 (fun v => set_value (VInt v) _)).
    now apply reads_read_int32. }
  destruct (is_str ty (lit "UInt32Property")).
  { destruct (int_ok_inv _ _ _ Hok) as (z & -> & _).
    apply (reads_map read_uint32 (fun v => set_value (VInt v) _)).
    now apply reads_read_uint32. }
  destruct (is_str ty (lit "Int64Property")).
  { destruct (int_ok_inv _ _ _ Hok) as (z & -> & _).
    apply (reads_map read_int64 (fun v => set_value (VInt v) _)).
    now apply reads_read_int64. }
  destruct (is_str ty (lit "FloatProperty")).
  { destruct (single_ok_inv _ Hok) as (b & ->).
    apply (reads_map read_float (fun v => set_value (VFloat v) _)).
    now apply reads_read_float. }
  destruct (is_str ty (lit "DoubleProperty")).
  { destruct (double_ok_inv _ Hok) as (b & ->).
    apply (reads_map read_double (fun v => set_value (VFloat v) _)).
    now apply reads_read_double. }
  destruct (is_str ty (lit "StrProperty") || is_str ty (lit "NameProperty")).
  { destruct v; try discriminate; simpl in *.
    - apply (reads_map read_fstring
               (fun v => set_value (match v with Some s => VStr s | None => VNone end) _)
               val None).
      now apply reads_read_fstring_none.
    - apply (reads_map read_fstring
               (fun v => set_value (match v with Some s => VStr s | None => VNone end) _)
               val (Some s)).
      now apply reads_read_fstring. }
  destruct v; try discriminate.
  - apply Ok_inj in Henc. subst val. simpl. apply reads_ret.
  - apply Ok_inj in Henc. subst val.
    destruct bs as [|b bs]; [discriminate|].
    assert (0 < len (b :: bs)) by (rewrite len_cons; pose proof (len_nonneg bs); lia).
    destruct (Z.gtb_spec (len (b :: bs)) 0); [|lia].
    apply (reads_map (read_bytes (len (b :: bs))) (fun v => set_value (VBytes v) _)).
    now apply reads_read_bytes.
Qed.

Lemma reads_repeatM {A} (c : Reader A) (e : A -> Result (list byte)) (l : list A) :
  (forall x b, In x l -> e x = Ok b -> reads c b x) ->
  forall bs, enc_each e l = Ok bs -> reads (repeatM (List.length l) c) bs l.
Proof.
  induction l as [|x l IH]; intros H bs Henc.
  - apply Ok_inj in Henc. subst bs. apply reads_ret.
  - cbn [enc_each] in Henc. unfold bindR in Henc.
    destruct (e x) as [a| |] eqn:Ex; try discriminate.
    destruct (enc_each e l) as [b| |] eqn:El; try discriminate.
    apply Ok_inj in Henc. subst bs. cbn [List.length repeatM].
    eapply reads_bind; [apply (H x a (or_introl eq_refl) Ex)|].
    apply (reads_map _ (fun xs => x :: xs)).
    apply IH; [|reflexivity]. intros y b' Hy. apply H. now right.
Qed.

Lemma bytes_of_values_ok (l : list PyValue) (bs : list byte) :
  forallb (int_ok 0 256) l = true -> bytes_of_values l = Ok bs ->
  List.map (fun b => VInt (Z_of_byte b)) bs = l /\ len bs = len l.
Proof.
  revert bs. induction l as [|v l IH]; intros bs Hok H.
  - apply Ok_inj in H. now subst bs.
  - simpl in Hok. apply andb_true_iff in Hok as [Hv Hl].
    destruct (int_ok_inv _ _ _ Hv) as (z & -> & Hz).
    cbn [bytes_of_values int_of_value] in H.
    destruct (in_range 0 256 z); [|discriminate].
    destruct (bytes_of_values l) as [bs'| |]; try discriminate.
    apply Ok_inj in H. subst bs. destruct (IH bs' Hl eq_refl) as [E1 E2].
    cbn [List.map]. rewrite E1, Z_of_byte_of_Z, Z.mod_small, !len_cons, E2 by lia.
    now split.
Qed.

Lemma len_to_nat {A} (l : list A) : Z.to_nat (len l) = List.length l.
Proof. unfold len. apply Nat2Z.id. Qed.

Lemma forallb_In {A} (f : A -> bool) (l : list A) (x : A) :
  forallb f l = true -> In x l -> f x = true.
Proof. intros H. rewrite forallb_forall in H. apply H. Qed.

Lemma reads_array_scalars (it : pystr) (prop : FPropertyTag) (val : list byte)
      (enc_child : FPropertyTag -> Result (list byte)) :
  inner_type prop = Some it -> str_eqb it (lit "StructProperty") = false ->
  array_value_ok it (value prop) = true ->
  enc_array_value_with enc_child prop = Ok val ->
  forall f prop0 size,
    inner_type prop0 = Some it ->
    reads (_read_array_value (S f) prop0 size) val (set_value (value prop) prop0).
Proof.
  intros Hit Hns Hok Henc f prop0 size Hit0.
  unfold enc_array_value_with, array_count in Henc.
  cbn [_read_array_value]. rewrite Hit0. rewrite Hit in Henc.
  cbn [is_str] in *. rewrite Hns in *.
  unfold array_value_ok in Hok.
  destruct (value prop) as [| | | | | |l|]; try discriminate.
  unfold bindR in Henc.
  destruct (pack_i32 (len l)) as [c| |] eqn:Ec; try discriminate.
  destruct (str_eqb it (lit "ByteProperty")).
  { cbn [bytes_of_value] in Henc.
    destruct (bytes_of_values l) as [bs| |] eqn:Eb; try discriminate.
    apply Ok_inj in Henc. subst val.
    eapply reads_bind; [exact (reads_read_int32 Ec)|].
    destruct (bytes_of_values_ok l bs Hok Eb) as [E1 E2].
    rewrite <- E1 at 2. rewrite <- E2.
    apply (reads_map (read_bytes (len bs))
             (fun bs => set_value (VList (List.map (fun b => VInt (Z_of_byte b)) bs)) prop0)).
    now apply reads_read_bytes. }
  destruct (enc_each (enc_array_item (Some it)) l) as [items| |] eqn:Ei; try discriminate.
  apply Ok_inj in Henc. subst val.
  eapply reads_bind; [exact (reads_read_int32 Ec)|].
  apply (reads_map _ (fun vs => set_value (VList vs) prop0)).
  rewrite len_to_nat. apply (reads_repeatM _ (enc_array_item (Some it))); [|assumption].
  intros x b Hx Hb. unfold enc_array_item, read_array_item in *. cbn [is_str] in *.
  destruct (str_eqb it (lit "IntProperty")).
  { destruct (int_ok_inv _ _ _ (forallb_In _ _ _ Hok Hx)) as (z & -> & _).
    apply (reads_map read_int32 VInt). now apply reads_read_int32. }
  destruct (str_eqb it (lit "FloatProperty")).
  { destruct (single_ok_inv _ (forallb_In _ _ _ Hok Hx)) as (z & ->).
    apply (reads_map read_float VFloat). now apply reads_read_float. }
  destruct (str_eqb it (lit "StrProperty")).
  { apply reads_value_of_fstring; [exact (forallb_In _ _ _ Hok Hx) | assumption]. }
  destruct l; [destruct Hx | discriminate].
Qed.

Ltac split_andb :=
  repeat match goal with
         | H : _ && _ = true |- _ => apply andb_true_iff in H; destruct H
         end.

(** Break a dictionary check into its entries. *)
Ltac dict_inv :=
  repeat match goal with
         | H : value_dict_ok _ _ ?v = true |- _ =>
             destruct v; try discriminate H; unfold value_dict_ok in H
         | H : dict_ok _ _ ?d = true |- _ =>
             destruct d as [|[? ?] ?]; cbn [dict_ok] in H; try discriminate H;
             split_andb
         | H : match ?d with [] => _ | _ :: _ => _ end = true |- _ =>
             destruct d as [|[? ?] ?]; try discriminate H; split_andb
         | H : str_eqb ?k (lit _) = true |- _ => apply str_eqb_eq in H; subst k
         | H : single_ok ?v = true |- _ =>
             let b := fresh "b" in
             apply single_ok_inv in H; destruct H as (b & ->)
         | H : int_ok _ _ ?v = true |- _ =>
             let z := fresh "z" in
             let Hz := fresh "Hz" in
             apply int_ok_inv in H; destruct H as (z & -> & Hz)
         end.

Lemma enc_float_val_single (b : Z) :
  enc_float_val pack_f (VFloat (Single b)) = pack_f (Single b).
Proof. reflexivity. Qed.

(** Pull the successful results out of a chain of encodings. *)
Ltac enc_inv :=
  repeat match goal with
         | H : bindR ?x _ = Ok _ |- _ =>
             let bs := fresh "bs" in
             let E := fresh "E" in
             destruct x as [bs| |] eqn:E; cbn [bindR] in H; try discriminate H
         | H : Ok _ = Ok ?v |- _ => apply Ok_inj in H; subst v
         end.

Lemma reads_float_triple (a b c : string) (x y z : Z) (bx bq bz : list byte) :
  pack_f (Single x) = Ok bx -> pack_f (Single y) = Ok bq -> pack_f (Single z) = Ok bz ->
  reads (float_triple a b c) (bx ++ bq ++ bz)
        (VDict [(lit a, VFloat (Single x)); (lit b, VFloat (Single y));
                (lit c, VFloat (Single z))]).
Proof.
  intros Hx Hy Hz. unfold float_triple.
  eapply reads_bind; [exact (reads_read_float Hx)|].
  eapply reads_bind; [exact (reads_read_float Hy)|].
  apply (reads_map read_float
           (fun z => VDict [(lit a, VFloat (Single x)); (lit b, VFloat (Single y));
                            (lit c, VFloat z)])).
  exact (reads_read_float Hz).
Qed.

Lemma reads_float_quad (a b c e : string) (x y z w : Z) (bx bq bz bw : list byte) :
  pack_f (Single x) = Ok bx -> pack_f (Single y) = Ok bq ->
  pack_f (Single z) = Ok bz -> pack_f (Single w) = Ok bw ->
  reads (float_quad a b c e) (bx ++ bq ++ bz ++ bw)
        (VDict [(lit a, VFloat (Single x)); (lit b, VFloat (Single y));
                (lit c, VFloat (Single z)); (lit e, VFloat (Single w))]).
Proof.
  intros Hx Hy Hz Hw. unfold float_quad.
  eapply reads_bind; [exact (reads_read_float Hx)|].
  eapply reads_bind; [exact (reads_read_float Hy)|].
  eapply reads_bind; [exact (reads_read_float Hz)|].
  apply (reads_map read_float
           (fun w => VDict [(lit a, VFloat (Single x)); (lit b, VFloat (Single y));
                            (lit c, VFloat (Single z)); (lit e, VFloat w)])).
  exact (reads_read_float Hw).
Qed.

Lemma reads_core_struct (st : option pystr) (prop prop0 : FPropertyTag) (val : list byte) :
  core_value_ok st (value prop) = true ->
  enc_core_struct prop st = Ok val ->
  reads (_read_core_struct prop0 st) val (set_value (value prop) prop0).
Proof.
  intros Hok Henc. unfold core_value_ok in Hok.
  unfold enc_core_struct in Henc. unfold _read_core_struct.
  destruct (value prop) as [| |z| |s| | |d] eqn:Ev.
  all: repeat match goal with
         | |- context [if ?c then _ else _] => destruct c
         end; try discriminate.
  all: unfold value_dict_ok in Hok.
  (* DateTime, Timespan *)
  1: { apply int_ok_inv in Hok. destruct Hok as (z' & [= <-] & Hz).
       apply (reads_map read_int64 (fun v => set_value (VInt v) prop0)).
       apply reads_read_int64.
       cbn [truthy] in Henc. destruct (Z.eqb_spec z 0) as [->|]; exact Henc. }
  (* Guid *)
  1: { destruct (fromhex s) as [bs| |] eqn:Eh; try discriminate.
       apply andb_true_iff in Hok as [Hl Hs].
       apply Z.eqb_eq in Hl. apply str_eqb_eq in Hs.
       assert (truthy (VStr s) = true) as Ht.
       { cbn [truthy]. rewrite <- Hs. unfold hex_of_bytes.
         destruct bs; [discriminate Hl | reflexivity]. }
       rewrite Ht, Eh in Henc. apply Ok_inj in Henc. subst val.
       rewrite <- Hs.
       apply (reads_map (read_bytes 16) (fun bs => set_value (VStr (hex_of_bytes bs)) prop0)).
       now apply reads_read_bytes. }
  all: dict_inv.
  6: { assert (in_range 0 256 z = true /\ in_range 0 256 z0 = true
               /\ in_range 0 256 z1 = true /\ in_range 0 256 z2 = true) as (R & R0 & R1 & R2)
         by (rewrite !in_range_spec; auto).
       cbn -[in_range] in Henc.
       rewrite R, R0, R1, R2 in Henc. apply Ok_inj in Henc. subst val.
       unfold bind, read_bytes, ret. intros dd o Hat. cbn [data offset].
       pose proof (at_bound Hat) as Hb.
       change (len [byte_of_Z z0; byte_of_Z z1; byte_of_Z z2; byte_of_Z z]) with 4 in *.
       destruct (Z.gtb_spec (o + 4) (len dd)); [lia|].
       change 4 with (len [byte_of_Z z0; byte_of_Z z1; byte_of_Z z2; byte_of_Z z]) at 1.
       rewrite (py_slice_at Hat).
       rewrite !Z_of_byte_of_Z, !Z.mod_small by lia. reflexivity. }
  all: cbn -[pack_f] in Henc.
  all: enc_inv.
  all: rewrite ?app_nil_r.
  - apply (reads_map (float_triple "x" "y" "z") (fun v => set_value v prop0)).
    now apply reads_float_triple.
  - eapply reads_bind; [exact (reads_read_float E)|].
    apply (reads_map read_float
             (fun y => set_value (VDict [(lit "x", VFloat (Single b0)); (lit "y", VFloat y)])
                                 prop0)).
    exact (reads_read_float E1).
  - apply (reads_map (float_triple "pitch" "yaw" "roll") (fun v => set_value v prop0)).
    now apply reads_float_triple.
  - apply (reads_map (float_quad "x" "y" "z" "w") (fun v => set_value v prop0)).
    now apply reads_float_quad.
  - apply (reads_map (float_quad "r" "g" "b" "a") (fun v => set_value v prop0)).
    now apply reads_float_quad.
Qed.

Lemma wf_prop_unfold (p : FPropertyTag) : wf_prop p = wf_prop_with wf_prop p.
Proof. now destruct p. Qed.

Lemma enc_fstring_len (o : option pystr) (bs : list byte) :
  enc_fstring o = Ok bs -> 4 <= len bs.
Proof.
  unfold enc_fstring. destruct o as [s|].
  - destruct (encode_ascii s) as [e|[]|]; try discriminate; intros H; enc_inv;
      rewrite len_app;
      match goal with E : pack_i32 _ = Ok ?l |- _ => rewrite (pack_i32_len _ _ E) end;
      match goal with |- context [len ?x] => pose proof (len_nonneg x); lia end.
  - intros H. rewrite (pack_i32_len _ _ H). lia.
Qed.

Lemma enc_none_terminator : enc_fstring (Some (lit "None")) = Ok (le_bytes 4 5 ++ List.map byte_of_Z (lit "None") ++ [x00]).
Proof. reflexivity. Qed.

(** The nine bytes of the [None] name that ends a property list. *)
Lemma gets_bind {S A B} (f : S -> A) (k : A -> M S B) (s : S) :
  bind (gets f) k s = k (f s) s.
Proof. reflexivity. Qed.

Lemma reads_terminator (g : nat) (t : list byte) :
  (0 < g)%nat ->
  enc_fstring (Some (lit "None")) = Ok t ->
  reads (_read_property g) t (Some terminator).
Proof.
  intros Hg Ht. destruct g as [|g]; [lia|]. cbn [_read_property]. apply reads_remaining. intros rem Hrem.
  pose proof (enc_fstring_len _ _ Ht).
  destruct (Z.ltb_spec rem 4); [lia|].
  rewrite <- (app_nil_r t).
  eapply reads_bind; [exact (reads_read_fstring (lit "None") t eq_refl Ht)|].
  cbn [str_eqb]. rewrite str_eqb_refl. apply reads_ret.
Qed.

Lemma name_ok_not_none (n : pystr) : name_ok n = true -> str_eqb n (lit "None") = false.
Proof.
  unfold name_ok. intros H. apply andb_true_iff in H as [_ H].
  now apply negb_true_iff in H.
Qed.

Lemma name_ok_str (n : pystr) : name_ok n = true -> str_ok n = true.
Proof. unfold name_ok. intros H. now apply andb_true_iff in H as [H _]. Qed.

Lemma wf_prop_name (p : FPropertyTag) : wf_prop p = true -> name_ok (name p) = true.
Proof.
  rewrite wf_prop_unfold. unfold wf_prop_with. intros H.
  apply andb_true_iff in H as [H _]. now apply andb_true_iff in H as [H _].
Qed.

Lemma enc_property_len (p : FPropertyTag) (bs : list byte) :
  enc_property p = Ok bs -> 16 <= len bs.
Proof.
  rewrite enc_property_unfold. unfold enc_property_with. intros H. enc_inv.
  destruct bs2 as [[h v] size]. enc_inv.
  rewrite !len_app, len_le_bytes.
  repeat match goal with
         | E : enc_fstring _ = Ok _ |- _ => apply enc_fstring_len in E
         | E : pack_i32 _ = Ok _ |- _ => apply pack_i32_len in E
         end.
  pose proof (len_nonneg h). pose proof (len_nonneg v). lia.
Qed.

Section ReadLists.

Variable n : nat.
Hypothesis IH : forall g, (g < n)%nat -> reads_back g.

Lemma reads_properties_list (cs : list FPropertyTag) :
  forall g body t,
    forallb wf_prop cs = true ->
    enc_each enc_property cs = Ok body ->
    enc_fstring (Some (lit "None")) = Ok t ->
    len (body ++ t) <= Z.of_nat g -> (g <= n)%nat ->
    reads (_read_properties g) (body ++ t) cs.
Proof.
  induction cs as [|c cs IHcs]; intros g body t Hwf Hb Ht Hlen Hg.
  - apply Ok_inj in Hb. subst body. cbn [app] in *.
    pose proof (enc_fstring_len _ _ Ht).
    destruct g as [|g]; [lia|].
    cbn [_read_properties]. apply reads_remaining. intros rem Hrem.
    destruct (Z.geb_spec rem 4); [|lia].
    rewrite <- (app_nil_r t).
    eapply reads_bind; [exact (reads_terminator g t ltac:(lia) Ht)|].
    cbn. apply reads_ret.
  - cbn [enc_each] in Hb. enc_inv.
    cbn [forallb] in Hwf. apply andb_true_iff in Hwf as [Hc Hcs].
    pose proof (enc_property_len _ _ E) as Lc.
    pose proof (enc_fstring_len _ _ Ht) as Lt.
    rewrite !len_app in Hlen. pose proof (len_nonneg bs0).
    destruct g as [|g]; [lia|].
    cbn [_read_properties]. apply reads_remaining. intros rem Hrem.
    rewrite !len_app in Hrem.
    destruct (Z.geb_spec rem 4); [|lia].
    rewrite <- app_assoc.
    eapply reads_bind.
    + exact (IH g ltac:(lia) c bs Hc E ltac:(lia)).
    + cbn iota. rewrite (name_ok_not_none _ (wf_prop_name _ Hc)).
      apply (reads_map _ (fun ps => c :: ps)).
      exact (IHcs g bs0 t Hcs eq_refl Ht ltac:(rewrite len_app; lia) ltac:(lia)).
Qed.

Lemma read_struct_loop_list (cs : list FPropertyTag) :
  forall g body t d o end_pos,
    forallb wf_prop cs = true ->
    enc_each enc_property cs = Ok body ->
    enc_fstring (Some (lit "None")) = Ok t ->
    len (body ++ t) <= Z.of_nat g -> (g <= n)%nat ->
    at_ d o (body ++ t) -> o + len (body ++ t) <= end_pos ->
    _read_struct_loop g end_pos (mkReader d o)
    = Ok (cs, mkReader d (o + len (body ++ t))).
Proof.
  induction cs as [|c cs IHcs]; intros g body t d o end_pos Hwf Hb Ht Hlen Hg Hat He.
  - apply Ok_inj in Hb. subst body. cbn [app] in *.
    pose proof (enc_fstring_len _ _ Ht). pose proof (at_bound Hat).
    destruct g as [|g]; [lia|].
    cbn [_read_struct_loop]. rewrite !gets_bind. unfold position, remaining.
    cbn [data offset].
    destruct (Z.ltb_spec o end_pos); [|lia].
    destruct (Z.geb_spec (len d - o) 4); [|lia].
    cbn [andb]. rewrite (bind_ok _ (reads_terminator g t ltac:(lia) Ht d o Hat)).
    cbn. reflexivity.
  - cbn [enc_each] in Hb. enc_inv.
    cbn [forallb] in Hwf. apply andb_true_iff in Hwf as [Hc Hcs].
    pose proof (enc_property_len _ _ E) as Lc.
    pose proof (enc_fstring_len _ _ Ht) as Lt.
    rewrite !len_app in Hlen, He. pose proof (len_nonneg bs0).
    pose proof (at_bound Hat) as Hbd. rewrite !len_app in Hbd.
    destruct g as [|g]; [lia|].
    cbn [_read_struct_loop]. rewrite !gets_bind. unfold position, remaining.
    cbn [data offset].
    destruct (Z.ltb_spec o end_pos); [|lia].
    destruct (Z.geb_spec (len d - o) 4); [|lia].
    cbn [andb]. rewrite <- app_assoc in Hat.
    assert (R : reads (_read_property g) bs (Some c))
      by exact (IH g ltac:(lia) c bs Hc E ltac:(lia)).
    rewrite (bind_ok _ (R d o (at_app_l Hat))).
    cbn iota. rewrite (name_ok_not_none _ (wf_prop_name _ Hc)).
    rewrite (bind_ok _ (IHcs g bs0 t d (o + len bs) end_pos Hcs eq_refl Ht
                          ltac:(rewrite len_app; lia) ltac:(lia)
                          (at_app_r Hat) ltac:(rewrite len_app; lia))).
    unfold ret. rewrite !len_app. do 3 f_equal. lia.
Qed.
End ReadLists.

(** Record that every length in sight is not negative. *)
Ltac len_facts :=
  repeat match goal with
         | |- context [len ?x] =>
             lazymatch goal with
             | _ : 0 <= len x |- _ => fail
             | _ => pose proof (len_nonneg x)
             end
         | _ : context [len ?x] |- _ =>
             lazymatch goal with
             | _ : 0 <= len x |- _ => fail
             | _ => pose proof (len_nonneg x)
             end
         end.

Lemma enc_each_len_le {A} (e : A -> Result (list byte)) (l : list A) (x : A)
      (b all : list byte) :
  In x l -> e x = Ok b -> enc_each e l = Ok all -> len b <= len all.
Proof.
  revert all. induction l as [|y l IH]; intros all Hin Hb Hall; [destruct Hin|].
  cbn [enc_each] in Hall. enc_inv. rewrite len_app.
  pose proof (len_nonneg bs). pose proof (len_nonneg bs0).
  destruct Hin as [->|Hin].
  - rewrite Hb in E. apply Ok_inj in E. subst. lia.
  - specialize (IH bs0 Hin Hb eq_refl). lia.
Qed.

Lemma elem_shape_eq (en : pystr) (st : option pystr) (e : FPropertyTag) :
  elem_shape en st e = true ->
  e = mkTag en (Some (lit "StructProperty")) VNone None st None None (nested e).
Proof.
  unfold elem_shape. intros H. split_andb.
  destruct e as [n ty v it s et el ns]. cbn [name type_name value inner_type struct_type
    enum_type elem_name nested] in *.
  destruct v; try discriminate. destruct it; try discriminate.
  destruct et; try discriminate. destruct el; try discriminate.
  destruct s as [s|]; try discriminate. destruct st as [st|]; try discriminate.
  destruct ty as [ty|]; try discriminate. cbn [is_str] in *.
  repeat match goal with
         | H : str_eqb _ _ = true |- _ => apply str_eqb_eq in H
         end.
  now subst.
Qed.

Lemma reads_property_tag (en : pystr) (st : option pystr) (size : Z) (bs : list byte) :
  name_ok en = true -> opt_str_ok st = true ->
  enc_prototype_tag
    (mkTag en (Some (lit "StructProperty")) VNone None st None None []) size = Ok bs ->
  reads _read_property_tag bs
        (Some (set_struct_type st (new_tag en (Some (lit "StructProperty"))))).
Proof.
  intros Hen Hst Henc. unfold enc_prototype_tag in Henc.
  cbn [name type_name struct_type] in Henc. enc_inv.
  unfold _read_property_tag. apply reads_remaining. intros rem Hrem.
  rewrite len_app in Hrem. pose proof (enc_fstring_len _ _ E).
  match type of Hrem with _ + len ?x <= _ => pose proof (len_nonneg x) end.
  destruct (Z.ltb_spec rem 4); [lia|].
  eapply reads_bind; [exact (reads_read_fstring en _ (name_ok_str _ Hen) E)|].
  cbn iota. rewrite (name_ok_not_none _ Hen).
  eapply reads_bind; [exact (reads_read_fstring (lit "StructProperty") _ eq_refl E0)|].
  eapply reads_bind; [exact (reads_read_int32 E1)|].
  eapply reads_bind; [exact (reads_read_int32 E2)|].
  cbn [is_str]. rewrite str_eqb_refl.
  rewrite (app_assoc bs4).
  eapply reads_bind.
  - eapply reads_bind; [exact (reads_read_fstring_opt st _ Hst E3)|].
    apply (reads_map (read_bytes 16) (fun _ => set_struct_type st _)
                     (repeat x00 16) (repeat x00 16)).
    now apply reads_read_bytes.
  - apply reads_skip_byte, reads_ret.
Qed.

Lemma array_prototype_wf (p : FPropertyTag) (en st : pystr) :
  elem_name p = Some en -> struct_type p = Some st -> is_nil en = false ->
  forallb (fun e => elem_shape en (Some st) e) (nested p) = true ->
  array_prototype p = mkTag en (Some (lit "StructProperty")) VNone None (Some st)
                            None None [].
Proof.
  intros Hen Hst Hne Hel. unfold array_prototype. rewrite Hen, Hst.
  destruct en as [|c en]; [discriminate|].
  destruct (nested p) as [|first rest].
  - cbn [or_str]. destruct st; reflexivity.
  - cbn [forallb] in Hel. apply andb_true_iff in Hel as [Hf _].
    apply elem_shape_eq in Hf. rewrite Hf. cbn [or_str struct_type name].
    destruct st; reflexivity.
Qed.

Section ReadValues.

Variable n : nat.
Hypothesis IH : forall g, (g < n)%nat -> reads_back g.

Lemma reads_struct_value (f : nat) (prop0 : FPropertyTag) (cs : list FPropertyTag)
      (v : list byte) :
  is_core_struct (struct_type prop0) = false ->
  forallb wf_prop cs = true ->
  enc_properties_with enc_property cs false = Ok v ->
  len v <= Z.of_nat f -> (f <= n)%nat ->
  reads (_read_struct_value (S f) prop0 (len v)) v (set_nested cs prop0).
Proof.
  intros Hcore Hwf Henc Hlen Hf d o Hat.
  unfold enc_properties_with in Henc. enc_inv. rewrite app_nil_r in *.
  cbn [_read_struct_value]. rewrite Hcore. rewrite gets_bind.
  unfold position at 1. cbn [offset].
  rewrite (bind_ok _ (read_struct_loop_list n IH cs f bs bs0 d o (o + len (bs ++ bs0))
                        Hwf E E0 Hlen Hf Hat (Z.le_refl _))).
  rewrite gets_bind. unfold position. cbn [offset].
  destruct (Z.ltb_spec (o + len (bs ++ bs0) - o) (len (bs ++ bs0))); [lia|].
  reflexivity.
Qed.

Lemma reads_struct_array (f : nat) (p prop0 : FPropertyTag) (en st : pystr)
      (size : Z) (v : list byte) :
  is_str (inner_type p) (lit "StructProperty") = true ->
  is_str (inner_type prop0) (lit "StructProperty") = true ->
  nested prop0 = [] ->
  elem_name p = Some en -> struct_type p = Some st ->
  name_ok en = true -> is_nil en = false -> str_ok st = true ->
  forallb (fun e => elem_shape en (Some st) e && forallb wf_prop (nested e)) (nested p)
    = true ->
  enc_array_value_with enc_property p = Ok v ->
  len v <= Z.of_nat f -> (f <= n)%nat ->
  reads (_read_array_value (S f) prop0 size) v
        (set_nested (nested p)
           (set_struct_type (Some st) (set_elem_name (Some en) prop0))).
Proof.
  intros Hin Hin0 Hn0 Hen Hst Hnok Hne Hstok Hel Henc Hlen Hf.
  assert (Hshape : forallb (fun e => elem_shape en (Some st) e) (nested p) = true).
  { apply forallb_forall. intros e He.
    pose proof (forallb_In _ _ _ Hel He) as H. now apply andb_true_iff in H as [H _]. }
  unfold enc_array_value_with, array_count in Henc. rewrite Hin in Henc.
  rewrite (array_prototype_wf p en st Hen Hst Hne Hshape) in Henc. enc_inv.
  rewrite !len_app in Hlen.
  cbn [_read_array_value]. rewrite Hin0.
  eapply reads_bind; [exact (reads_read_int32 E)|].
  eapply reads_bind; [exact (reads_property_tag en (Some st) _ _ Hnok Hstok E1)|].
  cbn iota. cbn [name struct_type set_struct_type new_tag].
  replace (nested p) with (nested prop0 ++ nested p) at 2 by now rewrite Hn0.
  apply (reads_map _ (fun elems => set_nested (nested prop0 ++ elems) _) _ (nested p)).
  rewrite len_to_nat.
  { apply (reads_repeatM _ (fun elem => enc_properties_with enc_property (nested elem) false));
      [|exact E0].
    intros x b Hx Hb.
    pose proof (forallb_In _ _ _ Hel Hx) as Hxx. apply andb_true_iff in Hxx as [Hs Hw].
    pose proof (enc_each_len_le _ _ _ _ _ Hx Hb E0) as Lb.
    len_facts.
    rewrite (elem_shape_eq _ _ _ Hs) at 1.
    apply (reads_map (_read_properties f)
             (fun nested => mkTag en (Some (lit "StructProperty")) VNone None (Some st)
                                  None None nested)).
    unfold enc_properties_with in Hb. enc_inv. rewrite app_nil_r in *.
    apply (reads_properties_list n IH); try assumption; lia. }
Qed.
End ReadValues.

Lemma enc_body_unfold (p : FPropertyTag) : enc_body p = enc_body_with enc_property p.
Proof. reflexivity. Qed.

Lemma is_none_eq {A} (o : option A) : is_none o = true -> o = None.
Proof. now destruct o. Qed.

Lemma is_nil_eq {A} (l : list A) : is_nil l = true -> l = [].
Proof. now destruct l. Qed.

Lemma is_vnone_eq (v : PyValue) : is_vnone v = true -> v = VNone.
Proof. now destruct v. Qed.

(** Replace the checks on unused attributes by the equations they stand for. *)
Ltac defaults :=
  repeat match goal with
         | H : is_none ?o = true |- _ => apply is_none_eq in H; try subst o
         | H : is_nil ?l = true |- _ => apply is_nil_eq in H; try subst l
         | H : is_vnone ?v = true |- _ => apply is_vnone_eq in H; try subst v
         end.

Lemma reads_byte_then {B} (k : Z -> Reader B) (b : byte) (bs : list byte) (x : B) :
  reads (k (Z_of_byte b)) bs x -> reads (bind read_byte k) (b :: bs) x.
Proof.
  intros H. change (b :: bs) with ([b] ++ bs).
  eapply reads_bind; [apply reads_read_byte | exact H].
Qed.

Section ReadProperty.

Variable n : nat.
Hypothesis IH : forall g, (g < n)%nat -> reads_back g.

(** The header fields of a property with an arbitrary array index,
    followed by the type-specific header and the value as the encoder
    lays them out, read back as the property. *)
Lemma reads_property_fields (f : nat) (p : FPropertyTag)
      (nm ty sz ix h v : list byte) (size idx : Z) :
  wf_prop p = true ->
  enc_fstring (Some (name p)) = Ok nm -> enc_fstring (type_name p) = Ok ty ->
  enc_body p = Ok (h, v, size) -> pack_i32 size = Ok sz -> pack_i32 idx = Ok ix ->
  len (h ++ v) + 2 <= Z.of_nat f -> (f <= n)%nat ->
  reads (_read_property (S f)) (nm ++ ty ++ sz ++ ix ++ h ++ v) (Some p).
Proof.
  intros Hwf Hnm Hty Hbody Hsz Hix Hlen Hf.
  rewrite wf_prop_unfold in Hwf. unfold wf_prop_with in Hwf.
  rewrite enc_body_unfold in Hbody. unfold enc_body_with in Hbody.
  destruct p as [name0 tyn val it st et en ns].
  cbn [name type_name value inner_type struct_type enum_type elem_name nested] in *.
  apply andb_true_iff in Hwf as [Hwf Hkind]. apply andb_true_iff in Hwf as [Hname Htyok].
  cbn [_read_property]. apply reads_remaining. intros rem Hrem.
  rewrite len_app in Hrem. pose proof (enc_fstring_len _ _ Hnm).
  match type of Hrem with _ + len ?x <= _ => pose proof (len_nonneg x) end.
  destruct (Z.ltb_spec rem 4); [lia|].
  eapply reads_bind; [exact (reads_read_fstring name0 _ (name_ok_str _ Hname) Hnm)|].
  cbn iota. rewrite (name_ok_not_none _ Hname).
  eapply reads_bind; [exact (reads_read_fstring_opt tyn _ Htyok Hty)|].
  eapply reads_bind; [exact (reads_read_int32 Hsz)|].
  eapply reads_bind; [exact (reads_read_int32 Hix)|].
  apply (reads_map _ Some).
  destruct (is_str tyn (lit "ArrayProperty")) eqn:Tarr.
  { apply andb_true_iff in Hkind as [Het Hkind]. defaults.
    destruct it as [it|]; [|discriminate].
    apply andb_true_iff in Hkind as [Hit Hkind].
    enc_inv. injection Hbody as <- <- <-.
    rewrite !len_app in Hlen. len_facts.
    destruct f as [|f]; [lia|].
    rewrite <- app_assoc.
    eapply reads_bind; [exact (reads_read_fstring it _ Hit E)|].
    apply reads_skip_byte.
    destruct (str_eqb it (lit "StructProperty")) eqn:Tin.
    - apply andb_true_iff in Hkind as [Hv Hkind]. defaults.
      destruct en as [en|]; [|discriminate]. destruct st as [st|]; [|discriminate].
      split_andb.
      match goal with H : negb (is_nil en) = true |- _ => apply negb_true_iff in H end.
      refine (reads_struct_array n IH f
                (mkTag name0 tyn VNone (Some it) (Some st) None (Some en) ns)
                (set_inner_type (Some it) (new_tag name0 tyn)) en st _ bs0
                _ _ eq_refl eq_refl eq_refl _ _ _ _ E0 _ _); try assumption; try lia.
    - split_andb. defaults.
      refine (reads_array_scalars it
                (mkTag name0 tyn val (Some it) None None None []) bs0 enc_property
                eq_refl Tin _ E0 f (set_inner_type (Some it) (new_tag name0 tyn)) _
                eq_refl).
      assumption. }
  destruct (is_str tyn (lit "StructProperty")) eqn:Tstr.
  { split_andb. defaults.
    enc_inv. injection Hbody as <- <- <-.
    rewrite !len_app in Hlen. len_facts.
    destruct f as [|f]; [lia|].
    rewrite <- app_assoc.
    eapply reads_bind;
      [exact (reads_read_fstring_opt st _ ltac:(assumption) E)|].
    change (repeat x00 17 ++ bs0) with (repeat x00 17 ++ bs0).
    eapply reads_bind; [apply (reads_read_bytes (bs := repeat x00 17)); reflexivity|].
    unfold enc_struct_value_with in E0. cbn [struct_type nested] in E0.
    destruct (is_core_struct st) eqn:Tcore.
    - split_andb. defaults.
      cbn [_read_struct_value]. cbn [struct_type set_struct_type new_tag]. rewrite Tcore.
      refine (reads_core_struct st
                (mkTag name0 tyn val None st None None [])
                (set_struct_type st (new_tag name0 tyn)) bs0 _ E0).
      assumption.
    - split_andb. defaults.
      refine (reads_struct_value n IH f (set_struct_type st (new_tag name0 tyn)) ns bs0
                Tcore _ E0 _ _); try assumption; lia. }
  split_andb. defaults.
  destruct (is_str tyn (lit "EnumProperty")) eqn:Tenum.
  { split_andb. enc_inv. injection Hbody as <- <- <-.
    rewrite <- app_assoc.
    eapply reads_bind; [exact (reads_read_fstring_opt et _ ltac:(assumption) E)|].
    apply reads_skip_byte.
    destruct val; try discriminate; cbn [enc_fstring_val] in E0.
    - apply (reads_map read_fstring
               (fun v => set_value (value_of_fstring v) (set_enum_type et (new_tag name0 tyn)))
               bs0 None).
      now apply reads_read_fstring_none.
    - apply (reads_map read_fstring
               (fun v => set_value (value_of_fstring v) (set_enum_type et (new_tag name0 tyn)))
               bs0 (Some s)).
      now apply reads_read_fstring. }
  split_andb. defaults.
  destruct (is_str tyn (lit "MapProperty")) eqn:Tmap; [discriminate|].
  destruct (is_str tyn (lit "BoolProperty")) eqn:Tbool.
  { destruct val; try discriminate. injection Hbody as <- <- <-.
    rewrite app_nil_r. cbn [truthy].
    apply reads_byte_then, reads_skip_byte.
    eapply reads_ext; [apply reads_ret | reflexivity |].
    rewrite Z_of_byte_of_Z. now destruct b. }
  enc_inv. injection Hbody as <- <- <-.
  apply reads_skip_byte.
  match goal with
  | E : enc_simple_value _ = Ok ?b |- _ =>
      refine (reads_simple_value name0 tyn val
                (mkTag name0 tyn val None None None None []) b eq_refl eq_refl _ E)
  end.
  assumption.
Qed.

End ReadProperty.

Lemma reads_back_step (n : nat) :
  (forall g, (g < n)%nat -> reads_back g) -> reads_back n.
Proof.
  intros IH p bs Hwf Henc Hlen.
  pose proof (enc_property_len _ _ Henc) as L16.
  destruct n as [|f]; [lia|].
  rewrite enc_property_unfold in Henc. unfold enc_property_with in Henc.
  destruct (enc_fstring (Some (name p))) as [nm| |] eqn:Enm; try discriminate.
  destruct (enc_fstring (type_name p)) as [ty| |] eqn:Ety; try discriminate.
  cbn [bindR] in Henc. fold (enc_body p) in Henc.
  destruct (enc_body p) as [[[h v] size]| |] eqn:Ebody; try discriminate.
  cbn [bindR] in Henc.
  destruct (pack_i32 size) as [sz| |] eqn:Esz; try discriminate.
  cbn [bindR] in Henc. apply Ok_inj in Henc. subst bs.
  rewrite !len_app in Hlen.
  pose proof (enc_fstring_len _ _ Enm). pose proof (enc_fstring_len _ _ Ety). len_facts.
  apply (reads_property_fields (S f) IH f p nm ty sz (le_bytes 4 0) h v size 0);
    try assumption.
  - reflexivity.
  - rewrite len_app. lia.
  - lia.
Qed.

(** Every well-formed record is read back from its encoding. *)
Lemma reads_back_all (g : nat) : reads_back g.
Proof.
  induction g as [g IH] using lt_wf_ind. apply (reads_back_step g). exact IH.
Qed.

(** * The top-level codec *)

Lemma run_reads {A} (c : Reader A) (bs post : list byte) (a : A) :
  reads c bs a -> c (mkReader (bs ++ post) 0) = Ok (a, mkReader (bs ++ post) (len bs)).
Proof.
  intros H. apply (H (bs ++ post) 0). exists [], post. now split.
Qed.

Lemma fuel_of_bound (d : list byte) : len d <= Z.of_nat (fuel_of d).
Proof. unfold fuel_of, len. lia. Qed.

(** Decoding what the encoder produced gives the tree back. *)
Lemma deserialize_enc (ps : list FPropertyTag) (trailing : bool) (b : list byte) :
  wf_props ps = true -> enc_properties ps trailing = Ok b -> deserialize b = Ok ps.
Proof.
  intros Hwf Henc. unfold enc_properties, enc_properties_with in Henc.
  destruct (enc_each enc_property ps) as [body| |] eqn:Eb; try discriminate.
  cbn [bindR] in Henc.
  destruct (enc_fstring (Some (lit "None"))) as [t| |] eqn:Et; try discriminate.
  cbn [bindR] in Henc. apply Ok_inj in Henc. subst b.
  unfold deserialize. rewrite app_assoc.
  set (d := (body ++ t) ++ (if trailing then [x00; x00; x00; x00] else [])).
  assert (R : reads (_read_properties (fuel_of d)) (body ++ t) ps).
  { apply (reads_properties_list (fuel_of d) (fun g _ => reads_back_all g) ps);
      try assumption; [|lia].
    pose proof (fuel_of_bound d) as Hd. unfold d in Hd at 1. rewrite len_app in Hd.
    pose proof (len_nonneg (if trailing then [x00; x00; x00; x00] else [])). lia. }
  unfold d at 2. now rewrite (run_reads _ _ _ _ R).
Qed.

Lemma deserialize_serialize (ps : list FPropertyTag) (trailing : bool) (b : list byte) :
  wf_props ps = true -> serialize ps trailing = Ok b -> deserialize b = Ok ps.
Proof.
  intros Hwf Hs. rewrite serialize_enc in Hs. exact (deserialize_enc ps trailing b Hwf Hs).
Qed.

(** C1, as stated, fails: a blob whose struct header holds a non-zero
    GUID byte is accepted by [deserialize], and [serialize] writes the
    GUID back as zeros. *)
Lemma C1_nonzero_guid_not_preserved :
  deserialize guid_blob = Ok guid_tree /\ serialize guid_tree true <> Ok guid_blob.
Proof.
  split; [vm_compute; reflexivity|]. vm_compute. discriminate.
Qed.

(** C1, amended: for every blob [b] that [serialize], with the trailing
    bytes enabled, produces from a well-formed tree, [deserialize]
    accepts [b] and serializing the decoded tree gives [b] again, byte
    for byte. *)
Theorem C1_roundtrip_of_encoder_output (ps : list FPropertyTag) (b : list byte) :
  wf_props ps = true -> serialize ps true = Ok b ->
  exists t, deserialize b = Ok t /\ serialize t true = Ok b.
Proof.
  intros Hwf Hs. exists ps. split; [|exact Hs].
  exact (deserialize_serialize ps true b Hwf Hs).
Qed.

Lemma C1_roundtrip_witness :
  exists t, deserialize sample_blob = Ok t /\ serialize t true = Ok sample_blob.
Proof.
  apply (C1_roundtrip_of_encoder_output sample_tree sample_blob);
    vm_compute; reflexivity.
Defined.

(** C2: for every well-formed tree [ps] that [serialize] turns into
    bytes [b], [deserialize b] is [ps] itself: the same names, type
    tags, child order and values at every node. *)
Theorem C2_decode_encode_identity (ps : list FPropertyTag) (trailing : bool)
        (b : list byte) :
  wf_props ps = true -> serialize ps trailing = Ok b -> deserialize b = Ok ps.
Proof. exact (deserialize_serialize ps trailing b). Qed.

Lemma C2_witness : deserialize sample_blob = Ok sample_tree.
Proof.
  apply (C2_decode_encode_identity sample_tree true sample_blob);
    vm_compute; reflexivity.
Defined.

Lemma pack_i32_bytes (z : Z) (bs : list byte) : pack_i32 z = Ok bs -> bs = i32 z.
Proof.
  unfold pack_i32. destruct (in_range _ _ z); [|discriminate].
  intros H. now apply Ok_inj in H.
Qed.

Lemma is_str_eq (o : option pystr) (s : pystr) : is_str o s = true -> o = Some s.
Proof.
  destruct o as [x|]; [|discriminate]. cbn [is_str]. intros H.
  apply str_eqb_eq in H. now subst.
Qed.

(** C3: a property written by [_write_property] consists of the name,
    the type, the size field, a zero array-index field, the per-type
    header and the value region. For a type other than Bool the size
    field holds the byte length of the value region alone, the header
    not counted. For a Bool the size field holds 0 and the value byte
    and the padding byte follow the array-index field. *)
Theorem C3_size_field_counts_value_region
        (prop : FPropertyTag) (w w' : BinaryWriter) (n : Z) :
  at_end w -> _write_property prop w = Ok (n, w') ->
  exists nm ty,
    enc_fstring (Some (name prop)) = Ok nm /\ enc_fstring (type_name prop) = Ok ty /\
    if is_bool_tag prop then
      stream w' = stream w ++ nm ++ ty ++ i32 0 ++ i32 0
                    ++ [byte_of_Z (if truthy (value prop) then 1 else 0); x00]
    else
      exists h v,
        type_header prop = Ok h /\ value_region prop = Ok v /\
        stream w' = stream w ++ nm ++ ty ++ i32 (len v) ++ i32 0 ++ h ++ v.
Proof.
  intros Hw Hrun. rewrite (emits_write_property prop w Hw) in Hrun.
  destruct (enc_property prop) as [bs| |] eqn:Henc; try discriminate.
  injection Hrun as _ <-. cbn [append stream].
  rewrite enc_property_unfold in Henc. unfold enc_property_with in Henc.
  destruct (enc_fstring (Some (name prop))) as [nm| |] eqn:Enm; try discriminate.
  destruct (enc_fstring (type_name prop)) as [ty| |] eqn:Ety; try discriminate.
  cbn [bindR] in Henc.
  destruct (enc_body_with enc_property prop) as [[[h v] size]| |] eqn:Ebody;
    try discriminate.
  cbn [bindR] in Henc.
  destruct (pack_i32 size) as [sz| |] eqn:Esz; try discriminate.
  cbn [bindR] in Henc. apply Ok_inj in Henc. subst bs.
  apply pack_i32_bytes in Esz. subst sz.
  exists nm, ty. split; [reflexivity|]. split; [reflexivity|].
  unfold enc_body_with in Ebody. unfold is_bool_tag, type_header, value_region.
  destruct (is_str (type_name prop) (lit "BoolProperty")) eqn:Tbool.
  - rewrite (is_str_eq _ _ Tbool) in Ebody. cbn in Ebody.
    injection Ebody as <- <- <-. now rewrite app_nil_r.
  - destruct (is_str (type_name prop) (lit "ArrayProperty")).
    { destruct (enc_fstring (inner_type prop)) as [s| |]; try discriminate.
      cbn [bindR] in *.
      destruct (enc_array_value_with enc_property prop) as [val| |]; try discriminate.
      cbn [bindR] in Ebody. injection Ebody as <- <- <-. now exists (s ++ [x00]), val. }
    destruct (is_str (type_name prop) (lit "StructProperty")).
    { destruct (enc_fstring (struct_type prop)) as [s| |]; try discriminate.
      cbn [bindR] in *.
      destruct (enc_struct_value_with enc_property prop) as [val| |]; try discriminate.
      cbn [bindR] in Ebody. injection Ebody as <- <- <-.
      now exists (s ++ repeat x00 17), val. }
    destruct (is_str (type_name prop) (lit "EnumProperty")).
    { destruct (enc_fstring (enum_type prop)) as [s| |]; try discriminate.
      cbn [bindR] in *.
      destruct (enc_fstring_val (value prop)) as [val| |]; try discriminate.
      cbn [bindR] in Ebody. injection Ebody as <- <- <-. now exists (s ++ [x00]), val. }
    destruct (enc_simple_value prop) as [val| |]; try discriminate.
    cbn [bindR] in Ebody. injection Ebody as <- <- <-. now exists [x00], val.
Qed.

Lemma C3_witness :
  exists nm ty,
    enc_fstring (Some (lit "CharacterRecord")) = Ok nm /\
    enc_fstring (Some (lit "StructProperty")) = Ok ty /\
    exists h v,
      type_header (nth 10 sample_tree terminator) = Ok h /\
      value_region (nth 10 sample_tree terminator) = Ok v /\
      stream (append new_writer (bytes_or_nil (enc_property (nth 10 sample_tree terminator))))
      = stream new_writer ++ nm ++ ty ++ i32 (len v) ++ i32 0 ++ h ++ v.
Proof.
  apply (C3_size_field_counts_value_region (nth 10 sample_tree terminator) new_writer
           (append new_writer (bytes_or_nil (enc_property (nth 10 sample_tree terminator))))
           (len (bytes_or_nil (enc_property (nth 10 sample_tree terminator))))).
  - reflexivity.
  - vm_compute. reflexivity.
Defined.

(** * Size-bounded struct values *)

(** The loop of [_read_struct_value] stops when the children have
    consumed the declared size, with no sentinel. *)
Lemma read_struct_loop_exact (cs : list FPropertyTag) :
  forall g body d o,
    forallb wf_prop cs = true ->
    enc_each enc_property cs = Ok body ->
    len body < Z.of_nat g ->
    at_ d o body ->
    _read_struct_loop g (o + len body) (mkReader d o)
    = Ok (cs, mkReader d (o + len body)).
Proof.
  induction cs as [|c cs IHcs]; intros g body d o Hwf Hb Hlen Hat.
  - apply Ok_inj in Hb. subst body. rewrite len_nil in *.
    destruct g as [|g]; [lia|].
    cbn [_read_struct_loop]. rewrite !gets_bind. unfold position. cbn [offset].
    destruct (Z.ltb_spec o (o + 0)); [lia|]. cbn [andb]. unfold ret.
    now rewrite Z.add_0_r.
  - cbn [enc_each] in Hb. enc_inv.
    cbn [forallb] in Hwf. apply andb_true_iff in Hwf as [Hc Hcs].
    pose proof (enc_property_len _ _ E) as Lc.
    rewrite !len_app in Hlen. len_facts.
    pose proof (at_bound Hat) as Hbd. rewrite !len_app in Hbd.
    destruct g as [|g]; [lia|].
    cbn [_read_struct_loop]. rewrite !gets_bind. unfold position, remaining.
    cbn [data offset]. rewrite len_app.
    destruct (Z.ltb_spec o (o + (len bs + len bs0))); [|lia].
    destruct (Z.geb_spec (len d - o) 4); [|lia].
    cbn [andb].
    rewrite (bind_ok _ (reads_back_all g c bs Hc E ltac:(lia) d o (at_app_l Hat))).
    cbn iota. rewrite (name_ok_not_none _ (wf_prop_name _ Hc)).
    replace (o + (len bs + len bs0)) with (o + len bs + len bs0) by lia.
    rewrite (bind_ok _ (IHcs g bs0 d (o + len bs) Hcs eq_refl ltac:(lia) (at_app_r Hat))).
    reflexivity.
Qed.

(** C4: decoding the value of a property-bearing struct whose enclosing
    property declared [S] bytes. When the children fill the [S] bytes the
    loop stops there, whatever follows in the buffer. When the [None]
    sentinel comes before the [S] bytes are consumed, the loop stops at
    the sentinel, the cursor is moved to [S] bytes past the start of the
    value, and the bytes skipped do not appear in the decoded record. *)
Theorem C4_struct_value_stops_at_sentinel_or_size
        (f : nat) (prop : FPropertyTag) (cs : list FPropertyTag)
        (pre body t pad rest : list byte) :
  is_core_struct (struct_type prop) = false ->
  wf_props cs = true ->
  enc_each enc_property cs = Ok body ->
  enc_fstring (Some (lit "None")) = Ok t ->
  len (body ++ t) < Z.of_nat f ->
  _read_struct_value (S f) prop (len body) (mkReader (pre ++ body ++ rest) (len pre))
  = Ok (set_nested cs prop, mkReader (pre ++ body ++ rest) (len pre + len body))
  /\
  _read_struct_value (S f) prop (len (body ++ t ++ pad))
                     (mkReader (pre ++ (body ++ t ++ pad) ++ rest) (len pre))
  = Ok (set_nested cs prop,
        mkReader (pre ++ (body ++ t ++ pad) ++ rest) (len pre + len (body ++ t ++ pad))).
Proof.
  intros Hcore Hwf Hb Ht Hlen. rewrite len_app in Hlen. len_facts.
  pose proof (enc_fstring_len _ _ Ht) as Lt.
  split.
  - cbn [_read_struct_value]. rewrite Hcore, gets_bind. unfold position at 1. cbn [offset].
    rewrite (bind_ok _ (read_struct_loop_exact cs f body _ (len pre) Hwf Hb ltac:(lia)
                          (at_intro pre body rest))).
    rewrite gets_bind. unfold position. cbn [offset].
    destruct (Z.ltb_spec (len pre + len body - len pre) (len body)); [lia|]. reflexivity.
  - cbn [_read_struct_value]. rewrite Hcore, gets_bind. unfold position at 1. cbn [offset].
    set (d := pre ++ (body ++ t ++ pad) ++ rest).
    assert (Hat : at_ d (len pre) ((body ++ t) ++ pad))
      by (unfold d; rewrite <- (app_assoc body t pad); apply at_intro).
    rewrite !len_app.
    rewrite (bind_ok _ (read_struct_loop_list f (fun g _ => reads_back_all g) cs f body t d
                          (len pre) (len pre + (len body + (len t + len pad)))
                          Hwf Hb Ht ltac:(rewrite len_app; lia) (Nat.le_refl f)
                          (at_app_l Hat) ltac:(rewrite len_app; len_facts; lia))).
    rewrite gets_bind. unfold position. cbn [offset]. rewrite len_app.
    destruct (Z.ltb_spec (len pre + (len body + len t) - len pre)
                         (len body + (len t + len pad))) as [Hlt|Hge].
    + replace (len body + (len t + len pad) - (len pre + (len body + len t) - len pre))
        with (len pad) by lia.
      pose proof (at_app_r Hat) as Hpad. rewrite len_app in Hpad.
      rewrite (bind_ok _ (reads_read_bytes (bs := pad) eq_refl d _ Hpad)).
      unfold ret. do 3 f_equal. lia.
    + unfold ret. do 3 f_equal. len_facts. lia.
Qed.

Lemma C4_witness :
  _read_struct_value 101 bare_struct (len two_children_bytes)
    (mkReader ([x07] ++ two_children_bytes ++ [x01; x02]) (len [x07]))
  = Ok (set_nested two_children bare_struct,
        mkReader ([x07] ++ two_children_bytes ++ [x01; x02])
                 (len [x07] + len two_children_bytes))
  /\
  _read_struct_value 101 bare_struct
    (len (two_children_bytes ++ fstr "None" ++ [xff; xff; xff]))
    (mkReader ([x07] ++ (two_children_bytes ++ fstr "None" ++ [xff; xff; xff])
                 ++ [x01; x02]) (len [x07]))
  = Ok (set_nested two_children bare_struct,
        mkReader ([x07] ++ (two_children_bytes ++ fstr "None" ++ [xff; xff; xff])
                    ++ [x01; x02])
                 (len [x07] + len (two_children_bytes ++ fstr "None" ++ [xff; xff; xff]))).
Proof.
  apply (C4_struct_value_stops_at_sentinel_or_size 100 bare_struct two_children
           [x07] two_children_bytes (fstr "None") [xff; xff; xff] [x01; x02]);
    vm_compute; reflexivity.
Defined.

(** C5 at the string U+1F600: [write_fstring] writes the prefix -2, one
    more than the number of code points, in front of three 16-bit units
    (a surrogate pair and the NUL), and [read_fstring] on these bytes
    raises instead of returning the string. *)
Lemma C5_astral_string_prefix_counts_code_points :
  write_fstring (Some astral_string) new_writer
  = Ok (10, mkWriter (i32 (-2) ++ [x3d; xd8; x00; xde; x00; x00]) 10)
  /\ read_fstring (mkReader (i32 (-2) ++ [x3d; xd8; x00; xde; x00; x00]) 0)
     = Raise UnicodeDecodeError.
Proof. split; vm_compute; reflexivity. Qed.

(** C6 at a map property: the decoder keeps the body bytes only, and
    the encoder writes a padding byte and the body, without the
    key-type and value-type strings. *)
Lemma C6_map_property_not_reproduced :
  deserialize map_blob = Ok map_tree
  /\ serialize map_tree true = Ok map_blob_reencoded
  /\ map_blob_reencoded <> map_blob.
Proof.
  split; [vm_compute; reflexivity|]. split; [vm_compute; reflexivity|].
  vm_compute. discriminate.
Qed.

(** * Stepping the top-level loop *)

Lemma bind_raise {S A B} {c : M S A} (k : A -> M S B) {s e} :
  c s = Raise e -> bind c k s = Raise e.
Proof. unfold bind. now intros ->. Qed.

Lemma read_properties_step (g : nat) (p : FPropertyTag) (bs d : list byte) (o : Z) :
  reads (_read_property g) bs (Some p) -> at_ d o bs -> 4 <= len bs ->
  str_eqb (name p) (lit "None") = false ->
  _read_properties (S g) (mkReader d o)
  = (ps <- _read_properties g ;; ret (p :: ps)) (mkReader d (o + len bs)).
Proof.
  intros R Hat L Hn. pose proof (at_bound Hat).
  cbn [_read_properties]. rewrite gets_bind. unfold remaining. cbn [data offset].
  destruct (Z.geb_spec (len d - o) 4); [|lia].
  rewrite (bind_ok _ (R d o Hat)). cbn iota. now rewrite Hn.
Qed.

Lemma read_properties_end (g : nat) (t d : list byte) (o : Z) :
  (0 < g)%nat -> enc_fstring (Some (lit "None")) = Ok t -> at_ d o t ->
  _read_properties (S g) (mkReader d o) = Ok ([], mkReader d (o + len t)).
Proof.
  intros Hg Ht Hat. pose proof (at_bound Hat). pose proof (enc_fstring_len _ _ Ht).
  cbn [_read_properties]. rewrite gets_bind. unfold remaining. cbn [data offset].
  destruct (Z.geb_spec (len d - o) 4); [|lia].
  rewrite (bind_ok _ (reads_terminator g t Hg Ht d o Hat)). reflexivity.
Qed.

Lemma read_properties_underflow (g : nat) (d : list byte) (o : Z) :
  len d - o < 4 -> _read_properties (S g) (mkReader d o) = Ok ([], mkReader d o).
Proof.
  intros H. cbn [_read_properties]. rewrite gets_bind. unfold remaining. cbn [data offset].
  destruct (Z.geb_spec (len d - o) 4); [lia|]. reflexivity.
Qed.

Lemma fuel_of_S (d : list byte) :
  fuel_of d = S (S (6 + 2 * List.length d)).
Proof. reflexivity. Qed.

(** One property followed by the sentinel, and anything after it. *)
Lemma deserialize_single (p : FPropertyTag) (bs t post : list byte) :
  (forall g, len bs <= Z.of_nat g -> reads (_read_property (S g)) bs (Some p)) ->
  4 <= len bs -> str_eqb (name p) (lit "None") = false ->
  enc_fstring (Some (lit "None")) = Ok t ->
  deserialize (bs ++ t ++ post) = Ok [p].
Proof.
  intros R L Hn Ht. unfold deserialize. set (d := bs ++ t ++ post).
  rewrite fuel_of_S.
  assert (Hat : at_ d 0 (bs ++ t)).
  { exists [], post. split; [|reflexivity]. unfold d. now rewrite <- app_assoc. }
  assert (Lg : len bs <= Z.of_nat (6 + 2 * List.length d)).
  { unfold d. rewrite !length_app. unfold len. lia. }
  rewrite (read_properties_step _ p bs d 0 (R _ Lg) (at_app_l Hat) L Hn).
  rewrite (bind_ok _ (read_properties_end (6 + 2 * List.length d) t d (0 + len bs)
                        ltac:(lia) Ht (at_app_r Hat))).
  reflexivity.
Qed.

(** C8, as stated, fails: a property whose array-index field holds 7 is
    decoded without an error, and encoding the decoded tree writes 0 in
    that field. *)
Lemma C8_nonzero_array_index_accepted_and_zeroed :
  deserialize indexed_blob = Ok [simple_tag "Exp" "IntProperty" (VInt 1150000)]
  /\ serialize [simple_tag "Exp" "IntProperty" (VInt 1150000)] true
     = Ok indexed_blob_reencoded
  /\ indexed_blob_reencoded <> indexed_blob.
Proof.
  split; [vm_compute; reflexivity|]. split; [vm_compute; reflexivity|].
  vm_compute. discriminate.
Qed.

(** C8, amended: the decoder reads the array-index field and drops it.
    A property laid out as the encoder lays it out, with any 32-bit value
    [idx] in the array-index field, decodes to the same record, and the
    encoder writes 0 in that field. *)
Theorem C8_array_index_dropped_on_read_zero_on_write
        (p : FPropertyTag) (nm ty sz ix h v t : list byte) (size idx : Z) :
  wf_prop p = true ->
  enc_fstring (Some (name p)) = Ok nm -> enc_fstring (type_name p) = Ok ty ->
  enc_body p = Ok (h, v, size) -> pack_i32 size = Ok sz -> pack_i32 idx = Ok ix ->
  enc_fstring (Some (lit "None")) = Ok t ->
  deserialize ((nm ++ ty ++ sz ++ ix ++ h ++ v) ++ t ++ [x00; x00; x00; x00]) = Ok [p]
  /\ serialize [p] true
     = Ok ((nm ++ ty ++ sz ++ i32 0 ++ h ++ v) ++ t ++ [x00; x00; x00; x00]).
Proof.
  intros Hwf Hnm Hty Hbody Hsz Hix Ht. split.
  - pose proof (enc_fstring_len _ _ Hnm) as Lnm.
    apply deserialize_single; try assumption.
    + intros g Hg. rewrite !len_app in Hg. len_facts.
      apply (reads_property_fields g (fun g' _ => reads_back_all g') g p nm ty sz ix h v
               size idx); try assumption; [|lia].
      rewrite len_app. apply enc_fstring_len in Hty. apply pack_i32_len in Hsz, Hix. lia.
    + rewrite len_app. len_facts. lia.
    + exact (name_ok_not_none _ (wf_prop_name _ Hwf)).
  - rewrite serialize_enc. unfold enc_properties, enc_properties_with.
    cbn [enc_each]. rewrite enc_property_unfold. unfold enc_property_with.
    fold (enc_body p). rewrite Hnm, Hty, Hbody. cbn [bindR]. rewrite Hsz, Ht.
    cbn [bindR]. now rewrite app_nil_r.
Qed.

Lemma C8_witness :
  deserialize ((fstr "Exp" ++ fstr "IntProperty" ++ i32 4 ++ i32 7 ++ [x00] ++ i32 1150000)
                 ++ fstr "None" ++ [x00; x00; x00; x00])
  = Ok [simple_tag "Exp" "IntProperty" (VInt 1150000)]
  /\ serialize [simple_tag "Exp" "IntProperty" (VInt 1150000)] true
     = Ok ((fstr "Exp" ++ fstr "IntProperty" ++ i32 4 ++ i32 0 ++ [x00] ++ i32 1150000)
             ++ fstr "None" ++ [x00; x00; x00; x00]).
Proof.
  apply (C8_array_index_dropped_on_read_zero_on_write
           (simple_tag "Exp" "IntProperty" (VInt 1150000))
           (fstr "Exp") (fstr "IntProperty") (i32 4) (i32 7) [x00] (i32 1150000)
           (fstr "None") 4 7);
    vm_compute; reflexivity.
Defined.

(** * Anomalies in the input *)

Lemma is_known_false (ty : option pystr) :
  is_known ty = false ->
  is_str ty (lit "ArrayProperty") = false /\ is_str ty (lit "StructProperty") = false
  /\ is_str ty (lit "EnumProperty") = false /\ is_str ty (lit "MapProperty") = false
  /\ is_str ty (lit "BoolProperty") = false /\ is_str ty (lit "IntProperty") = false
  /\ is_str ty (lit "UInt32Property") = false /\ is_str ty (lit "Int64Property") = false
  /\ is_str ty (lit "FloatProperty") = false /\ is_str ty (lit "DoubleProperty") = false
  /\ is_str ty (lit "StrProperty") = false /\ is_str ty (lit "NameProperty") = false.
Proof.
  unfold is_known, known_tags. cbn [existsb]. intros H.
  repeat (apply orb_false_iff in H; destruct H as [? H]). repeat split; assumption.
Qed.

Lemma read_simple_value_unknown (prop : FPropertyTag) (ty : option pystr) (size : Z) :
  is_known ty = false ->
  _read_simple_value prop ty size
  = if size >? 0 then bs <- read_bytes size ;; ret (set_value (VBytes bs) prop)
    else ret prop.
Proof.
  intros H. apply is_known_false in H.
  destruct H as (_ & _ & _ & _ & _ & H1 & H2 & H3 & H4 & H5 & H6 & H7).
  unfold _read_simple_value. now rewrite H1, H2, H3, H4, H5, H6, H7.
Qed.

(** The property header up to the padding byte of a simple property of
    unknown type, and what is left to do after it. *)
Lemma read_property_unknown (g : nat) (name0 : pystr) (ty : option pystr)
      (nm tyb sz ix : list byte) (size idx : Z) (pad : byte) (d : list byte) (o : Z) :
  name_ok name0 = true -> opt_str_ok ty = true -> is_known ty = false ->
  enc_fstring (Some name0) = Ok nm -> enc_fstring ty = Ok tyb ->
  pack_i32 size = Ok sz -> pack_i32 idx = Ok ix ->
  at_ d o (nm ++ tyb ++ sz ++ ix ++ [pad]) ->
  _read_property (S g) (mkReader d o)
  = (prop <- _read_simple_value (new_tag name0 ty) ty size ;; ret (Some prop))
      (mkReader d (o + len (nm ++ tyb ++ sz ++ ix ++ [pad]))).
Proof.
  intros Hn Hty Hk Enm Ety Esz Eix Hat.
  pose proof (is_known_false ty Hk) as (K1 & K2 & K3 & K4 & K5 & _).
  pose proof (at_bound Hat) as Hb. rewrite len_app in Hb.
  pose proof (enc_fstring_len _ _ Enm). len_facts.
  cbn [_read_property]. rewrite gets_bind. unfold remaining. cbn [data offset].
  destruct (Z.ltb_spec (len d - o) 4); [lia|].
  rewrite (bind_ok _ (reads_read_fstring name0 nm (name_ok_str _ Hn) Enm d o (at_app_l Hat))).
  cbn iota. rewrite (name_ok_not_none _ Hn).
  apply at_app_r in Hat.
  rewrite (bind_ok _ (reads_read_fstring_opt ty tyb Hty Ety d _ (at_app_l Hat))).
  apply at_app_r in Hat.
  rewrite (bind_ok _ (reads_read_int32 Esz d _ (at_app_l Hat))).
  apply at_app_r in Hat.
  rewrite (bind_ok _ (reads_read_int32 Eix d _ (at_app_l Hat))).
  apply at_app_r in Hat.
  rewrite K1, K2, K3, K4, K5.
  unfold bind at 1. unfold bind at 1.
  rewrite (reads_read_byte pad d _ Hat).
  rewrite !len_app.
  replace (o + len nm + len tyb + len sz + len ix + len [pad])
    with (o + (len nm + (len tyb + (len sz + (len ix + len [pad]))))) by lia.
  reflexivity.
Qed.

(** C7, as stated, fails: a property with a type tag outside the known
    set is decoded as raw bytes, and a property that declares a negative
    size is decoded as well. *)
Lemma C7_unknown_tag_and_negative_size_accepted :
  deserialize unknown_tag_blob = Ok [simple_tag "X" "FooProperty" (VBytes [x01; x02])]
  /\ deserialize negative_size_blob = Ok [simple_tag "Exp" "IntProperty" (VInt 5)].
Proof. split; vm_compute; reflexivity. Qed.

(** A property with an unknown type tag, by the declared size: a
    positive size with that many bytes, a size that is not positive, a
    size larger than what the buffer holds. *)
Lemma unknown_tag_cases
        (name0 : pystr) (ty : option pystr) (size idx : Z) (pad : byte)
        (nm tyb sz ix t raw : list byte) :
  name_ok name0 = true -> opt_str_ok ty = true -> is_known ty = false ->
  enc_fstring (Some name0) = Ok nm -> enc_fstring ty = Ok tyb ->
  pack_i32 size = Ok sz -> pack_i32 idx = Ok ix ->
  enc_fstring (Some (lit "None")) = Ok t ->
  (0 < size -> len raw = size ->
   deserialize ((nm ++ tyb ++ sz ++ ix ++ [pad]) ++ raw ++ t)
   = Ok [set_value (VBytes raw) (new_tag name0 ty)])
  /\ (size <= 0 ->
      deserialize ((nm ++ tyb ++ sz ++ ix ++ [pad]) ++ t) = Ok [new_tag name0 ty])
  /\ (len raw < size ->
      deserialize ((nm ++ tyb ++ sz ++ ix ++ [pad]) ++ raw) = Raise EOFError).
Proof.
  intros Hn Hty Hk Enm Ety Esz Eix Et.
  pose proof (enc_fstring_len _ _ Enm) as Lnm.
  set (hdr := nm ++ tyb ++ sz ++ ix ++ [pad]).
  assert (Lh : 4 <= len hdr) by (unfold hdr; rewrite len_app; len_facts; lia).
  repeat split.
  - intros Hpos Hraw.
    replace (hdr ++ raw ++ t) with ((hdr ++ raw) ++ t ++ [])
      by (now rewrite app_nil_r, app_assoc).
    apply (deserialize_single (set_value (VBytes raw) (new_tag name0 ty)) (hdr ++ raw) t []);
      try assumption.
    + intros g _ d o Hat.
      rewrite (read_property_unknown g name0 ty nm tyb sz ix size idx pad d o
                 Hn Hty Hk Enm Ety Esz Eix (at_app_l Hat)).
      rewrite (read_simple_value_unknown _ ty size Hk). fold hdr.
      destruct (Z.gtb_spec size 0); [|lia].
      unfold bind at 1. unfold bind at 1.
      rewrite (reads_read_bytes (bs := raw) (eq_sym Hraw) d _ (at_app_r Hat)).
      unfold ret. rewrite len_app. do 3 f_equal. lia.
    + rewrite len_app. len_facts. lia.
    + exact (name_ok_not_none _ Hn).
  - intros Hneg.
    replace (hdr ++ t) with (hdr ++ t ++ []) by (now rewrite app_nil_r).
    apply (deserialize_single (new_tag name0 ty) hdr t []); try assumption.
    + intros g _ d o Hat.
      rewrite (read_property_unknown g name0 ty nm tyb sz ix size idx pad d o
                 Hn Hty Hk Enm Ety Esz Eix Hat).
      rewrite (read_simple_value_unknown _ ty size Hk).
      destruct (Z.gtb_spec size 0); [lia|]. reflexivity.
    + exact (name_ok_not_none _ Hn).
  - intros Hshort. unfold deserialize. set (d := hdr ++ raw).
    rewrite fuel_of_S. cbn [_read_properties]. rewrite gets_bind.
    unfold remaining. cbn [data offset].
    assert (Hat : at_ d 0 hdr) by (exists [], raw; now split).
    pose proof (at_bound Hat).
    destruct (Z.geb_spec (len d - 0) 4); [|lia].
    assert (E : _read_property (S (6 + 2 * List.length d)) (mkReader d 0) = Raise EOFError).
    { rewrite (read_property_unknown _ name0 ty nm tyb sz ix size idx pad d 0
                 Hn Hty Hk Enm Ety Esz Eix Hat).
      rewrite (read_simple_value_unknown _ ty size Hk). fold hdr.
      len_facts. destruct (Z.gtb_spec size 0); [|lia].
      apply bind_raise, bind_raise. unfold read_bytes. cbn [data offset].
      unfold d at 1. rewrite len_app.
      destruct (Z.gtb_spec (0 + len hdr + size) (len hdr + len raw)); [reflexivity | lia]. }
    now rewrite (bind_raise _ E).
Qed.


(** C7, amended: [deserialize] fails when a read would pass the end of
    the buffer, but a declared size is not checked for its sign and a
    type tag outside the known set is no error. For a property with an
    unknown type tag, any array index and any padding byte: a positive
    size followed by that many bytes is decoded as raw bytes; a size
    that is zero or negative is decoded as a property without a value;
    a size larger than what the buffer holds raises [EOFError], and no
    tree is returned. *)
Theorem C7_truncation_raises_unknown_tag_and_bad_size_do_not
        (name0 : pystr) (ty : option pystr) (idx : Z) (pad : byte)
        (nm tyb ix t raw short sz_raw sz_neg sz_big : list byte) (neg big : Z) :
  name_ok name0 = true -> opt_str_ok ty = true -> is_known ty = false ->
  enc_fstring (Some name0) = Ok nm -> enc_fstring ty = Ok tyb ->
  pack_i32 idx = Ok ix -> enc_fstring (Some (lit "None")) = Ok t ->
  0 < len raw -> pack_i32 (len raw) = Ok sz_raw ->
  neg <= 0 -> pack_i32 neg = Ok sz_neg ->
  len short < big -> pack_i32 big = Ok sz_big ->
  deserialize ((nm ++ tyb ++ sz_raw ++ ix ++ [pad]) ++ raw ++ t)
  = Ok [set_value (VBytes raw) (new_tag name0 ty)]
  /\ deserialize ((nm ++ tyb ++ sz_neg ++ ix ++ [pad]) ++ t) = Ok [new_tag name0 ty]
  /\ deserialize ((nm ++ tyb ++ sz_big ++ ix ++ [pad]) ++ short) = Raise EOFError.
Proof.
  intros Hn Hty Hk Enm Ety Eix Et Hraw Eraw Hneg Eneg Hbig Ebig.
  repeat split.
  - apply (unknown_tag_cases name0 ty (len raw) idx pad nm tyb sz_raw ix t raw);
      try assumption; reflexivity.
  - apply (unknown_tag_cases name0 ty neg idx pad nm tyb sz_neg ix t []);
      assumption.
  - apply (unknown_tag_cases name0 ty big idx pad nm tyb sz_big ix t short);
      assumption.
Qed.

Lemma C7_witness :
  deserialize ((fstr "X" ++ fstr "FooProperty" ++ i32 2 ++ i32 0 ++ [xff])
                 ++ [x01; x02] ++ fstr "None")
  = Ok [set_value (VBytes [x01; x02]) (new_tag (lit "X") (Some (lit "FooProperty")))]
  /\ deserialize ((fstr "X" ++ fstr "FooProperty" ++ i32 (-3) ++ i32 0 ++ [xff])
                    ++ fstr "None")
     = Ok [new_tag (lit "X") (Some (lit "FooProperty"))]
  /\ deserialize ((fstr "X" ++ fstr "FooProperty" ++ i32 9 ++ i32 0 ++ [xff])
                    ++ [x01; x02])
     = Raise EOFError.
Proof.
  apply (C7_truncation_raises_unknown_tag_and_bad_size_do_not
           (lit "X") (Some (lit "FooProperty")) 0 xff
           (fstr "X") (fstr "FooProperty") (i32 0) (fstr "None") [x01; x02] [x01; x02]
           (i32 2) (i32 (-3)) (i32 9) (-3) 9);
    first [vm_compute; reflexivity | lia].
Defined.

(** * The top-level loop at the end of the buffer *)

(** The properties of a list, with fewer than four bytes after them and
    no sentinel. *)
Lemma read_properties_no_sentinel (cs : list FPropertyTag) :
  forall g body d o,
    forallb wf_prop cs = true ->
    enc_each enc_property cs = Ok body ->
    len body < Z.of_nat g ->
    at_ d o body -> len d - (o + len body) < 4 ->
    _read_properties g (mkReader d o) = Ok (cs, mkReader d (o + len body)).
Proof.
  induction cs as [|c cs IHcs]; intros g body d o Hwf Hb Hlen Hat Hend.
  - apply Ok_inj in Hb. subst body. rewrite len_nil, Z.add_0_r in *.
    destruct g as [|g]; [lia|]. now apply read_properties_underflow.
  - cbn [enc_each] in Hb. enc_inv.
    cbn [forallb] in Hwf. apply andb_true_iff in Hwf as [Hc Hcs].
    pose proof (enc_property_len _ _ E) as Lc.
    rewrite !len_app in Hlen, Hend. len_facts.
    destruct g as [|g]; [lia|].
    rewrite (read_properties_step g c bs d o
               (reads_back_all g c bs Hc E ltac:(lia)) (at_app_l Hat) ltac:(lia)
               (name_ok_not_none _ (wf_prop_name _ Hc))).
    rewrite (bind_ok _ (IHcs g bs0 d (o + len bs) Hcs eq_refl ltac:(lia) (at_app_r Hat)
                          ltac:(lia))).
    unfold ret. rewrite len_app. do 3 f_equal. lia.
Qed.

(** Whatever the buffer, no property that the list loop returns is
    named [None]. *)
Lemma read_properties_no_terminator (g : nat) :
  forall r ps r',
    _read_properties g r = Ok (ps, r') ->
    Forall (fun p => str_eqb (name p) (lit "None") = false) ps.
Proof.
  induction g as [|g IH]; intros r ps r' H; [discriminate|].
  cbn [_read_properties] in H. rewrite gets_bind in H.
  destruct (remaining r >=? 4).
  - unfold bind at 1 in H.
    destruct (_read_property g r) as [[[p|] r1]| |]; try discriminate.
    + destruct (str_eqb (name p) (lit "None")) eqn:En.
      * injection H as <- _. constructor.
      * unfold bind in H.
        destruct (_read_properties g r1) as [[ps' r2]| |] eqn:E; try discriminate.
        injection H as <- _. constructor; [exact En | exact (IH _ _ _ E)].
    + injection H as <- _. constructor.
  - injection H as <- _. constructor.
Qed.

(** C9: the top-level decoder does not raise when fewer than four bytes
    remain although no [None] sentinel was read. It returns the
    properties decoded so far: the empty list on a buffer of fewer than
    four bytes, and the properties of a well-formed list when fewer than
    four bytes follow their encoding. No property of a returned sequence
    is named [None]. *)
Theorem C9_top_level_stops_on_underflow
        (ps : list FPropertyTag) (body tail short d : list byte)
        (decoded : list FPropertyTag) :
  len short < 4 ->
  wf_props ps = true -> enc_each enc_property ps = Ok body -> len tail < 4 ->
  deserialize d = Ok decoded ->
  deserialize short = Ok []
  /\ deserialize (body ++ tail) = Ok ps
  /\ Forall (fun p => str_eqb (name p) (lit "None") = false) decoded.
Proof.
  intros Hshort Hwf Hb Htail Hd. repeat split.
  - unfold deserialize. rewrite fuel_of_S.
    rewrite read_properties_underflow; [reflexivity|]. cbn [offset]. lia.
  - unfold deserialize.
    assert (Hat : at_ (body ++ tail) 0 body) by (exists [], tail; now split).
    rewrite (read_properties_no_sentinel ps (fuel_of (body ++ tail)) body (body ++ tail) 0
               Hwf Hb); try assumption; [reflexivity | |].
    + unfold fuel_of, len. rewrite length_app. lia.
    + rewrite len_app. lia.
  - unfold deserialize in Hd.
    destruct (_read_properties (fuel_of d) (mkReader d 0)) as [[ps' r']| |] eqn:E;
      try discriminate.
    injection Hd as <-. exact (read_properties_no_terminator _ _ _ _ E).
Qed.

Lemma C9_witness :
  deserialize [x00; x01; x02] = Ok []
  /\ deserialize (two_children_bytes ++ [x09; x09; x09]) = Ok two_children
  /\ Forall (fun p => str_eqb (name p) (lit "None") = false) sample_tree.
Proof.
  apply (C9_top_level_stops_on_underflow two_children two_children_bytes [x09; x09; x09]
           [x00; x01; x02] sample_blob sample_tree);
    vm_compute; reflexivity.
Defined.

(** * Path lookup *)

Lemma split_once_none (c : Z) (s : pystr) :
  contains c s = false -> split_once c s = (s, None).
Proof.
  unfold contains. induction s as [|x s IH]; [reflexivity|].
  cbn [existsb split_once]. intros H. apply orb_false_iff in H as [Hx Hs].
  rewrite Z.eqb_sym, Hx, (IH Hs). reflexivity.
Qed.

Lemma contains_app (c : Z) (a b : pystr) :
  contains c (a ++ b) = contains c a || contains c b.
Proof. unfold contains. apply existsb_app. Qed.

Lemma split_all_none (c : Z) (s : pystr) :
  contains c s = false -> split_all c s = [s].
Proof.
  unfold contains. induction s as [|x s IH]; [reflexivity|].
  cbn [existsb split_all]. intros H. apply orb_false_iff in H as [Hx Hs].
  rewrite Z.eqb_sym, Hx, (IH Hs). reflexivity.
Qed.

Lemma split_all_one (c : Z) (a b : pystr) :
  contains c a = false -> contains c b = false ->
  split_all c (a ++ c :: b) = [a; b].
Proof.
  unfold contains. intros Ha Hb. induction a as [|x a IH].
  - cbn [app split_all]. rewrite Z.eqb_refl. now rewrite (split_all_none c b Hb).
  - cbn [existsb] in Ha. apply orb_false_iff in Ha as [Hx Ha].
    cbn [app split_all]. rewrite Z.eqb_sym, Hx, (IH Ha). reflexivity.
Qed.

Lemma digit_facts (c : Z) :
  is_digit c = true -> 48 <= c < 58.
Proof. unfold is_digit. apply in_range_spec. Qed.

Lemma digits_not (k : Z) (s : pystr) :
  forallb is_digit s = true -> ~ 48 <= k < 58 -> contains k s = false.
Proof.
  unfold contains. induction s as [|x s IH]; [reflexivity|].
  cbn [forallb existsb]. intros H Hk. apply andb_true_iff in H as [Hx Hs].
  apply digit_facts in Hx. rewrite (IH Hs Hk), orb_false_r.
  apply Z.eqb_neq. lia.
Qed.

Lemma rstrip_bracket (s idx : pystr) :
  idx <> [] -> forallb is_digit idx = true ->
  rstrip 93 (s ++ idx ++ [93]) = s ++ idx.
Proof.
  intros Hne Hd. unfold rstrip.
  rewrite app_assoc, rev_app_distr. cbn [rev app drop_leading].
  rewrite Z.eqb_refl, rev_app_distr.
  destruct (rev idx) as [|c r] eqn:Er.
  - apply (f_equal (@rev Z)) in Er. rewrite rev_involutive in Er. now subst idx.
  - assert (Hc : is_digit c = true).
    { apply (forallb_In _ _ c Hd). apply in_rev. rewrite Er. now left. }
    apply digit_facts in Hc. cbn [app drop_leading].
    destruct (Z.eqb_spec c 93); [lia|].
    change (c :: r ++ rev s) with ((c :: r) ++ rev s).
    rewrite <- Er, <- rev_app_distr. apply rev_involutive.
Qed.

Lemma digits_value_nonneg (s : pystr) (acc : Z) :
  forallb is_digit s = true -> 0 <= acc ->
  0 <= fold_left (fun a c => 10 * a + (c - 48)) s acc.
Proof.
  revert acc. induction s as [|c s IH]; intros acc H Hacc; [exact Hacc|].
  cbn [forallb] in H. apply andb_true_iff in H as [Hc Hs]. apply digit_facts in Hc.
  cbn [fold_left]. apply IH; [assumption | lia].
Qed.

Lemma py_int_unsigned (s : pystr) :
  s <> [] -> forallb is_digit s = true ->
  py_int s = if len s >? int_max_str_digits then Raise ValueError
             else Ok (digits_value s).
Proof.
  intros Hne Hd.
  destruct s as [|c s]; [congruence|].
  assert (Hc : 48 <= c < 58).
  { cbn [forallb] in Hd. apply andb_true_iff in Hd as [Hc _]. now apply digit_facts. }
  unfold py_int.
  assert (A : all_digits (c :: s) = true) by exact Hd.
  destruct c as [|c|c]; try lia.
  do 6 (destruct c as [c|c|]; try lia;
        try (rewrite A; destruct (_ >? int_max_str_digits);
             [reflexivity | now rewrite Z.mul_1_l])).
Qed.

Lemma py_int_digits (s : pystr) :
  s <> [] -> forallb is_digit s = true -> len s <= int_max_str_digits ->
  py_int s = Ok (digits_value s) /\ 0 <= digits_value s.
Proof.
  intros Hne Hd Hl. split; [|now apply digits_value_nonneg].
  rewrite (py_int_unsigned s Hne Hd).
  now replace (len s >? int_max_str_digits) with false
    by (symmetry; rewrite Z.gtb_ltb; apply Z.ltb_ge; exact Hl).
Qed.

Lemma py_int_long (s : pystr) :
  s <> [] -> forallb is_digit s = true -> int_max_str_digits < len s ->
  py_int s = Raise ValueError.
Proof.
  intros Hne Hd Hl. rewrite (py_int_unsigned s Hne Hd).
  now replace (len s >? int_max_str_digits) with true
    by (symmetry; rewrite Z.gtb_ltb; apply Z.ltb_lt; exact Hl).
Qed.

Lemma parse_segment_indexed (nm idx : pystr) :
  contains 46 nm = false -> contains 91 nm = false ->
  idx <> [] -> forallb is_digit idx = true ->
  if len idx >? int_max_str_digits
  then parse_segment (nm ++ [91] ++ idx ++ [93]) = Raise ValueError
  else exists i, 0 <= i
                 /\ parse_segment (nm ++ [91] ++ idx ++ [93]) = Ok (nm, Some i, None).
Proof.
  intros Hdot Hbr Hne Hd.
  pose proof (py_int_unsigned idx Hne Hd) as Hint.
  pose proof (digits_value_nonneg idx 0 Hd ltac:(lia)) as Hpos.
  assert (G : parse_segment (nm ++ [91] ++ idx ++ [93])
              = match py_int idx with
                | Ok i => Ok (nm, Some i, None)
                | Raise e => Raise e
                | Stuck => Stuck
                end);
    [| rewrite G, Hint; destruct (len idx >? int_max_str_digits);
       [reflexivity | now exists (digits_value idx)] ].
  unfold parse_segment.
  rewrite split_once_none.
  - assert (C : contains 91 (nm ++ [91] ++ idx ++ [93]) = true).
    { rewrite !contains_app. change (contains 91 [91]) with true.
      now rewrite orb_true_r. }
    rewrite C.
    rewrite (app_assoc nm [91] (idx ++ [93])), (rstrip_bracket (nm ++ [91]) idx Hne Hd).
    rewrite <- app_assoc. cbn [app].
    now rewrite (split_all_one 91 nm idx Hbr (digits_not 91 idx Hd ltac:(lia))).
  - rewrite !contains_app, Hdot, (digits_not 46 idx Hd ltac:(lia)). reflexivity.
Qed.

(** * What the decoder leaves in the children of an array *)

Lemma bind_inv {S A B} (c : M S A) (k : A -> M S B) (s s' : S) (b : B) :
  bind c k s = Ok (b, s') -> exists a s1, c s = Ok (a, s1) /\ k a s1 = Ok (b, s').
Proof.
  unfold bind. destruct (c s) as [[a s1]| |]; try discriminate. eauto.
Qed.

Lemma ret_inv {S A} (a b : A) (s s' : S) : ret a s = Ok (b, s') -> a = b /\ s = s'.
Proof. unfold ret. now intros [= -> ->]. Qed.

Lemma keeps_refl (p : FPropertyTag) : keeps p p.
Proof. now repeat split. Qed.

Lemma keeps_set_value (v : PyValue) (p : FPropertyTag) : keeps p (set_value v p).
Proof. now repeat split. Qed.

Lemma keeps_to_tags (p p' : FPropertyTag) : keeps p p' -> keeps_tags p p'.
Proof. intros (H1 & H2 & _). now split. Qed.

(** A reader that returns [set_value v prop] for what it reads. *)
Lemma bind_set_value_keeps {A} (c : Reader A) (f : A -> PyValue) prop r p' r' :
  bind c (fun x => ret (set_value (f x) prop)) r = Ok (p', r') -> keeps prop p'.
Proof.
  intros H. apply bind_inv in H as (a & s1 & _ & H). apply ret_inv in H as [<- _].
  apply keeps_set_value.
Qed.

Lemma read_simple_value_keeps prop ty size r p' r' :
  _read_simple_value prop ty size r = Ok (p', r') -> keeps prop p'.
Proof.
  unfold _read_simple_value. intros H.
  repeat match type of H with
         | (if ?b then _ else _) _ = Ok _ => destruct b
         end;
    try (apply ret_inv in H as [<- _]; apply keeps_refl);
    first [ exact (bind_set_value_keeps _ VInt _ _ _ _ H)
          | exact (bind_set_value_keeps _ VFloat _ _ _ _ H)
          | exact (bind_set_value_keeps _ VBytes _ _ _ _ H)
          | exact (bind_set_value_keeps _
                     (fun v => match v with Some s => VStr s | None => VNone end)
                     _ _ _ _ H) ].
Qed.

Lemma read_map_property_keeps prop size r p' r' :
  _read_map_property prop size r = Ok (p', r') -> keeps prop p'.
Proof.
  unfold _read_map_property. intros H.
  apply bind_inv in H as (k & s1 & _ & H). apply bind_inv in H as (v & s2 & _ & H).
  apply bind_inv in H as (? & s3 & _ & H). apply bind_inv in H as (lk & s4 & _ & H).
  apply bind_inv in H as (lv & s5 & _ & H).
  destruct (_ >? 0).
  - exact (bind_set_value_keeps _ VBytes _ _ _ _ H).
  - apply ret_inv in H as [<- _]. apply keeps_refl.
Qed.

Lemma float_triple_keeps a b c prop r p' r' :
  bind (float_triple a b c) (fun v => ret (set_value v prop)) r = Ok (p', r') ->
  keeps prop p'.
Proof. exact (bind_set_value_keeps _ (fun v => v) _ _ _ _). Qed.

Lemma read_core_struct_keeps prop st r p' r' :
  _read_core_struct prop st r = Ok (p', r') -> keeps prop p'.
Proof.
  unfold _read_core_struct. intros H.
  repeat match type of H with
         | (if ?b then _ else _) _ = Ok _ => destruct b
         end;
    try (apply ret_inv in H as [<- _]; apply keeps_refl);
    try exact (bind_set_value_keeps _ (fun v => v) _ _ _ _ H);
    try exact (bind_set_value_keeps _ VInt _ _ _ _ H);
    try exact (bind_set_value_keeps _ (fun bs => VStr (hex_of_bytes bs)) _ _ _ _ H).
  - apply bind_inv in H as (x & s1 & _ & H).
    exact (bind_set_value_keeps _ (fun y => VDict [(lit "x", VFloat x); (lit "y", VFloat y)])
             _ _ _ _ H).
  - apply bind_inv in H as (bs & s1 & _ & H).
    destruct bs as [|b0 [|g0 [|r0 [|a0 [|? ?]]]]]; try discriminate H.
    apply ret_inv in H as [<- _]. apply keeps_set_value.
Qed.

Lemma read_struct_value_keeps_tags f prop size r p' r' :
  _read_struct_value f prop size r = Ok (p', r') -> keeps_tags prop p'.
Proof.
  destruct f as [|f]; [discriminate|]. cbn [_read_struct_value]. intros H.
  destruct (is_core_struct (struct_type prop)).
  - exact (keeps_to_tags _ _ (read_core_struct_keeps _ _ _ _ _ H)).
  - rewrite gets_bind in H. apply bind_inv in H as (ns & s1 & _ & H).
    rewrite gets_bind in H.
    destruct (_ <? size).
    + apply bind_inv in H as (? & s2 & _ & H). apply ret_inv in H as [<- _].
      now split.
    + apply ret_inv in H as [<- _]. now split.
Qed.

(** [_read_array_value] keeps the type tag and the inner type, and it
    appends children only when the inner type is [StructProperty]. *)
Lemma read_array_value_children f prop size r p' r' :
  _read_array_value f prop size r = Ok (p', r') ->
  keeps_tags prop p'
  /\ (is_str (inner_type prop) (lit "StructProperty") = false -> nested p' = nested prop).
Proof.
  destruct f as [|f]; [discriminate|]. cbn [_read_array_value]. intros H.
  apply bind_inv in H as (count & s1 & _ & H).
  destruct (is_str (inner_type prop) (lit "StructProperty")).
  - split; [|discriminate].
    apply bind_inv in H as (proto & s2 & _ & H).
    destruct proto as [proto|].
    + apply bind_inv in H as (elems & s3 & _ & H). apply ret_inv in H as [<- _].
      now split.
    + apply ret_inv in H as [<- _]. now split.
  - destruct (is_str (inner_type prop) (lit "ByteProperty")).
    + apply bind_inv in H as (bs & s2 & _ & H). apply ret_inv in H as [<- _].
      now repeat split.
    + apply bind_inv in H as (vs & s2 & _ & H). apply ret_inv in H as [<- _].
      now repeat split.
Qed.

(** A decoded array property whose inner type is not [StructProperty]
    has no children. *)
Lemma read_property_scalar_array f r p r' :
  _read_property f r = Ok (Some p, r') ->
  is_str (type_name p) (lit "ArrayProperty") = true ->
  is_str (inner_type p) (lit "StructProperty") = false ->
  nested p = [].
Proof.
  destruct f as [|f]; [discriminate|]. cbn [_read_property]. intros H Harr Hin.
  rewrite gets_bind in H.
  destruct (remaining r <? 4); [apply ret_inv in H as [[=] _]|].
  apply bind_inv in H as (nm & s1 & _ & H).
  destruct nm as [nm|];
    [|apply ret_inv in H as [[= <-] _]; discriminate Harr].
  destruct (str_eqb nm (lit "None"));
    [apply ret_inv in H as [[= <-] _]; discriminate Harr|].
  apply bind_inv in H as (ty & s2 & _ & H). apply bind_inv in H as (size & s3 & _ & H).
  apply bind_inv in H as (idx & s4 & _ & H). apply bind_inv in H as (q & s5 & Hq & H).
  apply ret_inv in H as [[= ->] _].
  destruct (is_str ty (lit "ArrayProperty")) eqn:Tarr.
  - apply bind_inv in Hq as (it & s6 & _ & Hq). apply bind_inv in Hq as (? & s7 & _ & Hq).
    apply read_array_value_children in Hq as [[_ Hit] Hn].
    cbn [inner_type set_inner_type nested new_tag] in Hit, Hn.
    rewrite Hit in Hin. exact (Hn Hin).
  - assert (K : keeps_tags (new_tag nm ty) p).
    { destruct (is_str ty (lit "StructProperty")).
      { apply bind_inv in Hq as (st & s6 & _ & Hq).
        apply bind_inv in Hq as (? & s7 & _ & Hq).
        now apply read_struct_value_keeps_tags in Hq. }
      destruct (is_str ty (lit "EnumProperty")).
      { apply bind_inv in Hq as (et & s6 & _ & Hq).
        apply bind_inv in Hq as (? & s7 & _ & Hq).
        apply bind_inv in Hq as (v & s8 & _ & Hq). apply ret_inv in Hq as [<- _].
        now split. }
      destruct (is_str ty (lit "MapProperty")).
      { exact (keeps_to_tags _ _ (read_map_property_keeps _ _ _ _ _ Hq)). }
      destruct (is_str ty (lit "BoolProperty")).
      { apply bind_inv in Hq as (b & s6 & _ & Hq).
        apply bind_inv in Hq as (? & s7 & _ & Hq). apply ret_inv in Hq as [<- _].
        now split. }
      apply bind_inv in Hq as (? & s6 & _ & Hq).
      exact (keeps_to_tags _ _ (read_simple_value_keeps _ _ _ _ _ _ Hq)). }
    destruct K as [Kt _]. cbn [type_name new_tag] in Kt. rewrite Kt, Tarr in Harr.
    discriminate.
Qed.

(** An indexed last segment on a list where the first property of that
    name has no children. *)
Lemma find_property_indexed_childless
      (before after : list FPropertyTag) (p : FPropertyTag) (path nm : pystr) (i : Z) :
  parse_segment path = Ok (nm, Some i, None) -> 0 <= i ->
  Forall (fun q => str_eqb (name q) nm = false) before ->
  str_eqb (name p) nm = true -> nested p = [] ->
  find_property (before ++ p :: after) path = Ok None.
Proof.
  intros Hp Hi Hb Hn Hc. unfold find_property. cbn [find_property_fuel]. rewrite Hp.
  induction Hb as [|q before Hq _ IH]; cbn [app].
  - rewrite Hn, Hc.
    replace (i <? len []) with false by (symmetry; apply Z.ltb_ge; cbn; lia).
    now rewrite andb_false_r.
  - rewrite Hq. exact IH.
Qed.

Lemma find_property_parse_raises (ps : list FPropertyTag) (path : pystr) (e : PyExc) :
  parse_segment path = Raise e -> find_property ps path = Raise e.
Proof. intros H. unfold find_property. cbn [find_property_fuel]. now rewrite H. Qed.

(** C10, as stated, fails: on the decoded array [Vals] of two integers
    the path [Vals[-1]] is not answered with [None]. The index -1 is
    below the number of children, which is 0, so the guard lets it
    through and indexing the empty list raises [IndexError]. An index
    of 4301 digits is refused by [int] with [ValueError]. *)
Lemma C10_negative_index_and_long_index_raise :
  deserialize scalar_array_blob = Ok [scalar_array_tag]
  /\ find_property [scalar_array_tag] (lit "Vals[-1]") = Raise IndexError
  /\ find_property [scalar_array_tag] (lit "Vals[" ++ repeat 49 4301 ++ lit "]")
     = Raise ValueError.
Proof. repeat split; vm_compute; reflexivity. Qed.

(** C10, amended: a path whose last segment is [Name[i]], with [i]
    written in decimal digits without a sign, is not found when the
    first property called [Name] is a decoded array whose inner type is
    not [StructProperty]: the decoder stores the elements of such an
    array in the value of the record and gives it no child records, so
    [find_property] returns [None] whatever the number of elements.
    That holds for an index of at most [int_max_str_digits] digits;
    with more digits [int] raises [ValueError]. *)
Theorem C10_indexed_path_on_decoded_scalar_array
        (f : nat) (r r' : BinaryReader) (p : FPropertyTag)
        (before after : list FPropertyTag) (idx : pystr) :
  _read_property f r = Ok (Some p, r') ->
  is_str (type_name p) (lit "ArrayProperty") = true ->
  is_str (inner_type p) (lit "StructProperty") = false ->
  Forall (fun q => str_eqb (name q) (name p) = false) before ->
  contains 46 (name p) = false -> contains 91 (name p) = false ->
  idx <> [] -> forallb is_digit idx = true ->
  nested p = []
  /\ find_property (before ++ p :: after) (name p ++ [91] ++ idx ++ [93])
     = if len idx >? int_max_str_digits then Raise ValueError else Ok None.
Proof.
  intros Hr Harr Hin Hb Hdot Hbr Hne Hd.
  assert (Hc : nested p = []) by exact (read_property_scalar_array f r p r' Hr Harr Hin).
  split; [exact Hc|].
  pose proof (parse_segment_indexed (name p) idx Hdot Hbr Hne Hd) as Hp.
  destruct (len idx >? int_max_str_digits).
  - exact (find_property_parse_raises _ _ _ Hp).
  - destruct Hp as (i & Hi & Hp).
    exact (find_property_indexed_childless before after p _ (name p) i Hp Hi Hb
             (str_eqb_refl (name p)) Hc).
Qed.

Lemma C10_witness :
  nested scalar_array_tag = []
  /\ find_property ([simple_tag "Exp" "IntProperty" (VInt 3)] ++ scalar_array_tag :: [])
       (name scalar_array_tag ++ [91] ++ lit "1" ++ [93])
     = if len (lit "1") >? int_max_str_digits then Raise ValueError else Ok None.
Proof.
  apply (C10_indexed_path_on_decoded_scalar_array
           8 (mkReader scalar_array_blob 0)
           (mkReader scalar_array_blob 64) scalar_array_tag
           [simple_tag "Exp" "IntProperty" (VInt 3)] [] (lit "1"));
    first [ vm_compute; reflexivity
          | discriminate
          | repeat constructor ].
Defined.

(** * Path lookup *)

Lemma split_once_app (c : Z) (a b : pystr) :
  contains c a = false -> split_once c (a ++ c :: b) = (a, Some b).
Proof.
  unfold contains. induction a as [|x a IH]; intros H.
  - cbn [app split_once]. now rewrite Z.eqb_refl.
  - cbn [existsb] in H. apply orb_false_iff in H as [Hx Ha].
    cbn [app split_once]. rewrite Z.eqb_sym, Hx, (IH Ha). reflexivity.
Qed.

Lemma split_once_shorter (c : Z) (s a r : pystr) :
  split_once c s = (a, Some r) -> (List.length r < List.length s)%nat.
Proof.
  revert a. induction s as [|x s IH]; intros a H; [discriminate|].
  cbn [split_once] in H. destruct (x =? c).
  - injection H as _ Hr. subst r. cbn [List.length]. lia.
  - destruct (split_once c s) as [a' b'] eqn:E. injection H as _ Hr. subst b'.
    specialize (IH a' eq_refl). cbn [List.length]. lia.
Qed.

(** The head of a path is parsed from the text before the first dot. *)
Lemma parse_segment_head (seg rest : pystr) :
  contains 46 seg = false ->
  parse_segment (seg ++ 46 :: rest)
  = match parse_segment seg with
    | Ok (nm, index, _) => Ok (nm, index, Some rest)
    | Raise e => Raise e
    | Stuck => Stuck
    end
  /\ match parse_segment seg with
     | Ok (_, _, r) => r = None
     | _ => True
     end.
Proof.
  intros H. unfold parse_segment.
  rewrite (split_once_app 46 seg rest H), (split_once_none 46 seg H).
  destruct (contains 91 seg); [|now split].
  destruct (split_all 91 (rstrip 93 seg)) as [|nm [|idx [|? ?]]]; try now split.
  destruct (py_int idx); now split.
Qed.

Lemma parse_segment_rest_shorter (path nm rest : pystr) (index : option Z) :
  parse_segment path = Ok (nm, index, Some rest) ->
  (List.length rest < List.length path)%nat.
Proof.
  unfold parse_segment. destruct (split_once 46 path) as [name0 r] eqn:E. intros H.
  assert (Hr : r = Some rest).
  { destruct (contains 91 name0).
    - destruct (split_all 91 (rstrip 93 name0)) as [|? [|idx [|? ?]]]; try discriminate.
      destruct (py_int idx); try discriminate. now injection H.
    - now injection H. }
  subst r. exact (split_once_shorter 46 path name0 rest E).
Qed.

Lemma find_property_fuel_unfold (f : nat) (ps : list FPropertyTag)
      (path nm : pystr) (index : option Z) (rest : option pystr) :
  parse_segment path = Ok (nm, index, rest) ->
  find_property_fuel (S f) ps path
  = match first_named nm ps with
    | None => Ok None
    | Some prop =>
        match target_of index prop with
        | Ok (Some t) =>
            match rest with
            | Some rest' =>
                match nested t with
                | _ :: _ => find_property_fuel f (nested t) rest'
                | [] => Ok None
                end
            | None => Ok (Some t)
            end
        | Ok None => Ok None
        | Raise e => Raise e
        | Stuck => Stuck
        end
    end.
Proof.
  intros Hp. cbn [find_property_fuel]. rewrite Hp. unfold first_named.
  induction ps as [|p ps IH]; [reflexivity|].
  cbn [List.find]. destruct (str_eqb (name p) nm); [|exact IH].
  unfold target_of. destruct index as [i|]; [|reflexivity].
  destruct (is_str (type_name p) (lit "ArrayProperty") && (i <? len (nested p)));
    [|reflexivity].
  now destruct (py_index (nested p) i).
Qed.

(** The result does not depend on the fuel, once it exceeds the length
    of the path. *)
Lemma find_property_fuel_enough (n : nat) :
  forall (path : pystr) (f1 f2 : nat) (ps : list FPropertyTag),
    (List.length path <= n)%nat -> (n < f1)%nat -> (n < f2)%nat ->
    find_property_fuel f1 ps path = find_property_fuel f2 ps path.
Proof.
  induction n as [|n IH]; intros path f1 f2 ps Hn H1 H2;
    (destruct f1 as [|f1]; [lia|]); (destruct f2 as [|f2]; [lia|]).
  all: destruct (parse_segment path) as [[[nm index] rest]| |] eqn:Hp;
    [ rewrite !(find_property_fuel_unfold _ ps path nm index rest Hp)
    | cbn [find_property_fuel]; now rewrite Hp
    | cbn [find_property_fuel]; now rewrite Hp ].
  all: destruct (first_named nm ps) as [prop|]; [|reflexivity].
  all: destruct (target_of index prop) as [[t|]| |]; try reflexivity.
  all: destruct rest as [rest'|]; [|reflexivity].
  all: destruct (nested t) as [|c cs]; [reflexivity|].
  all: apply parse_segment_rest_shorter in Hp.
  - lia.
  - apply IH; lia.
Qed.

Lemma find_property_fuel_eq (f : nat) (ps : list FPropertyTag) (path : pystr) :
  (List.length path < f)%nat -> find_property_fuel f ps path = find_property ps path.
Proof.
  intros H. unfold find_property.
  apply (find_property_fuel_enough (List.length path)); lia.
Qed.

Lemma find_property_unfold (ps : list FPropertyTag)
      (path nm : pystr) (index : option Z) (rest : option pystr) :
  parse_segment path = Ok (nm, index, rest) ->
  find_property ps path
  = match first_named nm ps with
    | None => Ok None
    | Some prop =>
        match target_of index prop with
        | Ok (Some t) =>
            match rest with
            | Some rest' =>
                match nested t with
                | _ :: _ => find_property (nested t) rest'
                | [] => Ok None
                end
            | None => Ok (Some t)
            end
        | Ok None => Ok None
        | Raise e => Raise e
        | Stuck => Stuck
        end
    end.
Proof.
  intros Hp. unfold find_property at 1.
  rewrite (find_property_fuel_unfold _ ps path nm index rest Hp).
  destruct (first_named nm ps) as [prop|]; [|reflexivity].
  destruct (target_of index prop) as [[t|]| |]; try reflexivity.
  destruct rest as [rest'|]; [|reflexivity].
  destruct (nested t) as [|c cs]; [reflexivity|].
  apply find_property_fuel_eq. now apply parse_segment_rest_shorter in Hp.
Qed.

Lemma parse_segment_plain (nm : pystr) :
  contains 46 nm = false -> contains 91 nm = false ->
  parse_segment nm = Ok (nm, None, None).
Proof.
  intros Hdot Hbr. unfold parse_segment. now rewrite (split_once_none 46 nm Hdot), Hbr.
Qed.

(** X1: a path that is a plain name, with no dot and no bracket, finds
    the first record of the list that has this name, and nothing when no
    record has it. *)
Theorem find_property_plain_name_is_first_match (ps : list FPropertyTag) (nm : pystr) :
  contains 46 nm = false -> contains 91 nm = false ->
  find_property ps nm = Ok (List.find (fun p => str_eqb (name p) nm) ps).
Proof.
  intros Hdot Hbr.
  rewrite (find_property_unfold ps nm nm None None (parse_segment_plain nm Hdot Hbr)).
  unfold first_named. now destruct (List.find _ ps).
Qed.

Lemma find_property_plain_name_witness :
  find_property lookup_tree (lit "Exp")
  = Ok (List.find (fun p => str_eqb (name p) (lit "Exp")) lookup_tree).
Proof.
  apply (find_property_plain_name_is_first_match lookup_tree (lit "Exp")); reflexivity.
Defined.

(** X2: a path [seg.rest], where [seg] holds no dot, is looked up in
    two steps: [seg] is looked up in the list, and [rest] is looked up
    among the children of the record found. When that record has no
    children the result is [None], and [rest] is not parsed. An error
    of the first step is the error of the whole lookup. *)
Theorem find_property_dotted_path_composes (ps : list FPropertyTag) (seg rest : pystr) :
  contains 46 seg = false ->
  find_property ps (seg ++ 46 :: rest)
  = match find_property ps seg with
    | Ok (Some t) =>
        match nested t with
        | _ :: _ => find_property (nested t) rest
        | [] => Ok None
        end
    | Ok None => Ok None
    | Raise e => Raise e
    | Stuck => Stuck
    end.
Proof.
  intros Hdot. destruct (parse_segment_head seg rest Hdot) as [Hhead Hnone].
  destruct (parse_segment seg) as [[[nm index] r]| |] eqn:Hseg.
  - subst r.
    rewrite (find_property_unfold ps _ nm index (Some rest) Hhead).
    rewrite (find_property_unfold ps seg nm index None Hseg).
    destruct (first_named nm ps) as [prop|]; [|reflexivity].
    now destruct (target_of index prop) as [[t|]| |].
  - unfold find_property. cbn [find_property_fuel]. now rewrite Hhead, Hseg.
  - unfold find_property. cbn [find_property_fuel]. now rewrite Hhead, Hseg.
Qed.

Lemma find_property_dotted_path_witness :
  find_property lookup_tree (lit "Slots[1]" ++ 46 :: lit "Id")
  = Ok (Some (simple_tag "Id" "IntProperty" (VInt 2))).
Proof.
  rewrite (find_property_dotted_path_composes lookup_tree (lit "Slots[1]") (lit "Id"));
    reflexivity.
Defined.

Lemma parse_segment_signed (nm pre idx : pystr) :
  contains 46 nm = false -> contains 91 nm = false ->
  contains 46 pre = false -> contains 91 pre = false ->
  idx <> [] -> forallb is_digit idx = true ->
  parse_segment (nm ++ [91] ++ (pre ++ idx) ++ [93])
  = match py_int (pre ++ idx) with
    | Ok i => Ok (nm, Some i, None)
    | Raise e => Raise e
    | Stuck => Stuck
    end.
Proof.
  intros Hdot Hbr Pdot Pbr Hne Hd. unfold parse_segment.
  rewrite split_once_none.
  - assert (C : contains 91 (nm ++ [91] ++ (pre ++ idx) ++ [93]) = true).
    { rewrite !contains_app. change (contains 91 [91]) with true.
      now rewrite orb_true_r. }
    rewrite C.
    replace (nm ++ [91] ++ (pre ++ idx) ++ [93])
      with ((nm ++ [91] ++ pre) ++ idx ++ [93]) by now rewrite <- !app_assoc.
    rewrite (rstrip_bracket (nm ++ [91] ++ pre) idx Hne Hd).
    rewrite <- !app_assoc. cbn [app].
    rewrite (split_all_one 91 nm (pre ++ idx) Hbr); [reflexivity|].
    rewrite contains_app, Pbr. exact (digits_not 91 idx Hd ltac:(lia)).
  - rewrite !contains_app, Hdot, Pdot, (digits_not 46 idx Hd ltac:(lia)). reflexivity.
Qed.

Lemma parse_segment_index (nm pre idx : pystr) (i : Z) :
  contains 46 nm = false -> contains 91 nm = false ->
  contains 46 pre = false -> contains 91 pre = false ->
  idx <> [] -> forallb is_digit idx = true ->
  py_int (pre ++ idx) = Ok i ->
  parse_segment (nm ++ [91] ++ (pre ++ idx) ++ [93]) = Ok (nm, Some i, None).
Proof.
  intros Hdot Hbr Pdot Pbr Hne Hd Hint.
  now rewrite (parse_segment_signed nm pre idx Hdot Hbr Pdot Pbr Hne Hd), Hint.
Qed.

Lemma parse_segment_index_raises (nm pre idx : pystr) (e : PyExc) :
  contains 46 nm = false -> contains 91 nm = false ->
  contains 46 pre = false -> contains 91 pre = false ->
  idx <> [] -> forallb is_digit idx = true ->
  py_int (pre ++ idx) = Raise e ->
  parse_segment (nm ++ [91] ++ (pre ++ idx) ++ [93]) = Raise e.
Proof.
  intros Hdot Hbr Pdot Pbr Hne Hd Hint.
  now rewrite (parse_segment_signed nm pre idx Hdot Hbr Pdot Pbr Hne Hd), Hint.
Qed.

Lemma py_index_nth {A} (l : list A) (i : Z) :
  0 <= i ->
  match nth_error l (Z.to_nat i) with
  | Some x => i < len l /\ py_index l i = Ok x
  | None => len l <= i
  end.
Proof.
  intros Hi. unfold py_index.
  replace (i <? 0) with false by (symmetry; apply Z.ltb_ge; lia).
  replace (i <? 0) with false by (symmetry; apply Z.ltb_ge; lia).
  destruct (nth_error l (Z.to_nat i)) as [x|] eqn:E.
  - split; [|reflexivity].
    assert (Z.to_nat i < List.length l)%nat by (apply nth_error_Some; congruence).
    unfold len. lia.
  - apply nth_error_None in E. unfold len. lia.
Qed.

(** X3: a path [Name[i]], with [i] written in decimal digits, selects
    the first record called [Name]. The lookup returns the child number
    [i] of that record when its type is [ArrayProperty] and it has more
    than [i] children; in every other case, and when no record has the
    name, it returns [None]. That is for an index of at most
    [int_max_str_digits] digits: an index of more digits is refused by
    [int], and the lookup raises [ValueError] whatever the tree. *)
Theorem find_property_indexed_is_nth_child
        (ps : list FPropertyTag) (nm idx : pystr) :
  contains 46 nm = false -> contains 91 nm = false ->
  idx <> [] -> forallb is_digit idx = true ->
  find_property ps (nm ++ [91] ++ idx ++ [93])
  = if len idx >? int_max_str_digits then Raise ValueError
    else
      Ok match List.find (fun p => str_eqb (name p) nm) ps with
         | Some p =>
             if is_str (type_name p) (lit "ArrayProperty")
             then nth_error (nested p) (Z.to_nat (digits_value idx))
             else None
         | None => None
         end.
Proof.
  intros Hdot Hbr Hne Hd.
  destruct (Z.gtb_spec (len idx) int_max_str_digits) as [Hlong|Hl].
  { pose proof (parse_segment_index_raises nm [] idx _ Hdot Hbr eq_refl eq_refl Hne Hd
                  (py_int_long idx Hne Hd Hlong)) as Hp.
    exact (find_property_parse_raises ps _ _ Hp). }
  destruct (py_int_digits idx Hne Hd Hl) as [Hint Hpos].
  pose proof (parse_segment_index nm [] idx _ Hdot Hbr eq_refl eq_refl Hne Hd Hint) as Hp.
  change ([] ++ idx) with idx in Hp.
  rewrite (find_property_unfold ps _ nm (Some (digits_value idx)) None Hp).
  unfold first_named. destruct (List.find _ ps) as [p|]; [|reflexivity].
  unfold target_of. destruct (is_str (type_name p) (lit "ArrayProperty")); [|reflexivity].
  cbn [andb]. pose proof (py_index_nth (nested p) _ Hpos) as Hn.
  destruct (nth_error (nested p) (Z.to_nat (digits_value idx))) as [c|].
  - destruct Hn as [Hlt ->]. apply Z.ltb_lt in Hlt. now rewrite Hlt.
  - apply Z.ltb_ge in Hn. now rewrite Hn.
Qed.

Lemma find_property_indexed_witness :
  find_property lookup_tree (lit "Slots" ++ [91] ++ lit "1" ++ [93])
  = if len (lit "1") >? int_max_str_digits then Raise ValueError
    else
      Ok match List.find (fun p => str_eqb (name p) (lit "Slots")) lookup_tree with
         | Some p =>
             if is_str (type_name p) (lit "ArrayProperty")
             then nth_error (nested p) (Z.to_nat (digits_value (lit "1")))
             else None
         | None => None
         end.
Proof.
  apply (find_property_indexed_is_nth_child lookup_tree (lit "Slots") (lit "1"));
    first [reflexivity | discriminate].
Defined.

Lemma py_int_negative (s : pystr) :
  s <> [] -> forallb is_digit s = true ->
  py_int (45 :: s) = if len s >? int_max_str_digits then Raise ValueError
                     else Ok (- digits_value s).
Proof.
  intros Hne Hd. unfold py_int.
  assert (A : all_digits s = true) by (destruct s; [congruence | exact Hd]).
  rewrite A. destruct (len s >? int_max_str_digits); [reflexivity|]. f_equal; lia.
Qed.

(** X4: a negative index is not rejected. A path [Name[-k]], with
    [k > 0] written in decimal digits, on a first match of type
    [ArrayProperty] with [n] children returns the child number [n - k],
    counted from the end as Python indexes a list, when [k <= n], and
    raises [IndexError] when [k > n]; on a first match of another type,
    and when no record has the name, it returns [None]. That is for
    [k] of at most [int_max_str_digits] digits: with more digits [int]
    refuses the index and the lookup raises [ValueError] whatever the
    tree. *)
Theorem find_property_negative_index_counts_from_end
        (ps : list FPropertyTag) (nm idx : pystr) :
  contains 46 nm = false -> contains 91 nm = false ->
  idx <> [] -> forallb is_digit idx = true -> 0 < digits_value idx ->
  find_property ps (nm ++ [91] ++ (45 :: idx) ++ [93])
  = if len idx >? int_max_str_digits then Raise ValueError
    else
      match List.find (fun p => str_eqb (name p) nm) ps with
      | Some p =>
          if is_str (type_name p) (lit "ArrayProperty")
          then
            if digits_value idx <=? len (nested p)
            then Ok (nth_error (nested p) (Z.to_nat (len (nested p) - digits_value idx)))
            else Raise IndexError
          else Ok None
      | None => Ok None
      end.
Proof.
  intros Hdot Hbr Hne Hd Hk.
  pose proof (py_int_negative idx Hne Hd) as Hint.
  destruct (len idx >? int_max_str_digits).
  { pose proof (parse_segment_index_raises nm [45] idx _ Hdot Hbr eq_refl eq_refl Hne Hd
                  Hint) as Hp.
    exact (find_property_parse_raises ps _ _ Hp). }
  pose proof (parse_segment_index nm [45] idx _ Hdot Hbr eq_refl eq_refl Hne Hd
                Hint) as Hp.
  change ([45] ++ idx) with (45 :: idx) in Hp.
  rewrite (find_property_unfold ps _ nm (Some (- digits_value idx)) None Hp).
  unfold first_named. destruct (List.find _ ps) as [p|]; [|reflexivity].
  unfold target_of. destruct (is_str (type_name p) (lit "ArrayProperty")); [|reflexivity].
  cbn [andb]. pose proof (len_nonneg (nested p)) as Hlen.
  replace (- digits_value idx <? len (nested p)) with true
    by (symmetry; apply Z.ltb_lt; lia).
  unfold py_index.
  replace (- digits_value idx <? 0) with true by (symmetry; apply Z.ltb_lt; lia).
  replace (- digits_value idx + len (nested p)) with (len (nested p) - digits_value idx)
    by lia.
  destruct (digits_value idx <=? len (nested p)) eqn:E.
  - apply Z.leb_le in E.
    replace (len (nested p) - digits_value idx <? 0) with false
      by (symmetry; apply Z.ltb_ge; lia).
    destruct (nth_error (nested p) (Z.to_nat (len (nested p) - digits_value idx)))
      as [c|] eqn:N; [reflexivity|].
    apply nth_error_None in N. unfold len in *. lia.
  - apply Z.leb_gt in E.
    replace (len (nested p) - digits_value idx <? 0) with true
      by (symmetry; apply Z.ltb_lt; lia).
    reflexivity.
Qed.

Lemma find_property_negative_index_witness :
  find_property lookup_tree (lit "Slots" ++ [91] ++ (45 :: lit "3") ++ [93])
  = if len (lit "3") >? int_max_str_digits then Raise ValueError
    else
      match List.find (fun p => str_eqb (name p) (lit "Slots")) lookup_tree with
      | Some p =>
          if is_str (type_name p) (lit "ArrayProperty")
          then
            if digits_value (lit "3") <=? len (nested p)
            then Ok (nth_error (nested p) (Z.to_nat (len (nested p) - digits_value (lit "3"))))
            else Raise IndexError
          else Ok None
      | None => Ok None
      end.
Proof.
  apply (find_property_negative_index_counts_from_end lookup_tree (lit "Slots") (lit "3"));
    first [reflexivity | discriminate].
Defined.

(** * The method [find] and the function [find_property] *)

Lemma FPropertyTag_find_fuel_unfold (f : nat) (self : FPropertyTag)
      (path nm : pystr) (index : option Z) (rest : option pystr) :
  parse_segment path = Ok (nm, index, rest) ->
  FPropertyTag_find_fuel (S f) self path
  = match first_named nm (nested self) with
    | None => Ok None
    | Some prop =>
        match target_of index prop with
        | Ok (Some t) =>
            match rest with
            | Some rest' => FPropertyTag_find_fuel f t rest'
            | None => Ok (Some t)
            end
        | Ok None => Ok None
        | Raise e => Raise e
        | Stuck => Stuck
        end
    end.
Proof.
  intros Hp. cbn [FPropertyTag_find_fuel]. rewrite Hp. unfold first_named.
  induction (nested self) as [|p ps IH]; [reflexivity|].
  cbn [List.find]. destruct (str_eqb (name p) nm); [|exact IH].
  unfold target_of. destruct index as [i|]; [|reflexivity].
  destruct (is_str (type_name p) (lit "ArrayProperty") && (i <? len (nested p)));
    [|reflexivity].
  now destruct (py_index (nested p) i).
Qed.

(** With the same fuel the two lookups return the same, unless the
    function stops at a record without children. *)
Lemma find_fuel_agrees (f : nat) :
  forall (self : FPropertyTag) (path : pystr),
    FPropertyTag_find_fuel f self path = find_property_fuel f (nested self) path
    \/ (find_property_fuel f (nested self) path = Ok None
        /\ forall t, FPropertyTag_find_fuel f self path <> Ok (Some t)).
Proof.
  induction f as [|f IH]; intros self path; [now left|].
  destruct (parse_segment path) as [[[nm index] rest]| |] eqn:Hp.
  - rewrite (FPropertyTag_find_fuel_unfold f self path nm index rest Hp).
    rewrite (find_property_fuel_unfold f (nested self) path nm index rest Hp).
    destruct (first_named nm (nested self)) as [prop|]; [|now left].
    destruct (target_of index prop) as [[t|]| |]; try now left.
    destruct rest as [rest'|]; [|now left].
    destruct (nested t) as [|c cs] eqn:Hn.
    + right. split; [reflexivity|]. intros t'.
      destruct f as [|f]; [discriminate|].
      destruct (parse_segment rest') as [[[nm' index'] r']| |] eqn:Hp'.
      * rewrite (FPropertyTag_find_fuel_unfold f t rest' nm' index' r' Hp'), Hn.
        discriminate.
      * cbn [FPropertyTag_find_fuel]. rewrite Hp'. discriminate.
      * cbn [FPropertyTag_find_fuel]. rewrite Hp'. discriminate.
    + rewrite <- Hn. apply IH.
  - left. cbn [FPropertyTag_find_fuel find_property_fuel]. now rewrite Hp.
  - left. cbn [FPropertyTag_find_fuel find_property_fuel]. now rewrite Hp.
Qed.

(** X5: the method [find] of a record and [find_property] on the
    children of that record return the same result or raise the same
    error, with one exception: where [find_property] stops with [None]
    at a record without children, the method goes on with the rest of
    the path, and returns no record either. So a record that one of the
    two finds is the record that the other finds. *)
Theorem FPropertyTag_find_agrees_with_find_property (self : FPropertyTag) (path : pystr) :
  FPropertyTag_find self path = find_property (nested self) path
  \/ (find_property (nested self) path = Ok None
      /\ forall t, FPropertyTag_find self path <> Ok (Some t)).
Proof. exact (find_fuel_agrees (S (List.length path)) self path). Qed.

(** Where the two differ: the rest of the path is malformed and the
    record of the first segment has no children. *)
Example FPropertyTag_find_parses_past_childless_record :
  find_property lookup_tree (lit "Exp.a[b[c") = Ok None
  /\ FPropertyTag_find (struct_tag "Top" "Record" VNone lookup_tree) (lit "Exp.a[b[c")
     = Raise ValueError.
Proof. split; vm_compute; reflexivity. Qed.

(** * Assigning through a path *)

Lemma first_named_index (nm : pystr) (ps : list FPropertyTag) :
  first_named nm ps
  = match first_index nm ps with
    | Some k => nth_error ps k
    | None => None
    end.
Proof.
  unfold first_named. induction ps as [|p ps IH]; [reflexivity|].
  cbn [List.find first_index]. destruct (str_eqb (name p) nm); [reflexivity|].
  rewrite IH. now destruct (first_index nm ps).
Qed.

Lemma first_index_some (nm : pystr) (ps : list FPropertyTag) (k : nat) :
  first_index nm ps = Some k -> exists p, nth_error ps k = Some p.
Proof.
  revert k. induction ps as [|p ps IH]; intros k H; [discriminate|].
  cbn [first_index] in H. destruct (str_eqb (name p) nm).
  - injection H as <-. now exists p.
  - destruct (first_index nm ps) as [k'|]; [|discriminate].
    injection H as <-. exact (IH k' eq_refl).
Qed.

Lemma locate_fuel_unfold (f : nat) (ps : list FPropertyTag)
      (path nm : pystr) (index : option Z) (rest : option pystr) :
  parse_segment path = Ok (nm, index, rest) ->
  locate_fuel (S f) ps path
  = match first_index nm ps with
    | None => Ok None
    | Some k =>
        match nth_error ps k with
        | None => Ok None
        | Some prop =>
            match target_of index prop with
            | Ok (Some t) =>
                match rest with
                | Some rest' =>
                    match nested t with
                    | _ :: _ =>
                        match locate_fuel f (nested t) rest' with
                        | Ok (Some pl) => Ok (Some (place_of index k prop ++ pl))
                        | r => r
                        end
                    | [] => Ok None
                    end
                | None => Ok (Some (place_of index k prop))
                end
            | Ok None => Ok None
            | Raise e => Raise e
            | Stuck => Stuck
            end
        end
    end.
Proof.
  intros Hp. cbn [locate_fuel]. rewrite Hp.
  match goal with
  | |- ?scan O ps = _ =>
      assert (G : forall props k0,
                 scan k0 props
                 = match first_index nm props with
                   | None => Ok None
                   | Some k =>
                       match nth_error props k with
                       | None => Ok None
                       | Some prop =>
                           match target_of index prop with
                           | Ok (Some t) =>
                               match rest with
                               | Some rest' =>
                                   match nested t with
                                   | _ :: _ =>
                                       match locate_fuel f (nested t) rest' with
                                       | Ok (Some pl) =>
                                           Ok (Some (place_of index (k0 + k) prop ++ pl))
                                       | r => r
                                       end
                                   | [] => Ok None
                                   end
                               | None => Ok (Some (place_of index (k0 + k) prop))
                               end
                           | Ok None => Ok None
                           | Raise e => Raise e
                           | Stuck => Stuck
                           end
                       end
                   end)
  end.
  { induction props as [|p props IH]; intros k0; [reflexivity|].
    cbn [first_index]. destruct (str_eqb (name p) nm) eqn:En.
    - cbn [nth_error]. rewrite Nat.add_0_r. unfold target_of, place_of.
      destruct index as [i|]; [|reflexivity].
      destruct (is_str (type_name p) (lit "ArrayProperty") && (i <? len (nested p)));
        [|reflexivity].
      now destruct (py_index (nested p) i).
    - rewrite IH. destruct (first_index nm props) as [k|]; [|reflexivity].
      cbn [option_map nth_error]. now rewrite Nat.add_succ_comm. }
  exact (G ps O).
Qed.

Lemma py_index_place {A} (l : list A) (i : Z) (x : A) :
  py_index l i = Ok x ->
  nth_error l (Z.to_nat (if i <? 0 then i + len l else i)) = Some x.
Proof.
  unfold py_index. destruct ((if i <? 0 then i + len l else i) <? 0); [discriminate|].
  destruct (nth_error l _) as [y|]; [|discriminate]. now intros [= ->].
Qed.

Lemma record_at_app (here pl : list nat) :
  forall (ps : list FPropertyTag) (t : FPropertyTag),
    pl <> [] -> record_at ps here = Some t ->
    record_at ps (here ++ pl) = record_at (nested t) pl.
Proof.
  induction here as [|k here IH]; intros ps t Hpl H; [discriminate|].
  cbn [app record_at] in *. destruct (nth_error ps k) as [p|]; [|discriminate].
  destruct here as [|k' here].
  - injection H as ->. cbn [app]. destruct pl; [congruence | reflexivity].
  - cbn [app] in *. exact (IH (nested p) t Hpl H).
Qed.

Lemma target_place (index : option Z) (k : nat) (ps : list FPropertyTag)
      (prop t : FPropertyTag) :
  nth_error ps k = Some prop -> target_of index prop = Ok (Some t) ->
  record_at ps (place_of index k prop) = Some t.
Proof.
  intros Hk Ht. unfold target_of, place_of in *. destruct index as [i|].
  - destruct (is_str (type_name prop) (lit "ArrayProperty") && (i <? len (nested prop)));
      [|discriminate].
    destruct (py_index (nested prop) i) as [x| |] eqn:E; try discriminate.
    injection Ht as ->. cbn [record_at]. rewrite Hk. now rewrite (py_index_place _ _ _ E).
  - injection Ht as ->. cbn [record_at]. now rewrite Hk.
Qed.

(** The reference that [find_property] returns is the record at the
    place that [locate] returns. *)
Lemma find_property_fuel_locate (f : nat) :
  forall (ps : list FPropertyTag) (path : pystr),
    match locate_fuel f ps path with
    | Ok (Some pl) =>
        exists t, record_at ps pl = Some t /\ find_property_fuel f ps path = Ok (Some t)
    | Ok None => find_property_fuel f ps path = Ok None
    | Raise e => find_property_fuel f ps path = Raise e
    | Stuck => find_property_fuel f ps path = Stuck
    end.
Proof.
  induction f as [|f IH]; intros ps path; [reflexivity|].
  destruct (parse_segment path) as [[[nm index] rest]| |] eqn:Hp;
    [|cbn [locate_fuel find_property_fuel]; now rewrite Hp ..].
  rewrite (locate_fuel_unfold f ps path nm index rest Hp).
  rewrite (find_property_fuel_unfold f ps path nm index rest Hp).
  rewrite first_named_index.
  destruct (first_index nm ps) as [k|]; [|reflexivity].
  destruct (nth_error ps k) as [prop|] eqn:Hk; [|reflexivity].
  destruct (target_of index prop) as [[t|]| |] eqn:Ht; try reflexivity.
  pose proof (target_place index k ps prop t Hk Ht) as Hrec.
  destruct rest as [rest'|]; [|now exists t].
  destruct (nested t) as [|c cs] eqn:Hn; [reflexivity|]. rewrite <- Hn.
  specialize (IH (nested t) rest').
  destruct (locate_fuel f (nested t) rest') as [[pl|]| |]; try exact IH.
  destruct IH as (u & Hu & Hf). exists u. split; [|exact Hf].
  rewrite (record_at_app _ pl ps t); [exact Hu | | exact Hrec].
  intros ->. discriminate Hu.
Qed.

Lemma length_list_update {A} (k : nat) (g : A -> A) (l : list A) :
  List.length (list_update k g l) = List.length l.
Proof.
  revert k. induction l as [|x l IH]; intros [|k]; cbn [list_update List.length];
    try reflexivity. now rewrite IH.
Qed.

Lemma nth_error_list_update {A} (k : nat) (g : A -> A) (l : list A) :
  nth_error (list_update k g l) k = option_map g (nth_error l k).
Proof.
  revert k. induction l as [|x l IH]; intros [|k]; cbn [list_update nth_error];
    try reflexivity. apply IH.
Qed.

Lemma first_index_list_update (nm : pystr) (k : nat) (g : FPropertyTag -> FPropertyTag)
      (ps : list FPropertyTag) :
  (forall p, name (g p) = name p) ->
  first_index nm (list_update k g ps) = first_index nm ps.
Proof.
  intros Hg. revert k. induction ps as [|p ps IH]; intros [|k];
    cbn [list_update first_index]; try reflexivity.
  - now rewrite Hg.
  - now rewrite IH.
Qed.

Lemma length_update_at (g : FPropertyTag -> FPropertyTag) (pl : list nat)
      (ps : list FPropertyTag) :
  List.length (update_at g pl ps) = List.length ps.
Proof. destruct pl; [reflexivity|]. apply length_list_update. Qed.

Lemma len_update_at (g : FPropertyTag -> FPropertyTag) (pl : list nat)
      (ps : list FPropertyTag) :
  len (update_at g pl ps) = len ps.
Proof. unfold len. now rewrite length_update_at. Qed.

Lemma py_index_list_update {A} (l : list A) (i : Z) (x : A) (g : A -> A) :
  py_index l i = Ok x ->
  py_index (list_update (Z.to_nat (if i <? 0 then i + len l else i)) g l) i = Ok (g x).
Proof.
  intros H. pose proof (py_index_place l i x H) as Hn. unfold py_index in *.
  assert (L : len (list_update (Z.to_nat (if i <? 0 then i + len l else i)) g l) = len l)
    by (unfold len; now rewrite length_list_update).
  rewrite L. destruct ((if i <? 0 then i + len l else i) <? 0); [discriminate|].
  now rewrite nth_error_list_update, Hn.
Qed.

(** The record at the place is the record that [g] was applied to. *)
Lemma record_at_update_at (g : FPropertyTag -> FPropertyTag) (pl : list nat) :
  forall ps, record_at (update_at g pl ps) pl = option_map g (record_at ps pl).
Proof.
  induction pl as [|k pl IH]; intros ps; [reflexivity|].
  cbn [update_at record_at]. rewrite nth_error_list_update.
  destruct (nth_error ps k) as [p|]; [|reflexivity]. cbn [option_map].
  destruct pl as [|k' pl]; [reflexivity|].
  cbn [nested set_nested]. exact (IH (nested p)).
Qed.

Lemma locate_fuel_nonempty (f : nat) (ps : list FPropertyTag) (path : pystr)
      (pl : list nat) :
  locate_fuel f ps path = Ok (Some pl) -> pl <> [].
Proof.
  intros H. pose proof (find_property_fuel_locate f ps path) as L. rewrite H in L.
  destruct L as (t & Ht & _). intros ->. discriminate Ht.
Qed.

Lemma nonempty_update_at (g : FPropertyTag -> FPropertyTag) (pl : list nat)
      (ps : list FPropertyTag) :
  ps <> [] -> exists c cs, update_at g pl ps = c :: cs.
Proof.
  intros H. pose proof (length_update_at g pl ps) as L.
  destruct (update_at g pl ps) as [|c cs]; [|now exists c, cs].
  destruct ps; [congruence | discriminate L].
Qed.

(** After the update the path designates the same place. *)
Lemma locate_fuel_update_at (g : FPropertyTag -> FPropertyTag) (f : nat) :
  keeps_shape g ->
  forall (ps : list FPropertyTag) (path : pystr) (pl : list nat),
    locate_fuel f ps path = Ok (Some pl) ->
    locate_fuel f (update_at g pl ps) path = Ok (Some pl).
Proof.
  intros Hg. induction f as [|f IH]; intros ps path pl H; [discriminate|].
  destruct (parse_segment path) as [[[nm index] rest]| |] eqn:Hp;
    [|cbn [locate_fuel] in H; rewrite Hp in H; discriminate ..].
  rewrite (locate_fuel_unfold f ps path nm index rest Hp) in H.
  rewrite (locate_fuel_unfold f _ path nm index rest Hp).
  destruct (first_index nm ps) as [k|] eqn:Hk; [|discriminate].
  destruct (nth_error ps k) as [prop|] eqn:Hprop; [|discriminate].
  destruct (target_of index prop) as [[t|]| |] eqn:Ht; try discriminate.
  (* the place is [place_of index k prop ++ tail], with [tail] empty or
     returned by the lookup among the children of the target *)
  assert (Hpl : exists tail,
             pl = place_of index k prop ++ tail
             /\ match rest with
                | Some rest' =>
                    nested t <> [] /\ tail <> []
                    /\ locate_fuel f (nested t) rest' = Ok (Some tail)
                | None => tail = []
                end).
  { destruct rest as [rest'|].
    - destruct (nested t) as [|c cs] eqn:Hn; [discriminate|].
      destruct (locate_fuel f (c :: cs) rest') as [[tail|]| |] eqn:Hl; try discriminate.
      injection H as <-. exists tail. split; [reflexivity|].
      split; [discriminate|]. split; [|reflexivity].
      exact (locate_fuel_nonempty f _ _ _ Hl).
    - injection H as <-. exists []. now rewrite app_nil_r. }
  clear H. destruct Hpl as (tail & -> & Hrest).
  set (h := fun c : FPropertyTag =>
              match tail with
              | [] => g c
              | _ :: _ => set_nested (update_at g tail (nested c)) c
              end).
  assert (Hh : forall c, name (h c) = name c /\ type_name (h c) = type_name c).
  { intros c. unfold h. destruct tail; [|now split]. now destruct (Hg c) as (? & ? & _). }
  assert (Hnest : nested (h t) = update_at g tail (nested t)).
  { unfold h. destruct tail; [|reflexivity]. now destruct (Hg t) as (_ & _ & ->). }
  (* what the lookup does at the target after the update *)
  assert (Hfound :
            match rest with
            | Some rest' =>
                match nested (h t) with
                | _ :: _ =>
                    match locate_fuel f (nested (h t)) rest' with
                    | Ok (Some pl) => Ok (Some (place_of index k prop ++ pl))
                    | r => r
                    end
                | [] => Ok None
                end
            | None => Ok (Some (place_of index k prop))
            end = Ok (Some (place_of index k prop ++ tail))).
  { destruct rest as [rest'|].
    - destruct Hrest as (Hne & _ & Hl). rewrite Hnest.
      destruct (nonempty_update_at g tail (nested t) Hne) as (c & cs & Hc).
      rewrite Hc, <- Hc. now rewrite (IH (nested t) rest' tail Hl).
    - subst tail. now rewrite app_nil_r. }
  unfold target_of, place_of in *. destruct index as [i|].
  - (* the target is a child of the record *)
    destruct (is_str (type_name prop) (lit "ArrayProperty") && (i <? len (nested prop)))
      eqn:Hcond; [|discriminate].
    destruct (py_index (nested prop) i) as [x| |] eqn:Hi; try discriminate.
    injection Ht as ->.
    set (j := Z.to_nat (if i <? 0 then i + len (nested prop) else i)) in *.
    cbn [app update_at].
    rewrite first_index_list_update, Hk, nth_error_list_update, Hprop by reflexivity.
    cbn [option_map type_name nested set_nested].
    change (fun p : FPropertyTag =>
              match tail with
              | [] => g p
              | _ :: _ => set_nested (update_at g tail (nested p)) p
              end) with h.
    assert (L : len (list_update j h (nested prop)) = len (nested prop))
      by (unfold len; now rewrite length_list_update).
    rewrite L, Hcond. unfold j. rewrite (py_index_list_update _ _ _ h Hi).
    exact Hfound.
  - (* the target is the record *)
    injection Ht as ->. cbn [app update_at].
    change (fun p : FPropertyTag =>
              match tail with
              | [] => g p
              | _ :: _ => set_nested (update_at g tail (nested p)) p
              end) with h.
    rewrite first_index_list_update, Hk, nth_error_list_update, Hprop
      by (intros c; apply Hh).
    cbn [option_map]. exact Hfound.
Qed.

Lemma keeps_shape_set_value (v : PyValue) : keeps_shape (set_value v).
Proof. intros p. now repeat split. Qed.

Lemma find_property_locate (ps : list FPropertyTag) (path : pystr) :
  match locate ps path with
  | Ok (Some pl) =>
      exists t, record_at ps pl = Some t /\ find_property ps path = Ok (Some t)
  | Ok None => find_property ps path = Ok None
  | Raise e => find_property ps path = Raise e
  | Stuck => find_property ps path = Stuck
  end.
Proof. exact (find_property_fuel_locate (S (List.length path)) ps path). Qed.

(** X6: [set_property_value] follows [find_property]. When the lookup
    finds a record, the call returns [True] and the same lookup on the
    tree after the call finds that record with the new value, its other
    attributes unchanged. When the lookup finds nothing, the call
    returns [False] and the tree is unchanged. An error of the lookup
    is the error of the call. *)
Theorem set_property_value_then_find_property
        (ps : list FPropertyTag) (path : pystr) (v : PyValue) :
  match find_property ps path with
  | Ok (Some t) =>
      exists ps',
        set_property_value ps path v = Ok (true, ps')
        /\ find_property ps' path = Ok (Some (set_value v t))
  | Ok None => set_property_value ps path v = Ok (false, ps)
  | Raise e => set_property_value ps path v = Raise e
  | Stuck => set_property_value ps path v = Stuck
  end.
Proof.
  pose proof (find_property_locate ps path) as L. unfold set_property_value.
  destruct (locate ps path) as [[pl|]| |] eqn:Hl; try (rewrite L; reflexivity).
  destruct L as (t & Ht & ->).
  exists (update_at (set_value v) pl ps). split; [reflexivity|].
  pose proof (find_property_locate (update_at (set_value v) pl ps) path) as L'.
  unfold locate in Hl, L'.
  rewrite (locate_fuel_update_at (set_value v) _ (keeps_shape_set_value v) ps path pl Hl)
    in L'.
  destruct L' as (t' & Ht' & ->).
  rewrite record_at_update_at, Ht in Ht'. now injection Ht' as <-.
Qed.

Lemma nth_error_list_update_other {A} (k k2 : nat) (g : A -> A) (l : list A) :
  k <> k2 -> nth_error (list_update k g l) k2 = nth_error l k2.
Proof.
  revert k k2. induction l as [|x l IH]; intros [|k] [|k2] H;
    cbn [list_update nth_error]; try reflexivity; try congruence.
  apply IH. congruence.
Qed.

Lemma same_shape_refl (g : FPropertyTag -> FPropertyTag) (p : FPropertyTag) :
  same_shape g p p.
Proof. split; [reflexivity|]. split; [reflexivity|]. now exists []. Qed.

(** A record of an updated list is the record at the same index of the
    list, up to an update inside. *)
Lemma update_at_child (g : FPropertyTag -> FPropertyTag) (pl : list nat)
      (ps : list FPropertyTag) (k : nat) :
  keeps_shape g ->
  match nth_error ps k with
  | Some p => exists q, nth_error (update_at g pl ps) k = Some q /\ same_shape g p q
  | None => nth_error (update_at g pl ps) k = None
  end.
Proof.
  intros Hg. destruct pl as [|k0 tail].
  - cbn [update_at]. destruct (nth_error ps k) as [p|]; [|reflexivity].
    exists p. split; [reflexivity | apply same_shape_refl].
  - cbn [update_at]. destruct (Nat.eq_dec k0 k) as [->|Hk].
    + rewrite nth_error_list_update. destruct (nth_error ps k) as [p|]; [|reflexivity].
      cbn [option_map]. eexists. split; [reflexivity|].
      destruct tail as [|k1 tail].
      * destruct (Hg p) as (Hn & Ht & Hc). split; [exact Hn|]. split; [exact Ht|].
        exists []. exact Hc.
      * split; [reflexivity|]. split; [reflexivity|]. now exists (k1 :: tail).
    + rewrite (nth_error_list_update_other k0 k _ ps Hk).
      destruct (nth_error ps k) as [p|]; [|reflexivity].
      exists p. split; [reflexivity | apply same_shape_refl].
Qed.

Lemma first_index_update_at (g : FPropertyTag -> FPropertyTag) (nm : pystr)
      (pl : list nat) (ps : list FPropertyTag) :
  keeps_shape g -> first_index nm (update_at g pl ps) = first_index nm ps.
Proof.
  intros Hg. destruct pl as [|k tail]; [reflexivity|]. cbn [update_at].
  apply first_index_list_update. intros p.
  destruct tail; [now destruct (Hg p) | reflexivity].
Qed.

Lemma py_index_update_at (g : FPropertyTag -> FPropertyTag) (pl : list nat)
      (cs : list FPropertyTag) (i : Z) :
  keeps_shape g ->
  match py_index cs i with
  | Ok x => exists y, py_index (update_at g pl cs) i = Ok y /\ same_shape g x y
  | r => py_index (update_at g pl cs) i = r
  end.
Proof.
  intros Hg. unfold py_index. rewrite len_update_at.
  destruct ((if i <? 0 then i + len cs else i) <? 0); [reflexivity|].
  pose proof (update_at_child g pl cs (Z.to_nat (if i <? 0 then i + len cs else i)) Hg)
    as H.
  destruct (nth_error cs _) as [x|].
  - destruct H as (y & -> & Hy). now exists y.
  - now rewrite H.
Qed.

(** An update that keeps names, types and children changes no place
    that a path designates. *)
Lemma locate_fuel_same_shape (g : FPropertyTag -> FPropertyTag) (f : nat) :
  keeps_shape g ->
  forall (ps : list FPropertyTag) (pl : list nat) (path : pystr),
    locate_fuel f (update_at g pl ps) path = locate_fuel f ps path.
Proof.
  intros Hg. induction f as [|f IH]; intros ps pl path; [reflexivity|].
  destruct (parse_segment path) as [[[nm index] rest]| |] eqn:Hp;
    [|cbn [locate_fuel]; now rewrite Hp ..].
  rewrite !(locate_fuel_unfold f _ path nm index rest Hp).
  rewrite (first_index_update_at g nm pl ps Hg).
  destruct (first_index nm ps) as [k|]; [|reflexivity].
  pose proof (update_at_child g pl ps k Hg) as Hk.
  destruct (nth_error ps k) as [p|]; [|now rewrite Hk].
  destruct Hk as (q & -> & Hn & Ht & pl' & Hc).
  (* the targets are related, and the places are the same *)
  assert (T : match target_of index p with
              | Ok (Some t) => exists u, target_of index q = Ok (Some u) /\ same_shape g t u
              | r => target_of index q = r
              end
              /\ place_of index k q = place_of index k p).
  { unfold target_of, place_of. destruct index as [i|].
    - rewrite Ht, Hc, len_update_at. split; [|reflexivity].
      destruct (is_str (type_name p) (lit "ArrayProperty") && (i <? len (nested p)));
        [|reflexivity].
      pose proof (py_index_update_at g pl' (nested p) i Hg) as Hi.
      destruct (py_index (nested p) i) as [x| |].
      + destruct Hi as (y & -> & Hy). now exists y.
      + now rewrite Hi.
      + now rewrite Hi.
    - split; [|reflexivity]. exists q. split; [reflexivity|].
      split; [exact Hn|]. split; [exact Ht|]. now exists pl'. }
  destruct T as [T ->].
  destruct (target_of index p) as [[t|]| |]; try (now rewrite T).
  destruct T as (u & -> & _ & _ & pl'' & Hu).
  destruct rest as [rest'|]; [|reflexivity].
  rewrite Hu, IH.
  destruct (nested t) as [|c cs] eqn:Ec.
  - now destruct pl'' as [|[|n] tl].
  - destruct (nonempty_update_at g pl'' (c :: cs) ltac:(discriminate)) as (c' & cs' & ->).
    reflexivity.
Qed.

Lemma record_at_update_apart (g : FPropertyTag -> FPropertyTag) (pl : list nat) :
  forall (pl2 : list nat) (ps : list FPropertyTag),
    apart pl pl2 = true -> record_at (update_at g pl ps) pl2 = record_at ps pl2.
Proof.
  induction pl as [|k a IH]; intros pl2 ps H; [discriminate|].
  destruct pl2 as [|k2 b]; [discriminate|]. cbn [apart] in H.
  cbn [update_at record_at]. destruct (Nat.eqb k k2) eqn:E.
  - apply Nat.eqb_eq in E. subst k2. rewrite nth_error_list_update.
    destruct (nth_error ps k) as [p|]; [|reflexivity]. cbn [option_map].
    destruct a as [|k' a]; [discriminate|]. destruct b as [|k2' b].
    { now destruct k'. }
    cbn [nested set_nested]. exact (IH (k2' :: b) (nested p) H).
  - apply Nat.eqb_neq in E. now rewrite (nth_error_list_update_other k k2 _ ps E).
Qed.

(** A record that is found at a place before an update is found there
    after it, with its name and its type. *)
Lemma record_at_update_shape (g : FPropertyTag -> FPropertyTag) :
  keeps_shape g ->
  forall (pl2 : list nat) (ps : list FPropertyTag) (pl : list nat),
    match record_at ps pl2 with
    | Some t => exists t', record_at (update_at g pl ps) pl2 = Some t' /\ same_shape g t t'
    | None => record_at (update_at g pl ps) pl2 = None
    end.
Proof.
  intros Hg. induction pl2 as [|k2 pl2 IH]; intros ps pl; [reflexivity|].
  cbn [record_at]. pose proof (update_at_child g pl ps k2 Hg) as H.
  destruct (nth_error ps k2) as [p|].
  - destruct H as (q & -> & Hs). destruct pl2 as [|k3 pl3].
    + now exists q.
    + destruct Hs as (_ & _ & pl' & ->). apply IH.
  - now rewrite H.
Qed.

(** X7: [set_property_value] changes the record found and nothing that
    a lookup goes by. After a successful call every path designates
    what it designated before: the same place of the tree, nothing
    where it found nothing, and the lookup raises where it raised. A
    path whose place is apart from the place of the record assigned to
    (neither that record nor a record that contains it or that it
    contains) returns the same record as before the call; every other
    path that found a record finds a record of the same name and type. *)
Theorem set_property_value_keeps_records_apart
        (ps ps' : list FPropertyTag) (path path2 : pystr) (v : PyValue)
        (pl : list nat) :
  locate ps path = Ok (Some pl) ->
  set_property_value ps path v = Ok (true, ps') ->
  locate ps' path2 = locate ps path2
  /\ match locate ps path2 with
     | Ok (Some pl2) =>
         if apart pl pl2 then find_property ps' path2 = find_property ps path2
         else
           exists t t',
             find_property ps path2 = Ok (Some t)
             /\ find_property ps' path2 = Ok (Some t')
             /\ name t' = name t /\ type_name t' = type_name t
     | _ => find_property ps' path2 = find_property ps path2
     end.
Proof.
  intros Hl Hs. unfold set_property_value in Hs. rewrite Hl in Hs.
  injection Hs as <-.
  assert (L : locate (update_at (set_value v) pl ps) path2 = locate ps path2).
  { unfold locate.
    exact (locate_fuel_same_shape _ _ (keeps_shape_set_value v) ps pl path2). }
  split; [exact L|].
  pose proof (find_property_locate ps path2) as F.
  pose proof (find_property_locate (update_at (set_value v) pl ps) path2) as F'.
  rewrite L in F'.
  destruct (locate ps path2) as [[pl2|]| |]; try congruence.
  destruct F as (t & Ht & Ft). destruct F' as (t' & Ht' & Ft').
  destruct (apart pl pl2) eqn:Ha.
  - rewrite (record_at_update_apart _ pl pl2 ps Ha) in Ht'. congruence.
  - exists t, t'. split; [exact Ft|]. split; [exact Ft'|].
    pose proof (record_at_update_shape _ (keeps_shape_set_value v) pl2 ps pl) as R.
    rewrite Ht in R. destruct R as (u & Hu & Hn & Hty & _).
    rewrite Hu in Ht'. injection Ht' as <-. now split.
Qed.

Lemma set_property_value_keeps_records_apart_witness :
  locate (update_at (set_value (VInt 55)) [2%nat; 0%nat] lookup_tree) (lit "Slots[1].Id")
  = locate lookup_tree (lit "Slots[1].Id")
  /\ find_property (update_at (set_value (VInt 55)) [2%nat; 0%nat] lookup_tree) (lit "Slots[1].Id")
     = find_property lookup_tree (lit "Slots[1].Id").
Proof.
  apply (set_property_value_keeps_records_apart
           lookup_tree (update_at (set_value (VInt 55)) [2%nat; 0%nat] lookup_tree)
           (lit "Rec.Hp") (lit "Slots[1].Id") (VInt 55) [2%nat; 0%nat]);
    vm_compute; reflexivity.
Defined.

(** * Strings and integers through the writer and the reader *)

Lemma enc_fstring_ok (o : option pystr) :
  opt_str_ok o = true -> exists bs, enc_fstring o = Ok bs.
Proof.
  destruct o as [s|]; [|intros _; now exists (le_bytes 4 0)].
  cbn [opt_str_ok]. intros Hok. pose proof (str_ok_len s Hok) as Hlen.
  pose proof (len_nonneg s) as Hs. unfold enc_fstring, encode_ascii.
  destruct (forallb (in_range 0 128) s).
  - unfold pack_i32.
    assert (R : in_range (- 2 ^ 31) (2 ^ 31) (len (List.map byte_of_Z s ++ [x00])) = true).
    { apply in_range_spec. rewrite len_app, len_map. cbn. lia. }
    rewrite R. cbn [bindR]. eauto.
  - unfold str_ok in Hok. apply andb_true_iff in Hok as [Hc _].
    destruct (utf16_roundtrip s Hc) as (e & -> & _ & _). cbn [bindR].
    unfold pack_i32.
    assert (R : in_range (- 2 ^ 31) (2 ^ 31) (- (len s + 1)) = true)
      by (apply in_range_spec; lia).
    rewrite R. cbn [bindR]. eauto.
Qed.

Lemma at_after_stream (w : BinaryWriter) (bs rest : list byte) :
  at_end w -> at_ (stream (append w bs) ++ rest) (wpos w) bs.
Proof.
  intros Hw. exists (stream w), rest. cbn [append stream].
  split; [now rewrite <- app_assoc | now symmetry].
Qed.

(** X8: a string written by [write_fstring] is read back by
    [read_fstring]. For [None], the empty string and every string of
    code points below U+10000 without surrogates, whose length fits the
    prefix, the writer at the end of its stream succeeds, reports the
    number [n] of bytes written, at least four, and the reader started
    where the writer started returns the same value and stops [n] bytes
    further, whatever follows in the buffer. *)
Theorem write_fstring_read_fstring_roundtrip
        (s : option pystr) (w : BinaryWriter) (rest : list byte) :
  opt_str_ok s = true -> at_end w ->
  exists n w',
    write_fstring s w = Ok (n, w')
    /\ 4 <= n /\ wpos w' = wpos w + n
    /\ read_fstring (mkReader (stream w' ++ rest) (wpos w))
       = Ok (s, mkReader (stream w' ++ rest) (wpos w')).
Proof.
  intros Hok Hw. destruct (enc_fstring_ok s Hok) as (bs & Hbs).
  exists (len bs), (append w bs). split.
  - exact (emits_ok bs w (emits_write_fstring s) Hbs Hw).
  - split; [exact (enc_fstring_len s bs Hbs)|]. split; [reflexivity|].
    exact (reads_read_fstring_opt s bs Hok Hbs _ _ (at_after_stream w bs rest Hw)).
Qed.

Lemma write_fstring_read_fstring_witness :
  exists n w',
    write_fstring (Some [233; 8364; 65]) new_writer = Ok (n, w')
    /\ 4 <= n /\ wpos w' = wpos new_writer + n
    /\ read_fstring (mkReader (stream w' ++ [x01]) (wpos new_writer))
       = Ok (Some [233; 8364; 65], mkReader (stream w' ++ [x01]) (wpos w')).
Proof.
  apply (write_fstring_read_fstring_roundtrip (Some [233; 8364; 65]) new_writer [x01]);
    reflexivity.
Defined.

Lemma write_read_int (lo hi : Z) (pack : Z -> Result (list byte))
      (unpack : list byte -> Result Z) (n : Z)
      (z : Z) (w : BinaryWriter) (rest : list byte) :
  (forall v, pack v = if in_range lo hi v then Ok (le_bytes (Z.to_nat n) v)
                      else Raise StructError) ->
  (forall v bs, pack v = Ok bs -> unpack bs = Ok v /\ len bs = n) ->
  at_end w ->
  if in_range lo hi z then
    exists w',
      (bs <- lift (pack z) ;; write_bytes bs) w = Ok (n, w')
      /\ (bs <- read_bytes n ;; lift (unpack bs)) (mkReader (stream w' ++ rest) (wpos w))
         = Ok (z, mkReader (stream w' ++ rest) (wpos w + n))
  else (bs <- lift (pack z) ;; write_bytes bs) w = Raise StructError.
Proof.
  intros Hpack Hun Hw. specialize (Hpack z).
  destruct (in_range lo hi z).
  - destruct (Hun z _ Hpack) as [Hu Hl].
    exists (append w (le_bytes (Z.to_nat n) z)). split.
    + unfold bind, lift. rewrite Hpack. unfold write_bytes. rewrite Hl.
      now rewrite (stream_write_at_end _ _ Hw).
    + pose proof (at_after_stream w (le_bytes (Z.to_nat n) z) rest Hw) as Hat.
      rewrite (bind_ok _ (reads_read_bytes (eq_sym Hl) _ _ Hat)).
      unfold lift. now rewrite Hu, Hl.
  - unfold bind, lift. now rewrite Hpack.
Qed.

(** X9: the integer writers and readers are inverse on the range of
    their format and refuse every other integer. At the end of the
    stream, [write_int32] of an integer in [-2^31, 2^31) writes four
    bytes from which [read_int32] returns the integer, and raises
    [struct.error] on any other integer; the same holds for
    [write_uint32] and [read_uint32] on [0, 2^32), and for
    [write_int64] and [read_int64], with eight bytes, on
    [-2^63, 2^63). *)
Theorem write_int_read_int_roundtrip (z : Z) (w : BinaryWriter) (rest : list byte) :
  at_end w ->
  (if in_range (- 2 ^ 31) (2 ^ 31) z then
     exists w',
       write_int32 z w = Ok (4, w')
       /\ read_int32 (mkReader (stream w' ++ rest) (wpos w))
          = Ok (z, mkReader (stream w' ++ rest) (wpos w + 4))
   else write_int32 z w = Raise StructError)
  /\ (if in_range 0 (2 ^ 32) z then
        exists w',
          write_uint32 z w = Ok (4, w')
          /\ read_uint32 (mkReader (stream w' ++ rest) (wpos w))
             = Ok (z, mkReader (stream w' ++ rest) (wpos w + 4))
      else write_uint32 z w = Raise StructError)
  /\ (if in_range (- 2 ^ 63) (2 ^ 63) z then
        exists w',
          write_int64 z w = Ok (8, w')
          /\ read_int64 (mkReader (stream w' ++ rest) (wpos w))
             = Ok (z, mkReader (stream w' ++ rest) (wpos w + 8))
      else write_int64 z w = Raise StructError).
Proof.
  intros Hw. repeat split.
  - apply (write_read_int _ _ pack_i32 unpack_i32 4 z w rest); try assumption.
    + reflexivity.
    + exact unpack_pack_i32.
  - apply (write_read_int _ _ pack_u32 unpack_u32 4 z w rest); try assumption.
    + reflexivity.
    + exact unpack_pack_u32.
  - apply (write_read_int _ _ pack_i64 unpack_i64 8 z w rest); try assumption.
    + reflexivity.
    + exact unpack_pack_i64.
Qed.

Lemma write_int_read_int_witness :
  (exists w',
      write_int32 (-5) new_writer = Ok (4, w')
      /\ read_int32 (mkReader (stream w' ++ [x07]) 0)
         = Ok (-5, mkReader (stream w' ++ [x07]) 4))
  /\ write_uint32 (-5) new_writer = Raise StructError
  /\ (exists w',
         write_int64 (-5) new_writer = Ok (8, w')
         /\ read_int64 (mkReader (stream w' ++ [x07]) 0)
            = Ok (-5, mkReader (stream w' ++ [x07]) 8)).
Proof.
  exact (write_int_read_int_roundtrip (-5) new_writer [x07] eq_refl).
Defined.

(** * What [deserialize] does behind the terminator and on a count
      below zero *)

(** X10: [deserialize] stops at the first [None] name of the top
    level and ignores every byte behind it: the encodings of the records
    of a well-formed list, followed by the [None] name and by any bytes
    [rest], decode to the list. Encoding the result writes four zero
    bytes in the place of [rest]. *)
Theorem deserialize_ignores_bytes_after_terminator
        (ps : list FPropertyTag) (body rest : list byte) :
  wf_props ps = true -> enc_each enc_property ps = Ok body ->
  deserialize (body ++ fstr "None" ++ rest) = Ok ps
  /\ serialize ps true = Ok (body ++ fstr "None" ++ [x00; x00; x00; x00]).
Proof.
  intros Hwf Hb. split.
  - unfold deserialize. rewrite app_assoc. set (d := (body ++ fstr "None") ++ rest).
    assert (R : reads (_read_properties (fuel_of d)) (body ++ fstr "None") ps).
    { apply (reads_properties_list (fuel_of d) (fun g _ => reads_back_all g) ps);
        try assumption; [reflexivity | | lia].
      pose proof (fuel_of_bound d) as Hd. unfold d in Hd at 1. rewrite len_app in Hd.
      pose proof (len_nonneg rest). lia. }
    unfold d at 2. now rewrite (run_reads _ _ _ _ R).
  - rewrite serialize_enc. unfold enc_properties, enc_properties_with. now rewrite Hb.
Qed.

Lemma deserialize_ignores_bytes_witness :
  deserialize (two_children_bytes ++ fstr "None" ++ [x07; x08; x09; x0a; x0b])
  = Ok two_children
  /\ serialize two_children true
     = Ok (two_children_bytes ++ fstr "None" ++ [x00; x00; x00; x00]).
Proof.
  apply (deserialize_ignores_bytes_after_terminator two_children two_children_bytes
           [x07; x08; x09; x0a; x0b]); vm_compute; reflexivity.
Defined.

(** X11: [clone_properties] returns a tree equal to its argument. For
    a well-formed list that [serialize] encodes, the clone is the list
    itself; when [serialize] raises, [clone_properties] raises the same
    error. *)
Theorem clone_properties_returns_equal_tree (ps : list FPropertyTag) :
  wf_props ps = true ->
  match serialize ps true with
  | Ok _ => clone_properties ps = Ok ps
  | Raise e => clone_properties ps = Raise e
  | Stuck => clone_properties ps = Stuck
  end.
Proof.
  intros Hwf. unfold clone_properties.
  destruct (serialize ps true) as [b| |] eqn:E; try reflexivity.
  exact (deserialize_serialize ps true b Hwf E).
Qed.

Lemma clone_properties_witness : clone_properties sample_tree = Ok sample_tree.
Proof.
  exact (clone_properties_returns_equal_tree sample_tree eq_refl).
Defined.

(** * A byte array with a count below zero *)

Lemma read_bytes_back (d : list byte) (o n : Z) :
  0 <= o <= len d -> n <= 0 -> 0 <= o + n ->
  read_bytes n (mkReader d o) = Ok ([], mkReader d (o + n)).
Proof.
  intros Ho Hn Hon. unfold read_bytes. cbn [data offset].
  destruct (Z.gtb_spec (o + n) (len d)); [lia|].
  unfold py_slice, py_clamp.
  destruct (Z.ltb_spec o 0); [lia|]. destruct (Z.ltb_spec (o + n) 0); [lia|].
  replace (Z.to_nat (Z.min (o + n) (len d) - Z.min o (len d))) with O by lia.
  reflexivity.
Qed.

Lemma bind_bind {S A B C} (c : M S A) (k : A -> M S B) (k' : B -> M S C) (s : S) :
  bind (bind c k) k' s = bind c (fun x => bind (k x) k') s.
Proof. unfold bind. now destruct (c s) as [[a s1]| |]. Qed.

(** One property whose byte count rewinds the cursor to the start of
    the property. *)
Lemma read_property_rewinds
      (nm : pystr) (size idx : Z) (pad : byte) (nmb sz ix cnt rest : list byte) (g : nat) :
  name_ok nm = true -> enc_fstring (Some nm) = Ok nmb ->
  pack_i32 size = Ok sz -> pack_i32 idx = Ok ix ->
  pack_i32 (- (len nmb + 48)) = Ok cnt ->
  _read_property (S g)
    (mkReader (nmb ++ fstr "ArrayProperty" ++ sz ++ ix ++ fstr "ByteProperty" ++ [pad]
                 ++ cnt ++ rest) 0)
  = match g with
    | O => Stuck
    | S _ =>
        Ok (Some (set_value (VList [])
                    (set_inner_type (Some (lit "ByteProperty"))
                       (new_tag nm (Some (lit "ArrayProperty"))))),
            mkReader (nmb ++ fstr "ArrayProperty" ++ sz ++ ix ++ fstr "ByteProperty"
                        ++ [pad] ++ cnt ++ rest) 0)
    end.
Proof.
  intros Hnm Enm Esz Eix Ecnt.
  set (d := nmb ++ fstr "ArrayProperty" ++ sz ++ ix ++ fstr "ByteProperty" ++ [pad]
              ++ cnt ++ rest).
  pose proof (enc_fstring_len _ _ Enm) as Lnm.
  pose proof (pack_i32_len _ _ Esz) as Lsz. pose proof (pack_i32_len _ _ Eix) as Lix.
  pose proof (pack_i32_len _ _ Ecnt) as Lcnt.
  assert (LA : len (fstr "ArrayProperty") = 18) by reflexivity.
  assert (LB : len (fstr "ByteProperty") = 17) by reflexivity.
  assert (A0 : at_ d 0 (nmb ++ fstr "ArrayProperty" ++ sz ++ ix ++ fstr "ByteProperty"
                          ++ [pad] ++ cnt ++ rest)).
  { exists [], []. split; [now rewrite app_nil_r | reflexivity]. }
  pose proof (at_app_r A0) as A1. pose proof (at_app_r A1) as A2.
  pose proof (at_app_r A2) as A3. pose proof (at_app_r A3) as A4.
  pose proof (at_app_r A4) as A5. pose proof (at_app_r A5) as A6.
  apply at_app_l in A0, A1, A2, A3, A4, A5, A6.
  assert (Ld : len d = len nmb + 48 + len rest).
  { unfold d. rewrite !len_app, LA, LB, Lsz, Lix, Lcnt. change (len [pad]) with 1. lia. }
  pose proof (len_nonneg rest) as Lrest.
  cbn [_read_property]. rewrite gets_bind. unfold remaining. cbn [data offset].
  destruct (Z.ltb_spec (len d - 0) 4); [lia|].
  rewrite (bind_ok _ (reads_read_fstring nm nmb (name_ok_str nm Hnm) Enm d 0 A0)).
  rewrite (name_ok_not_none nm Hnm).
  rewrite (bind_ok _ (reads_read_fstring (lit "ArrayProperty") (fstr "ArrayProperty")
                        eq_refl eq_refl d _ A1)).
  rewrite (bind_ok _ (reads_read_int32 Esz d _ A2)).
  rewrite (bind_ok _ (reads_read_int32 Eix d _ A3)).
  change (is_str (Some (lit "ArrayProperty")) (lit "ArrayProperty")) with true.
  cbv iota. rewrite bind_bind.
  rewrite (bind_ok _ (reads_read_fstring (lit "ByteProperty") (fstr "ByteProperty")
                        eq_refl eq_refl d _ A4)).
  rewrite bind_bind, (bind_ok _ (reads_read_byte pad d _ A5)).
  destruct g as [|g]; [reflexivity|].
  cbn [_read_array_value].
  rewrite bind_bind, (bind_ok _ (reads_read_int32 Ecnt d _ A6)).
  cbn [inner_type set_inner_type].
  change (is_str (Some (lit "ByteProperty")) (lit "StructProperty")) with false.
  change (is_str (Some (lit "ByteProperty")) (lit "ByteProperty")) with true.
  cbv iota.
  assert (Lpad : len [pad] = 1) by reflexivity.
  rewrite bind_bind.
  match goal with
  | |- bind (read_bytes ?n) _ (mkReader _ ?o) = _ =>
      rewrite (bind_ok _ (read_bytes_back d o n ltac:(lia) ltac:(lia) ltac:(lia)))
  end.
  cbn [List.map]. unfold bind, ret. do 3 f_equal. lia.
Qed.

(** X12: a byte array whose count is negative moves the cursor
    backwards, and the decoder does not notice. When the count is minus
    the length of the property, decoding the property leaves the cursor
    where it began, so the loop of [_read_properties] reads the same
    property again and again: whatever the name, the declared size, the
    array index, the padding byte and the bytes that follow, no amount
    of fuel lets [_read_properties] return, and [deserialize] returns
    no tree and raises no error. *)
Theorem deserialize_loops_on_negative_byte_count
        (nm : pystr) (size idx : Z) (pad : byte) (nmb sz ix cnt rest : list byte) :
  name_ok nm = true -> enc_fstring (Some nm) = Ok nmb ->
  pack_i32 size = Ok sz -> pack_i32 idx = Ok ix ->
  pack_i32 (- (len nmb + 48)) = Ok cnt ->
  _read_property 2
    (mkReader (nmb ++ fstr "ArrayProperty" ++ sz ++ ix ++ fstr "ByteProperty" ++ [pad]
                 ++ cnt ++ rest) 0)
  = Ok (Some (set_value (VList [])
                (set_inner_type (Some (lit "ByteProperty"))
                   (new_tag nm (Some (lit "ArrayProperty"))))),
        mkReader (nmb ++ fstr "ArrayProperty" ++ sz ++ ix ++ fstr "ByteProperty" ++ [pad]
                    ++ cnt ++ rest) 0)
  /\ (forall f,
         _read_properties f
           (mkReader (nmb ++ fstr "ArrayProperty" ++ sz ++ ix ++ fstr "ByteProperty"
                        ++ [pad] ++ cnt ++ rest) 0) = Stuck)
  /\ deserialize (nmb ++ fstr "ArrayProperty" ++ sz ++ ix ++ fstr "ByteProperty" ++ [pad]
                    ++ cnt ++ rest) = Stuck.
Proof.
  intros Hnm Enm Esz Eix Ecnt.
  set (d := nmb ++ fstr "ArrayProperty" ++ sz ++ ix ++ fstr "ByteProperty" ++ [pad]
              ++ cnt ++ rest).
  assert (Loop : forall f, _read_properties f (mkReader d 0) = Stuck).
  { induction f as [|f IH]; [reflexivity|].
    cbn [_read_properties]. rewrite gets_bind. unfold remaining. cbn [data offset].
    destruct (Z.geb_spec (len d - 0) 4) as [Hge|Hlt].
    - destruct f as [|f]; [reflexivity|].
      unfold bind at 1.
      unfold d at 1.
      rewrite (read_property_rewinds nm size idx pad nmb sz ix cnt rest f
                 Hnm Enm Esz Eix Ecnt).
      destruct f as [|f]; [reflexivity|].
      cbn [name set_value set_inner_type new_tag].
      rewrite (name_ok_not_none nm Hnm). fold d. unfold bind. now rewrite IH.
    - exfalso.
      pose proof (enc_fstring_len _ _ Enm). pose proof (len_nonneg rest).
      assert (4 <= len d) by (unfold d; rewrite len_app;
        pose proof (len_nonneg (fstr "ArrayProperty" ++ sz ++ ix ++ fstr "ByteProperty"
                                  ++ [pad] ++ cnt ++ rest)); lia).
      lia. }
  split; [|split].
  - exact (read_property_rewinds nm size idx pad nmb sz ix cnt rest 1
             Hnm Enm Esz Eix Ecnt).
  - exact Loop.
  - unfold deserialize. fold d. now rewrite Loop.
Qed.

Lemma deserialize_loops_witness :
  _read_property 2 (mkReader (rewinding_blob ++ [x01; x02]) 0)
  = Ok (Some (set_value (VList [])
                (set_inner_type (Some (lit "ByteProperty"))
                   (new_tag (lit "A") (Some (lit "ArrayProperty"))))),
        mkReader (rewinding_blob ++ [x01; x02]) 0)
  /\ (forall f, _read_properties f (mkReader (rewinding_blob ++ [x01; x02]) 0) = Stuck)
  /\ deserialize (rewinding_blob ++ [x01; x02]) = Stuck.
Proof.
  apply (deserialize_loops_on_negative_byte_count
           (lit "A") 0 0 x00 (fstr "A") (i32 0) (i32 0) (i32 (-54)) [x01; x02]);
    reflexivity.
Defined.

(** * Experience and level *)

Lemma in_levels_from (a : Z) (n : nat) (l : Z) :
  a <= l < a + Z.of_nat n -> In l (levels_from a n).
Proof.
  intros H. unfold levels_from. apply in_map_iff. exists (Z.to_nat (l - a)).
  split; [lia|]. apply in_seq. lia.
Qed.

Lemma xp_step (l : Z) :
  exists x y,
    estimate_xp_for_level l = Ok x /\ estimate_xp_for_level (l + 1) = Ok y /\ 0 <= x <= y.
Proof.
  destruct (Z_le_gt_dec l 0) as [H0|H0]; [|destruct (Z_lt_le_dec l 50) as [H1|H1]].
  - exists 0, 0. unfold estimate_xp_for_level.
    destruct (Z.leb_spec l 1); [|lia]. destruct (Z.leb_spec (l + 1) 1); [|lia].
    repeat split; lia.
  - assert (C : forallb xp_step_ok (levels_from 1 49) = true) by (vm_compute; reflexivity).
    rewrite forallb_forall in C. specialize (C l (in_levels_from 1 49 l ltac:(lia))).
    unfold xp_step_ok in C.
    destruct (estimate_xp_for_level l) as [x| |]; try discriminate.
    destruct (estimate_xp_for_level (l + 1)) as [y| |]; try discriminate.
    apply andb_true_iff in C as [Cx Cy]. exists x, y. repeat split; lia.
  - exists (1150000 + 88000 * (l - 50)), (1150000 + 88000 * (l + 1 - 50)).
    unfold estimate_xp_for_level. cbn [hd last _XP_KEYPOINTS].
    destruct (Z.leb_spec l 1); [lia|]. destruct (Z.leb_spec (l + 1) 1); [lia|].
    destruct (Z.ltb_spec l 10); [lia|]. destruct (Z.ltb_spec (l + 1) 10); [lia|].
    destruct (Z.geb_spec l 50); [|lia]. destruct (Z.geb_spec (l + 1) 50); [|lia].
    repeat split; lia.
Qed.

Lemma xp_total (l : Z) : estimate_xp_for_level l = Ok (xp_of l) /\ 0 <= xp_of l.
Proof.
  destruct (xp_step l) as (x & y & Hx & _ & H). unfold xp_of. rewrite Hx. split; [reflexivity|lia].
Qed.

Lemma xp_of_monotone (a b : Z) : a <= b -> xp_of a <= xp_of b.
Proof.
  intros H. replace b with (a + Z.of_nat (Z.to_nat (b - a))) by lia.
  induction (Z.to_nat (b - a)) as [|n IH]; [rewrite Z.add_0_r; lia|].
  destruct (xp_step (a + Z.of_nat n)) as (x & y & Hx & Hy & Hxy).
  replace (a + Z.of_nat (S n)) with (a + Z.of_nat n + 1) by lia.
  unfold xp_of in *. rewrite Hx in IH. rewrite Hy. lia.
Qed.

(** X13: the experience that [estimate_xp_for_level] gives is defined
    for every level, is never negative and never decreases when the
    level grows. *)
Theorem estimate_xp_for_level_monotone (a b : Z) :
  a <= b ->
  exists x y,
    estimate_xp_for_level a = Ok x /\ estimate_xp_for_level b = Ok y /\ 0 <= x <= y.
Proof.
  intros H. exists (xp_of a), (xp_of b).
  destruct (xp_total a) as [Ha Ha0]. destruct (xp_total b) as [Hb _].
  repeat split; try assumption. now apply xp_of_monotone.
Qed.

Lemma estimate_xp_for_level_monotone_witness :
  exists x y,
    estimate_xp_for_level 29 = Ok x /\ estimate_xp_for_level 31 = Ok y /\ 0 <= x <= y.
Proof. apply (estimate_xp_for_level_monotone 29 31). lia. Defined.

(** The loop keeps the answer between [low] and [high]. *)
Lemma level_search_spec (x : Z) (fuel : nat) :
  forall low high,
    1 <= low <= high -> high <= 50 ->
    (Z.to_nat (high - low) < fuel)%nat ->
    xp_of low <= x -> (high = 50 \/ x < xp_of (high + 1)) ->
    exists l,
      level_search fuel low high x = Ok l
      /\ low <= l <= high /\ xp_of l <= x /\ (l = 50 \/ x < xp_of (l + 1)).
Proof.
  induction fuel as [|f IH]; intros low high Hl Hh Hf Hlow Hhigh; [lia|].
  cbn [level_search]. destruct (Z.ltb_spec low high) as [Hlt|Hge].
  - set (mid := (low + high + 1) / 2).
    assert (Hmid : low < mid <= high).
    { unfold mid. Z.div_mod_to_equations. lia. }
    destruct (xp_total mid) as [-> _]. cbn [bindR].
    destruct (Z.leb_spec (xp_of mid) x) as [Hle|Hgt].
    + destruct (IH mid high ltac:(lia) Hh ltac:(lia) Hle Hhigh) as (l & E & B & P & Q).
      exists l. repeat split; try assumption; lia.
    + destruct (IH low (mid - 1) ltac:(lia) ltac:(lia) ltac:(lia) Hlow) as (l & E & B & P & Q).
      { right. now replace (mid - 1 + 1) with mid by lia. }
      exists l. repeat split; try assumption; lia.
  - exists low. assert (low = high) by lia. subst high.
    repeat split; try assumption; lia.
Qed.

(** X14: [estimate_level_from_xp] returns a level between 1 and 50.
    For an experience above zero it is the greatest of these levels
    whose experience, as [estimate_xp_for_level] gives it, is at most
    the experience given: that level costs no more, and every level
    above it, up to 50, costs more. For an experience of zero or less
    it is 1. *)
Theorem estimate_level_from_xp_is_greatest_level (x : Z) :
  exists l e,
    estimate_level_from_xp x = Ok l /\ 1 <= l <= 50
    /\ estimate_xp_for_level l = Ok e
    /\ (x <= 0 -> l = 1)
    /\ (0 < x ->
        e <= x
        /\ forall l' e', l < l' <= 50 -> estimate_xp_for_level l' = Ok e' -> x < e').
Proof.
  unfold estimate_level_from_xp. destruct (Z.leb_spec x 0) as [H0|H0].
  - exists 1, 0. repeat split; try lia.
  - destruct (level_search_spec x 50 1 50) as (l & E & B & P & Q); try lia.
    { replace (xp_of 1) with 0 by reflexivity. lia. }
    exists l, (xp_of l). destruct (xp_total l) as [Hl _].
    repeat split; try assumption; try lia.
    intros l' e' Hl' He'. destruct Q as [->|Q]; [lia|].
    pose proof (xp_of_monotone (l + 1) l' ltac:(lia)) as M.
    destruct (xp_total l') as [Hx _]. rewrite Hx in He'. injection He' as <-. lia.
Qed.

(** X15: the two estimates over the levels 1 to 50. The level that
    [estimate_level_from_xp] gives for the experience of a level from 5
    to 50 is that level. The levels 1 to 4 all have the experience 0,
    and the level given for it is 1. *)
Theorem estimate_level_from_xp_of_level (l : Z) :
  1 <= l <= 50 ->
  exists e,
    estimate_xp_for_level l = Ok e
    /\ (l < 5 -> e = 0)
    /\ estimate_level_from_xp e = Ok (if l <? 5 then 1 else l).
Proof.
  intros H.
  assert (C : forallb level_back_ok (levels_from 1 50) = true) by (vm_compute; reflexivity).
  rewrite forallb_forall in C. specialize (C l (in_levels_from 1 50 l ltac:(lia))).
  unfold level_back_ok in C.
  destruct (estimate_xp_for_level l) as [e| |] eqn:E; try discriminate.
  destruct (estimate_level_from_xp e) as [l'| |] eqn:E'; try discriminate.
  apply Z.eqb_eq in C. subst l'. exists e. split; [reflexivity|]. split; [|exact E'].
  intros H5. unfold estimate_xp_for_level in E. cbn [hd last _XP_KEYPOINTS] in E.
  destruct (Z.leb_spec l 1); [now injection E|].
  destruct (Z.ltb_spec l 10); [|lia]. apply Ok_inj in E. clear E'. subst e.
  apply Z.max_l. lia.
Qed.

Lemma estimate_level_from_xp_of_level_witness :
  exists e,
    estimate_xp_for_level 3 = Ok e
    /\ (3 < 5 -> e = 0)
    /\ estimate_level_from_xp e = Ok 1.
Proof. apply (estimate_level_from_xp_of_level 3). lia. Defined.

(** * Mount types *)

Lemma assoc_find_ignoring_case (name : pystr) (d : list (pystr * MountType))
      (mt : MountType) :
  keys_distinct d = true -> assoc name d = Some mt ->
  find_ignoring_case name d = Some mt.
Proof.
  unfold find_ignoring_case. induction d as [|[k v] d IH]; intros Hd Ha; [discriminate|].
  cbn [keys_distinct] in Hd. apply andb_true_iff in Hd as [Hd Hd'].
  apply andb_true_iff in Hd as [_ Hk]. apply negb_true_iff in Hk.
  cbn [assoc] in Ha. cbn [List.find fst].
  destruct (str_eqb k name) eqn:E.
  - apply str_eqb_eq in E. subst k. injection Ha as <-.
    now rewrite str_eqb_refl.
  - destruct (str_eqb (List.map ascii_lower k) (List.map ascii_lower name)) eqn:El.
    + exfalso. apply str_eqb_eq in El.
      assert (X : existsb (fun kv => str_eqb (List.map ascii_lower (fst kv))
                                             (List.map ascii_lower k)) d = true).
      { clear -Ha El. induction d as [|[k' v'] d IHd]; [discriminate|].
        cbn [assoc] in Ha. cbn [existsb fst].
        destruct (str_eqb k' name) eqn:E'.
        - apply str_eqb_eq in E'. subst k'. rewrite El, str_eqb_refl. reflexivity.
        - rewrite (IHd Ha). apply orb_true_r. }
      congruence.
    + exact (IH Hd' Ha).
Qed.

Lemma keys_distinct_ascii (d : list (pystr * MountType)) (k : pystr) (v : MountType) :
  keys_distinct d = true -> In (k, v) d -> py_lower k = Ok (List.map ascii_lower k).
Proof.
  induction d as [|[k' v'] d IH]; intros Hd Hin; [destruct Hin|].
  cbn [keys_distinct] in Hd. apply andb_true_iff in Hd as [Hd Hd'].
  apply andb_true_iff in Hd as [Hk _].
  destruct Hin as [[= -> ->]|Hin]; [|exact (IH Hd' Hin)].
  unfold py_lower. now rewrite Hk.
Qed.

(** X16: [get_mount_type] looks a name of ASCII up with its case
    ignored: it returns the first type of [MOUNT_TYPES] whose key
    equals the name once both are in lower case, and [None] when there
    is none. The exact match that the function tries first never gives
    another answer, as no two keys differ in case only. *)
Theorem get_mount_type_ignores_case (name : pystr) :
  forallb (in_range 0 128) name = true ->
  get_mount_type name = Ok (find_ignoring_case name MOUNT_TYPES).
Proof.
  intros Hascii. unfold get_mount_type.
  assert (D : keys_distinct MOUNT_TYPES = true) by (vm_compute; reflexivity).
  destruct (assoc name MOUNT_TYPES) as [mt|] eqn:Ha.
  - now rewrite (assoc_find_ignoring_case name MOUNT_TYPES mt D Ha).
  - clear Ha. unfold py_lower at 1. rewrite Hascii. cbn [bindR].
    unfold find_ignoring_case.
    induction MOUNT_TYPES as [|[k v] d IH]; [reflexivity|].
    rewrite (keys_distinct_ascii _ k v D (or_introl eq_refl)). cbn [bindR List.find fst].
    destruct (str_eqb (List.map ascii_lower k) (List.map ascii_lower name));
      [reflexivity|].
    apply IH. cbn [keys_distinct] in D. apply andb_true_iff in D as [_ D]. exact D.
Qed.

Lemma get_mount_type_witness :
  get_mount_type (lit "wOOLYzebra") = Ok (find_ignoring_case (lit "wOOLYzebra") MOUNT_TYPES).
Proof. apply (get_mount_type_ignores_case (lit "wOOLYzebra")). reflexivity. Defined.

Lemma contains_rev (c : Z) (s : pystr) : contains c (rev s) = contains c s.
Proof.
  unfold contains. induction s as [|x s IH]; [reflexivity|].
  cbn [rev existsb]. rewrite existsb_app, IH. cbn [existsb].
  rewrite orb_false_r. apply orb_comm.
Qed.

Lemma rsplit_once_last (c : Z) (a b : pystr) :
  contains c b = false -> rsplit_once c (a ++ c :: b) = [a; b].
Proof.
  intros H. unfold rsplit_once.
  rewrite rev_app_distr. cbn [rev]. rewrite <- app_assoc. cbn [app].
  rewrite (split_once_app c (rev b) (rev a)).
  - now rewrite !rev_involutive.
  - now rewrite contains_rev.
Qed.

Lemma py_isdigit_digits (s : pystr) :
  s <> [] -> forallb is_digit s = true -> py_isdigit s = Ok true.
Proof.
  intros Hne Hd. unfold py_isdigit.
  assert (A : existsb (fun c => (c <? 128) && negb (is_digit c)) s = false).
  { clear Hne. induction s as [|c s IH]; [reflexivity|].
    cbn [forallb existsb] in *. apply andb_true_iff in Hd as [Hc Hs].
    rewrite Hc, (IH Hs). cbn. now rewrite andb_false_r. }
  assert (B : existsb (fun c => c >=? 128) s = false).
  { clear Hne A. induction s as [|c s IH]; [reflexivity|].
    cbn [forallb existsb] in *. apply andb_true_iff in Hd as [Hc Hs].
    rewrite (IH Hs), orb_false_r. apply digit_facts in Hc.
    destruct (Z.geb_spec c 128); [lia | reflexivity]. }
  rewrite A, B. now destruct s.
Qed.

(** X17: for the property [ObjectFName], [get_transform_value] keeps
    the number behind the last underscore and puts the blueprint of the
    target type in front of it, whatever stood in front of the
    underscore and whatever the source type is. Transforming the result
    back to the source type gives the blueprint of the source type with
    the same number. *)
Theorem get_transform_value_keeps_object_number
        (source_type target_type : MountType) (front id : pystr) :
  id <> [] -> forallb is_digit id = true ->
  get_transform_value (lit "ObjectFName") source_type target_type (front ++ lit "_" ++ id)
  = Ok (blueprint target_type ++ lit "_" ++ id)
  /\ get_transform_value (lit "ObjectFName") target_type source_type
       (blueprint target_type ++ lit "_" ++ id)
     = Ok (blueprint source_type ++ lit "_" ++ id).
Proof.
  intros Hne Hd.
  assert (G : forall s t f,
             get_transform_value (lit "ObjectFName") s t (f ++ lit "_" ++ id)
             = Ok (blueprint t ++ lit "_" ++ id)).
  { intros s t f. unfold get_transform_value.
    change (str_eqb (lit "ObjectFName") (lit "AISetupRowName")) with false.
    change (str_eqb (lit "ObjectFName") (lit "ActorClassName")) with false.
    change (str_eqb (lit "ObjectFName") (lit "ObjectFName")) with true.
    cbv iota. change (lit "_" ++ id) with (95 :: id).
    rewrite (rsplit_once_last 95 f id (digits_not 95 id Hd ltac:(lia))).
    now rewrite (py_isdigit_digits id Hne Hd). }
  split; apply G.
Qed.

Lemma get_transform_value_witness :
  get_transform_value (lit "ObjectFName")
    (snd (nth 0 MOUNT_TYPES (lit "", mkMountType [] [] [] [] true None)))
    (snd (nth 5 MOUNT_TYPES (lit "", mkMountType [] [] [] [] true None)))
    (lit "BP_Mount_Horse_C" ++ lit "_" ++ lit "2147441213")
  = Ok (lit "BP_Mount_Tusker_C" ++ lit "_" ++ lit "2147441213")
  /\ get_transform_value (lit "ObjectFName")
       (snd (nth 5 MOUNT_TYPES (lit "", mkMountType [] [] [] [] true None)))
       (snd (nth 0 MOUNT_TYPES (lit "", mkMountType [] [] [] [] true None)))
       (lit "BP_Mount_Tusker_C" ++ lit "_" ++ lit "2147441213")
     = Ok (lit "BP_Mount_Horse_C" ++ lit "_" ++ lit "2147441213").
Proof.
  apply (get_transform_value_keeps_object_number
           (snd (nth 0 MOUNT_TYPES (lit "", mkMountType [] [] [] [] true None)))
           (snd (nth 5 MOUNT_TYPES (lit "", mkMountType [] [] [] [] true None)))
           (lit "BP_Mount_Horse_C") (lit "2147441213"));
    [discriminate | reflexivity].
Defined.

(** * The mount editor *)

Lemma get_mount_ok (self : MountEditor) (index : Z) (m : MountData) :
  0 <= index -> nth_error (mounts self) (Z.to_nat index) = Some m ->
  get_mount index self = Ok (m, self).
Proof.
  intros Hi Hn. unfold get_mount.
  assert (Z.to_nat index < List.length (mounts self))%nat
    by (apply nth_error_Some; congruence).
  destruct (Z.ltb_spec index 0); [lia|].
  destruct (Z.geb_spec index (len (mounts self))); [unfold len in *; lia|].
  cbn [orb]. pose proof (py_index_nth (mounts self) index Hi) as P.
  rewrite Hn in P. destruct P as [_ ->]. reflexivity.
Qed.

Lemma get_mount_inv (self s' : MountEditor) (index : Z) (m : MountData) :
  get_mount index self = Ok (m, s') ->
  s' = self /\ 0 <= index < len (mounts self)
  /\ nth_error (mounts self) (Z.to_nat index) = Some m.
Proof.
  unfold get_mount.
  destruct (Z.ltb_spec index 0); [discriminate|].
  destruct (Z.geb_spec index (len (mounts self))); [discriminate|].
  cbn [orb]. pose proof (py_index_nth (mounts self) index ltac:(lia)) as P.
  destruct (nth_error (mounts self) (Z.to_nat index)) as [x|].
  - destruct P as [_ ->]. intros [= -> ->]. repeat split; lia.
  - lia.
Qed.

Lemma get_mount_out_of_range (self : MountEditor) (index : Z) :
  index < 0 \/ len (mounts self) <= index -> get_mount index self = Raise IndexError.
Proof.
  intros H. unfold get_mount.
  destruct (Z.ltb_spec index 0); [reflexivity|].
  destruct (Z.geb_spec index (len (mounts self))); [reflexivity|lia].
Qed.

Lemma json_get_dict_set (key : pystr) (v default : PyValue) (d : list (pystr * PyValue)) :
  json_get key default (dict_set key v d) = v.
Proof.
  unfold json_get. induction d as [|[k x] d IH]; cbn [dict_set assoc].
  - now rewrite str_eqb_refl.
  - destruct (str_eqb k key) eqn:E; cbn [assoc]; now rewrite E.
Qed.

Lemma json_get_dict_set_other (key key2 : pystr) (v default : PyValue)
      (d : list (pystr * PyValue)) :
  str_eqb key key2 = false ->
  json_get key2 default (dict_set key v d) = json_get key2 default d.
Proof.
  intros Hk. unfold json_get. induction d as [|[k x] d IH]; cbn [dict_set assoc].
  - now rewrite Hk.
  - destruct (str_eqb k key) eqn:E; cbn [assoc].
    + apply str_eqb_eq in E. subst k. now rewrite Hk.
    + destruct (str_eqb k key2); [reflexivity | exact IH].
Qed.

(** The lookup of a plain name designates a record of the list. *)
Lemma locate_plain (ps : list FPropertyTag) (nm : pystr) :
  contains 46 nm = false -> contains 91 nm = false ->
  locate ps nm = Ok (option_map (fun k => [k]) (first_index nm ps)).
Proof.
  intros Hdot Hbr. unfold locate.
  rewrite (locate_fuel_unfold _ ps nm nm None None (parse_segment_plain nm Hdot Hbr)).
  destruct (first_index nm ps) as [k|] eqn:E; [|reflexivity].
  destruct (first_index_some nm ps k E) as (p & ->). reflexivity.
Qed.

Lemma find_property_plain (ps : list FPropertyTag) (nm : pystr) :
  contains 46 nm = false -> contains 91 nm = false ->
  find_property ps nm
  = Ok match first_index nm ps with
       | Some k => nth_error ps k
       | None => None
       end.
Proof.
  intros Hdot Hbr.
  rewrite (find_property_unfold ps nm nm None None (parse_segment_plain nm Hdot Hbr)).
  rewrite first_named_index. destruct (first_index nm ps) as [k|]; [|reflexivity].
  now destruct (nth_error ps k).
Qed.

(** Assigning to the record that a plain name designates. *)
Lemma assign_plain (g : FPropertyTag -> FPropertyTag) (ps : list FPropertyTag)
      (nm : pystr) (k : nat) (p : FPropertyTag) :
  contains 46 nm = false -> contains 91 nm = false ->
  (forall q, name (g q) = name q) ->
  first_index nm ps = Some k -> nth_error ps k = Some p ->
  find_property (update_at g [k] ps) nm = Ok (Some (g p)).
Proof.
  intros Hdot Hbr Hg Hk Hp. rewrite (find_property_plain _ nm Hdot Hbr).
  change (update_at g [k] ps) with (list_update k g ps).
  rewrite (first_index_list_update nm k g ps Hg), Hk.
  now rewrite nth_error_list_update, Hp.
Qed.

Lemma assign_if_found_plain (ps : list FPropertyTag) (nm : pystr) (v : PyValue) :
  contains 46 nm = false -> contains 91 nm = false ->
  exists ps',
    assign_if_found ps nm v = Ok ps'
    /\ match find_property ps nm with
       | Ok (Some p) => find_property ps' nm = Ok (Some (set_value v p))
       | _ => ps' = ps
       end.
Proof.
  intros Hdot Hbr. unfold assign_if_found.
  rewrite (locate_plain ps nm Hdot Hbr), (find_property_plain ps nm Hdot Hbr).
  cbn [bindR]. destruct (first_index nm ps) as [k|] eqn:Hk; cbn [option_map].
  - eexists. split; [reflexivity|].
    destruct (nth_error ps k) as [p|] eqn:Hp;
      [|destruct (first_index_some nm ps k Hk) as (p' & Hp'); congruence].
    exact (assign_plain (set_value v) ps nm k p Hdot Hbr (fun _ => eq_refl) Hk Hp).
  - now exists ps.
Qed.

Lemma nth_error_put (self : MountEditor) (index : Z) (m m' : MountData) :
  nth_error (mounts self) (Z.to_nat index) = Some m ->
  nth_error (list_update (Z.to_nat index) (fun _ => m') (mounts self)) (Z.to_nat index)
  = Some m'.
Proof. intros H. now rewrite nth_error_list_update, H. Qed.

(** X18: [set_mount_level] with a level from 1 to 50 and a valid index
    writes the level in the JSON object of the mount and the
    experience that [estimate_xp_for_level] gives for it in the
    property [Experience] of its tree, sets [_modified], and leaves the
    other mounts as they were. When the tree has no property
    [Experience], the level is written all the same and the tree is
    unchanged. *)
Theorem set_mount_level_sets_level_and_experience
        (self : MountEditor) (index level : Z) (m : MountData) :
  1 <= level <= 50 -> 0 <= index ->
  nth_error (mounts self) (Z.to_nat index) = Some m ->
  exists e self' m',
    estimate_xp_for_level level = Ok e
    /\ set_mount_level index level self = Ok (tt, self')
    /\ _modified self' = true
    /\ nth_error (mounts self') (Z.to_nat index) = Some m'
    /\ (forall j, j <> Z.to_nat index ->
                  nth_error (mounts self') j = nth_error (mounts self) j)
    /\ mount_index m' = mount_index m
    /\ MountData_level m' = VInt level
    /\ match find_property (properties m) (lit "Experience") with
       | Ok (Some p) =>
           MountData_get_property m' (lit "Experience")
           = Ok (Some (set_value (VInt e) p))
       | _ => properties m' = properties m
       end.
Proof.
  intros Hl Hi Hm. destruct (xp_total level) as [He _].
  destruct (assign_if_found_plain (properties m) (lit "Experience") (VInt (xp_of level))
              eq_refl eq_refl) as (ps' & Hps & Hfind).
  exists (xp_of level).
  exists (mkMountEditor
            (list_update (Z.to_nat index)
               (fun _ => mkMountData (mount_index m)
                           (dict_set (lit "MountLevel") (VInt level) (json_data m)) ps')
               (mounts self)) true).
  exists (mkMountData (mount_index m)
            (dict_set (lit "MountLevel") (VInt level) (json_data m)) ps').
  split; [exact He|]. split.
  - unfold set_mount_level.
    destruct (Z.ltb_spec level 1); [lia|]. destruct (Z.gtb_spec level 50); [lia|].
    cbn [orb]. rewrite (bind_ok _ (get_mount_ok self index m Hi Hm)).
    unfold bind, lift, put_mount, set_modified. now rewrite He, Hps.
  - split; [reflexivity|]. split; [exact (nth_error_put self index m _ Hm)|].
    split; [intros j Hj; cbn [mounts]; now apply nth_error_list_update_other|].
    split; [reflexivity|]. split; [apply json_get_dict_set|exact Hfind].
Qed.

Lemma set_mount_level_witness :
  exists e self' m',
    estimate_xp_for_level 30 = Ok e
    /\ set_mount_level 0 30 sample_editor = Ok (tt, self')
    /\ _modified self' = true
    /\ nth_error (mounts self') (Z.to_nat 0) = Some m'
    /\ (forall j, j <> Z.to_nat 0 ->
                  nth_error (mounts self') j = nth_error (mounts sample_editor) j)
    /\ mount_index m' = mount_index (sample_mount 0 "Shadow" "Terrenus")
    /\ MountData_level m' = VInt 30
    /\ MountData_get_property m' (lit "Experience")
       = Ok (Some (set_value (VInt e) (simple_tag "Experience" "IntProperty" (VInt 5)))).
Proof.
  apply (set_mount_level_sets_level_and_experience sample_editor 0 30
           (sample_mount 0 "Shadow" "Terrenus")); [lia | lia | reflexivity].
Defined.

Lemma well_indexed_reindex (i : Z) (l : list MountData) : well_indexed i (reindex i l).
Proof.
  revert i. induction l as [|m l IH]; intros i; [exact I|].
  cbn [reindex well_indexed mount_index]. split; [reflexivity | apply IH].
Qed.

Lemma length_reindex (i : Z) (l : list MountData) :
  List.length (reindex i l) = List.length l.
Proof.
  revert i. induction l as [|m l IH]; intros i; [reflexivity|].
  cbn [reindex List.length]. now rewrite IH.
Qed.

Lemma nth_error_reindex (i : Z) (l : list MountData) (j : nat) :
  nth_error (reindex i l) j
  = option_map (fun m => mkMountData (i + Z.of_nat j) (json_data m) (properties m))
               (nth_error l j).
Proof.
  revert i j. induction l as [|m l IH]; intros i [|j]; cbn [reindex nth_error option_map];
    try reflexivity.
  - now rewrite Z.add_0_r.
  - rewrite IH. destruct (nth_error l j); [|reflexivity]. cbn [option_map].
    do 2 f_equal. lia.
Qed.

Lemma length_list_delete {A} (k : nat) (l : list A) :
  (k < List.length l)%nat -> List.length (list_delete k l) = (List.length l - 1)%nat.
Proof.
  revert k. induction l as [|x l IH]; intros [|k] H; cbn [list_delete List.length] in *;
    try lia. rewrite IH; lia.
Qed.

Lemma nth_error_list_delete {A} (k j : nat) (l : list A) :
  nth_error (list_delete k l) j = nth_error l (if (j <? k)%nat then j else S j).
Proof.
  revert k j. induction l as [|x l IH]; intros k j.
  - assert (E : forall i, nth_error (@nil A) i = None) by (now intros [|i]).
    destruct k; cbn [list_delete]; now rewrite !E.
  - destruct k as [|k]; cbn [list_delete].
    + now replace (j <? 0)%nat with false by (symmetry; apply Nat.ltb_ge; lia).
    + destruct j as [|j]; [reflexivity|]. cbn [nth_error]. rewrite IH.
      change (S j <? S k)%nat with (j <? k)%nat. now destruct (j <? k)%nat.
Qed.

(** X19: [delete_mount] with a valid index removes that mount and
    numbers the others anew: afterwards the attribute [index] of every
    mount is its position in the list, the list is one shorter, the
    mounts before the deleted one are at their positions and the mounts
    behind it one position lower, with their JSON objects and their
    trees unchanged, and [_modified] is set. With an index that is
    negative or not below the number of mounts it raises [IndexError]. *)
Theorem delete_mount_renumbers (self : MountEditor) (index : Z) :
  if (0 <=? index) && (index <? len (mounts self)) then
    exists self',
      delete_mount index self = Ok (tt, self')
      /\ _modified self' = true
      /\ well_indexed 0 (mounts self')
      /\ len (mounts self') = len (mounts self) - 1
      /\ forall j,
           nth_error (List.map (fun m => (json_data m, properties m)) (mounts self')) j
           = nth_error (List.map (fun m => (json_data m, properties m)) (mounts self))
                       (if (j <? Z.to_nat index)%nat then j else S j)
  else delete_mount index self = Raise IndexError.
Proof.
  destruct (Z.leb_spec 0 index) as [H0|H0]; cbn [andb];
    [destruct (Z.ltb_spec index (len (mounts self))) as [H1|H1]|].
  - assert (Hlt : (Z.to_nat index < List.length (mounts self))%nat)
      by (unfold len in H1; lia).
    destruct (nth_error (mounts self) (Z.to_nat index)) as [m|] eqn:Hm;
      [|apply nth_error_None in Hm; lia].
    eexists. split.
    + unfold delete_mount. rewrite (bind_ok _ (get_mount_ok self index m H0 Hm)).
      reflexivity.
    + cbn [_modified mounts]. split; [reflexivity|].
      split; [apply well_indexed_reindex|]. split.
      * unfold len. rewrite length_reindex, (length_list_delete _ _ Hlt). lia.
      * intros j. rewrite !nth_error_map, nth_error_reindex, nth_error_list_delete.
        now destruct (nth_error (mounts self)
                        (if (j <? Z.to_nat index)%nat then j else S j)).
  - unfold delete_mount, bind. now rewrite (get_mount_out_of_range self index) by lia.
  - unfold delete_mount, bind. now rewrite (get_mount_out_of_range self index) by lia.
Qed.

Lemma forallb_list_update {A} (f : A -> bool) (g : A -> A) (k : nat) (l : list A) :
  (forall x, f x = true -> f (g x) = true) ->
  forallb f l = true -> forallb f (list_update k g l) = true.
Proof.
  intros Hg. revert k. induction l as [|x l IH]; intros [|k] H;
    cbn [list_update forallb] in *; try reflexivity;
    apply andb_true_iff in H as [Hx Hl]; apply andb_true_iff; split; auto.
Qed.

(** A well-formed record without its children is well formed. *)
Lemma wf_prop_set_nested_nil (p : FPropertyTag) :
  wf_prop p = true -> wf_prop (set_nested [] p) = true.
Proof.
  rewrite !wf_prop_unfold. unfold wf_prop_with.
  cbn [name type_name value inner_type struct_type enum_type elem_name nested set_nested].
  intros H. apply andb_true_iff in H as [H0 H]. rewrite H0. cbn [andb].
  destruct (is_str (type_name p) (lit "ArrayProperty")).
  - apply andb_true_iff in H as [H1 H]. rewrite H1. cbn [andb].
    destruct (inner_type p) as [it|]; [|discriminate].
    apply andb_true_iff in H as [H2 H]. rewrite H2. cbn [andb].
    destruct (str_eqb it (lit "StructProperty")).
    + apply andb_true_iff in H as [H3 H]. rewrite H3. cbn [andb].
      destruct (elem_name p) as [en|]; [|discriminate].
      destruct (struct_type p) as [st|]; [|discriminate].
      apply andb_true_iff in H as [H4 _]. rewrite H4. reflexivity.
    + apply andb_true_iff in H as [H3 H4]. apply andb_true_iff in H3 as [H3 H5].
      apply andb_true_iff in H3 as [H3 H6]. now rewrite H3, H6, H4.
  - destruct (is_str (type_name p) (lit "StructProperty")).
    + apply andb_true_iff in H as [H1 H]. rewrite H1. cbn [andb].
      destruct (is_core_struct (struct_type p)).
      * apply andb_true_iff in H as [_ H]. now rewrite H.
      * apply andb_true_iff in H as [H _]. now rewrite H.
    + apply andb_true_iff in H as [H1 H].
      apply andb_true_iff in H1 as [H1 _]. now rewrite H1, H.
Qed.

(** X20: [reset_mount_talents] on a mount whose tree has a property
    [Talents] with children returns the number of these children, takes
    them away from the property, sets [_modified] and keeps the tree
    well formed; a second call finds no talent, returns 0 and changes
    nothing. *)
Theorem reset_mount_talents_counts_and_clears
        (self : MountEditor) (index : Z) (m : MountData) (t : FPropertyTag) :
  0 <= index -> nth_error (mounts self) (Z.to_nat index) = Some m ->
  find_property (properties m) (lit "Talents") = Ok (Some t) -> nested t <> [] ->
  exists self' m',
    reset_mount_talents index self = Ok (len (nested t), self')
    /\ 0 < len (nested t)
    /\ _modified self' = true
    /\ nth_error (mounts self') (Z.to_nat index) = Some m'
    /\ find_property (properties m') (lit "Talents") = Ok (Some (set_nested [] t))
    /\ (wf_props (properties m) = true -> wf_props (properties m') = true)
    /\ reset_mount_talents index self' = Ok (0, self').
Proof.
  intros Hi Hm Hf Hne.
  rewrite (find_property_plain _ (lit "Talents") eq_refl eq_refl) in Hf.
  destruct (first_index (lit "Talents") (properties m)) as [k|] eqn:Hk; [|discriminate].
  apply Ok_inj in Hf.
  set (m' := mkMountData (mount_index m) (json_data m)
               (update_at (set_nested []) [k] (properties m))).
  set (self' := mkMountEditor (list_update (Z.to_nat index) (fun _ => m') (mounts self))
                              true).
  assert (Hm' : nth_error (mounts self') (Z.to_nat index) = Some m')
    by exact (nth_error_put self index m m' Hm).
  assert (Hf' : find_property (properties m') (lit "Talents") = Ok (Some (set_nested [] t)))
    by exact (assign_plain (set_nested []) (properties m) (lit "Talents") k t
                eq_refl eq_refl (fun _ => eq_refl) Hk Hf).
  assert (Hpos : 0 < len (nested t)).
  { destruct (nested t); [congruence|]. unfold len. cbn [List.length]. lia. }
  exists self', m'. split; [|split; [exact Hpos|]; split; [reflexivity|];
                             split; [exact Hm'|]; split; [exact Hf'|]; split].
  - unfold reset_mount_talents. rewrite (bind_ok _ (get_mount_ok self index m Hi Hm)).
    unfold bind at 1. unfold lift.
    rewrite (locate_plain _ (lit "Talents") eq_refl eq_refl), Hk. cbn [option_map].
    cbn [record_at]. rewrite Hf.
    destruct (nested t) as [|c cs] eqn:Hn; [congruence|]. rewrite <- Hn in Hpos |- *.
    destruct (Z.eqb_spec (len (nested t)) 0); [lia|]. reflexivity.
  - intros Hwf. unfold m'. cbn [properties update_at]. unfold wf_props in *.
    apply forallb_list_update; [exact wf_prop_set_nested_nil | exact Hwf].
  - unfold reset_mount_talents. rewrite (bind_ok _ (get_mount_ok self' index m' Hi Hm')).
    unfold bind at 1. unfold lift.
    rewrite (locate_plain _ (lit "Talents") eq_refl eq_refl).
    rewrite (find_property_plain _ (lit "Talents") eq_refl eq_refl) in Hf'.
    destruct (first_index (lit "Talents") (properties m')) as [k'|]; [|discriminate].
    apply Ok_inj in Hf'. cbn [option_map record_at]. rewrite Hf'. reflexivity.
Qed.

Lemma reset_mount_talents_witness :
  exists self' m',
    reset_mount_talents 0 sample_editor = Ok (3, self')
    /\ 0 < 3
    /\ _modified self' = true
    /\ nth_error (mounts self') (Z.to_nat 0) = Some m'
    /\ find_property (properties m') (lit "Talents")
       = Ok (Some (set_nested [] (nth 5 editor_props terminator)))
    /\ (wf_props editor_props = true -> wf_props (properties m') = true)
    /\ reset_mount_talents 0 self' = Ok (0, self').
Proof.
  apply (reset_mount_talents_counts_and_clears sample_editor 0
           (sample_mount 0 "Shadow" "Terrenus") (nth 5 editor_props terminator));
    [lia | reflexivity | reflexivity | discriminate].
Defined.

Lemma first_index_name (nm : pystr) (ps : list FPropertyTag) (k : nat) (p : FPropertyTag) :
  first_index nm ps = Some k -> nth_error ps k = Some p -> str_eqb (name p) nm = true.
Proof.
  revert k. induction ps as [|q ps IH]; intros k Hk Hp; [discriminate|].
  cbn [first_index] in Hk. destruct (str_eqb (name q) nm) eqn:E.
  - injection Hk as <-. cbn [nth_error] in Hp. now injection Hp as <-.
  - destruct (first_index nm ps) as [k'|] eqn:Ek; [|discriminate].
    injection Hk as <-. cbn [nth_error] in Hp. exact (IH k' eq_refl Hp).
Qed.

(** Assigning to the record of one plain name leaves the record of
    another plain name as it was. *)
Lemma assign_plain_other (g : FPropertyTag -> FPropertyTag) (ps : list FPropertyTag)
      (nm nm2 : pystr) (k : nat) :
  contains 46 nm2 = false -> contains 91 nm2 = false ->
  (forall q, name (g q) = name q) ->
  first_index nm ps = Some k -> str_eqb nm nm2 = false ->
  find_property (update_at g [k] ps) nm2 = find_property ps nm2.
Proof.
  intros Hdot Hbr Hg Hk Hne. rewrite !(find_property_plain _ nm2 Hdot Hbr).
  change (update_at g [k] ps) with (list_update k g ps).
  rewrite (first_index_list_update nm2 k g ps Hg).
  destruct (first_index nm2 ps) as [k2|] eqn:Hk2; [|reflexivity].
  destruct (Nat.eq_dec k k2) as [->|Hkk].
  - exfalso. destruct (first_index_some nm ps k2 Hk) as (p & Hp).
    pose proof (first_index_name nm ps k2 p Hk Hp) as N1.
    pose proof (first_index_name nm2 ps k2 p Hk2 Hp) as N2.
    apply str_eqb_eq in N1, N2. subst nm nm2. now rewrite str_eqb_refl in Hne.
  - now rewrite (nth_error_list_update_other k k2 g ps Hkk).
Qed.

(** One turn of the loop of [change_mount_type], for a plain name. *)
Lemma transform_property_plain (s t : MountType) (ps ps' : list FPropertyTag) (nm : pystr) :
  contains 46 nm = false -> contains 91 nm = false ->
  transform_property s t ps nm = Ok ps' ->
  (forall nm2, contains 46 nm2 = false -> contains 91 nm2 = false ->
               str_eqb nm nm2 = false ->
               find_property ps' nm2 = find_property ps nm2)
  /\ match find_property ps nm with
     | Ok (Some p) =>
         if truthy (value p) then
           exists v, get_transform_value_of nm s t (value p) = Ok v
                     /\ find_property ps' nm = Ok (Some (set_value v p))
         else ps' = ps
     | _ => ps' = ps
     end.
Proof.
  intros Hdot Hbr H. unfold transform_property in H.
  rewrite (locate_plain ps nm Hdot Hbr) in H.
  rewrite (find_property_plain ps nm Hdot Hbr).
  destruct (first_index nm ps) as [k|] eqn:Hk; cbn [bindR option_map] in H.
  - cbn [record_at] in H. destruct (nth_error ps k) as [p|] eqn:Hp.
    + destruct (truthy (value p)).
      * destruct (get_transform_value_of nm s t (value p)) as [v| |]; try discriminate.
        cbn [bindR] in H. apply Ok_inj in H. subst ps'. split.
        -- intros nm2 D2 B2 Hne.
           exact (assign_plain_other (set_value v) ps nm nm2 k D2 B2 (fun _ => eq_refl)
                    Hk Hne).
        -- exists v. split; [reflexivity|].
           exact (assign_plain (set_value v) ps nm k p Hdot Hbr (fun _ => eq_refl) Hk Hp).
      * apply Ok_inj in H. now subst ps'.
    + apply Ok_inj in H. now subst ps'.
  - apply Ok_inj in H. now subst ps'.
Qed.

Lemma assign_if_found_other (ps ps' : list FPropertyTag) (nm nm2 : pystr) (v : PyValue) :
  contains 46 nm = false -> contains 91 nm = false ->
  contains 46 nm2 = false -> contains 91 nm2 = false ->
  str_eqb nm nm2 = false ->
  assign_if_found ps nm v = Ok ps' ->
  find_property ps' nm2 = find_property ps nm2.
Proof.
  intros Hdot Hbr D2 B2 Hne H. unfold assign_if_found in H.
  rewrite (locate_plain ps nm Hdot Hbr) in H. cbn [bindR] in H. apply Ok_inj in H.
  subst ps'. destruct (first_index nm ps) as [k|] eqn:Hk; [|reflexivity].
  exact (assign_plain_other (set_value v) ps nm nm2 k D2 B2 (fun _ => eq_refl) Hk Hne).
Qed.

Lemma get_mount_type_defined (key : pystr) :
  forallb (in_range 0 128) key = true -> exists r, get_mount_type key = Ok r.
Proof.
  intros Hascii. unfold get_mount_type.
  destruct (assoc key MOUNT_TYPES) as [mt|]; [now eexists|].
  unfold py_lower at 1. rewrite Hascii. cbn [bindR].
  assert (D : keys_distinct MOUNT_TYPES = true) by (vm_compute; reflexivity).
  induction MOUNT_TYPES as [|[k v] d IH]; [now eexists|].
  rewrite (keys_distinct_ascii _ k v D (or_introl eq_refl)). cbn [bindR].
  destruct (str_eqb (List.map ascii_lower k) (List.map ascii_lower key)); [now eexists|].
  apply IH. cbn [keys_distinct] in D. apply andb_true_iff in D as [_ D]. exact D.
Qed.

(** The value that the loop writes for [AISetupRowName] and for
    [ActorClassName] does not depend on the value found. *)
Lemma transform_value_constant (s t : MountType) (v : PyValue) :
  get_transform_value_of (lit "AISetupRowName") s t v = Ok (VStr (ai_setup t))
  /\ get_transform_value_of (lit "ActorClassName") s t v = Ok (VStr (blueprint t)).
Proof. split; reflexivity. Qed.

(** The loop of [change_mount_type] over the four names. *)
Lemma transform_properties_spec (s t : MountType) (ps ps' : list FPropertyTag) :
  transform_properties s t TRANSFORM_PROPERTIES ps = Ok ps' ->
  (forall nm2, contains 46 nm2 = false -> contains 91 nm2 = false ->
               forallb (fun n => negb (str_eqb n nm2)) TRANSFORM_PROPERTIES = true ->
               find_property ps' nm2 = find_property ps nm2)
  /\ (forall p, find_property ps (lit "AISetupRowName") = Ok (Some p) ->
                truthy (value p) = true ->
                find_property ps' (lit "AISetupRowName")
                = Ok (Some (set_value (VStr (ai_setup t)) p)))
  /\ (forall p, find_property ps (lit "ActorClassName") = Ok (Some p) ->
                truthy (value p) = true ->
                find_property ps' (lit "ActorClassName")
                = Ok (Some (set_value (VStr (blueprint t)) p))).
Proof.
  unfold TRANSFORM_PROPERTIES. cbn [transform_properties]. intros H.
  destruct (transform_property s t ps (lit "AISetupRowName")) as [p1| |] eqn:E1;
    try discriminate. cbn [bindR] in H.
  destruct (transform_property s t p1 (lit "ActorClassName")) as [p2| |] eqn:E2;
    try discriminate. cbn [bindR] in H.
  destruct (transform_property s t p2 (lit "ObjectFName")) as [p3| |] eqn:E3;
    try discriminate. cbn [bindR] in H.
  destruct (transform_property s t p3 (lit "ActorPathName")) as [p4| |] eqn:E4;
    try discriminate. cbn [bindR] in H. apply Ok_inj in H. subst p4.
  destruct (transform_property_plain s t ps p1 (lit "AISetupRowName") eq_refl eq_refl E1)
    as [O1 S1].
  destruct (transform_property_plain s t p1 p2 (lit "ActorClassName") eq_refl eq_refl E2)
    as [O2 S2].
  destruct (transform_property_plain s t p2 p3 (lit "ObjectFName") eq_refl eq_refl E3)
    as [O3 _].
  destruct (transform_property_plain s t p3 ps' (lit "ActorPathName") eq_refl eq_refl E4)
    as [O4 _].
  split; [|split].
  - intros nm2 D2 B2 Hn. cbn [forallb] in Hn.
    apply andb_true_iff in Hn as [N1 Hn]. apply andb_true_iff in Hn as [N2 Hn].
    apply andb_true_iff in Hn as [N3 Hn]. apply andb_true_iff in Hn as [N4 _].
    apply negb_true_iff in N1, N2, N3, N4.
    now rewrite (O4 nm2 D2 B2 N4), (O3 nm2 D2 B2 N3), (O2 nm2 D2 B2 N2), (O1 nm2 D2 B2 N1).
  - intros p Hp Ht. rewrite Hp, Ht in S1. destruct S1 as (v & Hv & Hf).
    rewrite (proj1 (transform_value_constant s t (value p))) in Hv. apply Ok_inj in Hv.
    subst v.
    now rewrite (O4 (lit "AISetupRowName") eq_refl eq_refl eq_refl),
      (O3 (lit "AISetupRowName") eq_refl eq_refl eq_refl),
      (O2 (lit "AISetupRowName") eq_refl eq_refl eq_refl).
  - intros p Hp Ht. rewrite (O1 (lit "ActorClassName") eq_refl eq_refl eq_refl), Hp, Ht in S2.
    destruct S2 as (v & Hv & Hf).
    rewrite (proj2 (transform_value_constant s t (value p))) in Hv. apply Ok_inj in Hv.
    subst v.
    now rewrite (O4 (lit "ActorClassName") eq_refl eq_refl eq_refl),
      (O3 (lit "ActorClassName") eq_refl eq_refl eq_refl).
Qed.

Lemma set_mount_name_spec (self : MountEditor) (index : Z) (m : MountData) (n : pystr) :
  0 <= index -> nth_error (mounts self) (Z.to_nat index) = Some m ->
  exists ps',
    assign_if_found (properties m) (lit "MountName") (VStr n) = Ok ps'
    /\ set_mount_name index n self
       = Ok (tt, mkMountEditor
                   (list_update (Z.to_nat index)
                      (fun _ => mkMountData (mount_index m)
                                  (dict_set (lit "MountName") (VStr n) (json_data m)) ps')
                      (mounts self))
                   true).
Proof.
  intros Hi Hm.
  destruct (assign_if_found_plain (properties m) (lit "MountName") (VStr n) eq_refl eq_refl)
    as (ps' & Hps & _).
  exists ps'. split; [exact Hps|].
  unfold set_mount_name. rewrite (bind_ok _ (get_mount_ok self index m Hi Hm)).
  unfold bind, lift, put_mount, set_modified. now rewrite Hps.
Qed.

(** The types whose display name no key of [MOUNT_TYPES] matches. *)
Lemma display_names_unknown :
  List.map (fun kv => text (fst kv))
    (List.filter (fun kv => match get_mount_type (mount_name (snd kv)) with
                            | Ok None => true
                            | _ => false
                            end) MOUNT_TYPES)
  = ["ArcticMoa"; "WoolyZebra"; "WoollyMammoth"; "BluebackDaisy"; "MiniHippo"]%string.
Proof. vm_compute. reflexivity. Qed.

(** X21: a successful [change_mount_type] to another type sets
    [_modified], writes the display name of the target type in the
    JSON object of the mount, and gives the properties [AISetupRowName]
    and [ActorClassName], where the tree has them with a value that
    counts as true, the row name and the blueprint of the target type.
    The source type of the next call is looked up by that display name,
    which [get_mount_type] compares with the keys of [MOUNT_TYPES]: when
    no key matches the display name of the target type (as for
    [ArcticMoa], whose display name is [Arctic Moa]), every further
    [change_mount_type] on that mount raises [ValueError]. *)
Theorem change_mount_type_writes_display_name
        (self self' : MountEditor) (index : Z) (key : pystr) (new_name : option pystr)
        (m : MountData) (source target : MountType) :
  get_mount index self = Ok (m, self) ->
  get_mount_type_of (MountData_mount_type m) = Ok (Some source) ->
  get_mount_type key = Ok (Some target) ->
  str_eqb (mount_name source) (mount_name target) = false ->
  change_mount_type index key new_name self = Ok (tt, self') ->
  exists m',
    get_mount index self' = Ok (m', self')
    /\ _modified self' = true
    /\ MountData_mount_type m' = VStr (mount_name target)
    /\ (forall p, find_property (properties m) (lit "AISetupRowName") = Ok (Some p) ->
                  truthy (value p) = true ->
                  find_property (properties m') (lit "AISetupRowName")
                  = Ok (Some (set_value (VStr (ai_setup target)) p)))
    /\ (forall p, find_property (properties m) (lit "ActorClassName") = Ok (Some p) ->
                  truthy (value p) = true ->
                  find_property (properties m') (lit "ActorClassName")
                  = Ok (Some (set_value (VStr (blueprint target)) p)))
    /\ (get_mount_type (mount_name target) = Ok None ->
        forall key2 n2,
          forallb (in_range 0 128) key2 = true ->
          change_mount_type index key2 n2 self' = Raise ValueError).
Proof.
  intros Hget Hs Ht Hne H.
  destruct (get_mount_inv self self index m Hget) as (_ & [Hi _] & Hm).
  unfold change_mount_type in H. rewrite (bind_ok _ Hget) in H.
  unfold bind at 1, lift at 1 in H. rewrite Hs in H.
  unfold bind at 1, lift at 1 in H. rewrite Ht, Hne in H.
  unfold bind at 1, lift at 1 in H.
  destruct (transform_properties source target TRANSFORM_PROPERTIES (properties m))
    as [ps1| |] eqn:Etp; try discriminate.
  destruct (transform_properties_spec source target _ _ Etp) as (Other & Ais & Acn).
  set (m1 := mkMountData (mount_index m)
               (dict_set (lit "MountType") (VStr (mount_name target)) (json_data m)) ps1)
    in H.
  unfold bind at 1, put_mount at 1 in H.
  set (self1 := mkMountEditor (list_update (Z.to_nat index) (fun _ => m1) (mounts self))
                              (_modified self)) in H.
  assert (Hm1 : nth_error (mounts self1) (Z.to_nat index) = Some m1)
    by exact (nth_error_put self index m m1 Hm).
  clearbody self1.
  (* the mount after the optional renaming *)
  assert (Hend : exists m',
             nth_error (mounts self') (Z.to_nat index) = Some m'
             /\ _modified self' = true
             /\ MountData_mount_type m' = VStr (mount_name target)
             /\ find_property (properties m') (lit "AISetupRowName")
                = find_property ps1 (lit "AISetupRowName")
             /\ find_property (properties m') (lit "ActorClassName")
                = find_property ps1 (lit "ActorClassName")).
  { assert (Plain : forall s, (ret tt ;; set_modified true)%monad self1 = Ok (tt, s) ->
                      exists m', nth_error (mounts s) (Z.to_nat index) = Some m'
                                 /\ _modified s = true
                                 /\ MountData_mount_type m' = VStr (mount_name target)
                                 /\ find_property (properties m') (lit "AISetupRowName")
                                    = find_property ps1 (lit "AISetupRowName")
                                 /\ find_property (properties m') (lit "ActorClassName")
                                    = find_property ps1 (lit "ActorClassName")).
    { intros s Hs'. injection Hs' as <-. exists m1.
      split; [exact Hm1|]. split; [reflexivity|]. split; [apply json_get_dict_set|].
      now split. }
    destruct new_name as [n|]; [|exact (Plain self' H)].
    destruct (negb (len n =? 0)); [|exact (Plain self' H)].
    destruct (set_mount_name_spec self1 index m1 n Hi Hm1) as (ps2 & Hps2 & Hname).
    unfold bind at 1 in H. rewrite Hname in H. injection H as <-.
    eexists. split; [cbn [mounts]; now rewrite nth_error_list_update, Hm1|].
    split; [reflexivity|]. split.
    - unfold MountData_mount_type. cbn [json_data m1].
      rewrite (json_get_dict_set_other (lit "MountName") (lit "MountType")) by reflexivity.
      apply json_get_dict_set.
    - cbn [properties]. split.
      + exact (assign_if_found_other ps1 ps2 (lit "MountName") (lit "AISetupRowName") _
                 eq_refl eq_refl eq_refl eq_refl eq_refl Hps2).
      + exact (assign_if_found_other ps1 ps2 (lit "MountName") (lit "ActorClassName") _
                 eq_refl eq_refl eq_refl eq_refl eq_refl Hps2). }
  destruct Hend as (m' & Hm' & Hmod & Hty & Ha & Hc).
  pose proof (get_mount_ok self' index m' Hi Hm') as Hget'.
  exists m'. split; [exact Hget'|]. split; [exact Hmod|]. split; [exact Hty|].
  split; [|split].
  - intros p Hp Hv. rewrite Ha. exact (Ais p Hp Hv).
  - intros p Hp Hv. rewrite Hc. exact (Acn p Hp Hv).
  - intros Hnone key2 n2 Hascii.
    destruct (get_mount_type_defined key2 Hascii) as (r & Hr).
    unfold change_mount_type. rewrite (bind_ok _ Hget').
    unfold bind at 1, lift at 1. rewrite Hty. cbn [get_mount_type_of]. rewrite Hnone.
    unfold bind at 1, lift at 1. rewrite Hr. reflexivity.
Qed.

Lemma change_mount_type_witness :
  exists m',
    get_mount 0 arctic_editor = Ok (m', arctic_editor)
    /\ MountData_mount_type m' = VStr (lit "Arctic Moa")
    /\ forall key2 n2,
         forallb (in_range 0 128) key2 = true ->
         change_mount_type 0 key2 n2 arctic_editor = Raise ValueError.
Proof.
  destruct (change_mount_type_writes_display_name sample_editor arctic_editor 0
              (lit "arcticmoa") None
              (sample_mount 0 "Shadow" "Terrenus")
              (snd (nth 0 MOUNT_TYPES (lit "", mkMountType [] [] [] [] true None)))
              (snd (nth 3 MOUNT_TYPES (lit "", mkMountType [] [] [] [] true None)))
              eq_refl eq_refl eq_refl eq_refl eq_refl)
    as (m' & H1 & _ & H3 & _ & _ & H6).
  exists m'. split; [exact H1|]. split; [exact H3|]. exact (H6 eq_refl).
Defined.

(** Assigning at the place that a path designates, then looking the
    path up again. *)
Lemma update_then_find (ps : list FPropertyTag) (path : pystr) (pl : list nat)
      (v : PyValue) :
  locate ps path = Ok (Some pl) ->
  exists t,
    find_property ps path = Ok (Some t)
    /\ find_property (update_at (set_value v) pl ps) path = Ok (Some (set_value v t)).
Proof.
  intros Hl. pose proof (find_property_locate ps path) as L. rewrite Hl in L.
  destruct L as (t & Ht & Hf). exists t. split; [exact Hf|].
  pose proof (find_property_locate (update_at (set_value v) pl ps) path) as L'.
  unfold locate in Hl, L'.
  rewrite (locate_fuel_update_at (set_value v) _ (keeps_shape_set_value v) ps path pl Hl)
    in L'.
  destruct L' as (t' & Ht' & ->).
  rewrite record_at_update_at, Ht in Ht'. now injection Ht' as <-.
Qed.

(** X22: [set_mount_property] and [get_mount_property] on a valid
    index. When the path designates a record of the tree of the mount,
    [set_mount_property] returns [True] and sets [_modified], and
    [get_mount_property] then returns the value assigned. When the path
    designates nothing, [set_mount_property] returns [False] and leaves
    the editor as it was, and [get_mount_property] returns [None]. An
    error of the lookup is the error of both. *)
Theorem set_mount_property_then_get_mount_property
        (self : MountEditor) (index : Z) (m : MountData) (path : pystr) (v : PyValue) :
  0 <= index -> nth_error (mounts self) (Z.to_nat index) = Some m ->
  match find_property (properties m) path with
  | Ok (Some _) =>
      exists self',
        set_mount_property index path v self = Ok (true, self')
        /\ _modified self' = true
        /\ get_mount_property index path self' = Ok (v, self')
  | Ok None =>
      set_mount_property index path v self = Ok (false, self)
      /\ get_mount_property index path self = Ok (VNone, self)
  | Raise e =>
      set_mount_property index path v self = Raise e
      /\ get_mount_property index path self = Raise e
  | Stuck =>
      set_mount_property index path v self = Stuck
      /\ get_mount_property index path self = Stuck
  end.
Proof.
  intros Hi Hm. pose proof (get_mount_ok self index m Hi Hm) as Hget.
  assert (Hgp : get_mount_property index path self
                = match find_property (properties m) path with
                  | Ok (Some p) => Ok (value p, self)
                  | Ok None => Ok (VNone, self)
                  | Raise e => Raise e
                  | Stuck => Stuck
                  end).
  { unfold get_mount_property. rewrite (bind_ok _ Hget).
    unfold lift, MountData_get_value, MountData_get_property.
    now destruct (find_property (properties m) path) as [[p|]| |]. }
  assert (Hsp : set_mount_property index path v self
                = match locate (properties m) path with
                  | Ok (Some pl) =>
                      Ok (true,
                          mkMountEditor
                            (list_update (Z.to_nat index)
                               (fun _ => mkMountData (mount_index m) (json_data m)
                                           (update_at (set_value v) pl (properties m)))
                               (mounts self))
                            true)
                  | Ok None => Ok (false, self)
                  | Raise e => Raise e
                  | Stuck => Stuck
                  end).
  { unfold set_mount_property. rewrite (bind_ok _ Hget).
    unfold bind at 1, lift, MountData_set_value, set_property_value.
    now destruct (locate (properties m) path) as [[pl|]| |]. }
  pose proof (find_property_locate (properties m) path) as L.
  destruct (locate (properties m) path) as [[pl|]| |] eqn:Hl.
  - destruct (update_then_find (properties m) path pl v Hl) as (t & Ht & Hf).
    rewrite Ht.
    set (m' := mkMountData (mount_index m) (json_data m)
                 (update_at (set_value v) pl (properties m))) in *.
    set (self' := mkMountEditor (list_update (Z.to_nat index) (fun _ => m') (mounts self))
                                true) in *.
    assert (Hm' : nth_error (mounts self') (Z.to_nat index) = Some m')
      by exact (nth_error_put self index m m' Hm).
    exists self'. split; [exact Hsp|]. split; [reflexivity|].
    unfold get_mount_property.
    rewrite (bind_ok _ (get_mount_ok self' index m' Hi Hm')).
    unfold lift, MountData_get_value, MountData_get_property. cbn [properties m'].
    now rewrite Hf.
  - rewrite L in *. now split.
  - rewrite L in *. now split.
  - rewrite L in *. now split.
Qed.

Lemma set_mount_property_witness :
  exists self',
    set_mount_property 0 (lit "Experience") (VInt 9) sample_editor = Ok (true, self')
    /\ _modified self' = true
    /\ get_mount_property 0 (lit "Experience") self' = Ok (VInt 9, self').
Proof.
  exact (set_mount_property_then_get_mount_property sample_editor 0
           (sample_mount 0 "Shadow" "Terrenus") (lit "Experience") (VInt 9)
           ltac:(lia) eq_refl).
Defined.

Lemma wf_prop_set_int (p : FPropertyTag) (e : Z) :
  type_name p = Some (lit "IntProperty") -> wf_prop p = true ->
  in_range (- 2 ^ 31) (2 ^ 31) e = true ->
  wf_prop (set_value (VInt e) p) = true.
Proof.
  rewrite !wf_prop_unfold. unfold wf_prop_with.
  cbn [name type_name value inner_type struct_type enum_type elem_name nested set_value].
  intros Ht. rewrite Ht.
  change (is_str (Some (lit "IntProperty")) (lit "ArrayProperty")) with false.
  change (is_str (Some (lit "IntProperty")) (lit "StructProperty")) with false.
  change (is_str (Some (lit "IntProperty")) (lit "EnumProperty")) with false.
  change (is_str (Some (lit "IntProperty")) (lit "MapProperty")) with false.
  change (is_str (Some (lit "IntProperty")) (lit "BoolProperty")) with false.
  cbv iota. intros H He.
  apply andb_true_iff in H as [H0 H]. apply andb_true_iff in H as [H1 H].
  apply andb_true_iff in H as [H2 _].
  rewrite H0, H1, H2. cbn [andb]. unfold simple_value_ok.
  change (is_str (Some (lit "IntProperty")) (lit "IntProperty")) with true.
  cbv iota. exact He.
Qed.

Lemma xp_of_level_range (level : Z) :
  level <= 50 -> in_range (- 2 ^ 31) (2 ^ 31) (xp_of level) = true.
Proof.
  intros H. apply in_range_spec.
  destruct (xp_total level) as [_ H0].
  pose proof (xp_of_monotone level 50 H) as M.
  replace (xp_of 50) with 1150000 in M by reflexivity. lia.
Qed.

(** X23: [set_mount_level] keeps the tree of the mount well formed.
    When the tree is well formed and the property [Experience], where
    the tree has one, is an [IntProperty], the tree after
    [set_mount_level] with a level from 1 to 50 is well formed: the
    experience written fits the 32 bits of the property, so the tree is
    one that [serialize] and [deserialize] give back unchanged. *)
Theorem set_mount_level_keeps_tree_well_formed
        (self : MountEditor) (index level : Z) (m : MountData) :
  1 <= level <= 50 -> 0 <= index ->
  nth_error (mounts self) (Z.to_nat index) = Some m ->
  wf_props (properties m) = true ->
  (forall p, find_property (properties m) (lit "Experience") = Ok (Some p) ->
             type_name p = Some (lit "IntProperty")) ->
  exists self' m',
    set_mount_level index level self = Ok (tt, self')
    /\ nth_error (mounts self') (Z.to_nat index) = Some m'
    /\ wf_props (properties m') = true.
Proof.
  intros Hl Hi Hm Hwf Hty. destruct (xp_total level) as [He _].
  set (ps' := match first_index (lit "Experience") (properties m) with
              | Some k => update_at (set_value (VInt (xp_of level))) [k] (properties m)
              | None => properties m
              end).
  assert (Hps : assign_if_found (properties m) (lit "Experience") (VInt (xp_of level))
                = Ok ps').
  { unfold assign_if_found. rewrite (locate_plain _ (lit "Experience") eq_refl eq_refl).
    unfold ps'. now destruct (first_index (lit "Experience") (properties m)). }
  exists (mkMountEditor
            (list_update (Z.to_nat index)
               (fun _ => mkMountData (mount_index m)
                           (dict_set (lit "MountLevel") (VInt level) (json_data m)) ps')
               (mounts self)) true).
  eexists. split; [|split; [exact (nth_error_put self index m _ Hm)|]].
  - unfold set_mount_level.
    destruct (Z.ltb_spec level 1); [lia|]. destruct (Z.gtb_spec level 50); [lia|].
    cbn [orb]. rewrite (bind_ok _ (get_mount_ok self index m Hi Hm)).
    unfold bind, lift, put_mount, set_modified. now rewrite He, Hps.
  - cbn [properties]. unfold ps'.
    rewrite (find_property_plain _ (lit "Experience") eq_refl eq_refl) in Hty.
    destruct (first_index (lit "Experience") (properties m)) as [k|]; [|exact Hwf].
    change (update_at (set_value (VInt (xp_of level))) [k] (properties m))
      with (list_update k (set_value (VInt (xp_of level))) (properties m)).
    unfold wf_props in *.
    destruct (nth_error (properties m) k) as [p|] eqn:Hp.
    + specialize (Hty p eq_refl).
      clear -Hwf Hp Hty Hl. revert k Hp.
      induction (properties m) as [|q ps IH]; intros [|k] Hp; try discriminate.
      * cbn [nth_error] in Hp. injection Hp as ->. cbn [list_update forallb] in *.
        apply andb_true_iff in Hwf as [Hq Hps]. rewrite Hps, andb_true_r.
        apply (wf_prop_set_int p _ Hty Hq). apply xp_of_level_range. lia.
      * cbn [nth_error] in Hp. cbn [list_update forallb] in *.
        apply andb_true_iff in Hwf as [Hq Hps]. rewrite Hq. exact (IH Hps k Hp).
    + clear -Hwf Hp. revert k Hp.
      induction (properties m) as [|q ps IH]; intros [|k] Hp; try discriminate;
        try reflexivity.
      cbn [nth_error] in Hp. cbn [list_update forallb] in *.
      apply andb_true_iff in Hwf as [Hq Hps]. rewrite Hq. exact (IH Hps k Hp).
Qed.

Lemma set_mount_level_keeps_tree_witness :
  exists self' m',
    set_mount_level 1 50 sample_editor = Ok (tt, self')
    /\ nth_error (mounts self') (Z.to_nat 1) = Some m'
    /\ wf_props (properties m') = true.
Proof.
  apply (set_mount_level_keeps_tree_well_formed sample_editor 1 50
           (sample_mount 1 "Dusty" "Moa")); try lia; try reflexivity.
  intros p Hp. vm_compute in Hp. now injection Hp as <-.
Defined.

(** X24: [_write_property] only appends. For every record there is
    one outcome, a sequence of bytes or an error, such that the writer
    started at the end of any stream appends exactly these bytes,
    leaves what the stream held unchanged, returns their number and
    stands at the end again, or raises that error: the size field that
    is patched after the value lies in the bytes appended, and their
    content does not depend on the stream. *)
Theorem write_property_appends (p : FPropertyTag) :
  exists r : Result (list byte),
    forall w, at_end w ->
      match r with
      | Ok bs =>
          _write_property p w = Ok (len bs, mkWriter (stream w ++ bs) (wpos w + len bs))
          /\ at_end (mkWriter (stream w ++ bs) (wpos w + len bs))
      | Raise e => _write_property p w = Raise e
      | Stuck => _write_property p w = Stuck
      end.
Proof.
  exists (enc_property p). intros w Hw.
  pose proof (emits_write_property p w Hw) as H.
  destruct (enc_property p) as [bs| |]; try exact H.
  split; [exact H | exact (at_end_append w bs Hw)].
Qed.

(** * Sizes and bytes that the decoder does not check *)

(** The loop of [_read_struct_value] tests the end of the value between
    two properties only. *)
Lemma read_struct_loop_overshoot (cs : list FPropertyTag) :
  forall g b0 c bc d o e,
    forallb wf_prop cs = true -> enc_each enc_property cs = Ok b0 ->
    wf_prop c = true -> enc_property c = Ok bc ->
    len (b0 ++ bc) < Z.of_nat g -> at_ d o (b0 ++ bc) ->
    o + len b0 < e <= o + len (b0 ++ bc) ->
    _read_struct_loop g e (mkReader d o)
    = Ok (cs ++ [c], mkReader d (o + len (b0 ++ bc))).
Proof.
  induction cs as [|c0 cs IH]; intros g b0 c bc d o e Hwf Hb Hc Ec Hlen Hat He.
  - apply Ok_inj in Hb. subst b0. cbn [app] in *. rewrite len_nil in He.
    pose proof (enc_property_len _ _ Ec) as Lc. pose proof (at_bound Hat) as Hbd.
    destruct g as [|g]; [lia|].
    cbn [_read_struct_loop]. rewrite !gets_bind. unfold position, remaining.
    cbn [data offset].
    destruct (Z.ltb_spec o e); [|lia]. destruct (Z.geb_spec (len d - o) 4); [|lia].
    cbn [andb].
    rewrite (bind_ok _ (reads_back_all g c bc Hc Ec ltac:(lia) d o Hat)).
    cbn iota. rewrite (name_ok_not_none _ (wf_prop_name _ Hc)).
    destruct g as [|g]; [lia|].
    unfold bind at 1. cbn [_read_struct_loop]. rewrite !gets_bind.
    unfold position. cbn [offset].
    destruct (Z.ltb_spec (o + len bc) e); [lia|]. reflexivity.
  - cbn [enc_each] in Hb. enc_inv.
    cbn [forallb] in Hwf. apply andb_true_iff in Hwf as [Hc0 Hcs].
    pose proof (enc_property_len _ _ E) as L0.
    rewrite <- app_assoc in Hat, Hlen, He |- *.
    rewrite !len_app in Hlen, He. len_facts.
    pose proof (at_bound Hat) as Hbd. rewrite !len_app in Hbd.
    destruct g as [|g]; [lia|].
    cbn [_read_struct_loop]. rewrite !gets_bind. unfold position, remaining.
    cbn [data offset].
    destruct (Z.ltb_spec o e); [|lia]. destruct (Z.geb_spec (len d - o) 4); [|lia].
    cbn [andb].
    rewrite (bind_ok _ (reads_back_all g c0 bs Hc0 E ltac:(lia) d o (at_app_l Hat))).
    cbn iota. rewrite (name_ok_not_none _ (wf_prop_name _ Hc0)).
    assert (G1 : len (bs0 ++ bc) < Z.of_nat g) by (rewrite len_app; lia).
    assert (G2 : o + len bs + len bs0 < e <= o + len bs + len (bs0 ++ bc)) by lia.
    rewrite (bind_ok _ (IH g bs0 c bc d (o + len bs) e Hcs eq_refl Hc Ec G1
                          (at_app_r Hat) G2)).
    cbn [app]. unfold ret. do 3 f_equal. rewrite !len_app. lia.
Qed.

(** X25: the declared size of a struct value does not bound the last
    child. When the children of a struct are encoded one after the
    other and the declared size ends somewhere inside the last child
    (after its first byte), [_read_struct_value] reads that child whole,
    returns all the children and leaves the cursor behind the last
    child, past the declared end, without an error. *)
Theorem struct_value_reads_past_declared_size
        (f : nat) (prop c : FPropertyTag) (cs : list FPropertyTag)
        (pre b0 bc rest : list byte) (size : Z) :
  is_core_struct (struct_type prop) = false ->
  wf_props cs = true -> enc_each enc_property cs = Ok b0 ->
  wf_prop c = true -> enc_property c = Ok bc ->
  len b0 < size <= len (b0 ++ bc) -> len (b0 ++ bc) < Z.of_nat f ->
  _read_struct_value (S f) prop size (mkReader (pre ++ (b0 ++ bc) ++ rest) (len pre))
  = Ok (set_nested (cs ++ [c]) prop,
        mkReader (pre ++ (b0 ++ bc) ++ rest) (len pre + len (b0 ++ bc))).
Proof.
  intros Hcore Hwf Hb Hc Ec Hs Hf.
  cbn [_read_struct_value]. rewrite Hcore, gets_bind. unfold position at 1.
  cbn [offset].
  rewrite (bind_ok _ (read_struct_loop_overshoot cs f b0 c bc _ (len pre) (len pre + size)
                        Hwf Hb Hc Ec Hf (at_intro pre (b0 ++ bc) rest) ltac:(lia))).
  rewrite gets_bind. unfold position. cbn [offset].
  destruct (Z.ltb_spec (len pre + len (b0 ++ bc) - len pre) size); [lia|]. reflexivity.
Qed.

Lemma struct_value_reads_past_witness :
  _read_struct_value 80 (struct_tag "Rec" "Record" VNone []) 40
    (mkReader ([x07] ++ two_children_bytes ++ [x09]) 1)
  = Ok (set_nested two_children (struct_tag "Rec" "Record" VNone []),
        mkReader ([x07] ++ two_children_bytes ++ [x09]) (1 + len two_children_bytes)).
Proof.
  apply (struct_value_reads_past_declared_size 79 (struct_tag "Rec" "Record" VNone [])
           (simple_tag "Alive" "BoolProperty" (VBool false))
           [simple_tag "Rank" "IntProperty" (VInt 2)]
           [x07] (bytes_or_nil (enc_property (simple_tag "Rank" "IntProperty" (VInt 2))))
           (bytes_or_nil (enc_property (simple_tag "Alive" "BoolProperty" (VBool false))))
           [x09] 40);
    first [ reflexivity
          | vm_compute; split; [reflexivity | discriminate]
          | vm_compute; reflexivity ].
Defined.

(** * The bytes of a [BoolProperty] *)

Lemma reads_bool_property (g : nat) (name0 : pystr) (nm sz ix : list byte)
      (size idx : Z) (b pad : byte) :
  name_ok name0 = true -> enc_fstring (Some name0) = Ok nm ->
  pack_i32 size = Ok sz -> pack_i32 idx = Ok ix ->
  reads (_read_property (S g)) (nm ++ fstr "BoolProperty" ++ sz ++ ix ++ [b; pad])
        (Some (bool_tag name0 b)).
Proof.
  intros Hn Enm Esz Eix d o Hat.
  pose proof (at_bound Hat) as Hb. rewrite len_app in Hb.
  pose proof (enc_fstring_len _ _ Enm). len_facts.
  cbn [_read_property]. rewrite gets_bind. unfold remaining. cbn [data offset].
  destruct (Z.ltb_spec (len d - o) 4); [lia|].
  rewrite (bind_ok _ (reads_read_fstring name0 nm (name_ok_str _ Hn) Enm d o (at_app_l Hat))).
  cbn iota. rewrite (name_ok_not_none _ Hn).
  pose proof (at_app_r Hat) as Hat1.
  rewrite (bind_ok _ (reads_read_fstring (lit "BoolProperty") (fstr "BoolProperty")
                        eq_refl eq_refl d _ (at_app_l Hat1))).
  pose proof (at_app_r Hat1) as Hat2.
  rewrite (bind_ok _ (reads_read_int32 Esz d _ (at_app_l Hat2))).
  pose proof (at_app_r Hat2) as Hat3.
  rewrite (bind_ok _ (reads_read_int32 Eix d _ (at_app_l Hat3))).
  pose proof (at_app_r Hat3) as Hat4.
  change (is_str (Some (lit "BoolProperty")) (lit "ArrayProperty")) with false.
  change (is_str (Some (lit "BoolProperty")) (lit "StructProperty")) with false.
  change (is_str (Some (lit "BoolProperty")) (lit "EnumProperty")) with false.
  change (is_str (Some (lit "BoolProperty")) (lit "MapProperty")) with false.
  change (is_str (Some (lit "BoolProperty")) (lit "BoolProperty")) with true.
  cbn iota.
  assert (R : reads (bool_byte <- read_byte ;; read_byte ;;
                     ret (set_value (VBool (negb (bool_byte =? 0)))
                                    (new_tag name0 (Some (lit "BoolProperty")))))
                    [b; pad] (bool_tag name0 b)).
  { apply reads_byte_then. change [pad] with (pad :: []).
    apply reads_skip_byte. apply reads_ret. }
  rewrite (bind_ok _ (R d _ Hat4)). unfold ret. rewrite !len_app.
  do 2 f_equal. f_equal. lia.
Qed.

(** X26: a [BoolProperty] is two bytes behind its header, whatever its
    size field declares. The decoder takes every value byte other than
    zero for [True] and skips the byte behind it; the size field and the
    array-index field are read and dropped. The encoder writes the value
    byte as 1 or 0, a zero byte behind it, and 0 in both fields. *)
Theorem bool_property_is_normalised
        (name0 : pystr) (nm sz ix post : list byte) (size idx : Z) (b pad : byte) :
  name_ok name0 = true -> enc_fstring (Some name0) = Ok nm ->
  pack_i32 size = Ok sz -> pack_i32 idx = Ok ix ->
  deserialize ((nm ++ fstr "BoolProperty" ++ sz ++ ix ++ [b; pad]) ++ fstr "None" ++ post)
  = Ok [bool_tag name0 b]
  /\ serialize [bool_tag name0 b] true
     = Ok ((nm ++ fstr "BoolProperty" ++ i32 0 ++ i32 0
               ++ [if Z_of_byte b =? 0 then x00 else x01; x00])
             ++ fstr "None" ++ [x00; x00; x00; x00]).
Proof.
  intros Hn Enm Esz Eix. split.
  - pose proof (enc_fstring_len _ _ Enm) as Lnm.
    apply deserialize_single.
    + intros g _. now apply (reads_bool_property g name0 nm sz ix size idx b pad).
    + rewrite len_app. len_facts. lia.
    + exact (name_ok_not_none _ Hn).
    + reflexivity.
  - rewrite serialize_enc. unfold enc_properties, enc_properties_with.
    cbn [enc_each]. rewrite enc_property_unfold. unfold enc_property_with.
    change (name (bool_tag name0 b)) with name0. rewrite Enm. cbn [bindR].
    change (type_name (bool_tag name0 b)) with (Some (lit "BoolProperty")).
    change (enc_fstring (Some (lit "BoolProperty"))) with (Ok (fstr "BoolProperty")).
    cbn [bindR].
    change (enc_body_with enc_property (bool_tag name0 b))
      with (Ok ([byte_of_Z (if negb (Z_of_byte b =? 0) then 1 else 0); x00],
                @nil byte, 0) : Result (list byte * list byte * Z)).
    cbn [bindR].
    change (pack_i32 0) with (Ok (i32 0)). cbn [bindR].
    change (enc_fstring (Some (lit "None"))) with (Ok (fstr "None")). cbn [bindR].
    rewrite app_nil_r. destruct (Z_of_byte b =? 0); reflexivity.
Qed.

Lemma bool_property_witness :
  deserialize ((fstr "Alive" ++ fstr "BoolProperty" ++ i32 9 ++ i32 3 ++ [x2a; xff])
                 ++ fstr "None" ++ [x55])
  = Ok [bool_tag (lit "Alive") x2a]
  /\ serialize [bool_tag (lit "Alive") x2a] true
     = Ok ((fstr "Alive" ++ fstr "BoolProperty" ++ i32 0 ++ i32 0
               ++ [if Z_of_byte x2a =? 0 then x00 else x01; x00])
             ++ fstr "None" ++ [x00; x00; x00; x00]).
Proof.
  apply (bool_property_is_normalised (lit "Alive") (fstr "Alive") (i32 9) (i32 3)
           [x55] 9 3 x2a xff);
    vm_compute; reflexivity.
Defined.
